(* ===== verification/_CoqProject ===== *)
-Q . S2P
Prelude.v
Js.v
RtpParameters.v
Validate.v
ScalabilityModes.v
SupportedRtpCapabilities.v
Ortc.v
OrtcConsumer.v
RequestBodies.v
Revalidate.v
Rematch.v
UnitTests.v
PipeNegotiation.v
Framing.v
Requests.v
Channel.v
EventLoop.v
PayloadChannel.v
EventEmitter.v
Events.v
Producer.v
Consumer.v
DataProducer.v
DataConsumer.v
RtpObserver.v
TransportState.v
Registry.v
World.v
TransportCalls.v
RouterCalls.v
TransportEvents.v
PipeToRouter.v
PipeInv.v
PipeProps.v
PipeLink.v
CallsSpec.v
PipeOffer.v
WorldSpec.v
WorldInv.v
Closing.v
Cascade.v
ClosingLog.v
Lifecycle.v
Delivery.v
Methods.v
Listeners.v
Payloads.v
WorldProps.v
ListenerProps.v
WorkerProcess.v
Session.v
SessionInv.v
SessionProps.v
Stack.v
StackInv.v
StackProps.v
StackDelivery.v
StackPayload.v
