(* ===== verification/Prelude.v ===== *)
(** * The Node.js layer of mediasoup: a model and its verification

    The repository is a demo around a vendored mediasoup 3.12.16.  Its core is
    the TypeScript library under src/mediasoup-3.12.16/node/src, which an
    application calls and which drives a worker process over two sockets.  This
    library models that code as functions and transition systems and proves what
    makes its parts correct.  File names below are those of node/src.

    ** The parts and how they interact

    An application makes a worker, on it routers and WebRtcServers, on a router
    transports and RtpObservers, and on a transport producers, consumers and
    their counterparts for data.  Every object asks its peer in the worker
    process for what it does by a request on the channel and learns of events by
    notifications.  Parameters of media are negotiated by pure functions
    (ortc.ts) before the requests are made.  Objects close each other along the
    tree, by method calls downwards and by private events upwards.

    ** The files

    Foundations.
    - Prelude.v: errors and results, with the monad of code that may throw; maps
      in insertion order ([jget], [jset], [jdel]), as JavaScript has them.
    - Js.v: JavaScript values, properties, truthiness, conversions, iteration
      over arrays and objects.

    Negotiation (ortc.ts, supportedRtpCapabilities.ts, scalabilityModes.ts).
    - RtpParameters.v: the types as records, and views of values as records.
    - Validate.v: the validating functions.  They take any value, fill in
      defaults and throw; a function that mutates its argument returns it.
    - ScalabilityModes.v: the regular expression and [parse].
    - SupportedRtpCapabilities.v: the table.
    - Ortc.v: [matchCodecs], [generateRouterRtpCapabilities],
      [getProducerRtpParametersMapping], [getConsumableRtpParameters].
    - OrtcConsumer.v: [canConsume], [getConsumerRtpParameters],
      [getPipeConsumerRtpParameters].
    - RequestBodies.v: the values that parameters are sent as, inverse to the
      views of RtpParameters.v.
    - Revalidate.v: parameters that were validated and come back as an argument.
    - Rematch.v: codecs that are matched a second time.
    - PipeNegotiation.v: what a piped producer offers, from these two.
    - UnitTests.v: the unit tests of the repository for ortc.ts, evaluated.

    Sockets (Channel.ts, PayloadChannel.ts).
    - Framing.v: the length prefix and the receiving buffer with its loop.
    - Requests.v: ids, pending requests and their promises.
    - Channel.v: [request], the 'data' handler, [processMessage], [close], and
      the channel as a transition system of requests, chunks, deferred callbacks
      and closes.
    - EventLoop.v: the channel in an event loop, with microtasks and callbacks of
      [setImmediate], to compare the order of messages with that of the program.
    - PayloadChannel.v: the channel with binary payloads.

    Objects.
    - EventEmitter.v: EnhancedEventEmitter.ts over the EventEmitter of Node.js,
      with listeners that are programs over the emitter.
    - Events.v: what objects do (events, requests) as values, and calls that
      wait for their response.
    - Producer.v, Consumer.v, DataProducer.v, DataConsumer.v, RtpObserver.v: an
      object each, as a record, its methods as functions to the new record and
      the effects in order.  An [async] method is split at its [await]; the
      part after it is run by [response], at any later time.
    - TransportState.v: SCTP stream ids and MIDs of Transport.ts.
    - TransportEvents.v: a transport by itself: [connect], [restartIce], bitrates,
      and the fields it keeps from notifications.

    The tree of objects (Worker.ts, WebRtcServer.ts, Router.ts, Transport.ts and
    the closing methods of its subclasses).
    - Registry.v: the pattern of ownership as a type class with its invariant.
    - World.v: a store of objects, since maps share them; the ends of the
      creating methods, the closing methods, the listeners between objects, who
      is subscribed to the notifications of a worker; the steps of the system and
      the reachable states.  What changes details of open objects only (a method,
      an answer, most notifications) is one step, [step_detail], which keeps the
      rest of the store, [alike].
    - WorldSpec.v: what the closing methods of children and transports compute.
    - WorldInv.v: the invariant, in layers; five registries are instances of the
      registry class.
    - Closing.v, Cascade.v, Lifecycle.v: closing methods and steps keep it.
    - ClosingLog.v: the reports of closing in the log, counted.
    - Listeners.v: the invariant of the subscriptions.
    - Delivery.v: the methods of the object files done to objects of the tree, and
      notifications given to whoever is subscribed.
    - Methods.v: the methods that wait and make nothing, in one form: up to the
      request, what is kept, what is done with the answer.
    - Payloads.v: the listeners on the payload channel, in the tree.
    - WorldProps.v, ListenerProps.v: the properties, on an example state.
    - WorkerProcess.v: the command line of the worker process, its events, and
      the closing of the worker with them; [createWorker] of index.ts.

    The methods of the application's API (Worker.ts, Router.ts, Transport.ts and
    its subclasses).
    - TransportCalls.v: [produce], [consume], [produceData], [consumeData] up to
      their requests, in a monad over the transport's state that may throw, and
      what they do with the answer.
    - RouterCalls.v: the creating methods of workers and routers, likewise;
      [canConsume] of a router.
    - CallsSpec.v: what these methods compute, branch by branch.
    - Session.v, SessionInv.v, SessionProps.v: the store of World.v with calls in
      flight, creating or not: a method runs up to its request, and its end runs
      when the answer comes, with anything in between.
    - Stack.v, StackInv.v, StackProps.v: Session.v with a channel of Channel.v and
      one of PayloadChannel.v for every worker: requests are written there, answers
      come out of chunks, the rest of a method runs in a microtask, notifications
      in callbacks, and those with a payload while the chunk is taken.
    - StackDelivery.v, StackPayload.v: what a notification does, from the chunk to
      the object; the latter for notifications with a payload.

    Piping (Router.ts, [pipeToRouter] and [addPipeTransportPair]).
    - PipeToRouter.v: the promises of pairs of pipe transports and the maps of
      all routers, as a transition system.
    - PipeInv.v, PipeProps.v: its invariant, promise by promise, and properties.
    - PipeLink.v: the piped producer: the calls after the pair is there, the
      listeners between the pipe consumer and the pipe producer.
    - PipeOffer.v: [produce], [consume] and again [produce] in a row, between two
      routers with the same media codecs.

    The layers refine each other: a step of Stack.v is a sequence of steps of
    Session.v, and that one a sequence of steps of World.v, so that invariants of
    the tree hold in all three.

    ** What the theorems show

    - Validation: what is accepted has the type the rest of the code relies on,
      and is a fixed point; exact acceptance for SCTP stream parameters.
    - Negotiation: distinct payload types of a router; the shape of its codecs;
      a producer that can be mapped has consumable parameters, so that no
      non-null assertion fails; SSRCs are distinct 32-bit numbers; consumers get
      codecs both sides have; [canConsume] is a promise that is kept; validated
      parameters are accepted again; a piped producer is accepted and offers what
      the original one does.
    - Framing and channels: lossless for every way the stream is cut; promises
      are settled once; responses go to their request; ids stay in range; order,
      and no notification before the responses that came before it.
    - Event emitters: an emission calls who is registered when it starts; what
      [safeEmit] does with exceptions.
    - Objects: closed once and for one reason; pause and resume events.
    - The tree: maps hold exactly the open objects; closing an object closes what
      is below it and nothing else; nothing is open below a closed object;
      producers are found by their router; an object reports its closing once.
    - Notifications: only open objects are subscribed, and with their own id; a
      notification changes its object and no other; a data consumer emits exactly
      the messages written for it.
    - Calls over channels: a response ends the call that waits for it and no other;
      no call waits for a worker that is gone; closing a worker ends its calls.
    - Calls in flight: the methods refine the steps of the tree, so that all of
      the above holds while calls are in flight; [produce] throws what its first
      failing check throws and nothing else; requests carry what the objects get;
      producers of a transport share a CNAME; streams and MIDs are not shared;
      [canConsume] promises that [consume] sends its request.
    - Transports: their states are those of the last notification.
    - The process: one outcome, one signal, and a closed worker when it is gone.
    - Piping: both routers find the same pair and their own side of it; a promise
      is settled by four answers; pairs and piped objects close together; the
      pipe producer follows the pause of the original; a failure closes what was
      made.
    - What does not hold: theorems with concrete runs for a message lost at the
      size limit, promises that [PayloadChannel.close] strands, overlapping
      pauses, closed producers a router keeps, objects made on a closed
      transport, a consumer [canConsume] refuses, a stream lost by a failed call,
      a rejected pair that stays, a pipe transport and a pipe producer that are
      left open, an open object that its closing namesake unsubscribes.

    ** Fuel and bounds

    The loop of the 'data' handler gets one more than the length of the buffer
    as fuel: every iteration takes at least four bytes, and the theorems on
    framing show that all messages are taken.  The scan for a stream id gets the
    number of streams, which is the bound of the loop in the code.  Request ids
    are 32-bit numbers with their restart; the theorem that promises settle once
    is about fewer than 2^32 requests, after which the code reuses ids.
    The promise of a pair takes at most four answers; the bound is a theorem.
    JavaScript numbers are integers: the code computes with integers below 2^53.

    ** Parameters

    [H264] is what ortc.ts uses of the package h264-profile-level-id, and
    [H264_laws] what the theorems on codecs that are matched again need of it (an
    instance that computes is [profile_h264]); [JSON] is [JSON.parse] with what
    is needed of it; random numbers, ids, the byte order of the host and the
    errors of socket writes are arguments.

    ** What is not modelled

    Listeners of the application: they see the events, and are supposed not to
    call back while an object closes (EventEmitter.v is about an emitter alone,
    with any listeners); the events 'newListener' and 'removeListener'.  Logger.ts
    only writes.  The worker process is the other end of the sockets: its part of
    the creating methods is a condition on the steps of Session.v, that the ids
    it accepts are new.  Application data and the fields of dumps and statistics
    are only passed on.  The promise of [DataConsumer.send], the only request on
    the payload channel, goes to the application; it is followed in
    PayloadChannel.v and is not a call in flight of Session.v.

    The transports of PipeToRouter.v and the objects of PipeLink.v are those of
    the files above, but their stores are not joined with World.v: the transition
    systems take closings and answers as events.  The listeners that
    [pipeToRouter] registers run inside the closing methods of other objects, on
    another router and perhaps another worker, where World.v has only the
    listeners that the library registers when it makes an object.  To join them,
    the closing methods would have to take the listeners as an argument.

    Not part of the Node.js layer: the demo pages with rnnoise, the build
    scripts, the Rust bindings, the worker in C++. *)

From stdpp Require Export base list gmap strings pretty.
From stdpp Require Export list_numbers.

(** ** Errors and results *)

(** The exceptions the code throws: [TypeError] and [Error] of the language,
    [UnsupportedError] and [InvalidStateError] of errors.ts. *)
Inductive error : Type :=
| TypeError (msg : string)
| UnsupportedError (msg : string)
| InvalidStateError (msg : string)
| PlainError (msg : string).

#[export] Instance error_eq_dec : EqDecision error.
Proof. solve_decision. Defined.

(** A call either returns a value or throws. *)
Inductive result (A : Type) : Type :=
| Ok (a : A)
| Err (e : error).
Arguments Ok {A} a.
Arguments Err {A} e.

#[export] Instance result_ret : MRet result := fun A => Ok.
#[export] Instance result_bind : MBind result :=
  fun A B f m => match m with Ok a => f a | Err e => Err e end.
#[export] Instance result_fmap : FMap result :=
  fun A B f m => match m with Ok a => Ok (f a) | Err e => Err e end.

(** [if (b) throw e;] *)
Definition throw_if (b : bool) (e : error) : result unit :=
  if b then Err e else Ok tt.

Definition is_ok {A} (m : result A) : bool :=
  match m with Ok _ => true | Err _ => false end.

(** [v!] on an optional value: using [undefined] afterwards throws. *)
Definition from_option_or {A} (e : error) (o : option A) : result A :=
  match o with Some a => Ok a | None => Err e end.

Fixpoint mapR {A B} (f : A -> result B) (l : list A) : result (list B) :=
  match l with
  | [] => Ok []
  | x :: l => y ← f x; ys ← mapR f l; Ok (y :: ys)
  end.

Fixpoint foldR {A S} (f : S -> A -> result S) (s : S) (l : list A) : result S :=
  match l with
  | [] => Ok s
  | x :: l => s' ← f s x; foldR f s' l
  end.

Lemma bind_Ok {A B} (m : result A) (f : A -> result B) b :
  (m ≫= f) = Ok b <-> exists a, m = Ok a /\ f a = Ok b.
Proof.
  destruct m as [a|e]; unfold mbind; simpl; split; eauto.
  - intros (a' & [= ->] & ?); done.
  - done.
  - intros (a' & ? & ?); done.
Qed.

Lemma throw_if_Ok b e u : throw_if b e = Ok u <-> b = false.
Proof. destruct b, u; simpl; split; done. Qed.

Lemma throw_if_bind {B} b e (k : unit -> result B) x :
  (throw_if b e ≫= k) = Ok x <-> b = false /\ k tt = Ok x.
Proof.
  rewrite bind_Ok. setoid_rewrite throw_if_Ok. split.
  - by intros ([] & ? & ?).
  - intros [? ?]; by exists tt.
Qed.

(** Running a sequence of statements forwards. *)
Lemma throw_if_pass {B} b e (k : unit -> result B) :
  b = false -> (throw_if b e ≫= k) = k tt.
Proof. by intros ->. Qed.

Lemma Ok_bind {A B} (a : A) (k : A -> result B) : (Ok a ≫= k) = k a.
Proof. done. Qed.

Lemma bind_pass {A B} (m : result A) a (k : A -> result B) :
  m = Ok a -> (m ≫= k) = k a.
Proof. by intros ->. Qed.

Lemma from_option_or_Ok {A} e (o : option A) a :
  from_option_or e o = Ok a <-> o = Some a.
Proof. destruct o; simpl; split; congruence. Qed.

Section result_lemmas.
Context {A B : Type}.

Lemma mapR_Ok (f : A -> result B) l k :
  mapR f l = Ok k <-> Forall2 (fun x y => f x = Ok y) l k.
Proof.
  revert k. induction l as [|x l IH]; intros k; simpl.
  - split; [intros [= <-]; constructor | by inversion 1].
  - rewrite bind_Ok. setoid_rewrite bind_Ok. setoid_rewrite IH. split.
    + intros (y & Hy & ys & Hys & [= <-]). by constructor.
    + inversion 1; subst; eauto.
Qed.

Lemma mapR_Ok_length (f : A -> result B) l k :
  mapR f l = Ok k -> length k = length l.
Proof. rewrite mapR_Ok. intros H. symmetry. by eapply Forall2_length. Qed.

Lemma mapR_Err (f : A -> result B) l e :
  mapR f l = Err e -> exists x, x ∈ l /\ f x = Err e.
Proof.
  induction l as [|x l IH]; simpl; [done|].
  destruct (f x) as [y|e'] eqn:Hx; simpl.
  - unfold mbind; simpl. destruct (mapR f l) eqn:Hl; simpl; [done|].
    intros [= ->]. destruct (IH eq_refl) as (z & ? & ?).
    exists z. split; [by right | done].
  - intros [= ->]. exists x. split; [by left | done].
Qed.
End result_lemmas.

Lemma foldR_inv {A S} (P : S -> Prop) (f : S -> A -> result S) l s s' :
  (forall x s s', x ∈ l -> P s -> f s x = Ok s' -> P s') ->
  P s -> foldR f s l = Ok s' -> P s'.
Proof.
  revert s. induction l as [|x l IH]; intros s Hf Hs; simpl.
  - by intros [= <-].
  - rewrite bind_Ok. intros (s1 & H1 & H2).
    eapply IH; [| |exact H2].
    + intros y t t' Hy. apply Hf. by right.
    + eapply Hf; [by left|exact Hs|done].
Qed.

Lemma find_app_first {A} (f : A -> bool) l k x :
  List.find f l = Some x -> List.find f (l ++ k) = Some x.
Proof. induction l as [|y l IH]; simpl; [done|]. by destruct (f y). Qed.

(** Inverts a successful run of a sequence of monadic statements. *)
Ltac inv_result :=
  repeat match goal with
  | H : (throw_if _ _ ≫= _) = Ok _ |- _ =>
      apply throw_if_bind in H; destruct H as [? H]
  | H : (_ ≫= _) = Ok _ |- _ =>
      let a := fresh "a" in let Ha := fresh "Ha" in
      apply bind_Ok in H; destruct H as (a & Ha & H)
  | H : throw_if _ _ = Ok _ |- _ => apply throw_if_Ok in H
  | H : from_option_or _ _ = Ok _ |- _ => apply from_option_or_Ok in H
  | H : Ok _ = Ok _ |- _ => injection H as H; subst
  | H : Err _ = Ok _ |- _ => discriminate H
  | H : (let '(_, _) := ?p in _) = Ok _ |- _ => destruct p
  | H : mret _ = Ok _ |- _ => unfold mret, result_ret in H
  end.

(** ** Insertion-ordered maps

    The [Map] class of the language and the properties of an object: [jset]
    keeps the position of an existing key and appends a new one, so an
    iteration visits the keys in the order of their first insertion. *)

Section jmap.
Context {K V : Type} `{EqDecision K}.

Implicit Types (k : K) (v : V) (m : list (K * V)).

Fixpoint jget k m : option V :=
  match m with
  | [] => None
  | (k', v) :: m => if decide (k = k') then Some v else jget k m
  end.

Fixpoint jset k v m : list (K * V) :=
  match m with
  | [] => [(k, v)]
  | (k', v') :: m =>
      if decide (k = k') then (k, v) :: m else (k', v') :: jset k v m
  end.

Fixpoint jdel k m : list (K * V) :=
  match m with
  | [] => []
  | (k', v') :: m => if decide (k = k') then jdel k m else (k', v') :: jdel k m
  end.

Definition jhas k m : bool := bool_decide (is_Some (jget k m)).
Definition jkeys m : list K := map fst m.
Definition jvals m : list V := map snd m.

Lemma jget_jset_eq k v m : jget k (jset k v m) = Some v.
Proof.
  induction m as [|[k' v'] m IH]; simpl; [by rewrite decide_True|].
  destruct (decide (k = k')); simpl.
  - by rewrite decide_True.
  - by rewrite decide_False.
Qed.

Lemma jget_jset_ne k k' v m : k <> k' -> jget k (jset k' v m) = jget k m.
Proof.
  intros Hne. induction m as [|[k1 v1] m IH]; simpl; [by rewrite decide_False|].
  destruct (decide (k' = k1)) as [->|]; simpl; [by rewrite !decide_False|].
  by destruct (decide (k = k1)).
Qed.

Lemma jget_jset k k' v m :
  jget k (jset k' v m) = if decide (k = k') then Some v else jget k m.
Proof.
  destruct (decide (k = k')) as [->|];
    [apply jget_jset_eq | by apply jget_jset_ne].
Qed.

Lemma jget_jdel_eq k m : jget k (jdel k m) = None.
Proof.
  induction m as [|[k' v'] m IH]; simpl; [done|].
  destruct (decide (k = k')); [done|]. simpl. by rewrite decide_False.
Qed.

Lemma jget_jdel_ne k k' m : k <> k' -> jget k (jdel k' m) = jget k m.
Proof.
  intros Hne. induction m as [|[k1 v1] m IH]; simpl; [done|].
  destruct (decide (k' = k1)) as [->|]; simpl.
  - rewrite IH. by rewrite decide_False.
  - by destruct (decide (k = k1)).
Qed.

Lemma jget_jdel k k' m :
  jget k (jdel k' m) = if decide (k = k') then None else jget k m.
Proof.
  destruct (decide (k = k')) as [->|];
    [apply jget_jdel_eq | by apply jget_jdel_ne].
Qed.

Lemma jget_Some_elem k v m : jget k m = Some v -> (k, v) ∈ m.
Proof.
  induction m as [|[k' v'] m IH]; simpl; [done|].
  destruct (decide (k = k')) as [->|].
  - intros [= ->]. by left.
  - intros H. right. by apply IH.
Qed.

Lemma jget_is_Some k m : is_Some (jget k m) <-> k ∈ jkeys m.
Proof.
  unfold jkeys. induction m as [|[k' v'] m IH]; simpl.
  - split; [by intros [? ?] | by intros ?%elem_of_nil].
  - destruct (decide (k = k')) as [->|]; [split; [left|]; eauto|].
    rewrite IH, elem_of_cons. intuition congruence.
Qed.

Lemma jget_None k m : jget k m = None <-> k ∉ jkeys m.
Proof. rewrite eq_None_not_Some. by rewrite jget_is_Some. Qed.

Lemma jkeys_jset k v m :
  jkeys (jset k v m) = if decide (k ∈ jkeys m) then jkeys m else jkeys m ++ [k].
Proof.
  unfold jkeys. induction m as [|[k' v'] m IH]; simpl; [done|].
  destruct (decide (k = k')) as [->|]; simpl.
  - rewrite decide_True; [done|by left].
  - rewrite IH. destruct (decide (k ∈ map fst m)).
    + rewrite decide_True; [done|by right].
    + rewrite decide_False; [done|]. rewrite elem_of_cons. intuition congruence.
Qed.

Lemma jkeys_jdel k m : jkeys (jdel k m) = filter (fun k' => k' <> k) (jkeys m).
Proof.
  unfold jkeys. induction m as [|[k' v'] m IH]; simpl; [done|].
  rewrite filter_cons. destruct (decide (k = k')) as [->|]; simpl.
  - rewrite decide_False; [done|congruence].
  - rewrite IH. rewrite decide_True; done.
Qed.

Lemma NoDup_jset k v m : NoDup (jkeys m) -> NoDup (jkeys (jset k v m)).
Proof.
  intros H. rewrite jkeys_jset. case_decide as Hk; [done|].
  apply NoDup_app. split; [done|]. split; [|apply NoDup_singleton].
  intros x Hx ->%list_elem_of_singleton. done.
Qed.

Lemma NoDup_jdel k m : NoDup (jkeys m) -> NoDup (jkeys (jdel k m)).
Proof. intros H. rewrite jkeys_jdel. by apply NoDup_filter. Qed.

Lemma elem_of_jget k v m : NoDup (jkeys m) -> (k, v) ∈ m -> jget k m = Some v.
Proof.
  unfold jkeys. induction m as [|[k' v'] m IH]; simpl.
  - by intros _ ?%elem_of_nil.
  - rewrite NoDup_cons, elem_of_cons. intros [Hk' Hnd] [[= -> ->]|Hin].
    + by rewrite decide_True.
    + rewrite decide_False; [by apply IH|]. intros ->. apply Hk'.
      apply list_elem_of_In, (in_map fst _ (k', v)). by apply list_elem_of_In.
Qed.

Lemma jset_fresh k v m : jget k m = None -> jset k v m = m ++ [(k, v)].
Proof.
  induction m as [|[k' v'] m IH]; simpl; [done|].
  destruct (decide (k = k')); [done|]. intros H. by rewrite IH.
Qed.

Lemma jdel_fresh k m : jget k m = None -> jdel k m = m.
Proof.
  induction m as [|[k' v'] m IH]; simpl; [done|].
  destruct (decide (k = k')); [done|]. intros H. by rewrite IH.
Qed.

Lemma jdel_sublist k m : jdel k m `sublist_of` m.
Proof.
  induction m as [|[k' v'] m IH]; simpl; [done|].
  destruct (decide (k = k')); by constructor.
Qed.

Lemma elem_of_jdel k k' v m : (k, v) ∈ jdel k' m <-> (k, v) ∈ m /\ k <> k'.
Proof.
  induction m as [|[k1 v1] m IH]; simpl.
  - split; [by intros ?%elem_of_nil | by intros [?%elem_of_nil ?]].
  - destruct (decide (k' = k1)) as [->|]; rewrite ?elem_of_cons, IH; intuition congruence.
Qed.

Lemma elem_of_jset k k' v v' m : (k, v) ∈ jset k' v' m -> (k, v) ∈ m \/ k = k' /\ v = v'.
Proof.
  induction m as [|[k1 v1] m IH]; simpl.
  - intros [[= -> ->]|?%elem_of_nil]%elem_of_cons; [by right|done].
  - destruct (decide (k' = k1)) as [->|]; rewrite !elem_of_cons.
    + intros [[= -> ->]|?]; auto.
    + intros [?|?]; [auto|]. destruct (IH ltac:(done)); auto.
Qed.

Lemma elem_of_jvals v m : v ∈ jvals m <-> exists k, (k, v) ∈ m.
Proof.
  unfold jvals. rewrite list_elem_of_In, in_map_iff. split.
  - intros ([k v'] & <- & Hin). exists k. by apply list_elem_of_In.
  - intros [k Hin]. exists (k, v). split; [done|]. by apply list_elem_of_In.
Qed.

(** Distinct values have one key each. *)
Lemma jvals_inj k k' v m : NoDup (jvals m) -> jget k m = Some v -> jget k' m = Some v -> k = k'.
Proof.
  induction m as [|[k1 v1] m IH]; simpl; [done|]. intros [Hnot Hnd]%NoDup_cons.
  assert (forall k, jget k m = Some v1 -> False) as Hno
    by (intros k2 Hk2; apply Hnot, elem_of_jvals; exists k2; by apply jget_Some_elem).
  destruct (decide (k = k1)) as [->|], (decide (k' = k1)) as [->|]; try done.
  - intros [= ->] H2. by destruct (Hno _ H2).
  - intros H1 [= ->]. by destruct (Hno _ H1).
  - by apply IH.
Qed.

Lemma length_jset k v m :
  length (jset k v m) = if decide (k ∈ jkeys m) then length m else S (length m).
Proof.
  transitivity (length (jkeys (jset k v m))); [unfold jkeys; by rewrite length_map|].
  rewrite jkeys_jset. unfold jkeys. case_decide; rewrite ?length_app, ?length_map; simpl; lia.
Qed.
End jmap.

Create Rewrite HintDb jmap.
#[export] Hint Rewrite @jget_jset_eq @jget_jdel_eq : jmap.
#[export] Hint Rewrite @jget_jset_ne @jget_jdel_ne using discriminate : jmap.
