(* ===== verification/Js.v ===== *)
(** * Values of the language

    The dynamically typed values the validators of ortc.ts inspect, with the
    operations those validators use: [typeof], truthiness, property access,
    assignment and deletion, [Object.keys], [Array.isArray], string case
    conversion, the regular expressions of ortc.ts and the JSON clone of
    utils.ts.

    Numbers are integers (payload types, SSRCs, clock rates, bitrates and
    stream ids are); strings are sequences of 8-bit characters.  An array is
    its elements together with the named properties assigned to it, since an
    array also is an object for [typeof]. *)

From S2P Require Import Prelude.

Unset Elimination Schemes.
Inductive val : Type :=
| VUndef
| VNull
| VBool (b : bool)
| VNum (n : Z)
| VStr (s : string)
| VArr (l : list val) (ps : list (string * val))
| VObj (ps : list (string * val)).
Set Elimination Schemes.

Definition typeof (v : val) : string :=
  match v with
  | VUndef => "undefined"
  | VNull => "object"
  | VBool _ => "boolean"
  | VNum _ => "number"
  | VStr _ => "string"
  | VArr _ _ => "object"
  | VObj _ => "object"
  end.

Definition is_type (t : string) (v : val) : bool := String.eqb (typeof v) t.

(** Truthiness: [undefined], [null], [false], [0] and the empty string are
    falsy. *)
Definition truthy (v : val) : bool :=
  match v with
  | VUndef | VNull => false
  | VBool b => b
  | VNum n => negb (Z.eqb n 0)
  | VStr s => negb (String.eqb s "")
  | VArr _ _ | VObj _ => true
  end.

Definition isArray (v : val) : bool :=
  match v with VArr _ _ => true | _ => false end.

(** The elements a [for ... of] visits. *)
Definition elements_of (v : val) : list val :=
  match v with VArr l _ => l | _ => [] end.

(** Own enumerable properties in the order of [Object.keys]; the elements of
    an array are the properties named by their indices. *)
Definition index_props (l : list val) : list (string * val) :=
  imap (fun i x => (pretty i, x)) l.

Definition own_props (v : val) : list (string * val) :=
  match v with
  | VObj ps => ps
  | VArr l ps => index_props l ++ ps
  | _ => []
  end.

Definition is_obj (v : val) : bool :=
  match v with VArr _ _ | VObj _ => true | _ => false end.

(** The same kind of object with other properties. *)
Definition with_props (v : val) (q : list (string * val)) : val :=
  match v with
  | VObj _ => VObj q
  | VArr l _ => VArr (map snd (take (length l) q)) (drop (length l) q)
  | v => v
  end.

(** [v.k], [v.k = x] and [delete v.k]. *)
Definition prop (k : string) (v : val) : val :=
  default VUndef (jget k (own_props v)).

Definition set_prop (k : string) (x : val) (v : val) : val :=
  match v with
  | VObj ps => VObj (jset k x ps)
  | VArr l ps => with_props v (jset k x (own_props v))
  | v => v
  end.

(** Only [delete codec.channels] and [delete parameters\['profile-level-id'\]]
    occur: a named property is deleted. *)
Definition delete_prop (k : string) (v : val) : val :=
  match v with
  | VObj ps => VObj (jdel k ps)
  | VArr l ps => VArr l (jdel k ps)
  | v => v
  end.

(** [if (typeof v !== 'object') throw new TypeError(msg)] followed by the
    first property access on [v]: [null] passes the [typeof] test and the
    access throws. *)
Definition require_object (msg : string) (v : val) : result unit :=
  match v with
  | VObj _ | VArr _ _ => Ok tt
  | VNull => Err (TypeError "Cannot read properties of null")
  | _ => Err (TypeError msg)
  end.

(** [for (const key of Object.keys(v)) v\[key\] = f(key, v\[key\])] and
    [for (const x of v) f(x)], where [f] may throw and update its argument. *)
Definition map_props (f : string -> val -> result val) (v : val) : result val :=
  q ← mapR (fun kx => y ← f kx.1 kx.2; Ok (kx.1, y)) (own_props v);
  Ok (with_props v q).

Definition map_elements (f : val -> result val) (v : val) : result val :=
  match v with
  | VArr l ps => l' ← mapR f l; Ok (VArr l' ps)
  | v => Ok v
  end.

(** ** Strings *)

Definition lower_ascii (c : Ascii.ascii) : Ascii.ascii :=
  let n := Ascii.nat_of_ascii c in
  if (65 <=? n) && (n <=? 90) then Ascii.ascii_of_nat (n + 32) else c.

Fixpoint toLowerCase (s : string) : string :=
  match s with
  | EmptyString => EmptyString
  | String c s => String (lower_ascii c) (toLowerCase s)
  end.

(** The characters [.] does not match. *)
Definition is_line_terminator (c : Ascii.ascii) : bool :=
  let n := Ascii.nat_of_ascii c in (n =? 10) || (n =? 13).

(** [.+] at the start of [s]: one character other than a line terminator. *)
Definition starts_with_any (s : string) : bool :=
  match s with
  | EmptyString => false
  | String c _ => negb (is_line_terminator c)
  end.

(** [^(audio|video)/(.+)] with the flag [i]: the lower-cased first group. *)
Definition mime_kind (s : string) : option string :=
  let head := toLowerCase (String.substring 0 6 s) in
  let rest := String.substring 6 (String.length s - 6) s in
  if starts_with_any rest then
    if String.eqb head "audio/" then Some "audio"
    else if String.eqb head "video/" then Some "video"
    else None
  else None.

(** [.+\/rtx$] with the flag [i]: some suffix of [s] is one character other
    than a line terminator followed by [/rtx]. *)
Fixpoint test_rtx (s : string) : bool :=
  match s with
  | EmptyString => false
  | String c s' =>
      (negb (is_line_terminator c) && String.eqb (toLowerCase s') "/rtx") || test_rtx s'
  end.

(** ** utils.ts

    The numbers [generateRandomNumber] may return: [randomInt (100_000_000,
    999_999_999)], where the upper bound is excluded. *)
Definition random_number (rnd : Z) : Prop := (100000000 <= rnd < 999999999)%Z.

(** [clone].

    [JSON.parse(JSON.stringify(data))]: properties that are [undefined] are
    dropped, array elements that are [undefined] become [null], named
    properties of arrays are dropped; a value that is not an object yields an
    empty object. *)

Fixpoint json (v : val) : option val :=
  match v with
  | VUndef => None
  | VArr l _ => Some (VArr (map (fun x => default VNull (json x)) l) [])
  | VObj ps =>
      Some (VObj ((fix go (ps : list (string * val)) :=
        match ps with
        | [] => []
        | (k, x) :: ps =>
            match json x with Some y => (k, y) :: go ps | None => go ps end
        end) ps))
  | v => Some v
  end.

Definition clone (data : val) : val :=
  if negb (is_type "object" data) then VObj []
  else default VUndef (json data).

(** ** Conversion to a string and JSON text *)

Fixpoint join (sep : string) (l : list string) : string :=
  match l with
  | [] => ""
  | [x] => x
  | x :: l => x +:+ sep +:+ join sep l
  end.

(** [String(v)]; the elements of an array are joined with commas, where
    [undefined] and [null] are empty. *)
Fixpoint js_string (v : val) : string :=
  match v with
  | VUndef => "undefined"
  | VNull => "null"
  | VBool b => if b then "true" else "false"
  | VNum n => pretty n
  | VStr s => s
  | VArr l _ =>
      join "," (map (fun x => match x with VUndef | VNull => "" | _ => js_string x end) l)
  | VObj _ => "[object Object]"
  end.

(** [QuoteJSONString]: the quotation mark, the reverse solidus and the control
    characters are escaped. *)
Definition hex_digit (n : nat) : Ascii.ascii :=
  Ascii.ascii_of_nat (if (n <? 10)%nat then 48 + n else 87 + n).

Definition escape_char (c : Ascii.ascii) : string :=
  let n := Ascii.nat_of_ascii c in
  let bs := String (Ascii.ascii_of_nat 92) EmptyString in
  if (n =? 34) || (n =? 92) then bs +:+ String c EmptyString
  else if n =? 8 then bs +:+ "b"
  else if n =? 9 then bs +:+ "t"
  else if n =? 10 then bs +:+ "n"
  else if n =? 12 then bs +:+ "f"
  else if n =? 13 then bs +:+ "r"
  else if n <? 32 then
    bs +:+ "u00" +:+ String (hex_digit (n / 16)) (String (hex_digit (n mod 16)) EmptyString)
  else String c EmptyString.

Fixpoint escape (s : string) : string :=
  match s with
  | EmptyString => ""
  | String c s => escape_char c +:+ escape s
  end.

Definition dquote : string := String (Ascii.ascii_of_nat 34) EmptyString.
Definition quote (s : string) : string := dquote +:+ escape s +:+ dquote.

(** [JSON.stringify(v)]; the result is [undefined] for [undefined]. *)
Fixpoint stringify (v : val) : option string :=
  match v with
  | VUndef => None
  | VNull => Some "null"
  | VBool b => Some (if b then "true" else "false")
  | VNum n => Some (pretty n)
  | VStr s => Some (quote s)
  | VArr l _ => Some ("[" +:+ join "," (map (fun x => default "null" (stringify x)) l) +:+ "]")
  | VObj ps =>
      Some ("{" +:+ join "," ((fix go (ps : list (string * val)) :=
        match ps with
        | [] => []
        | (k, x) :: ps =>
            match stringify x with
            | Some t => (quote k +:+ ":" +:+ t) :: go ps
            | None => go ps
            end
        end) ps) +:+ "}")
  end.

(** ** Lemmas *)

Section props.
Implicit Types (v x : val) (k : string) (l : list val) (ps : list (string * val)).

Lemma imap_key_snd (f : nat -> string) l :
  map snd (imap (fun i x => (f i, x)) l) = l.
Proof.
  revert f. induction l as [|x l IH]; intros f; simpl; [done|].
  f_equal. apply (IH (f ∘ S)).
Qed.

Lemma imap_key_fst (f : nat -> string) l l' :
  length l = length l' ->
  map fst (imap (fun i x => (f i, x)) l) = map fst (imap (fun i x => (f i, x)) l').
Proof.
  revert f l'. induction l as [|x l IH]; intros f [|x' l'] Hl; simpl in *; try done.
  f_equal. apply (IH (f ∘ S)). lia.
Qed.

Lemma imap_key_unique (f : nat -> string) q l :
  map fst q = map fst (imap (fun i x => (f i, x)) l) ->
  imap (fun i x => (f i, x)) (map snd q) = q.
Proof.
  revert f l. induction q as [|[k x] q IH]; intros f [|y l] Hq; simpl in *; try done.
  injection Hq as -> Hq. f_equal. by apply (IH (f ∘ S) l).
Qed.

Lemma snd_index_props l : map snd (index_props l) = l.
Proof. apply (imap_key_snd pretty). Qed.

Lemma length_index_props l : length (index_props l) = length l.
Proof. apply length_imap. Qed.

Lemma index_props_keys l l' :
  length l = length l' -> map fst (index_props l) = map fst (index_props l').
Proof. apply (imap_key_fst pretty). Qed.

Lemma jset_keys_prefix k x (q ps : list (string * val)) :
  exists q' ps', jset k x (q ++ ps) = q' ++ ps' /\ map fst q' = map fst q.
Proof.
  induction q as [|[k' y] q IH]; simpl.
  - by exists [], (jset k x ps).
  - destruct (decide (k = k')) as [->|].
    + by exists ((k', x) :: q), ps.
    + destruct IH as (q' & ps' & -> & Hq). exists ((k', y) :: q'), ps'.
      simpl. by rewrite Hq.
Qed.

Lemma index_props_unique q l :
  map fst q = map fst (index_props l) -> index_props (map snd q) = q.
Proof. apply (imap_key_unique pretty). Qed.

Lemma own_props_with_props v q ps' :
  is_obj v = true ->
  (forall l ps, v = VArr l ps -> map fst q = map fst (index_props l)) ->
  (forall ps, v = VObj ps -> q = []) ->
  own_props (with_props v (q ++ ps')) = q ++ ps'.
Proof.
  destruct v as [| | | | |l ps|ps]; try done; intros _ Hq Ho; simpl.
  - specialize (Hq l ps eq_refl).
    assert (length q = length l) as Hlen.
    { rewrite <-(length_map fst q), Hq, length_map. apply length_index_props. }
    rewrite <-Hlen, take_app_length, drop_app_length. f_equal.
    by eapply index_props_unique.
Qed.

(** Assignment updates the property list as [jset] does. *)
Lemma own_props_set_prop k x v :
  is_obj v = true -> own_props (set_prop k x v) = jset k x (own_props v).
Proof.
  destruct v as [| | | | |l ps|ps]; try done; intros _.
  destruct (jset_keys_prefix k x (index_props l) ps) as (q & ps' & Heq & Hq).
  unfold set_prop, own_props at 2. cbn [own_props]. rewrite Heq.
  apply (own_props_with_props (VArr l ps)); [done| |done].
  by intros ? ? [= -> ->].
Qed.

Lemma is_obj_set_prop k x v : is_obj (set_prop k x v) = is_obj v.
Proof. by destruct v. Qed.

Lemma is_obj_delete_prop k v : is_obj (delete_prop k v) = is_obj v.
Proof. by destruct v. Qed.

Lemma isArray_set_prop k x v : isArray (set_prop k x v) = isArray v.
Proof. by destruct v. Qed.

Lemma prop_set_prop_eq k x v : is_obj v = true -> prop k (set_prop k x v) = x.
Proof. intros Hv. unfold prop. by rewrite own_props_set_prop, jget_jset_eq. Qed.

Lemma prop_set_prop_ne k k' x v : k <> k' -> prop k (set_prop k' x v) = prop k v.
Proof.
  intros Hk. destruct (is_obj v) eqn:Hv.
  - unfold prop. by rewrite own_props_set_prop, jget_jset_ne.
  - by destruct v.
Qed.

(** An index is written with decimal digits, so a named property is never
    an element of an array. *)
Definition head_digit (s : string) : bool :=
  match s with
  | EmptyString => false
  | String c _ => let n := Ascii.nat_of_ascii c in (48 <=? n) && (n <=? 57)
  end.

Lemma pretty_N_go_head (x : N) s :
  head_digit s = true \/ (0 < x)%N -> head_digit (pretty_N_go x s) = true.
Proof.
  revert s. induction (N.lt_wf_0 x) as [x _ IH]; intros s Hs.
  assert (x = 0 \/ 0 < x)%N as [->|Hx] by lia.
  - rewrite pretty_N_go_0. destruct Hs; [done|lia].
  - rewrite pretty_N_go_step by done. apply IH; [by apply N.div_lt|]. left.
    unfold pretty_N_char. by repeat case_match.
Qed.

Lemma pretty_nat_head (n : nat) : head_digit (pretty n) = true.
Proof.
  unfold pretty, pretty_nat, pretty, pretty_N. case_decide; [done|].
  apply pretty_N_go_head. right. lia.
Qed.

Lemma index_props_head k l : head_digit k = false -> jget k (index_props l) = None.
Proof.
  intros Hk. apply jget_None. unfold jkeys. intros Hin.
  apply list_elem_of_In, in_map_iff in Hin as ([k' x] & [= ->] & Hin).
  apply list_elem_of_In, list_elem_of_lookup in Hin as [i Hi].
  unfold index_props in Hi. rewrite list_lookup_imap in Hi.
  apply fmap_Some in Hi as (y & _ & [= -> _]). by rewrite pretty_nat_head in Hk.
Qed.

Lemma jget_app k (q ps : list (string * val)) :
  jget k (q ++ ps) = match jget k q with Some x => Some x | None => jget k ps end.
Proof. induction q as [|[k' x] q IH]; simpl; [done|]. by destruct (decide (k = k')). Qed.

Lemma prop_delete_prop_eq k v :
  head_digit k = false -> prop k (delete_prop k v) = VUndef.
Proof.
  intros Hk. destruct v as [| | | | |l ps|ps]; try done; unfold prop; simpl.
  - by rewrite jget_app, index_props_head, jget_jdel_eq.
  - by rewrite jget_jdel_eq.
Qed.

Lemma prop_delete_prop_ne k k' v : k <> k' -> prop k (delete_prop k' v) = prop k v.
Proof.
  intros Hk. destruct v as [| | | | |l ps|ps]; try done; unfold prop; simpl.
  - by rewrite !jget_app, jget_jdel_ne.
  - by rewrite jget_jdel_ne.
Qed.

Lemma with_own_props v : with_props v (own_props v) = v.
Proof.
  destruct v as [| | | | |l ps|ps]; try done; simpl.
  by rewrite <-(length_index_props l), take_app_length, drop_app_length, snd_index_props.
Qed.

Lemma jset_same k x (q : list (string * val)) : jget k q = Some x -> jset k x q = q.
Proof.
  induction q as [|[k' y] q IH]; simpl; [done|].
  destruct (decide (k = k')) as [->|]; [by intros [= ->]|]. intros H. by rewrite IH.
Qed.

Lemma prop_jget k v x : x <> VUndef -> prop k v = x -> jget k (own_props v) = Some x.
Proof. unfold prop. intros Hx. destruct (jget k (own_props v)); simpl; congruence. Qed.

(** Assigning the value a property already has changes nothing. *)
Lemma set_prop_same k x v : x <> VUndef -> prop k v = x -> set_prop k x v = v.
Proof.
  intros Hx Hp. pose proof (prop_jget _ _ _ Hx Hp) as Hg.
  destruct v as [| | | | |l ps|ps]; try done; unfold set_prop.
  - rewrite jset_same by done. apply with_own_props.
  - f_equal. by apply jset_same.
Qed.

Lemma delete_prop_absent k v : jget k (own_props v) = None -> delete_prop k v = v.
Proof.
  destruct v as [| | | | |l ps|ps]; try done; simpl.
  - rewrite jget_app. destruct (jget k (index_props l)); [done|].
    intros H. by rewrite jdel_fresh.
  - intros H. by rewrite jdel_fresh.
Qed.

Lemma jget_delete_prop k v :
  head_digit k = false -> jget k (own_props (delete_prop k v)) = None.
Proof.
  intros Hk. destruct v as [| | | | |l ps|ps]; try done; simpl.
  - by rewrite jget_app, index_props_head, jget_jdel_eq.
  - by rewrite jget_jdel_eq.
Qed.

Lemma jget_set_prop_ne k k' x v :
  k <> k' -> jget k (own_props (set_prop k' x v)) = jget k (own_props v).
Proof.
  intros Hk. destruct (is_obj v) eqn:Hv; [|by destruct v].
  by rewrite own_props_set_prop, jget_jset_ne.
Qed.

Lemma own_props_with_keys v q :
  is_obj v = true -> map fst q = map fst (own_props v) -> own_props (with_props v q) = q.
Proof.
  destruct v as [| | | | |l ps|ps]; try done; intros _ Hq. cbn [own_props] in Hq.
  rewrite <-(take_drop (length l) q).
  apply (own_props_with_props (VArr l ps)); [done| |done].
  intros ? ? [= <- <-]. rewrite map_app in Hq.
  apply (f_equal (take (length l))) in Hq. rewrite firstn_map in Hq. rewrite Hq.
  apply take_app_length'. by rewrite length_map, length_index_props.
Qed.

Lemma require_object_pass {B} msg v (f : unit -> result B) :
  is_obj v = true -> (require_object msg v ≫= f) = f tt.
Proof. by destruct v. Qed.

Lemma require_object_Ok msg v u : require_object msg v = Ok u <-> is_obj v = true.
Proof. destruct v, u; simpl; split; done. Qed.
End props.

(** ** Loops over properties and elements *)

Section loops.
Context (f : string -> val -> result val) (g : val -> result val).
Context (P : string -> val -> Prop) (Q : val -> Prop).

Lemma map_props_Ok v v' :
  (forall k x y, f k x = Ok y -> P k y) ->
  is_obj v = true -> map_props f v = Ok v' ->
  is_obj v' = true /\ isArray v' = isArray v /\ Forall (fun kx => P kx.1 kx.2) (own_props v').
Proof.
  intros Hf Hv H. unfold map_props in H. inv_result.
  apply mapR_Ok in Ha.
  assert (map fst a = map fst (own_props v) /\ Forall (fun kx => P kx.1 kx.2) a) as [Hk HP].
  { clear Hv. induction Ha as [|[k x] [k' y] q q' Hxy _ [IH1 IH2]]; [done|].
    cbn in *. inv_result. rewrite IH1. split; [done|].
    constructor; [by eapply Hf | done]. }
  split; [by destruct v|]. split; [by destruct v|].
  by rewrite own_props_with_keys.
Qed.

Lemma map_props_id v :
  (forall k x, P k x -> f k x = Ok x) ->
  Forall (fun kx => P kx.1 kx.2) (own_props v) -> map_props f v = Ok v.
Proof.
  intros Hf HP. unfold map_props.
  replace (mapR _ (own_props v)) with (Ok (own_props v)).
  { unfold mbind, result_bind. by rewrite with_own_props. }
  symmetry. induction HP as [|[k x] q Hx _ IH]; [done|].
  cbn [mapR fst snd] in *. rewrite (Hf _ _ Hx). cbn. by rewrite IH.
Qed.

Lemma map_elements_Ok v v' :
  (forall x y, g x = Ok y -> Q y) ->
  isArray v = true -> map_elements g v = Ok v' ->
  exists l ps, v' = VArr l ps /\ Forall Q l.
Proof.
  intros Hg Hv H. destruct v as [| | | | |l ps|]; try done. simpl in H. inv_result.
  exists a, ps. split; [done|]. apply mapR_Ok in Ha.
  induction Ha; constructor; eauto.
Qed.

Lemma map_elements_id l ps :
  (forall x, Q x -> g x = Ok x) -> Forall Q l ->
  map_elements g (VArr l ps) = Ok (VArr l ps).
Proof.
  intros Hg HQ. simpl. replace (mapR g l) with (Ok l); [done|].
  symmetry. induction HQ as [|x l Hx _ IH]; [done|]. simpl. rewrite Hg by done.
  cbn. by rewrite IH.
Qed.
End loops.

Create Rewrite HintDb js.
#[export] Hint Rewrite is_obj_set_prop is_obj_delete_prop isArray_set_prop : js.
#[export] Hint Rewrite prop_set_prop_ne prop_delete_prop_ne using discriminate : js.
#[export] Hint Rewrite prop_delete_prop_eq using reflexivity : js.
