(* ===== verification/RtpParameters.v ===== *)
(** * The types of RtpParameters.ts and SctpParameters.ts

    One record per TypeScript type, with the optional fields as [option], and
    the view of a dynamically typed value as a record of that type.  A view
    fails on a value that does not inhabit the type in the fields the code
    relies on. *)

From S2P Require Import Prelude Js.

Inductive MediaKind : Type := Kaudio | Kvideo.

#[export] Instance MediaKind_eq_dec : EqDecision MediaKind.
Proof. solve_decision. Defined.

Definition kind_string (k : MediaKind) : string :=
  match k with Kaudio => "audio" | Kvideo => "video" end.

(** Codec-specific and header-extension parameters are strings or numbers. *)
Inductive pval : Type := PStr (s : string) | PNum (n : Z).

#[export] Instance pval_eq_dec : EqDecision pval.
Proof. solve_decision. Defined.

Abbreviation params := (list (string * pval)).

Record RtcpFeedback : Type := mkRtcpFeedback {
  fb_type : string;
  fb_parameter : string
}.

#[export] Instance RtcpFeedback_eq_dec : EqDecision RtcpFeedback.
Proof. solve_decision. Defined.

Record RtpCodecCapability : Type := mkRtpCodecCapability {
  cap_kind : MediaKind;
  cap_mimeType : string;
  cap_preferredPayloadType : option Z;
  cap_clockRate : Z;
  cap_channels : option Z;
  cap_parameters : params;
  cap_rtcpFeedback : list RtcpFeedback
}.

Record RtpHeaderExtension : Type := mkRtpHeaderExtension {
  he_kind : MediaKind;
  he_uri : string;
  he_preferredId : Z;
  he_preferredEncrypt : bool;
  he_direction : string
}.

Record RtpCapabilities : Type := mkRtpCapabilities {
  caps_codecs : list RtpCodecCapability;
  caps_headerExtensions : list RtpHeaderExtension
}.

Record RtpCodecParameters : Type := mkRtpCodecParameters {
  cp_mimeType : string;
  cp_payloadType : Z;
  cp_clockRate : Z;
  cp_channels : option Z;
  cp_parameters : params;
  cp_rtcpFeedback : list RtcpFeedback
}.

Record RtpHeaderExtensionParameters : Type := mkRtpHeaderExtensionParameters {
  hp_uri : string;
  hp_id : Z;
  hp_encrypt : bool;
  hp_parameters : params
}.

Record RtpEncodingParameters : Type := mkRtpEncodingParameters {
  enc_ssrc : option Z;
  enc_rid : option string;
  enc_codecPayloadType : option Z;
  enc_rtx : option Z;            (* the ssrc of the RTX stream *)
  enc_dtx : option bool;
  enc_scalabilityMode : option string;
  enc_scaleResolutionDownBy : option Z;
  enc_maxBitrate : option Z
}.

Record RtcpParameters : Type := mkRtcpParameters {
  rtcp_cname : option string;
  rtcp_reducedSize : bool;
  rtcp_mux : option bool
}.

Record RtpParameters : Type := mkRtpParameters {
  rp_mid : option string;
  rp_codecs : list RtpCodecParameters;
  rp_headerExtensions : list RtpHeaderExtensionParameters;
  rp_encodings : list RtpEncodingParameters;
  rp_rtcp : RtcpParameters
}.

Record SctpStreamParameters : Type := mkSctpStreamParameters {
  ssp_streamId : Z;
  ssp_ordered : bool;
  ssp_maxPacketLifeTime : option Z;
  ssp_maxRetransmits : option Z
}.

Record SctpParameters : Type := mkSctpParameters {
  sctp_port : Z;
  sctp_OS : Z;
  sctp_MIS : Z;
  sctp_maxMessageSize : Z
}.

(** ** Views of dynamically typed values *)

Definition as_num (v : val) : option Z := match v with VNum n => Some n | _ => None end.
Definition as_str (v : val) : option string := match v with VStr s => Some s | _ => None end.
Definition as_bool (v : val) : option bool := match v with VBool b => Some b | _ => None end.

Definition as_kind (v : val) : option MediaKind :=
  match v with
  | VStr s => if String.eqb s "audio" then Some Kaudio
              else if String.eqb s "video" then Some Kvideo else None
  | _ => None
  end.

(** Succeeds when every element has a view. *)
Fixpoint views {A} (f : val -> option A) (l : list val) : option (list A) :=
  match l with
  | [] => Some []
  | v :: l => match f v, views f l with
              | Some a, Some k => Some (a :: k)
              | _, _ => None
              end
  end.

Definition array_view {A} (f : val -> option A) (v : val) : option (list A) :=
  match v with VArr l _ => views f l | _ => None end.

Fixpoint params_view (ps : list (string * val)) : option params :=
  match ps with
  | [] => Some []
  | (k, v) :: ps =>
      match (match v with VStr s => Some (PStr s) | VNum n => Some (PNum n) | _ => None end),
            params_view ps with
      | Some x, Some q => Some ((k, x) :: q)
      | _, _ => None
      end
  end.

Definition RtcpFeedback_view (v : val) : option RtcpFeedback :=
  ty ← as_str (prop "type" v);
  p ← as_str (prop "parameter" v);
  Some (mkRtcpFeedback ty p).

Definition RtpCodecCapability_view (v : val) : option RtpCodecCapability :=
  kind ← as_kind (prop "kind" v);
  mimeType ← as_str (prop "mimeType" v);
  clockRate ← as_num (prop "clockRate" v);
  ps ← params_view (own_props (prop "parameters" v));
  fbs ← array_view RtcpFeedback_view (prop "rtcpFeedback" v);
  Some (mkRtpCodecCapability kind mimeType (as_num (prop "preferredPayloadType" v))
          clockRate (as_num (prop "channels" v)) ps fbs).

Definition RtpHeaderExtension_view (v : val) : option RtpHeaderExtension :=
  kind ← as_kind (prop "kind" v);
  uri ← as_str (prop "uri" v);
  preferredId ← as_num (prop "preferredId" v);
  preferredEncrypt ← as_bool (prop "preferredEncrypt" v);
  direction ← as_str (prop "direction" v);
  Some (mkRtpHeaderExtension kind uri preferredId preferredEncrypt direction).

Definition RtpCapabilities_view (v : val) : option RtpCapabilities :=
  codecs ← array_view RtpCodecCapability_view (prop "codecs" v);
  exts ← array_view RtpHeaderExtension_view (prop "headerExtensions" v);
  Some (mkRtpCapabilities codecs exts).

Definition RtpCodecParameters_view (v : val) : option RtpCodecParameters :=
  mimeType ← as_str (prop "mimeType" v);
  payloadType ← as_num (prop "payloadType" v);
  clockRate ← as_num (prop "clockRate" v);
  ps ← params_view (own_props (prop "parameters" v));
  fbs ← array_view RtcpFeedback_view (prop "rtcpFeedback" v);
  Some (mkRtpCodecParameters mimeType payloadType clockRate
          (as_num (prop "channels" v)) ps fbs).

Definition RtpHeaderExtensionParameters_view (v : val) : option RtpHeaderExtensionParameters :=
  uri ← as_str (prop "uri" v);
  id ← as_num (prop "id" v);
  encrypt ← as_bool (prop "encrypt" v);
  ps ← params_view (own_props (prop "parameters" v));
  Some (mkRtpHeaderExtensionParameters uri id encrypt ps).

(** [codecPayloadType], [scaleResolutionDownBy] and [maxBitrate] are not
    looked at by the validator: a value of another type is viewed as absent. *)
Definition dtx_view (v : val) : option (option bool) :=
  match v with VUndef => Some None | VBool b => Some (Some b) | _ => None end.

Definition RtpEncodingParameters_view (v : val) : option RtpEncodingParameters :=
  dtx ← dtx_view (prop "dtx" v);
  Some (mkRtpEncodingParameters (as_num (prop "ssrc" v)) (as_str (prop "rid" v))
          (as_num (prop "codecPayloadType" v)) (as_num (prop "ssrc" (prop "rtx" v))) dtx
          (as_str (prop "scalabilityMode" v)) (as_num (prop "scaleResolutionDownBy" v))
          (as_num (prop "maxBitrate" v))).

Definition RtcpParameters_view (v : val) : option RtcpParameters :=
  reducedSize ← as_bool (prop "reducedSize" v);
  Some (mkRtcpParameters (as_str (prop "cname" v)) reducedSize (as_bool (prop "mux" v))).

Definition RtpParameters_view (v : val) : option RtpParameters :=
  codecs ← array_view RtpCodecParameters_view (prop "codecs" v);
  exts ← array_view RtpHeaderExtensionParameters_view (prop "headerExtensions" v);
  encodings ← array_view RtpEncodingParameters_view (prop "encodings" v);
  rtcp ← RtcpParameters_view (prop "rtcp" v);
  Some (mkRtpParameters (as_str (prop "mid" v)) codecs exts encodings rtcp).

Definition SctpStreamParameters_view (v : val) : option SctpStreamParameters :=
  streamId ← as_num (prop "streamId" v);
  ordered ← as_bool (prop "ordered" v);
  Some (mkSctpStreamParameters streamId ordered
          (as_num (prop "maxPacketLifeTime" v)) (as_num (prop "maxRetransmits" v))).

Definition SctpParameters_view (v : val) : option SctpParameters :=
  port ← as_num (prop "port" v);
  OS ← as_num (prop "OS" v);
  MIS ← as_num (prop "MIS" v);
  size ← as_num (prop "maxMessageSize" v);
  Some (mkSctpParameters port OS MIS size).

(** ** Lemmas *)

Lemma views_is_Some {A} (f : val -> option A) l :
  Forall (fun v => is_Some (f v)) l -> is_Some (views f l).
Proof.
  induction 1 as [|v l [a Ha] _ [k Hk]]; simpl; [by eexists|].
  rewrite Ha, Hk. by eexists.
Qed.

Lemma views_Some {A} (f : val -> option A) l k :
  views f l = Some k <-> Forall2 (fun v a => f v = Some a) l k.
Proof.
  revert k. induction l as [|v l IH]; intros k; simpl.
  - split; [intros [= <-]; constructor | by inversion 1].
  - split.
    + destruct (f v) as [a|] eqn:Ha, (views f l) as [q|] eqn:Hq; try done.
      intros [= <-]. constructor; [done|]. by apply IH.
    + inversion 1; subst. rewrite H2. by rewrite (proj2 (IH _) H4).
Qed.

Definition param_ok (x : val) : Prop := (exists s, x = VStr s) \/ (exists n, x = VNum n).

Lemma params_view_is_Some ps :
  Forall (fun kx : string * val => param_ok kx.2) ps -> is_Some (params_view ps).
Proof.
  induction 1 as [|[k v] ps [[s Hs]|[n Hn]] _ [q Hq]]; simpl in *; [by eexists| |];
    subst; rewrite Hq; by eexists.
Qed.
