(* ===== verification/Validate.v ===== *)
(** * The validators of ortc.ts

    Each validator checks a dynamically typed value, fills in the default of
    every optional field and throws on the first violation; the model returns
    the updated value.  The text of an exception keeps the constant part of
    its template.

    For every validator [validateX] there is a predicate [wf_X] with two
    lemmas: [validateX_wf] (a value it returns satisfies [wf_X]) and
    [wf_validateX] (a value that satisfies [wf_X] is accepted unchanged).
    Together they make the validators idempotent; the [_view] lemmas say that
    a value that satisfies [wf_X] inhabits the TypeScript type. *)

From S2P Require Import Prelude Js RtpParameters.

(** [!v || typeof v !== t] and [v && typeof v !== t]. *)
Definition missing (t : string) (v : val) : bool := negb (truthy v) || negb (is_type t v).
Definition ill_typed (t : string) (v : val) : bool := truthy v && negb (is_type t v).

Definition validateRtcpFeedback (fb : val) : result val :=
  require_object "fb is not an object" fb;;
  throw_if (missing "string" (prop "type" fb)) (TypeError "missing fb.type");;
  let fb := if missing "string" (prop "parameter" fb)
            then set_prop "parameter" (VStr "") fb else fb in
  Ok fb.

(** The body of the loops over [codec.parameters]. *)
Definition validateCodecParameter (key : string) (value : val) : result val :=
  let value := match value with VUndef => VStr "" | v => v end in
  throw_if (negb (is_type "string" value) && negb (is_type "number" value))
           (TypeError "invalid codec parameter");;
  throw_if (String.eqb key "apt" && negb (is_type "number" value))
           (TypeError "invalid codec apt parameter");;
  Ok value.

(** The body of the loop over [ext.parameters]. *)
Definition validateExtParameter (key : string) (value : val) : result val :=
  let value := match value with VUndef => VStr "" | v => v end in
  throw_if (negb (is_type "string" value) && negb (is_type "number" value))
           (TypeError "invalid header extension parameter");;
  Ok value.

Definition validateRtpCodecCapability (codec : val) : result val :=
  require_object "codec is not an object" codec;;
  throw_if (missing "string" (prop "mimeType" codec)) (TypeError "missing codec.mimeType");;
  mimeType ← from_option_or (TypeError "missing codec.mimeType") (as_str (prop "mimeType" codec));
  kind ← from_option_or (TypeError "invalid codec.mimeType") (mime_kind mimeType);
  let codec := set_prop "kind" (VStr kind) codec in
  throw_if (ill_typed "number" (prop "preferredPayloadType" codec))
           (TypeError "invalid codec.preferredPayloadType");;
  throw_if (negb (is_type "number" (prop "clockRate" codec)))
           (TypeError "missing codec.clockRate");;
  let codec :=
    if String.eqb kind "audio" then
      if negb (is_type "number" (prop "channels" codec))
      then set_prop "channels" (VNum 1) codec else codec
    else delete_prop "channels" codec in
  let codec := if missing "object" (prop "parameters" codec)
               then set_prop "parameters" (VObj []) codec else codec in
  parameters ← map_props validateCodecParameter (prop "parameters" codec);
  let codec := set_prop "parameters" parameters codec in
  let codec := if negb (truthy (prop "rtcpFeedback" codec)) || negb (isArray (prop "rtcpFeedback" codec))
               then set_prop "rtcpFeedback" (VArr [] []) codec else codec in
  rtcpFeedback ← map_elements validateRtcpFeedback (prop "rtcpFeedback" codec);
  Ok (set_prop "rtcpFeedback" rtcpFeedback codec).

Definition validateRtpHeaderExtension (ext : val) : result val :=
  require_object "ext is not an object" ext;;
  throw_if (negb (bool_decide (as_str (prop "kind" ext) = Some "audio")) &&
            negb (bool_decide (as_str (prop "kind" ext) = Some "video")))
           (TypeError "invalid ext.kind");;
  throw_if (missing "string" (prop "uri" ext)) (TypeError "missing ext.uri");;
  throw_if (negb (is_type "number" (prop "preferredId" ext)))
           (TypeError "missing ext.preferredId");;
  throw_if (ill_typed "boolean" (prop "preferredEncrypt" ext))
           (TypeError "invalid ext.preferredEncrypt");;
  let ext := if negb (truthy (prop "preferredEncrypt" ext))
             then set_prop "preferredEncrypt" (VBool false) ext else ext in
  throw_if (ill_typed "string" (prop "direction" ext)) (TypeError "invalid ext.direction");;
  let ext := if negb (truthy (prop "direction" ext))
             then set_prop "direction" (VStr "sendrecv") ext else ext in
  Ok ext.

Definition validateRtpCapabilities (caps : val) : result val :=
  require_object "caps is not an object" caps;;
  throw_if (truthy (prop "codecs" caps) && negb (isArray (prop "codecs" caps)))
           (TypeError "caps.codecs is not an array");;
  let caps := if negb (truthy (prop "codecs" caps))
              then set_prop "codecs" (VArr [] []) caps else caps in
  codecs ← map_elements validateRtpCodecCapability (prop "codecs" caps);
  let caps := set_prop "codecs" codecs caps in
  throw_if (truthy (prop "headerExtensions" caps) && negb (isArray (prop "headerExtensions" caps)))
           (TypeError "caps.headerExtensions is not an array");;
  let caps := if negb (truthy (prop "headerExtensions" caps))
              then set_prop "headerExtensions" (VArr [] []) caps else caps in
  exts ← map_elements validateRtpHeaderExtension (prop "headerExtensions" caps);
  Ok (set_prop "headerExtensions" exts caps).

Definition validateRtpCodecParameters (codec : val) : result val :=
  require_object "codec is not an object" codec;;
  throw_if (missing "string" (prop "mimeType" codec)) (TypeError "missing codec.mimeType");;
  mimeType ← from_option_or (TypeError "missing codec.mimeType") (as_str (prop "mimeType" codec));
  kind ← from_option_or (TypeError "invalid codec.mimeType") (mime_kind mimeType);
  throw_if (negb (is_type "number" (prop "payloadType" codec)))
           (TypeError "missing codec.payloadType");;
  throw_if (negb (is_type "number" (prop "clockRate" codec)))
           (TypeError "missing codec.clockRate");;
  let codec :=
    if String.eqb kind "audio" then
      if negb (is_type "number" (prop "channels" codec))
      then set_prop "channels" (VNum 1) codec else codec
    else delete_prop "channels" codec in
  let codec := if missing "object" (prop "parameters" codec)
               then set_prop "parameters" (VObj []) codec else codec in
  parameters ← map_props validateCodecParameter (prop "parameters" codec);
  let codec := set_prop "parameters" parameters codec in
  let codec := if negb (truthy (prop "rtcpFeedback" codec)) || negb (isArray (prop "rtcpFeedback" codec))
               then set_prop "rtcpFeedback" (VArr [] []) codec else codec in
  rtcpFeedback ← map_elements validateRtcpFeedback (prop "rtcpFeedback" codec);
  Ok (set_prop "rtcpFeedback" rtcpFeedback codec).

Definition validateRtpHeaderExtensionParameters (ext : val) : result val :=
  require_object "ext is not an object" ext;;
  throw_if (missing "string" (prop "uri" ext)) (TypeError "missing ext.uri");;
  throw_if (negb (is_type "number" (prop "id" ext))) (TypeError "missing ext.id");;
  throw_if (ill_typed "boolean" (prop "encrypt" ext)) (TypeError "invalid ext.encrypt");;
  let ext := if negb (truthy (prop "encrypt" ext))
             then set_prop "encrypt" (VBool false) ext else ext in
  let ext := if missing "object" (prop "parameters" ext)
             then set_prop "parameters" (VObj []) ext else ext in
  parameters ← map_props validateExtParameter (prop "parameters" ext);
  Ok (set_prop "parameters" parameters ext).

Definition validateRtpEncodingParameters (encoding : val) : result val :=
  require_object "encoding is not an object" encoding;;
  throw_if (ill_typed "number" (prop "ssrc" encoding)) (TypeError "invalid encoding.ssrc");;
  throw_if (ill_typed "string" (prop "rid" encoding)) (TypeError "invalid encoding.rid");;
  throw_if (ill_typed "object" (prop "rtx" encoding)) (TypeError "invalid encoding.rtx");;
  throw_if (truthy (prop "rtx" encoding) &&
            negb (is_type "number" (prop "ssrc" (prop "rtx" encoding))))
           (TypeError "missing encoding.rtx.ssrc");;
  let encoding := if missing "boolean" (prop "dtx" encoding)
                  then set_prop "dtx" (VBool false) encoding else encoding in
  throw_if (ill_typed "string" (prop "scalabilityMode" encoding))
           (TypeError "invalid encoding.scalabilityMode");;
  Ok encoding.

Definition validateRtcpParameters (rtcp : val) : result val :=
  require_object "rtcp is not an object" rtcp;;
  throw_if (ill_typed "string" (prop "cname" rtcp)) (TypeError "invalid rtcp.cname");;
  let rtcp := if missing "boolean" (prop "reducedSize" rtcp)
              then set_prop "reducedSize" (VBool true) rtcp else rtcp in
  Ok rtcp.

Definition validateRtpParameters (params : val) : result val :=
  require_object "params is not an object" params;;
  throw_if (ill_typed "string" (prop "mid" params)) (TypeError "params.mid is not a string");;
  throw_if (negb (isArray (prop "codecs" params))) (TypeError "missing params.codecs");;
  codecs ← map_elements validateRtpCodecParameters (prop "codecs" params);
  let params := set_prop "codecs" codecs params in
  throw_if (truthy (prop "headerExtensions" params) && negb (isArray (prop "headerExtensions" params)))
           (TypeError "params.headerExtensions is not an array");;
  let params := if negb (truthy (prop "headerExtensions" params))
                then set_prop "headerExtensions" (VArr [] []) params else params in
  exts ← map_elements validateRtpHeaderExtensionParameters (prop "headerExtensions" params);
  let params := set_prop "headerExtensions" exts params in
  throw_if (truthy (prop "encodings" params) && negb (isArray (prop "encodings" params)))
           (TypeError "params.encodings is not an array");;
  let params := if negb (truthy (prop "encodings" params))
                then set_prop "encodings" (VArr [] []) params else params in
  encodings ← map_elements validateRtpEncodingParameters (prop "encodings" params);
  let params := set_prop "encodings" encodings params in
  throw_if (ill_typed "object" (prop "rtcp" params)) (TypeError "params.rtcp is not an object");;
  let params := if negb (truthy (prop "rtcp" params))
                then set_prop "rtcp" (VObj []) params else params in
  rtcp ← validateRtcpParameters (prop "rtcp" params);
  Ok (set_prop "rtcp" rtcp params).

Definition validateNumSctpStreams (numStreams : val) : result val :=
  require_object "numStreams is not an object" numStreams;;
  throw_if (negb (is_type "number" (prop "OS" numStreams))) (TypeError "missing numStreams.OS");;
  throw_if (negb (is_type "number" (prop "MIS" numStreams))) (TypeError "missing numStreams.MIS");;
  Ok numStreams.

Definition validateSctpCapabilities (caps : val) : result val :=
  require_object "caps is not an object" caps;;
  throw_if (missing "object" (prop "numStreams" caps)) (TypeError "missing caps.numStreams");;
  validateNumSctpStreams (prop "numStreams" caps);;
  Ok caps.

Definition validateSctpParameters (params : val) : result val :=
  require_object "params is not an object" params;;
  throw_if (negb (is_type "number" (prop "port" params))) (TypeError "missing params.port");;
  throw_if (negb (is_type "number" (prop "OS" params))) (TypeError "missing params.OS");;
  throw_if (negb (is_type "number" (prop "MIS" params))) (TypeError "missing params.MIS");;
  throw_if (negb (is_type "number" (prop "maxMessageSize" params)))
           (TypeError "missing params.maxMessageSize");;
  Ok params.

Definition validateSctpStreamParameters (params : val) : result val :=
  require_object "params is not an object" params;;
  throw_if (negb (is_type "number" (prop "streamId" params))) (TypeError "missing params.streamId");;
  let orderedGiven := is_type "boolean" (prop "ordered" params) in
  let params := if orderedGiven then params else set_prop "ordered" (VBool true) params in
  throw_if (ill_typed "number" (prop "maxPacketLifeTime" params))
           (TypeError "invalid params.maxPacketLifeTime");;
  throw_if (ill_typed "number" (prop "maxRetransmits" params))
           (TypeError "invalid params.maxRetransmits");;
  throw_if (truthy (prop "maxPacketLifeTime" params) && truthy (prop "maxRetransmits" params))
           (TypeError "cannot provide both maxPacketLifeTime and maxRetransmits");;
  let limited := truthy (prop "maxPacketLifeTime" params) || truthy (prop "maxRetransmits" params) in
  throw_if (orderedGiven && truthy (prop "ordered" params) && limited)
           (TypeError "cannot be ordered with maxPacketLifeTime or maxRetransmits");;
  let params := if negb orderedGiven && limited
                then set_prop "ordered" (VBool false) params else params in
  Ok params.

(** ** What the validators establish *)

Definition wf_RtcpFeedback (fb : val) : Prop :=
  is_obj fb = true /\
  (exists s, prop "type" fb = VStr s /\ s <> "") /\
  (exists s, prop "parameter" fb = VStr s).

Definition wf_codec_param (k : string) (x : val) : Prop :=
  (exists n, x = VNum n) \/ (k <> "apt" /\ exists s, x = VStr s).

Definition wf_parameters (wf : string -> val -> Prop) (v : val) : Prop :=
  is_obj v = true /\ Forall (fun kx => wf kx.1 kx.2) (own_props v).

Definition wf_array (wf : val -> Prop) (v : val) : Prop :=
  exists l ps, v = VArr l ps /\ Forall wf l.

Definition wf_channels (kind : string) (codec : val) : Prop :=
  if String.eqb kind "audio" then exists n, prop "channels" codec = VNum n
  else jget "channels" (own_props codec) = None.

Definition wf_RtpCodecCapability (codec : val) : Prop :=
  is_obj codec = true /\
  (exists s kind, prop "mimeType" codec = VStr s /\ mime_kind s = Some kind /\
     prop "kind" codec = VStr kind /\ wf_channels kind codec) /\
  ill_typed "number" (prop "preferredPayloadType" codec) = false /\
  (exists n, prop "clockRate" codec = VNum n) /\
  wf_parameters wf_codec_param (prop "parameters" codec) /\
  wf_array wf_RtcpFeedback (prop "rtcpFeedback" codec).

Definition wf_RtpHeaderExtension (ext : val) : Prop :=
  is_obj ext = true /\
  (prop "kind" ext = VStr "audio" \/ prop "kind" ext = VStr "video") /\
  (exists s, prop "uri" ext = VStr s /\ s <> "") /\
  (exists n, prop "preferredId" ext = VNum n) /\
  (exists b, prop "preferredEncrypt" ext = VBool b) /\
  (exists s, prop "direction" ext = VStr s /\ s <> "").

Definition wf_RtpCapabilities (caps : val) : Prop :=
  is_obj caps = true /\
  wf_array wf_RtpCodecCapability (prop "codecs" caps) /\
  wf_array wf_RtpHeaderExtension (prop "headerExtensions" caps).

Definition wf_RtpCodecParameters (codec : val) : Prop :=
  is_obj codec = true /\
  (exists s kind, prop "mimeType" codec = VStr s /\ mime_kind s = Some kind /\
     wf_channels kind codec) /\
  (exists n, prop "payloadType" codec = VNum n) /\
  (exists n, prop "clockRate" codec = VNum n) /\
  wf_parameters wf_codec_param (prop "parameters" codec) /\
  wf_array wf_RtcpFeedback (prop "rtcpFeedback" codec).

Definition wf_RtpHeaderExtensionParameters (ext : val) : Prop :=
  is_obj ext = true /\
  (exists s, prop "uri" ext = VStr s /\ s <> "") /\
  (exists n, prop "id" ext = VNum n) /\
  (exists b, prop "encrypt" ext = VBool b) /\
  wf_parameters (fun _ => param_ok) (prop "parameters" ext).

Definition wf_RtpEncodingParameters (e : val) : Prop :=
  is_obj e = true /\
  ill_typed "number" (prop "ssrc" e) = false /\
  ill_typed "string" (prop "rid" e) = false /\
  ill_typed "object" (prop "rtx" e) = false /\
  (truthy (prop "rtx" e) = true -> exists n, prop "ssrc" (prop "rtx" e) = VNum n) /\
  (exists b, prop "dtx" e = VBool b) /\
  ill_typed "string" (prop "scalabilityMode" e) = false.

Definition wf_RtcpParameters (rtcp : val) : Prop :=
  is_obj rtcp = true /\
  ill_typed "string" (prop "cname" rtcp) = false /\
  prop "reducedSize" rtcp = VBool true.

Definition wf_RtpParameters (p : val) : Prop :=
  is_obj p = true /\
  ill_typed "string" (prop "mid" p) = false /\
  wf_array wf_RtpCodecParameters (prop "codecs" p) /\
  wf_array wf_RtpHeaderExtensionParameters (prop "headerExtensions" p) /\
  wf_array wf_RtpEncodingParameters (prop "encodings" p) /\
  wf_RtcpParameters (prop "rtcp" p).

(** ** Automation *)

Lemma missing_string v : missing "string" v = false <-> exists s, v = VStr s /\ s <> "".
Proof.
  unfold missing. split.
  - destruct v as [| |[]|n|s| |]; simpl; rewrite ?orb_true_r; try done.
    intros H. exists s. split; [done|]. by intros ->.
  - intros (s & -> & Hs). simpl. destruct (String.eqb_spec s ""); done.
Qed.

Lemma is_number v : negb (is_type "number" v) = false <-> exists n, v = VNum n.
Proof. split; [destruct v; try done; eauto | by intros (n & ->)]. Qed.

Lemma is_type_object v : missing "object" v = false <-> is_obj v = true.
Proof. destruct v as [| |[]|n|s| |]; unfold missing; simpl; rewrite ?orb_true_r; done. Qed.

Lemma bool_default v :
  ill_typed "boolean" v = false -> truthy v = true -> v = VBool true.
Proof.
  unfold ill_typed. intros H1 H2. rewrite H2 in H1. by destruct v as [| |[]|n|s| |].
Qed.

Lemma string_default v :
  ill_typed "string" v = false -> truthy v = true -> exists s, v = VStr s /\ s <> "".
Proof.
  unfold ill_typed. intros H1 H2. rewrite H2 in H1. simpl in H1.
  apply missing_string. unfold missing. by rewrite H1, H2.
Qed.

Lemma missing_boolean v : missing "boolean" v = false <-> v = VBool true.
Proof.
  unfold missing. destruct v as [| |[]|n|s| |]; simpl; rewrite ?orb_true_r; split; done.
Qed.

Lemma array_or_default v :
  truthy v && negb (isArray v) = false -> truthy v = true -> exists l ps, v = VArr l ps.
Proof. intros H1 H2. rewrite H2 in H1. destruct v; try done. eauto. Qed.

Lemma array_given v : negb (truthy v) || negb (isArray v) = false -> isArray v = true.
Proof. by destruct v as [| |[]|n|s| |]; simpl; rewrite ?orb_true_r. Qed.

(** Simplifies the property accesses of a sequence of assignments. *)
Ltac js_obj := autorewrite with js; first [assumption | reflexivity].
Ltac js_simpl :=
  repeat first
    [ progress autorewrite with js in *
    | rewrite prop_set_prop_eq by js_obj ].

Ltac js_inv :=
  cbv zeta in *; inv_result;
  repeat match goal with
  | H : require_object _ _ = Ok _ |- _ => apply require_object_Ok in H
  | H : missing "string" _ = false |- _ => apply missing_string in H as (? & ? & ?)
  | H : negb (is_type "number" _) = false |- _ => apply is_number in H as (? & ?)
  end.

(** ** RTCP feedback and parameters *)

Lemma validateRtcpFeedback_wf fb fb' :
  validateRtcpFeedback fb = Ok fb' -> wf_RtcpFeedback fb'.
Proof.
  unfold validateRtcpFeedback, wf_RtcpFeedback. intros H. js_inv.
  destruct (missing "string" (prop "parameter" fb)) eqn:Hp; js_simpl; split_and!; eauto.
  apply missing_string in Hp as (s & ? & ?). eauto.
Qed.

Lemma wf_validateRtcpFeedback fb : wf_RtcpFeedback fb -> validateRtcpFeedback fb = Ok fb.
Proof.
  intros (Ho & Hs & (p & Hp)). unfold validateRtcpFeedback.
  rewrite require_object_pass by done. rewrite throw_if_pass by (by apply missing_string).
  destruct (missing "string" (prop "parameter" fb)) eqn:Hm; [|done].
  cbv zeta. rewrite set_prop_same; [done|done|].
  destruct (String.eqb_spec p "") as [->|Hne]; [done|].
  rewrite (proj2 (missing_string _)) in Hm; [done|eauto].
Qed.

Lemma validateCodecParameter_wf k x y :
  validateCodecParameter k x = Ok y -> wf_codec_param k y.
Proof.
  unfold validateCodecParameter, wf_codec_param. intros H. js_inv.
  destruct x; simpl in *; try done;
    (destruct (String.eqb_spec k "apt"); simpl in *; [try done|]; eauto).
Qed.

Lemma wf_validateCodecParameter k x :
  wf_codec_param k x -> validateCodecParameter k x = Ok x.
Proof.
  intros [(n & ->)|(Hk & s & ->)]; unfold validateCodecParameter; simpl.
  - by rewrite andb_false_r.
  - by destruct (String.eqb_spec k "apt").
Qed.

Lemma validateExtParameter_wf k x y : validateExtParameter k x = Ok y -> param_ok y.
Proof.
  unfold validateExtParameter, param_ok. intros H. js_inv.
  destruct x; simpl in *; try done; eauto.
Qed.

Lemma wf_validateExtParameter k x : param_ok x -> validateExtParameter k x = Ok x.
Proof. by intros [(n & ->)|(s & ->)]. Qed.

(** The steps the codec validators share. *)
Lemma parameters_step (f : string -> val -> result val) (P : string -> val -> Prop) v ps :
  (forall k x y, f k x = Ok y -> P k y) ->
  is_obj v = true ->
  map_props f (prop "parameters" (if missing "object" (prop "parameters" v)
     then set_prop "parameters" (VObj []) v else v)) = Ok ps ->
  wf_parameters P ps.
Proof.
  intros Hf Ho H. destruct (missing _ _) eqn:Hm.
  - rewrite prop_set_prop_eq in H by done. simpl in H.
    injection H as <-. by split; [|constructor].
  - apply is_type_object in Hm. apply (map_props_Ok f P) in H as (? & _ & ?); [|done..].
    by split.
Qed.

Lemma array_step (g : val -> result val) (Q : val -> Prop) v w :
  (forall x y, g x = Ok y -> Q y) ->
  isArray v = true -> map_elements g v = Ok w -> wf_array Q w.
Proof. intros Hg Hv H. eapply map_elements_Ok; eauto. Qed.

Lemma wf_array_id (g : val -> result val) (Q : val -> Prop) v :
  (forall x, Q x -> g x = Ok x) -> wf_array Q v -> map_elements g v = Ok v.
Proof. intros Hg (l & ps & -> & Hl). by apply (map_elements_id g Q). Qed.

Lemma feedback_default v :
  is_obj v = true ->
  isArray (prop "rtcpFeedback" (if negb (truthy (prop "rtcpFeedback" v)) || negb (isArray (prop "rtcpFeedback" v))
     then set_prop "rtcpFeedback" (VArr [] []) v else v)) = true.
Proof.
  intros Ho. destruct (_ || _) eqn:Hb; [by rewrite prop_set_prop_eq|].
  by apply array_given.
Qed.

(** ** Codecs

    Both codec validators end with the defaults of [channels], [parameters]
    and [rtcpFeedback]. *)

Definition codec_tail (kind : string) (codec : val) : result val :=
  let codec :=
    if String.eqb kind "audio" then
      if negb (is_type "number" (prop "channels" codec))
      then set_prop "channels" (VNum 1) codec else codec
    else delete_prop "channels" codec in
  let codec := if missing "object" (prop "parameters" codec)
               then set_prop "parameters" (VObj []) codec else codec in
  parameters ← map_props validateCodecParameter (prop "parameters" codec);
  let codec := set_prop "parameters" parameters codec in
  let codec := if negb (truthy (prop "rtcpFeedback" codec)) || negb (isArray (prop "rtcpFeedback" codec))
               then set_prop "rtcpFeedback" (VArr [] []) codec else codec in
  rtcpFeedback ← map_elements validateRtcpFeedback (prop "rtcpFeedback" codec);
  Ok (set_prop "rtcpFeedback" rtcpFeedback codec).

Definition wf_codec_tail (kind : string) (codec : val) : Prop :=
  is_obj codec = true /\ wf_channels kind codec /\
  wf_parameters wf_codec_param (prop "parameters" codec) /\
  wf_array wf_RtcpFeedback (prop "rtcpFeedback" codec).

(** Conditional assignments keep the other properties. *)
Lemma is_obj_if (b : bool) k x v : is_obj (if b then set_prop k x v else v) = is_obj v.
Proof. destruct b; [by autorewrite with js | done]. Qed.

Lemma prop_if (b : bool) k k' x v :
  k <> k' -> prop k (if b then set_prop k' x v else v) = prop k v.
Proof. intros Hk. destruct b; [by apply prop_set_prop_ne | done]. Qed.

Lemma jget_if (b : bool) k k' x v :
  k <> k' -> jget k (own_props (if b then set_prop k' x v else v)) = jget k (own_props v).
Proof. intros Hk. destruct b; [by apply jget_set_prop_ne | done]. Qed.

#[export] Hint Rewrite is_obj_if : js.
#[export] Hint Rewrite prop_if jget_if jget_set_prop_ne using discriminate : js.

Definition channels_step (kind : string) (codec : val) : val :=
  if String.eqb kind "audio" then
    if negb (is_type "number" (prop "channels" codec))
    then set_prop "channels" (VNum 1) codec else codec
  else delete_prop "channels" codec.

Lemma is_obj_channels_step kind v : is_obj (channels_step kind v) = is_obj v.
Proof. unfold channels_step. destruct (String.eqb kind "audio"); by autorewrite with js. Qed.

Lemma prop_channels_step kind k v : k <> "channels" -> prop k (channels_step kind v) = prop k v.
Proof.
  intros Hk. unfold channels_step. destruct (String.eqb kind "audio").
  - by apply prop_if.
  - by apply prop_delete_prop_ne.
Qed.

Lemma channels_step_wf kind v : is_obj v = true -> wf_channels kind (channels_step kind v).
Proof.
  intros Ho. unfold wf_channels, channels_step. destruct (String.eqb kind "audio").
  - destruct (negb _) eqn:Hn; [rewrite prop_set_prop_eq by done; eauto|].
    by apply is_number.
  - by apply jget_delete_prop.
Qed.

Lemma wf_channels_step kind v : wf_channels kind v -> channels_step kind v = v.
Proof.
  unfold wf_channels, channels_step. destruct (String.eqb kind "audio").
  - by intros (n & ->).
  - apply delete_prop_absent.
Qed.

#[export] Hint Rewrite is_obj_channels_step : js.
#[export] Hint Rewrite prop_channels_step using discriminate : js.

Lemma wf_channels_ext kind v v' :
  prop "channels" v' = prop "channels" v ->
  jget "channels" (own_props v') = jget "channels" (own_props v) ->
  wf_channels kind v -> wf_channels kind v'.
Proof. unfold wf_channels. by intros -> ->. Qed.

Lemma codec_tail_unfold kind codec : codec_tail kind codec =
  (let codec := channels_step kind codec in
   let codec := if missing "object" (prop "parameters" codec)
               then set_prop "parameters" (VObj []) codec else codec in
   parameters ← map_props validateCodecParameter (prop "parameters" codec);
   let codec := set_prop "parameters" parameters codec in
   let codec := if negb (truthy (prop "rtcpFeedback" codec)) || negb (isArray (prop "rtcpFeedback" codec))
               then set_prop "rtcpFeedback" (VArr [] []) codec else codec in
   rtcpFeedback ← map_elements validateRtcpFeedback (prop "rtcpFeedback" codec);
   Ok (set_prop "rtcpFeedback" rtcpFeedback codec)).
Proof. done. Qed.

(** What the shared steps establish, and the properties they leave alone. *)
Lemma codec_tail_wf kind codec codec' :
  is_obj codec = true -> codec_tail kind codec = Ok codec' ->
  wf_codec_tail kind codec' /\
  (forall k, k <> "channels" -> k <> "parameters" -> k <> "rtcpFeedback" ->
     prop k codec' = prop k codec).
Proof.
  intros Ho H. rewrite codec_tail_unfold in H. cbv zeta in H.
  pose proof (channels_step_wf kind _ Ho) as Hch.
  assert (forall k, k <> "channels" ->
    prop k (channels_step kind codec) = prop k codec) as Hk by (intros; by apply prop_channels_step).
  rewrite <-(is_obj_channels_step kind) in Ho.
  remember (channels_step kind codec) as v eqn:Hv. clear Hv.
  inv_result. rename a into ps, a0 into fbs.
  apply (parameters_step _ wf_codec_param) in Ha; [|apply validateCodecParameter_wf|done].
  apply (array_step _ wf_RtcpFeedback) in Ha0;
    [|apply validateRtcpFeedback_wf|apply feedback_default; by autorewrite with js].
  split.
  - split_and!; [by autorewrite with js| | |].
    + eapply wf_channels_ext; [..|exact Hch]; by autorewrite with js.
    + autorewrite with js. by rewrite prop_set_prop_eq by (by autorewrite with js).
    + by rewrite prop_set_prop_eq by (by autorewrite with js).
  - intros k H1 H2 H3. rewrite <-Hk by done.
    rewrite prop_set_prop_ne, prop_if, prop_set_prop_ne, prop_if by done. done.
Qed.

Lemma wf_parameters_given (P : string -> val -> Prop) v (w : val) :
  wf_parameters P (prop "parameters" v) ->
  (if missing "object" (prop "parameters" v) then w else v) = v.
Proof. intros [Ho _]. by rewrite (proj2 (is_type_object _) Ho). Qed.

Lemma wf_array_given (Q : val -> Prop) v :
  wf_array Q v -> negb (truthy v) || negb (isArray v) = false.
Proof. by intros (l & ps & -> & _). Qed.

Lemma is_obj_ne v : is_obj v = true -> v <> VUndef.
Proof. by destruct v. Qed.

Lemma wf_array_ne (Q : val -> Prop) v : wf_array Q v -> v <> VUndef.
Proof. by intros (l & ps & -> & _). Qed.

Lemma wf_codec_tail_id kind codec :
  wf_codec_tail kind codec -> codec_tail kind codec = Ok codec.
Proof.
  intros (Ho & Hch & Hps & Hfb). rewrite codec_tail_unfold. cbv zeta.
  rewrite (wf_channels_step _ _ Hch), (wf_parameters_given _ _ _ Hps).
  erewrite bind_pass by (apply (map_props_id _ wf_codec_param);
    [apply wf_validateCodecParameter | apply Hps]).
  rewrite set_prop_same by (first [done | by apply is_obj_ne, Hps]).
  rewrite (wf_array_given _ _ Hfb).
  erewrite bind_pass by (apply (wf_array_id _ wf_RtcpFeedback);
    [apply wf_validateRtcpFeedback | exact Hfb]).
  rewrite set_prop_same by (first [done | by eapply wf_array_ne]). done.
Qed.

Lemma from_option_pass {A B} e (o : option A) a (k : A -> result B) :
  o = Some a -> (from_option_or e o ≫= k) = k a.
Proof. by intros ->. Qed.

Lemma as_str_missing v s : v = VStr s -> s <> "" -> missing "string" v = false.
Proof. intros. apply missing_string. eauto. Qed.

Lemma validateRtpCodecCapability_unfold codec :
  validateRtpCodecCapability codec =
  (require_object "codec is not an object" codec;;
   throw_if (missing "string" (prop "mimeType" codec)) (TypeError "missing codec.mimeType");;
   mimeType ← from_option_or (TypeError "missing codec.mimeType") (as_str (prop "mimeType" codec));
   kind ← from_option_or (TypeError "invalid codec.mimeType") (mime_kind mimeType);
   let codec := set_prop "kind" (VStr kind) codec in
   throw_if (ill_typed "number" (prop "preferredPayloadType" codec))
            (TypeError "invalid codec.preferredPayloadType");;
   throw_if (negb (is_type "number" (prop "clockRate" codec)))
            (TypeError "missing codec.clockRate");;
   codec_tail kind codec).
Proof. done. Qed.

Lemma validateRtpCodecParameters_unfold codec :
  validateRtpCodecParameters codec =
  (require_object "codec is not an object" codec;;
   throw_if (missing "string" (prop "mimeType" codec)) (TypeError "missing codec.mimeType");;
   mimeType ← from_option_or (TypeError "missing codec.mimeType") (as_str (prop "mimeType" codec));
   kind ← from_option_or (TypeError "invalid codec.mimeType") (mime_kind mimeType);
   throw_if (negb (is_type "number" (prop "payloadType" codec)))
            (TypeError "missing codec.payloadType");;
   throw_if (negb (is_type "number" (prop "clockRate" codec)))
            (TypeError "missing codec.clockRate");;
   codec_tail kind codec).
Proof. done. Qed.

Lemma validateRtpCodecCapability_wf codec codec' :
  validateRtpCodecCapability codec = Ok codec' -> wf_RtpCodecCapability codec'.
Proof.
  rewrite validateRtpCodecCapability_unfold. intros H. cbv zeta in H. js_inv.
  apply codec_tail_wf in H as [(Ho & Hch & Hps & Hfb) Hk]; [|by autorewrite with js].
  rewrite prop_set_prop_ne in H1 by done. rewrite prop_set_prop_ne in H2 by done.
  destruct (prop "mimeType" codec) as [| | | |s| |] eqn:Hm; try done.
  injection Ha0 as ->. unfold wf_RtpCodecCapability. rewrite !Hk by done.
  rewrite prop_set_prop_eq by done. rewrite !prop_set_prop_ne by done.
  rewrite H2. split_and!; eauto 10.
Qed.

Lemma validateRtpCodecParameters_wf codec codec' :
  validateRtpCodecParameters codec = Ok codec' -> wf_RtpCodecParameters codec'.
Proof.
  rewrite validateRtpCodecParameters_unfold. intros H. js_inv.
  apply codec_tail_wf in H as [(Ho & Hch & Hps & Hfb) Hk]; [|done].
  destruct (prop "mimeType" codec) as [| | | |s| |] eqn:Hm; try done.
  injection Ha0 as ->. unfold wf_RtpCodecParameters. rewrite !Hk by done.
  split_and!; eauto 10.
Qed.

Lemma mime_kind_ne s kind : mime_kind s = Some kind -> s <> "".
Proof. by intros H ->. Qed.

Lemma wf_validateRtpCodecCapability codec :
  wf_RtpCodecCapability codec -> validateRtpCodecCapability codec = Ok codec.
Proof.
  intros (Ho & (s & kind & Hs & Hkind & Hk & Hch) & Hpt & Hcr & Hps & Hfb).
  rewrite validateRtpCodecCapability_unfold, require_object_pass by done.
  rewrite throw_if_pass by (eapply as_str_missing; [done|by eapply mime_kind_ne]).
  erewrite from_option_pass by (by rewrite Hs). erewrite from_option_pass by done.
  cbv zeta. rewrite (set_prop_same "kind") by done.
  rewrite throw_if_pass by done. rewrite throw_if_pass by (by apply is_number).
  apply wf_codec_tail_id. by split_and!.
Qed.

Lemma wf_validateRtpCodecParameters codec :
  wf_RtpCodecParameters codec -> validateRtpCodecParameters codec = Ok codec.
Proof.
  intros (Ho & (s & kind & Hs & Hkind & Hch) & Hpt & Hcr & Hps & Hfb).
  rewrite validateRtpCodecParameters_unfold, require_object_pass by done.
  rewrite throw_if_pass by (eapply as_str_missing; [done|by eapply mime_kind_ne]).
  erewrite from_option_pass by (by rewrite Hs). erewrite from_option_pass by done.
  rewrite throw_if_pass by (by apply is_number). rewrite throw_if_pass by (by apply is_number).
  apply wf_codec_tail_id. by split_and!.
Qed.

(** ** Header extensions, encodings and RTCP *)

Lemma as_str_Some v s : as_str v = Some s -> v = VStr s.
Proof. destruct v; simpl; congruence. Qed.

Lemma validateRtpHeaderExtension_wf ext ext' :
  validateRtpHeaderExtension ext = Ok ext' -> wf_RtpHeaderExtension ext'.
Proof.
  unfold validateRtpHeaderExtension. intros H. js_inv. autorewrite with js in *.
  unfold wf_RtpHeaderExtension. split_and!; autorewrite with js; eauto.
  - apply andb_false_iff in H0 as [H0|H0];
      apply negb_false_iff, bool_decide_eq_true, as_str_Some in H0; auto.
  - destruct (truthy (prop "preferredEncrypt" ext)) eqn:Hb; simpl.
    + apply bool_default in H3; eauto.
    + rewrite prop_set_prop_eq by done. eauto.
  - destruct (truthy (prop "direction" ext)) eqn:Hd; simpl.
    + apply string_default in H4 as (s & ? & ?); autorewrite with js; eauto.
    + rewrite prop_set_prop_eq by (by autorewrite with js). eauto.
Qed.

Lemma falsy_bool v b : v = VBool b -> negb (truthy v) = true -> v = VBool false.
Proof. intros ->. by destruct b. Qed.

Lemma string_truthy v s : v = VStr s -> s <> "" -> truthy v = true.
Proof. intros -> Hs. simpl. by destruct (String.eqb_spec s ""). Qed.

Lemma set_bool_same k v b :
  prop k v = VBool b ->
  (if negb (truthy (prop k v)) then set_prop k (VBool false) v else v) = v.
Proof.
  intros Hb. destruct (negb _) eqn:Hn; [|done].
  apply set_prop_same; [done|]. by eapply falsy_bool.
Qed.

Lemma wf_validateRtpHeaderExtension ext :
  wf_RtpHeaderExtension ext -> validateRtpHeaderExtension ext = Ok ext.
Proof.
  intros (Ho & Hk & Hu & Hid & (b & Hb) & (d & Hd & Hne)).
  unfold validateRtpHeaderExtension. rewrite require_object_pass by done.
  rewrite throw_if_pass by (destruct Hk as [-> | ->]; done).
  rewrite throw_if_pass by (by apply missing_string).
  rewrite throw_if_pass by (by apply is_number).
  rewrite throw_if_pass by (rewrite Hb; by destruct b).
  cbv zeta. rewrite (set_bool_same _ _ _ Hb).
  rewrite throw_if_pass by (rewrite Hd; unfold ill_typed; simpl; by rewrite andb_false_r).
  by rewrite (string_truthy _ _ Hd Hne).
Qed.

Lemma validateRtpHeaderExtensionParameters_wf ext ext' :
  validateRtpHeaderExtensionParameters ext = Ok ext' -> wf_RtpHeaderExtensionParameters ext'.
Proof.
  unfold validateRtpHeaderExtensionParameters. intros H. js_inv.
  apply (parameters_step _ (fun _ => param_ok)) in Ha0;
    [|apply validateExtParameter_wf|by autorewrite with js].
  unfold wf_RtpHeaderExtensionParameters. split_and!; autorewrite with js; eauto.
  - destruct (truthy (prop "encrypt" ext)) eqn:Hb; simpl.
    + apply bool_default in H2; eauto.
    + rewrite prop_set_prop_eq by done. eauto.
  - by rewrite prop_set_prop_eq by (by autorewrite with js).
Qed.

Lemma wf_validateRtpHeaderExtensionParameters ext :
  wf_RtpHeaderExtensionParameters ext -> validateRtpHeaderExtensionParameters ext = Ok ext.
Proof.
  intros (Ho & Hu & Hid & (b & Hb) & Hps).
  unfold validateRtpHeaderExtensionParameters. rewrite require_object_pass by done.
  rewrite throw_if_pass by (by apply missing_string).
  rewrite throw_if_pass by (by apply is_number).
  rewrite throw_if_pass by (rewrite Hb; by destruct b).
  cbv zeta. rewrite (set_bool_same _ _ _ Hb), (wf_parameters_given _ _ _ Hps).
  erewrite bind_pass by (apply (map_props_id _ (fun _ => param_ok));
    [apply wf_validateExtParameter | apply Hps]).
  by rewrite set_prop_same by (first [done | by apply is_obj_ne, Hps]).
Qed.

Lemma validateRtpEncodingParameters_wf e e' :
  validateRtpEncodingParameters e = Ok e' -> wf_RtpEncodingParameters e'.
Proof.
  unfold validateRtpEncodingParameters. intros H. js_inv. autorewrite with js in *.
  unfold wf_RtpEncodingParameters. split_and!; autorewrite with js; try done.
  - intros Hr. rewrite Hr in *. by apply is_number.
  - destruct (missing "boolean" (prop "dtx" e)) eqn:Hd.
    + rewrite prop_set_prop_eq by done. eauto.
    + apply missing_boolean in Hd. eauto.
Qed.

Lemma wf_validateRtpEncodingParameters e :
  wf_RtpEncodingParameters e -> validateRtpEncodingParameters e = Ok e.
Proof.
  intros (Ho & Hs & Hr & Hx & Hxs & (b & Hb) & Hm).
  unfold validateRtpEncodingParameters. rewrite require_object_pass by done.
  rewrite !throw_if_pass by done.
  rewrite throw_if_pass by (destruct (truthy _); [by apply is_number, Hxs|done]).
  cbv zeta.
  assert ((if missing "boolean" (prop "dtx" e)
           then set_prop "dtx" (VBool false) e else e) = e) as ->.
  { destruct b; [by rewrite (proj2 (missing_boolean _)) by done|].
    destruct (missing _ _); [by apply set_prop_same | done]. }
  by rewrite throw_if_pass.
Qed.

Lemma validateRtcpParameters_wf r r' :
  validateRtcpParameters r = Ok r' -> wf_RtcpParameters r'.
Proof.
  unfold validateRtcpParameters. intros H. js_inv.
  unfold wf_RtcpParameters. split_and!; autorewrite with js; try done.
  destruct (missing "boolean" (prop "reducedSize" r)) eqn:Hd.
  - by rewrite prop_set_prop_eq.
  - by apply missing_boolean in Hd.
Qed.

Lemma wf_validateRtcpParameters r :
  wf_RtcpParameters r -> validateRtcpParameters r = Ok r.
Proof.
  intros (Ho & Hc & Hr). unfold validateRtcpParameters.
  rewrite require_object_pass, throw_if_pass by done.
  by rewrite (proj2 (missing_boolean _) Hr).
Qed.

(** ** Capabilities and parameters *)

(** [if (v.k && !Array.isArray(v.k)) throw ...; else if (!v.k) v.k = \[\];] *)
Lemma optional_array_step k v :
  is_obj v = true -> truthy (prop k v) && negb (isArray (prop k v)) = false ->
  isArray (prop k (if negb (truthy (prop k v)) then set_prop k (VArr [] []) v else v)) = true.
Proof.
  intros Ho Ha. destruct (truthy (prop k v)) eqn:Ht; simpl.
  - by apply negb_false_iff in Ha.
  - by rewrite prop_set_prop_eq.
Qed.

Lemma wf_array_truthy (Q : val -> Prop) v :
  wf_array Q v -> truthy v && negb (isArray v) = false /\ truthy v = true.
Proof. by intros (l & ps & -> & _). Qed.

Lemma validateRtpCapabilities_wf caps caps' :
  validateRtpCapabilities caps = Ok caps' -> wf_RtpCapabilities caps'.
Proof.
  unfold validateRtpCapabilities. intros H. js_inv. rename a0 into codecs, a1 into exts.
  apply (array_step _ wf_RtpCodecCapability) in Ha0;
    [|apply validateRtpCodecCapability_wf|by apply optional_array_step].
  apply (array_step _ wf_RtpHeaderExtension) in Ha1;
    [|apply validateRtpHeaderExtension_wf|apply optional_array_step; [by autorewrite with js|done]].
  split_and!; autorewrite with js; [done| |].
  - by rewrite prop_set_prop_eq by (by autorewrite with js).
  - by rewrite prop_set_prop_eq by (by autorewrite with js).
Qed.

Lemma wf_validateRtpCapabilities caps :
  wf_RtpCapabilities caps -> validateRtpCapabilities caps = Ok caps.
Proof.
  intros (Ho & Hc & He). unfold validateRtpCapabilities.
  rewrite require_object_pass by done.
  rewrite throw_if_pass by (by eapply wf_array_truthy). cbv zeta.
  rewrite (proj2 (wf_array_truthy _ _ Hc)). simpl negb. cbv iota.
  erewrite bind_pass by (apply (wf_array_id _ wf_RtpCodecCapability);
    [apply wf_validateRtpCodecCapability | exact Hc]).
  rewrite (set_prop_same "codecs") by (first [done | by eapply wf_array_ne]).
  rewrite throw_if_pass by (by eapply wf_array_truthy).
  rewrite (proj2 (wf_array_truthy _ _ He)). simpl negb. cbv iota.
  erewrite bind_pass by (apply (wf_array_id _ wf_RtpHeaderExtension);
    [apply wf_validateRtpHeaderExtension | exact He]).
  by rewrite set_prop_same by (first [done | by eapply wf_array_ne]).
Qed.

Lemma validateRtpParameters_wf p p' :
  validateRtpParameters p = Ok p' -> wf_RtpParameters p'.
Proof.
  unfold validateRtpParameters. intros H. js_inv.
  apply negb_false_iff in H1.
  apply (array_step _ wf_RtpCodecParameters) in Ha0; [|apply validateRtpCodecParameters_wf|done].
  apply (array_step _ wf_RtpHeaderExtensionParameters) in Ha1;
    [|apply validateRtpHeaderExtensionParameters_wf
     |apply optional_array_step; [by autorewrite with js|done]].
  apply (array_step _ wf_RtpEncodingParameters) in Ha2;
    [|apply validateRtpEncodingParameters_wf
     |apply optional_array_step; [by autorewrite with js|done]].
  apply validateRtcpParameters_wf in Ha3.
  split_and!; autorewrite with js; try done.
  all: by rewrite prop_set_prop_eq by (by autorewrite with js).
Qed.

Lemma wf_validateRtpParameters p :
  wf_RtpParameters p -> validateRtpParameters p = Ok p.
Proof.
  intros (Ho & Hm & Hc & He & Hn & Hr). unfold validateRtpParameters.
  rewrite require_object_pass by done. rewrite throw_if_pass by done.
  rewrite throw_if_pass by (by destruct Hc as (l & ps & -> & _)).
  erewrite bind_pass by (apply (wf_array_id _ wf_RtpCodecParameters);
    [apply wf_validateRtpCodecParameters | exact Hc]). cbv zeta.
  rewrite (set_prop_same "codecs") by (first [done | by eapply wf_array_ne]).
  rewrite throw_if_pass by (by eapply wf_array_truthy).
  rewrite (proj2 (wf_array_truthy _ _ He)). simpl negb. cbv iota.
  erewrite bind_pass by (apply (wf_array_id _ wf_RtpHeaderExtensionParameters);
    [apply wf_validateRtpHeaderExtensionParameters | exact He]).
  rewrite (set_prop_same "headerExtensions") by (first [done | by eapply wf_array_ne]).
  rewrite throw_if_pass by (by eapply wf_array_truthy).
  rewrite (proj2 (wf_array_truthy _ _ Hn)). simpl negb. cbv iota.
  erewrite bind_pass by (apply (wf_array_id _ wf_RtpEncodingParameters);
    [apply wf_validateRtpEncodingParameters | exact Hn]).
  rewrite (set_prop_same "encodings") by (first [done | by eapply wf_array_ne]).
  assert (is_obj (prop "rtcp" p) = true) as Hro by apply Hr.
  rewrite throw_if_pass by (by destruct (prop "rtcp" p)).
  replace (truthy (prop "rtcp" p)) with true by (by destruct (prop "rtcp" p)).
  simpl negb. cbv iota.
  erewrite bind_pass by (by apply wf_validateRtcpParameters).
  by rewrite set_prop_same by (first [done | by apply is_obj_ne]).
Qed.

(** ** Accepted values inhabit the TypeScript types *)

Lemma wf_array_view {A} (Q : val -> Prop) (f : val -> option A) v :
  (forall x, Q x -> is_Some (f x)) -> wf_array Q v -> is_Some (array_view f v).
Proof.
  intros Hf (l & ps & -> & Hl). apply views_is_Some. eapply Forall_impl; [exact Hl|]. auto.
Qed.

Lemma RtcpFeedback_view_wf fb : wf_RtcpFeedback fb -> is_Some (RtcpFeedback_view fb).
Proof. intros (_ & (s & Hs & _) & (p & Hp)). unfold RtcpFeedback_view. rewrite Hs, Hp. by eexists. Qed.

Lemma params_view_wf v : wf_parameters wf_codec_param v -> is_Some (params_view (own_props v)).
Proof.
  intros [_ H]. apply params_view_is_Some. eapply Forall_impl; [exact H|].
  intros [k x] [(n & ->)|(_ & s & ->)]; [right|left]; by eexists.
Qed.

Lemma as_kind_mime s kind : mime_kind s = Some kind -> is_Some (as_kind (VStr kind)).
Proof.
  unfold mime_kind. destruct (starts_with_any _); [|done].
  destruct (String.eqb _ _); [intros [= <-]; by eexists|].
  destruct (String.eqb _ _); [intros [= <-]; by eexists|done].
Qed.

Lemma RtpCodecCapability_view_wf c :
  wf_RtpCodecCapability c -> is_Some (RtpCodecCapability_view c).
Proof.
  intros (_ & (s & kind & Hs & Hkind & Hk & _) & _ & (n & Hn) & Hps & Hfb).
  unfold RtpCodecCapability_view. rewrite Hk, Hs, Hn.
  destruct (as_kind_mime _ _ Hkind) as [kd ->].
  destruct (params_view_wf _ Hps) as [ps ->].
  destruct (wf_array_view _ _ _ RtcpFeedback_view_wf Hfb) as [fbs ->]. by eexists.
Qed.

Lemma RtpCodecParameters_view_wf c :
  wf_RtpCodecParameters c -> is_Some (RtpCodecParameters_view c).
Proof.
  intros (_ & (s & kind & Hs & _ & _) & (m & Hm) & (n & Hn) & Hps & Hfb).
  unfold RtpCodecParameters_view. rewrite Hs, Hm, Hn.
  destruct (params_view_wf _ Hps) as [ps ->].
  destruct (wf_array_view _ _ _ RtcpFeedback_view_wf Hfb) as [fbs ->]. by eexists.
Qed.

Lemma RtpHeaderExtension_view_wf e :
  wf_RtpHeaderExtension e -> is_Some (RtpHeaderExtension_view e).
Proof.
  intros (_ & Hk & (s & Hs & _) & (n & Hn) & (b & Hb) & (d & Hd & _)).
  unfold RtpHeaderExtension_view. rewrite Hs, Hn, Hb, Hd.
  destruct Hk as [-> | ->]; by eexists.
Qed.

Lemma RtpHeaderExtensionParameters_view_wf e :
  wf_RtpHeaderExtensionParameters e -> is_Some (RtpHeaderExtensionParameters_view e).
Proof.
  intros (_ & (s & Hs & _) & (n & Hn) & (b & Hb) & _ & Hps).
  unfold RtpHeaderExtensionParameters_view. rewrite Hs, Hn, Hb.
  destruct (params_view_is_Some (own_props (prop "parameters" e))) as [ps ->]; [|by eexists].
  eapply Forall_impl; [exact Hps|]. by intros [k x].
Qed.

Lemma RtpEncodingParameters_view_wf e :
  wf_RtpEncodingParameters e -> is_Some (RtpEncodingParameters_view e).
Proof.
  intros (_ & _ & _ & _ & _ & (b & Hb) & _). unfold RtpEncodingParameters_view.
  rewrite Hb. by eexists.
Qed.

Lemma RtpCapabilities_view_wf c : wf_RtpCapabilities c -> is_Some (RtpCapabilities_view c).
Proof.
  intros (_ & Hc & He). unfold RtpCapabilities_view.
  destruct (wf_array_view _ _ _ RtpCodecCapability_view_wf Hc) as [cs ->].
  destruct (wf_array_view _ _ _ RtpHeaderExtension_view_wf He) as [es ->]. by eexists.
Qed.

Lemma RtpParameters_view_wf p : wf_RtpParameters p -> is_Some (RtpParameters_view p).
Proof.
  intros (_ & _ & Hc & He & Hn & _ & _ & Hr). unfold RtpParameters_view.
  destruct (wf_array_view _ _ _ RtpCodecParameters_view_wf Hc) as [cs ->].
  destruct (wf_array_view _ _ _ RtpHeaderExtensionParameters_view_wf He) as [es ->].
  destruct (wf_array_view _ _ _ RtpEncodingParameters_view_wf Hn) as [ns ->].
  unfold RtcpParameters_view. cbn. rewrite Hr. by eexists.
Qed.

(** ** Main results *)


(** The same for [validateRtpCapabilities] and [RtpCapabilities]. *)
Theorem validateRtpCapabilities_sound caps caps' :
  validateRtpCapabilities caps = Ok caps' ->
  is_Some (RtpCapabilities_view caps') /\ validateRtpCapabilities caps' = Ok caps'.
Proof.
  intros H%validateRtpCapabilities_wf.
  split; [by apply RtpCapabilities_view_wf | by apply wf_validateRtpCapabilities].
Qed.

(** [validateRtcpParameters] never lets [reducedSize] through as [false]:
    an explicit [false] is falsy and is overwritten with the default. *)
Theorem validateRtcpParameters_forces_reducedSize r r' :
  validateRtcpParameters r = Ok r' -> prop "reducedSize" r' = VBool true.
Proof. intros H%validateRtcpParameters_wf. apply H. Qed.

Definition example_params : val :=
  VObj [("codecs", VArr [VObj [("mimeType", VStr "audio/opus"); ("payloadType", VNum 111);
                               ("clockRate", VNum 48000)]] [])].


Definition example_caps : val :=
  VObj [("codecs", VArr [VObj [("mimeType", VStr "Video/VP8"); ("clockRate", VNum 90000);
                               ("channels", VNum 2)]] [])].

Lemma validateRtpCapabilities_sound_witness :
  exists c, validateRtpCapabilities example_caps = Ok c /\
    is_Some (RtpCapabilities_view c) /\ validateRtpCapabilities c = Ok c.
Proof.
  eexists. split; [vm_compute; reflexivity|].
  apply (validateRtpCapabilities_sound example_caps). vm_compute. reflexivity.
Defined.

Lemma validateRtcpParameters_forces_reducedSize_witness :
  exists r', validateRtcpParameters (VObj [("reducedSize", VBool false)]) = Ok r' /\
    prop "reducedSize" r' = VBool true.
Proof.
  eexists. split; [vm_compute; reflexivity|].
  apply (validateRtcpParameters_forces_reducedSize (VObj [("reducedSize", VBool false)])).
  vm_compute. reflexivity.
Defined.

(** ** SCTP stream parameters *)

Lemma jset_jset {V} k (x y : V) (q : list (string * V)) : jset k x (jset k y q) = jset k x q.
Proof.
  induction q as [|[k' z] q IH]; simpl; [by rewrite decide_True|].
  destruct (decide (k = k')) as [->|]; simpl; [by rewrite decide_True|].
  rewrite decide_False by done. by rewrite IH.
Qed.

Lemma own_props_inj v v' :
  is_obj v = true ->
  (forall l ps, v = VArr l ps -> exists l' ps', v' = VArr l' ps' /\ length l = length l') ->
  (forall ps, v = VObj ps -> exists ps', v' = VObj ps') ->
  own_props v = own_props v' -> v = v'.
Proof.
  destruct v as [| | | | |l ps|ps]; try done; intros _ Ha Ho Hp.
  - destruct (Ha _ _ eq_refl) as (l' & ps' & -> & Hl). simpl in Hp.
    apply app_inj_1 in Hp as [Hi ->]; [|by rewrite !length_index_props].
    f_equal. by rewrite <-(snd_index_props l), Hi, snd_index_props.
  - destruct (Ho _ eq_refl) as (ps' & ->). simpl in Hp. by f_equal.
Qed.

Lemma length_set_prop_elements k x l ps l' ps' :
  set_prop k x (VArr l ps) = VArr l' ps' -> length l' = length l.
Proof.
  unfold set_prop. intros [= <- _]. rewrite length_map, length_take.
  destruct (jset_keys_prefix k x (index_props l) ps) as (q & p & -> & Hq).
  apply (f_equal length) in Hq. rewrite !length_map, length_index_props in Hq.
  rewrite length_app. lia.
Qed.

Lemma set_prop_set_prop k x y v :
  is_obj v = true -> set_prop k x (set_prop k y v) = set_prop k x v.
Proof.
  intros Ho. apply own_props_inj.
  - by autorewrite with js.
  - destruct v as [| | | | |l ps|ps]; try done. intros m q Hm.
    destruct (set_prop k y (VArr l ps)) as [| | | | |l1 ps1|] eqn:H1; try done.
    pose proof (length_set_prop_elements _ _ _ _ _ _ H1).
    pose proof (length_set_prop_elements _ _ _ _ _ _ Hm).
    destruct (set_prop k x (VArr l ps)) as [| | | | |l2 ps2|] eqn:H2; try done.
    pose proof (length_set_prop_elements _ _ _ _ _ _ H2).
    exists l2, ps2. split; [done|lia].
  - destruct v as [| | | | |l ps|ps]; try done; simpl; eauto.
  - rewrite !own_props_set_prop by (autorewrite with js; done). apply jset_jset.
Qed.

(** The reliability options: both limits are optional numbers and at most one
    of them is given. *)
Definition limited (p : val) : bool :=
  truthy (prop "maxPacketLifeTime" p) || truthy (prop "maxRetransmits" p).

Definition sctp_stream_acceptable (p : val) : bool :=
  is_obj p && is_type "number" (prop "streamId" p) &&
  negb (ill_typed "number" (prop "maxPacketLifeTime" p)) &&
  negb (ill_typed "number" (prop "maxRetransmits" p)) &&
  negb (truthy (prop "maxPacketLifeTime" p) && truthy (prop "maxRetransmits" p)) &&
  negb (is_type "boolean" (prop "ordered" p) && truthy (prop "ordered" p) && limited p).

(** The value the code leaves in [ordered]: the given one, and otherwise
    unordered delivery exactly when a limit is given. *)
Definition sctp_stream_normalized (p : val) : val :=
  if is_type "boolean" (prop "ordered" p) then p
  else set_prop "ordered" (VBool (negb (limited p))) p.

Lemma require_object_refused {B} msg v (k : unit -> result B) x :
  is_obj v = false -> (require_object msg v ≫= k) = Ok x -> False.
Proof. by destruct v. Qed.

Lemma throw_if_cond {B} b e (k : unit -> result B) :
  (throw_if b e ≫= k) = if b then Err e else k tt.
Proof. by destruct b. Qed.

(** [validateSctpStreamParameters] accepts exactly the parameters with a
    numeric stream id, well-typed and mutually exclusive limits and no limit on
    an explicitly ordered stream; on those it returns its argument with only
    [ordered] filled in. *)
Theorem validateSctpStreamParameters_spec p p' :
  validateSctpStreamParameters p = Ok p' <->
  sctp_stream_acceptable p = true /\ p' = sctp_stream_normalized p.
Proof.
  unfold validateSctpStreamParameters, sctp_stream_acceptable.
  destruct (is_obj p) eqn:Ho; simpl;
    [rewrite require_object_pass by done|by split; [intros ?%require_object_refused|intros []]].
  rewrite !throw_if_cond. cbv zeta.
  unfold sctp_stream_normalized, limited.
  destruct (is_type "number" (prop "streamId" p)); simpl; [|by split; [|intros []]].
  destruct (is_type "boolean" (prop "ordered" p)) eqn:Hb; autorewrite with js; simpl.
  2: rewrite set_prop_set_prop by done.
  all: destruct (ill_typed "number" (prop "maxPacketLifeTime" p)),
    (ill_typed "number" (prop "maxRetransmits" p)),
    (truthy (prop "maxPacketLifeTime" p)), (truthy (prop "maxRetransmits" p));
    simpl; rewrite ?andb_false_r, ?andb_true_r; try by split; [|intros []].
  all: try destruct (truthy (prop "ordered" p)); simpl; split; try done.
  all: first [by intros [= <-] | by intros [? ->]].
Qed.
