(* ===== verification/ScalabilityModes.v ===== *)
(** * scalabilityModes.ts

    The parser of scalability modes such as [L3T2_KEY], as the matcher of the
    regular expression of the source. *)

From Stdlib Require Import Ascii.
From S2P Require Import Prelude Js.

Record ScalabilityMode : Type := mkScalabilityMode {
  spatialLayers : Z;
  temporalLayers : Z;
  ksvc : bool
}.

#[export] Instance ScalabilityMode_eq_dec : EqDecision ScalabilityMode.
Proof. solve_decision. Defined.

Definition digit (c : Ascii.ascii) : option Z :=
  let n := Ascii.nat_of_ascii c in
  if (48 <=? n)%nat && (n <=? 57)%nat then Some (Z.of_nat n - 48)%Z else None.

(** [\[1-9\]\d{0,1}]: the number read and the rest.  Reading the second digit
    greedily loses no match, since [T] or the end of the group follows. *)
Definition scan_count (s : string) : option (Z * string) :=
  match s with
  | EmptyString => None
  | String a s1 =>
      d ← digit a;
      if Z.eqb d 0 then None
      else match s1 with
           | EmptyString => Some (d, s1)
           | String b s2 =>
               match digit b with
               | Some e => Some (10 * d + e, s2)%Z
               | None => Some (d, s1)
               end
           end
  end.

(** [^\[LS\](\[1-9\]\d{0,1})T(\[1-9\]\d{0,1})(_KEY)?] *)
Definition ScalabilityModeRegex (s : string) : option ScalabilityMode :=
  match s with
  | String c s1 =>
      if Ascii.eqb c "L"%char || Ascii.eqb c "S"%char then
        '(sp, s2) ← scan_count s1;
        match s2 with
        | String "T" s3 =>
            '(tp, s4) ← scan_count s3;
            Some (mkScalabilityMode sp tp (String.prefix "_KEY" s4))
        | _ => None
        end
      else None
  | EmptyString => None
  end.

(** [parse(scalabilityMode?)]: [undefined] is read as the empty string. *)
Definition parse (scalabilityMode : option string) : ScalabilityMode :=
  match ScalabilityModeRegex (default "" scalabilityMode) with
  | Some m => m
  | None => mkScalabilityMode 1 1 false
  end.

(** The text of a mode, as ortc.ts writes it for simulcast consumers. *)
Definition mode_text (s t : Z) : string := "L" +:+ pretty s +:+ "T" +:+ pretty t.

Lemma digit_bounds c d : digit c = Some d -> (0 <= d <= 9)%Z.
Proof.
  unfold digit. destruct ((48 <=? _)%nat && _) eqn:H; [|done].
  apply andb_prop in H as [H1%Nat.leb_le H2%Nat.leb_le]. intros [= <-]. lia.
Qed.

Lemma scan_count_bounds s n r : scan_count s = Some (n, r) -> (1 <= n <= 99)%Z.
Proof.
  destruct s as [|a s1]; [done|]. simpl. destruct (digit a) as [d|] eqn:Hd; [|done].
  apply digit_bounds in Hd. simpl. destruct (Z.eqb_spec d 0); [done|].
  destruct s1 as [|b s2]; [intros [= <- <-]; lia|].
  destruct (digit b) as [e|] eqn:He; intros [= <- <-]; [|lia].
  apply digit_bounds in He. lia.
Qed.

(** The layer counts of whatever is parsed. *)
Lemma parse_layers (s : option string) :
  (1 <= spatialLayers (parse s) <= 99)%Z /\ (1 <= temporalLayers (parse s) <= 99)%Z.
Proof.
  unfold parse. destruct (ScalabilityModeRegex _) as [m|] eqn:H; [|simpl; lia].
  unfold ScalabilityModeRegex in H. destruct (default "" s) as [|c s1]; [done|].
  destruct (_ || _); [|done].
  destruct (scan_count s1) as [[sp s2]|] eqn:H1; [|done]. simpl in H.
  destruct s2 as [|t s3]; [done|].
  destruct (Ascii.eqb_spec t "T"%char) as [->|Ht].
  - destruct (scan_count s3) as [[tp s4]|] eqn:H2; [|done]. injection H as <-.
    apply scan_count_bounds in H1, H2. done.
  - destruct t as [[] [] [] [] [] [] [] []]; done.
Qed.

(** [parse] is total with layer counts between 1 and 99 on every input,
    whether or not it is a scalability mode. *)
Theorem parse_bounds (s : option string) :
  (1 <= spatialLayers (parse s) <= 99)%Z /\ (1 <= temporalLayers (parse s) <= 99)%Z.
Proof. apply parse_layers. Qed.

Definition roundtrip_ok (s t : Z) : bool :=
  bool_decide (parse (Some (mode_text s t)) = mkScalabilityMode s t false) &&
  bool_decide (parse (Some (mode_text s t +:+ "_KEY")) = mkScalabilityMode s t true).

Lemma roundtrip_table :
  forallb (fun s => forallb (roundtrip_ok s) (seqZ 1 99)) (seqZ 1 99) = true.
Proof. vm_compute. reflexivity. Qed.

(** Reading back a printed mode. *)
Lemma parse_mode_text s t :
  (1 <= s <= 99)%Z -> (1 <= t <= 99)%Z ->
  parse (Some (mode_text s t)) = mkScalabilityMode s t false /\
  parse (Some (mode_text s t +:+ "_KEY")) = mkScalabilityMode s t true.
Proof.
  intros Hs Ht. pose proof roundtrip_table as H.
  assert (In s (seqZ 1 99)) as Is by (apply list_elem_of_In, elem_of_seqZ; lia).
  assert (In t (seqZ 1 99)) as It by (apply list_elem_of_In, elem_of_seqZ; lia).
  rewrite forallb_forall in H. specialize (H s Is).
  rewrite forallb_forall in H. specialize (H t It).
  apply andb_prop in H as [H1%bool_decide_eq_true H2%bool_decide_eq_true]. done.
Qed.

(** Round trip: for layer counts the grammar can express, printing a mode
    and parsing it gives the mode back, with and without the [_KEY] suffix. *)
Theorem parse_roundtrip s t :
  (1 <= s <= 99)%Z -> (1 <= t <= 99)%Z ->
  parse (Some (mode_text s t)) = mkScalabilityMode s t false /\
  parse (Some (mode_text s t +:+ "_KEY")) = mkScalabilityMode s t true.
Proof. apply parse_mode_text. Qed.

Lemma parse_roundtrip_witness :
  parse (Some "L3T12") = mkScalabilityMode 3 12 false.
Proof.
  assert ((1 <= 3 <= 99)%Z /\ (1 <= 12 <= 99)%Z) as [H1 H2] by lia.
  exact (proj1 (parse_roundtrip 3 12 H1 H2)).
Defined.
