(* ===== verification/SupportedRtpCapabilities.v ===== *)
(** * supportedRtpCapabilities.ts

    The literal of the source as a value: the audio codecs, the video codecs
    and the header extensions, in the order of the source and with exactly the
    properties written there (the missing ones are filled in by
    [validateRtpCapabilities]). *)

From S2P Require Import Prelude Js RtpParameters Validate.

Definition supported_audio_codecs : list val := [
  VObj [("kind", VStr "audio"); ("mimeType", VStr "audio/opus"); ("clockRate", VNum 48000);
        ("channels", VNum 2); ("rtcpFeedback", VArr [VObj [("type", VStr "nack")];
        VObj [("type", VStr "transport-cc")]] [])];
  VObj [("kind", VStr "audio"); ("mimeType", VStr "audio/multiopus");
        ("clockRate", VNum 48000); ("channels", VNum 4);
        ("parameters", VObj [("channel_mapping", VStr "0,1,2,3"); ("num_streams", VNum 2);
        ("coupled_streams", VNum 2)]); ("rtcpFeedback", VArr [VObj [("type", VStr "nack")];
        VObj [("type", VStr "transport-cc")]] [])];
  VObj [("kind", VStr "audio"); ("mimeType", VStr "audio/multiopus");
        ("clockRate", VNum 48000); ("channels", VNum 6);
        ("parameters", VObj [("channel_mapping", VStr "0,4,1,2,3,5");
        ("num_streams", VNum 4); ("coupled_streams", VNum 2)]);
        ("rtcpFeedback", VArr [VObj [("type", VStr "nack")];
        VObj [("type", VStr "transport-cc")]] [])];
  VObj [("kind", VStr "audio"); ("mimeType", VStr "audio/multiopus");
        ("clockRate", VNum 48000); ("channels", VNum 8);
        ("parameters", VObj [("channel_mapping", VStr "0,6,1,2,3,4,5,7");
        ("num_streams", VNum 5); ("coupled_streams", VNum 3)]);
        ("rtcpFeedback", VArr [VObj [("type", VStr "nack")];
        VObj [("type", VStr "transport-cc")]] [])];
  VObj [("kind", VStr "audio"); ("mimeType", VStr "audio/PCMU");
        ("preferredPayloadType", VNum 0); ("clockRate", VNum 8000);
        ("rtcpFeedback", VArr [VObj [("type", VStr "transport-cc")]] [])];
  VObj [("kind", VStr "audio"); ("mimeType", VStr "audio/PCMA");
        ("preferredPayloadType", VNum 8); ("clockRate", VNum 8000);
        ("rtcpFeedback", VArr [VObj [("type", VStr "transport-cc")]] [])];
  VObj [("kind", VStr "audio"); ("mimeType", VStr "audio/ISAC"); ("clockRate", VNum 32000);
        ("rtcpFeedback", VArr [VObj [("type", VStr "transport-cc")]] [])];
  VObj [("kind", VStr "audio"); ("mimeType", VStr "audio/ISAC"); ("clockRate", VNum 16000);
        ("rtcpFeedback", VArr [VObj [("type", VStr "transport-cc")]] [])];
  VObj [("kind", VStr "audio"); ("mimeType", VStr "audio/G722");
        ("preferredPayloadType", VNum 9); ("clockRate", VNum 8000);
        ("rtcpFeedback", VArr [VObj [("type", VStr "transport-cc")]] [])]
].

Definition supported_other_audio_codecs : list val := [
  VObj [("kind", VStr "audio"); ("mimeType", VStr "audio/iLBC"); ("clockRate", VNum 8000);
        ("rtcpFeedback", VArr [VObj [("type", VStr "transport-cc")]] [])];
  VObj [("kind", VStr "audio"); ("mimeType", VStr "audio/SILK"); ("clockRate", VNum 24000);
        ("rtcpFeedback", VArr [VObj [("type", VStr "transport-cc")]] [])];
  VObj [("kind", VStr "audio"); ("mimeType", VStr "audio/SILK"); ("clockRate", VNum 16000);
        ("rtcpFeedback", VArr [VObj [("type", VStr "transport-cc")]] [])];
  VObj [("kind", VStr "audio"); ("mimeType", VStr "audio/SILK"); ("clockRate", VNum 12000);
        ("rtcpFeedback", VArr [VObj [("type", VStr "transport-cc")]] [])];
  VObj [("kind", VStr "audio"); ("mimeType", VStr "audio/SILK"); ("clockRate", VNum 8000);
        ("rtcpFeedback", VArr [VObj [("type", VStr "transport-cc")]] [])];
  VObj [("kind", VStr "audio"); ("mimeType", VStr "audio/CN");
        ("preferredPayloadType", VNum 13); ("clockRate", VNum 32000)];
  VObj [("kind", VStr "audio"); ("mimeType", VStr "audio/CN");
        ("preferredPayloadType", VNum 13); ("clockRate", VNum 16000)];
  VObj [("kind", VStr "audio"); ("mimeType", VStr "audio/CN");
        ("preferredPayloadType", VNum 13); ("clockRate", VNum 8000)];
  VObj [("kind", VStr "audio"); ("mimeType", VStr "audio/telephone-event");
        ("clockRate", VNum 48000)];
  VObj [("kind", VStr "audio"); ("mimeType", VStr "audio/telephone-event");
        ("clockRate", VNum 32000)];
  VObj [("kind", VStr "audio"); ("mimeType", VStr "audio/telephone-event");
        ("clockRate", VNum 16000)];
  VObj [("kind", VStr "audio"); ("mimeType", VStr "audio/telephone-event");
        ("clockRate", VNum 8000)]
].

Definition supported_video_codecs : list val := [
  VObj [("kind", VStr "video"); ("mimeType", VStr "video/VP8"); ("clockRate", VNum 90000);
        ("rtcpFeedback", VArr [VObj [("type", VStr "nack")]; VObj [("type", VStr "nack");
        ("parameter", VStr "pli")]; VObj [("type", VStr "ccm"); ("parameter", VStr "fir")];
        VObj [("type", VStr "goog-remb")]; VObj [("type", VStr "transport-cc")]] [])];
  VObj [("kind", VStr "video"); ("mimeType", VStr "video/VP9"); ("clockRate", VNum 90000);
        ("rtcpFeedback", VArr [VObj [("type", VStr "nack")]; VObj [("type", VStr "nack");
        ("parameter", VStr "pli")]; VObj [("type", VStr "ccm"); ("parameter", VStr "fir")];
        VObj [("type", VStr "goog-remb")]; VObj [("type", VStr "transport-cc")]] [])];
  VObj [("kind", VStr "video"); ("mimeType", VStr "video/H264"); ("clockRate", VNum 90000);
        ("parameters", VObj [("level-asymmetry-allowed", VNum 1)]);
        ("rtcpFeedback", VArr [VObj [("type", VStr "nack")]; VObj [("type", VStr "nack");
        ("parameter", VStr "pli")]; VObj [("type", VStr "ccm"); ("parameter", VStr "fir")];
        VObj [("type", VStr "goog-remb")]; VObj [("type", VStr "transport-cc")]] [])];
  VObj [("kind", VStr "video"); ("mimeType", VStr "video/H264-SVC");
        ("clockRate", VNum 90000);
        ("parameters", VObj [("level-asymmetry-allowed", VNum 1)]);
        ("rtcpFeedback", VArr [VObj [("type", VStr "nack")]; VObj [("type", VStr "nack");
        ("parameter", VStr "pli")]; VObj [("type", VStr "ccm"); ("parameter", VStr "fir")];
        VObj [("type", VStr "goog-remb")]; VObj [("type", VStr "transport-cc")]] [])];
  VObj [("kind", VStr "video"); ("mimeType", VStr "video/H265"); ("clockRate", VNum 90000);
        ("parameters", VObj [("level-asymmetry-allowed", VNum 1)]);
        ("rtcpFeedback", VArr [VObj [("type", VStr "nack")]; VObj [("type", VStr "nack");
        ("parameter", VStr "pli")]; VObj [("type", VStr "ccm"); ("parameter", VStr "fir")];
        VObj [("type", VStr "goog-remb")]; VObj [("type", VStr "transport-cc")]] [])]
].

Definition supported_header_extensions : list val := [
  VObj [("kind", VStr "audio"); ("uri", VStr "urn:ietf:params:rtp-hdrext:sdes:mid");
        ("preferredId", VNum 1); ("preferredEncrypt", VBool false);
        ("direction", VStr "sendrecv")];
  VObj [("kind", VStr "video"); ("uri", VStr "urn:ietf:params:rtp-hdrext:sdes:mid");
        ("preferredId", VNum 1); ("preferredEncrypt", VBool false);
        ("direction", VStr "sendrecv")];
  VObj [("kind", VStr "video");
        ("uri", VStr "urn:ietf:params:rtp-hdrext:sdes:rtp-stream-id");
        ("preferredId", VNum 2); ("preferredEncrypt", VBool false);
        ("direction", VStr "recvonly")];
  VObj [("kind", VStr "video");
        ("uri", VStr "urn:ietf:params:rtp-hdrext:sdes:repaired-rtp-stream-id");
        ("preferredId", VNum 3); ("preferredEncrypt", VBool false);
        ("direction", VStr "recvonly")];
  VObj [("kind", VStr "audio");
        ("uri", VStr "http://www.webrtc.org/experiments/rtp-hdrext/abs-send-time");
        ("preferredId", VNum 4); ("preferredEncrypt", VBool false);
        ("direction", VStr "sendrecv")];
  VObj [("kind", VStr "video");
        ("uri", VStr "http://www.webrtc.org/experiments/rtp-hdrext/abs-send-time");
        ("preferredId", VNum 4); ("preferredEncrypt", VBool false);
        ("direction", VStr "sendrecv")];
  VObj [("kind", VStr "audio");
        ("uri", VStr "http://www.ietf.org/id/draft-holmer-rmcat-transport-wide-cc-extensions-01");
        ("preferredId", VNum 5); ("preferredEncrypt", VBool false);
        ("direction", VStr "recvonly")];
  VObj [("kind", VStr "video");
        ("uri", VStr "http://www.ietf.org/id/draft-holmer-rmcat-transport-wide-cc-extensions-01");
        ("preferredId", VNum 5); ("preferredEncrypt", VBool false);
        ("direction", VStr "sendrecv")];
  VObj [("kind", VStr "video");
        ("uri", VStr "http://tools.ietf.org/html/draft-ietf-avtext-framemarking-07");
        ("preferredId", VNum 6); ("preferredEncrypt", VBool false);
        ("direction", VStr "sendrecv")];
  VObj [("kind", VStr "video"); ("uri", VStr "urn:ietf:params:rtp-hdrext:framemarking");
        ("preferredId", VNum 7); ("preferredEncrypt", VBool false);
        ("direction", VStr "sendrecv")];
  VObj [("kind", VStr "audio"); ("uri", VStr "urn:ietf:params:rtp-hdrext:ssrc-audio-level");
        ("preferredId", VNum 10); ("preferredEncrypt", VBool false);
        ("direction", VStr "sendrecv")];
  VObj [("kind", VStr "video"); ("uri", VStr "urn:3gpp:video-orientation");
        ("preferredId", VNum 11); ("preferredEncrypt", VBool false);
        ("direction", VStr "sendrecv")];
  VObj [("kind", VStr "video"); ("uri", VStr "urn:ietf:params:rtp-hdrext:toffset");
        ("preferredId", VNum 12); ("preferredEncrypt", VBool false);
        ("direction", VStr "sendrecv")];
  VObj [("kind", VStr "audio");
        ("uri", VStr "http://www.webrtc.org/experiments/rtp-hdrext/abs-capture-time");
        ("preferredId", VNum 13); ("preferredEncrypt", VBool false);
        ("direction", VStr "sendrecv")];
  VObj [("kind", VStr "video");
        ("uri", VStr "http://www.webrtc.org/experiments/rtp-hdrext/abs-capture-time");
        ("preferredId", VNum 13); ("preferredEncrypt", VBool false);
        ("direction", VStr "sendrecv")]
].

Definition supportedRtpCapabilities : val :=
  VObj [("codecs", VArr (supported_audio_codecs ++ supported_other_audio_codecs ++ supported_video_codecs) []);
        ("headerExtensions", VArr supported_header_extensions [])].

(** The value after [validateRtpCapabilities(supportedRtpCapabilities)], as a
    record of the TypeScript type. *)
Definition normalized_supported : result RtpCapabilities :=
  caps ← validateRtpCapabilities supportedRtpCapabilities;
  from_option_or (TypeError "not RtpCapabilities") (RtpCapabilities_view caps).

(** index.ts: [getSupportedRtpCapabilities] returns a clone of the literal. *)
Definition getSupportedRtpCapabilities : val := clone supportedRtpCapabilities.

Definition supported : RtpCapabilities :=
  match normalized_supported with
  | Ok c => c
  | Err _ => mkRtpCapabilities [] []
  end.

Lemma normalized_supported_eq : normalized_supported = Ok supported.
Proof. vm_compute. reflexivity. Qed.

(** The table is compared by name; [vm_compute] still evaluates it. *)
#[global] Opaque supported normalized_supported.
