(* ===== verification/Ortc.v ===== *)
(** * The negotiation functions of ortc.ts

    Router capabilities, the mapping of a producer's parameters to them, the
    parameters consumers see, and the parameters of a consumer and of a pipe
    consumer.  The functions work on the records of RtpParameters.v; arguments
    the application supplies are dynamically typed and go through the
    validators, as in the source. *)

From S2P Require Import Prelude Js RtpParameters Validate ScalabilityModes SupportedRtpCapabilities.

(** The package h264-profile-level-id, which the source only calls.
    [generateProfileLevelIdForAnswer] may throw and may return [undefined]. *)
Class H264 : Type := {
  isSameProfile : params -> params -> bool;
  generateProfileLevelIdForAnswer : params -> params -> result (option string)
}.

(** [RtpCodecCapability | RtpCodecParameters]: what [isRtxCodec] and
    [matchCodecs] read of a codec of either type. *)
Class Codec (A : Type) : Type := {
  codec_mimeType : A -> string;
  codec_clockRate : A -> Z;
  codec_channels : A -> option Z;
  codec_parameters : A -> params
}.

#[export] Instance Codec_capability : Codec RtpCodecCapability := {|
  codec_mimeType := cap_mimeType;
  codec_clockRate := cap_clockRate;
  codec_channels := cap_channels;
  codec_parameters := cap_parameters
|}.

#[export] Instance Codec_parameters : Codec RtpCodecParameters := {|
  codec_mimeType := cp_mimeType;
  codec_clockRate := cp_clockRate;
  codec_channels := cp_channels;
  codec_parameters := cp_parameters
|}.

Definition DynamicPayloadTypes : list Z :=
  [100; 101; 102; 103; 104; 105; 106; 107; 108; 109; 110;
   111; 112; 113; 114; 115; 116; 117; 118; 119; 120; 121;
   122; 123; 124; 125; 126; 127; 96; 97; 98; 99]%Z.

Definition isRtxCodec `{Codec A} (codec : A) : bool := test_rtx (codec_mimeType codec).

(** [v || 0] on a codec parameter. *)
Definition or_zero (v : option pval) : pval :=
  match v with
  | None => PNum 0
  | Some (PStr s) => if String.eqb s "" then PNum 0 else PStr s
  | Some (PNum n) => PNum n
  end.

Section matching.
Context `{H264} `{Codec A} `{Codec B}.

(** The result is [None] when the code returns [false], and otherwise the
    parameters of [aCodec] afterwards, which differ from its own only when
    [modify] is set. *)
Definition matchCodecs (aCodec : A) (bCodec : B) (strict modify : bool) : option params :=
  let aMimeType := toLowerCase (codec_mimeType aCodec) in
  let bMimeType := toLowerCase (codec_mimeType bCodec) in
  let aps := codec_parameters aCodec in
  let bps := codec_parameters bCodec in
  if negb (String.eqb aMimeType bMimeType) then None
  else if negb (Z.eqb (codec_clockRate aCodec) (codec_clockRate bCodec)) then None
  else if negb (bool_decide (codec_channels aCodec = codec_channels bCodec)) then None
  else if String.eqb aMimeType "audio/multiopus" then
    if negb (bool_decide (jget "num_streams" aps = jget "num_streams" bps)) then None
    else if negb (bool_decide (jget "coupled_streams" aps = jget "coupled_streams" bps)) then None
    else Some aps
  else if String.eqb aMimeType "video/h264" || String.eqb aMimeType "video/h264-svc" then
    if strict then
      if negb (bool_decide (or_zero (jget "packetization-mode" aps) =
                            or_zero (jget "packetization-mode" bps))) then None
      else if negb (isSameProfile aps bps) then None
      else match generateProfileLevelIdForAnswer aps bps with
           | Err _ => None
           | Ok selectedProfileLevelId =>
               if modify then
                 match selectedProfileLevelId with
                 | Some id => if String.eqb id "" then Some (jdel "profile-level-id" aps)
                              else Some (jset "profile-level-id" (PStr id) aps)
                 | None => Some (jdel "profile-level-id" aps)
                 end
               else Some aps
           end
    else Some aps
  else if String.eqb aMimeType "video/vp9" then
    if strict && negb (bool_decide (or_zero (jget "profile-id" aps) =
                                    or_zero (jget "profile-id" bps))) then None
    else Some aps
  else Some aps.

Definition matches (aCodec : A) (bCodec : B) (strict : bool) : bool :=
  bool_decide (is_Some (matchCodecs aCodec bCodec strict false)).
End matching.

(** ** generateRouterRtpCapabilities *)

(** [{ ...a, ...b }] *)
Definition spread (a b : params) : params :=
  foldl (fun acc kv => jset kv.1 kv.2 acc) a b.

(** [idx = l.indexOf(x); if (idx > -1) l.splice(idx, 1)] *)
Fixpoint splice_value (x : Z) (l : list Z) : list Z :=
  match l with
  | [] => []
  | y :: l => if Z.eqb x y then l else y :: splice_value x l
  end.

(** [pt = dynamicPayloadTypes.shift(); if (!pt) throw ...] *)
Definition shift_payload_type (dynamicPayloadTypes : list Z) : result (Z * list Z) :=
  match dynamicPayloadTypes with
  | pt :: rest =>
      if Z.eqb pt 0 then Err (PlainError "cannot allocate more dynamic codec payload types")
      else Ok (pt, rest)
  | [] => Err (PlainError "cannot allocate more dynamic codec payload types")
  end.

Definition choose_payload_type (mediaCodec supportedCodec : RtpCodecCapability)
    (dynamicPayloadTypes : list Z) : result (Z * list Z) :=
  match cap_preferredPayloadType mediaCodec with
  | Some pt => Ok (pt, splice_value pt dynamicPayloadTypes)
  | None =>
      match cap_preferredPayloadType supportedCodec with
      | Some pt => Ok (pt, dynamicPayloadTypes)
      | None => shift_payload_type dynamicPayloadTypes
      end
  end.

Definition rtx_capability (codec : RtpCodecCapability) (codec_pt pt : Z) : RtpCodecCapability :=
  mkRtpCodecCapability (cap_kind codec) (kind_string (cap_kind codec) +:+ "/rtx") (Some pt)
    (cap_clockRate codec) None [("apt", PNum codec_pt)] [].

Definition has_payload_type (pt : Z) (c : RtpCodecCapability) : bool :=
  bool_decide (cap_preferredPayloadType c = Some pt).

(** The body of the loop over [mediaCodecs]; the state is the remaining
    dynamic payload types and [caps.codecs]. *)
Definition add_media_codec `{H264} (supportedCodecs : list RtpCodecCapability)
    (st : list Z * list RtpCodecCapability) (mediaCodec : val) :
    result (list Z * list RtpCodecCapability) :=
  mediaCodec ← validateRtpCodecCapability mediaCodec;
  mediaCodec ← from_option_or (TypeError "not RtpCodecCapability")
                 (RtpCodecCapability_view mediaCodec);
  matched ← from_option_or
    (UnsupportedError ("media codec not supported [mimeType:" +:+ cap_mimeType mediaCodec +:+ "]"))
    (List.find (fun c => matches mediaCodec c false) supportedCodecs);
  '(pt, dynamicPayloadTypes) ← choose_payload_type mediaCodec matched st.1;
  throw_if (existsb (has_payload_type pt) st.2)
    (TypeError "duplicated codec.preferredPayloadType");;
  let codec := mkRtpCodecCapability (cap_kind matched) (cap_mimeType matched) (Some pt)
    (cap_clockRate matched) (cap_channels matched)
    (spread (cap_parameters matched) (cap_parameters mediaCodec)) (cap_rtcpFeedback matched) in
  let codecs := st.2 ++ [codec] in
  match cap_kind codec with
  | Kaudio => Ok (dynamicPayloadTypes, codecs)
  | Kvideo =>
      '(rtx_pt, dynamicPayloadTypes) ← shift_payload_type dynamicPayloadTypes;
      Ok (dynamicPayloadTypes, codecs ++ [rtx_capability codec pt rtx_pt])
  end.

Definition generateRouterRtpCapabilities `{H264} (mediaCodecs : val) : result RtpCapabilities :=
  clonedSupportedRtpCapabilities ← normalized_supported;
  let mediaCodecs := match mediaCodecs with VUndef => VArr [] [] | v => v end in
  throw_if (negb (isArray mediaCodecs)) (TypeError "mediaCodecs must be an Array");;
  st ← foldR (add_media_codec (caps_codecs clonedSupportedRtpCapabilities))
         (DynamicPayloadTypes, []) (elements_of mediaCodecs);
  Ok (mkRtpCapabilities st.2 (caps_headerExtensions clonedSupportedRtpCapabilities)).

(** ** getProducerRtpParametersMapping *)

Record MappedCodec : Type := mkMappedCodec {
  mc_payloadType : Z;
  mc_mappedPayloadType : option Z
}.

Record MappedEncoding : Type := mkMappedEncoding {
  me_ssrc : option Z;
  me_rid : option string;
  me_scalabilityMode : option string;
  me_mappedSsrc : Z
}.

Record RtpMapping : Type := mkRtpMapping {
  map_codecs : list MappedCodec;
  map_encodings : list MappedEncoding
}.

Definition with_parameters (codec : RtpCodecParameters) (ps : params) : RtpCodecParameters :=
  mkRtpCodecParameters (cp_mimeType codec) (cp_payloadType codec) (cp_clockRate codec)
    (cp_channels codec) ps (cp_rtcpFeedback codec).

Definition with_feedback (codec : RtpCodecParameters) (fbs : list RtcpFeedback) : RtpCodecParameters :=
  mkRtpCodecParameters (cp_mimeType codec) (cp_payloadType codec) (cp_clockRate codec)
    (cp_channels codec) (cp_parameters codec) fbs.

(** [codec.parameters.apt === pt], where [pt] may be [undefined]. *)
Definition apt_is `{Codec A} (codec : A) (pt : option Z) : bool :=
  bool_decide (jget "apt" (codec_parameters codec) = PNum <$> pt).

(** The map [codecToCapCodec]: its keys are the codec objects, here their
    positions in [params.codecs]; the value carries the payload type of the
    key. *)
Abbreviation codec_map := (list (nat * (Z * RtpCodecCapability))).

Fixpoint find_match `{H264} (codec : RtpCodecParameters) (capCodecs : list RtpCodecCapability) :
    option (params * RtpCodecCapability) :=
  match capCodecs with
  | [] => None
  | capCodec :: capCodecs =>
      match matchCodecs codec capCodec true true with
      | Some ps => Some (ps, capCodec)
      | None => find_match codec capCodecs
      end
  end.

Definition unsupported_codec (codec : RtpCodecParameters) : error :=
  UnsupportedError ("unsupported codec [mimeType:" +:+ cp_mimeType codec +:+
    ", payloadType:" +:+ pretty (cp_payloadType codec) +:+ "]").

(** The first loop: [matchCodecs] may modify the parameters of the codecs. *)
Fixpoint match_media_codecs `{H264} (caps : RtpCapabilities) (i : nat)
    (codecs : list RtpCodecParameters) : result (list RtpCodecParameters * codec_map) :=
  match codecs with
  | [] => Ok ([], [])
  | codec :: codecs =>
      if isRtxCodec codec then
        '(codecs, m) ← match_media_codecs caps (S i) codecs;
        Ok (codec :: codecs, m)
      else
        '(ps, matchedCapCodec) ← from_option_or (unsupported_codec codec)
                                   (find_match codec (caps_codecs caps));
        '(codecs, m) ← match_media_codecs caps (S i) codecs;
        Ok (with_parameters codec ps :: codecs, (i, (cp_payloadType codec, matchedCapCodec)) :: m)
  end.

(** The body of the second loop, for the codec at position [i]. *)
Definition match_rtx_codec (caps : RtpCapabilities) (codecs : list RtpCodecParameters)
    (m : codec_map) (ic : nat * RtpCodecParameters) : result codec_map :=
  let '(i, codec) := ic in
  if negb (isRtxCodec codec) then Ok m
  else
    associated ← from_option_or
      (TypeError ("missing media codec found for RTX PT " +:+ pretty (cp_payloadType codec)))
      (list_find (fun mediaCodec => apt_is codec (Some (cp_payloadType mediaCodec)) = true) codecs);
    capMediaCodec ← from_option_or (TypeError "Cannot read properties of undefined")
      (jget associated.1 m);
    associatedCapRtxCodec ← from_option_or
      (UnsupportedError "no RTX codec for capability codec PT")
      (List.find (fun capCodec => isRtxCodec capCodec &&
                    apt_is capCodec (cap_preferredPayloadType capMediaCodec.2))
         (caps_codecs caps));
    Ok (jset i (cp_payloadType codec, associatedCapRtxCodec) m).

Definition truthy_Z (o : option Z) : option Z :=
  match o with Some n => if Z.eqb n 0 then None else Some n | None => None end.
Definition truthy_string (o : option string) : option string :=
  match o with Some s => if String.eqb s "" then None else Some s | None => None end.

Definition map_encoding (mappedSsrc : Z) (i : nat) (encoding : RtpEncodingParameters) : MappedEncoding :=
  mkMappedEncoding (truthy_Z (enc_ssrc encoding)) (truthy_string (enc_rid encoding))
    (truthy_string (enc_scalabilityMode encoding)) (mappedSsrc + Z.of_nat i).

Definition with_codecs (p : RtpParameters) (codecs : list RtpCodecParameters) : RtpParameters :=
  mkRtpParameters (rp_mid p) codecs (rp_headerExtensions p) (rp_encodings p) (rp_rtcp p).

(** [rnd] is the number [utils.generateRandomNumber()] returns.  The result
    carries the parameters, whose codecs the matching may have modified. *)
Definition getProducerRtpParametersMapping `{H264} (params : RtpParameters)
    (caps : RtpCapabilities) (rnd : Z) : result (RtpParameters * RtpMapping) :=
  '(codecs, codecToCapCodec) ← match_media_codecs caps 0 (rp_codecs params);
  codecToCapCodec ← foldR (match_rtx_codec caps codecs) codecToCapCodec
                      (imap pair codecs);
  let mapping_codecs := map (fun e : nat * (Z * RtpCodecCapability) =>
    mkMappedCodec e.2.1 (cap_preferredPayloadType e.2.2)) codecToCapCodec in
  Ok (with_codecs params codecs,
      mkRtpMapping mapping_codecs (imap (map_encoding rnd) (rp_encodings params))).

(** ** getConsumableRtpParameters *)

Definition undefined_access : error := TypeError "Cannot read properties of undefined".

(** The codecs pushed for one codec of the producer. *)
Definition consumable_codecs (caps : RtpCapabilities) (rtpMapping : RtpMapping)
    (codec : RtpCodecParameters) : result (list RtpCodecParameters) :=
  if isRtxCodec codec then Ok []
  else
    entry ← from_option_or undefined_access
      (List.find (fun e => Z.eqb (mc_payloadType e) (cp_payloadType codec)) (map_codecs rtpMapping));
    matchedCapCodec ← from_option_or undefined_access
      (List.find (fun c => bool_decide (cap_preferredPayloadType c = mc_mappedPayloadType entry))
         (caps_codecs caps));
    (* preferredPayloadType! is a number for every capability of a router *)
    pt ← from_option_or undefined_access (cap_preferredPayloadType matchedCapCodec);
    let consumableCodec := mkRtpCodecParameters (cap_mimeType matchedCapCodec) pt
      (cap_clockRate matchedCapCodec) (cap_channels matchedCapCodec) (cp_parameters codec)
      (cap_rtcpFeedback matchedCapCodec) in
    match List.find (fun c => isRtxCodec c && apt_is c (Some pt)) (caps_codecs caps) with
    | None => Ok [consumableCodec]
    | Some rtx =>
        rtx_pt ← from_option_or undefined_access (cap_preferredPayloadType rtx);
        Ok [consumableCodec;
            mkRtpCodecParameters (cap_mimeType rtx) rtx_pt (cap_clockRate rtx) None
              (cap_parameters rtx) (cap_rtcpFeedback rtx)]
    end.

Definition consumable_ext (capExt : RtpHeaderExtension) : RtpHeaderExtensionParameters :=
  mkRtpHeaderExtensionParameters (he_uri capExt) (he_preferredId capExt)
    (he_preferredEncrypt capExt) [].

Definition consumable_ext_kept (kind : MediaKind) (capExt : RtpHeaderExtension) : bool :=
  bool_decide (he_kind capExt = kind) &&
  (String.eqb (he_direction capExt) "sendrecv" || String.eqb (he_direction capExt) "sendonly").

Definition consumable_encoding (mappings : list MappedEncoding) (i : nat)
    (e : RtpEncodingParameters) : result RtpEncodingParameters :=
  m ← from_option_or undefined_access (mappings !! i);
  Ok (mkRtpEncodingParameters (Some (me_mappedSsrc m)) None None None (enc_dtx e)
        (enc_scalabilityMode e) (enc_scaleResolutionDownBy e) (enc_maxBitrate e)).

Definition getConsumableRtpParameters (kind : MediaKind) (params : RtpParameters)
    (caps : RtpCapabilities) (rtpMapping : RtpMapping) : result RtpParameters :=
  codecs ← mapR (consumable_codecs caps rtpMapping) (rp_codecs params);
  let exts := map consumable_ext
                (List.filter (consumable_ext_kept kind) (caps_headerExtensions caps)) in
  encodings ← mapR (fun ie => consumable_encoding (map_encodings rtpMapping) ie.1 ie.2)
                (imap pair (rp_encodings params));
  Ok (mkRtpParameters None (concat codecs) exts encodings
        (mkRtcpParameters (rtcp_cname (rp_rtcp params)) true (Some true))).

(** ** Matching *)

Lemma find_Some_elem {A} (f : A -> bool) l x :
  List.find f l = Some x -> x ∈ l /\ f x = true.
Proof. intros [Hin Hf]%find_some. split; [by apply list_elem_of_In | done]. Qed.

Lemma find_is_Some {A} (f : A -> bool) l x :
  x ∈ l -> f x = true -> is_Some (List.find f l).
Proof.
  intros Hin Hf. destruct (List.find f l) as [y|] eqn:H; [by eexists|].
  pose proof (find_none _ _ H x (proj1 (list_elem_of_In _ _) Hin)). congruence.
Qed.

(** Matching codecs agree on the MIME type up to case, the clock rate and the
    channels. *)
Lemma matchCodecs_agree `{H264} `{Codec A} `{Codec B} (a : A) (b : B) strict modify ps :
  matchCodecs a b strict modify = Some ps ->
  toLowerCase (codec_mimeType a) = toLowerCase (codec_mimeType b) /\
  codec_clockRate a = codec_clockRate b /\ codec_channels a = codec_channels b.
Proof.
  unfold matchCodecs. intros Hm.
  destruct (String.eqb_spec (toLowerCase (codec_mimeType a)) (toLowerCase (codec_mimeType b)));
    [|done].
  destruct (Z.eqb_spec (codec_clockRate a) (codec_clockRate b)); [|done].
  case_bool_decide; [done|done].
Qed.

Lemma lower_line_terminator c d :
  lower_ascii c = lower_ascii d -> is_line_terminator c = is_line_terminator d.
Proof.
  assert (forall c, is_line_terminator (lower_ascii c) = is_line_terminator c) as H.
  { intros [[] [] [] [] [] [] [] []]; reflexivity. }
  intros Heq. by rewrite <-(H c), <-(H d), Heq.
Qed.

(** Being an RTX codec only depends on the lower-cased MIME type. *)
Lemma test_rtx_lower s t : toLowerCase s = toLowerCase t -> test_rtx s = test_rtx t.
Proof.
  revert t. induction s as [|c s IH]; intros [|d t] Heq; simpl in *; try done.
  injection Heq as Hc Hs. by rewrite (lower_line_terminator _ _ Hc), Hs, (IH _ Hs).
Qed.

Lemma matchCodecs_isRtx `{H264} `{Codec A} `{Codec B} (a : A) (b : B) strict modify ps :
  matchCodecs a b strict modify = Some ps -> isRtxCodec a = isRtxCodec b.
Proof. intros [Hm _]%matchCodecs_agree. by apply test_rtx_lower. Qed.

(** ** Router capabilities *)

Definition payload_types (codecs : list RtpCodecCapability) : list (option Z) :=
  map cap_preferredPayloadType codecs.

Lemma splice_value_subset x y l : y ∈ splice_value x l -> y ∈ l.
Proof.
  induction l as [|z l IH]; simpl; [done|].
  destruct (Z.eqb_spec x z); rewrite ?elem_of_cons; intuition.
Qed.

Lemma NoDup_splice_value x l : NoDup l -> NoDup (splice_value x l).
Proof.
  induction l as [|z l IH]; simpl; [done|]. intros [Hz Hl]%NoDup_cons.
  destruct (Z.eqb_spec x z); [done|]. apply NoDup_cons. split; [|auto].
  intros Hin. by apply Hz, (splice_value_subset x).
Qed.

Lemma splice_value_removed x l : NoDup l -> x ∉ splice_value x l.
Proof.
  induction l as [|z l IH]; simpl; [by intros _ ?%elem_of_nil|]. intros [Hz Hl]%NoDup_cons.
  destruct (Z.eqb_spec x z) as [->|Hne]; [done|].
  rewrite elem_of_cons. intros [?|Hin]; [done|by apply IH].
Qed.

Lemma shift_payload_type_Ok l pt rest :
  shift_payload_type l = Ok (pt, rest) -> l = pt :: rest.
Proof.
  destruct l as [|p l]; simpl; [done|]. destruct (Z.eqb p 0); [done|]. by intros [= -> ->].
Qed.

(** The state of the loop: the remaining payload types are distinct dynamic
    ones, the assigned ones are distinct and none of them remains. *)
Definition allocation (st : list Z * list RtpCodecCapability) : Prop :=
  NoDup st.1 /\ (forall pt, pt ∈ st.1 -> pt ∈ DynamicPayloadTypes) /\
  NoDup (payload_types st.2) /\ Forall is_Some (payload_types st.2) /\
  (forall pt, pt ∈ st.1 -> Some pt ∉ payload_types st.2).

(** The payload types of the supported codecs are static. *)
Definition static_payload_types (codecs : list RtpCodecCapability) : Prop :=
  forall c pt, c ∈ codecs -> cap_preferredPayloadType c = Some pt -> pt ∉ DynamicPayloadTypes.

Lemma existsb_payload_type pt codecs :
  existsb (has_payload_type pt) codecs = false -> Some pt ∉ payload_types codecs.
Proof.
  intros H Hin. apply list_elem_of_In, in_map_iff in Hin as (c & Hc & Hin).
  assert (existsb (has_payload_type pt) codecs = true); [|congruence].
  apply existsb_exists. exists c. split; [done|]. by apply bool_decide_eq_true.
Qed.

Lemma choose_payload_type_Ok mc supp dyn pt dyn' :
  NoDup dyn -> (forall q, q ∈ dyn -> q ∈ DynamicPayloadTypes) ->
  (forall q, cap_preferredPayloadType supp = Some q -> q ∉ DynamicPayloadTypes) ->
  choose_payload_type mc supp dyn = Ok (pt, dyn') ->
  NoDup dyn' /\ (forall q, q ∈ dyn' -> q ∈ dyn) /\ pt ∉ dyn'.
Proof.
  intros Hnd Hdyn Hst. unfold choose_payload_type.
  destruct (cap_preferredPayloadType mc) as [q|].
  { intros [= <- <-]. split_and!;
      [by apply NoDup_splice_value | intros q'; by apply splice_value_subset
      | by apply splice_value_removed]. }
  destruct (cap_preferredPayloadType supp) as [q|].
  { intros [= <- <-]. split_and!; [done|done|]. intros Hin.
    by apply (Hst q eq_refl), Hdyn. }
  intros ->%shift_payload_type_Ok. apply NoDup_cons in Hnd as [? ?].
  split_and!; [done|by right|done].
Qed.

Lemma allocation_snoc dyn codecs c pt :
  allocation (dyn, codecs) -> cap_preferredPayloadType c = Some pt ->
  pt ∉ dyn -> Some pt ∉ payload_types codecs ->
  allocation (dyn, codecs ++ [c]).
Proof.
  intros (H1 & H2 & H3 & H4 & H5) Hc Hpt Hnew. unfold allocation, payload_types in *. simpl in *.
  rewrite map_app. simpl. rewrite Hc. split_and!; try done.
  - apply NoDup_app. split_and!; [done| |apply NoDup_singleton].
    by intros x Hx ->%list_elem_of_singleton.
  - apply Forall_app. split; [done|]. constructor; [by eexists|constructor].
  - intros q Hq. rewrite elem_of_app, list_elem_of_singleton. intros [?|[= ->]]; [|done].
    by eapply H5.
Qed.

Lemma allocation_subset dyn dyn' codecs :
  allocation (dyn, codecs) -> NoDup dyn' -> (forall q, q ∈ dyn' -> q ∈ dyn) ->
  allocation (dyn', codecs).
Proof.
  intros (H1 & H2 & H3 & H4 & H5) Hnd Hsub. unfold allocation in *; simpl in *.
  split_and!; auto.
Qed.

(** The record of a media codec given to [createRouter]. *)
Definition given_codec (mediaCodec : val) : result RtpCodecCapability :=
  v ← validateRtpCodecCapability mediaCodec;
  from_option_or (TypeError "not RtpCodecCapability") (RtpCodecCapability_view v).

(** The codecs one media codec contributes: the matching codec of the
    supported table under the requested payload type (if one is requested) and
    with the given parameters merged in, followed by its RTX codec if it is a
    video codec. *)
Definition router_block `{H264} (supp : list RtpCodecCapability) (mediaCodec : val)
    (b : list RtpCodecCapability) : Prop :=
  exists m s c pt, given_codec mediaCodec = Ok m /\ s ∈ supp /\ matches m s false = true /\
    c = mkRtpCodecCapability (cap_kind s) (cap_mimeType s) (Some pt) (cap_clockRate s)
          (cap_channels s) (spread (cap_parameters s) (cap_parameters m)) (cap_rtcpFeedback s) /\
    (forall q, cap_preferredPayloadType m = Some q -> pt = q) /\
    match cap_kind c with
    | Kaudio => b = [c]
    | Kvideo => exists rtx_pt, b = [c; rtx_capability c pt rtx_pt]
    end.

Lemma choose_payload_type_requested mc supp dyn pt dyn' q :
  choose_payload_type mc supp dyn = Ok (pt, dyn') ->
  cap_preferredPayloadType mc = Some q -> pt = q.
Proof. unfold choose_payload_type. intros H Hq. rewrite Hq in H. by injection H. Qed.

Lemma add_media_codec_Ok `{H264} supp st mc st' :
  static_payload_types supp -> allocation st ->
  add_media_codec supp st mc = Ok st' ->
  allocation st' /\ exists b, st'.2 = st.2 ++ b /\ router_block supp mc b.
Proof.
  intros Hst Hal H'. unfold add_media_codec in H'. inv_result.
  destruct st as [dyn codecs]. rename a0 into m, a1 into s. simpl in *.
  assert (given_codec mc = Ok m) as Hm.
  { unfold given_codec. erewrite bind_pass by done. simpl. by rewrite Ha0. }
  apply find_Some_elem in Ha1 as [Hin Hmatch].
  pose proof Hal as (H1 & H2 & _).
  assert (forall q, cap_preferredPayloadType m = Some q -> z = q) as Hreq.
  { intros q. by eapply choose_payload_type_requested. }
  eapply choose_payload_type_Ok in Ha2 as (Hnd & Hsub & Hpt);
    [|done..|intros q Hq; exact (Hst _ _ Hin Hq)].
  pose proof (allocation_subset _ _ _ Hal Hnd Hsub) as Hal'.
  apply existsb_payload_type in H0.
  match type of H' with context [codecs ++ [?x]] => set (c := x) in * end.
  eapply (allocation_snoc _ _ c) in Hal'; [|done..].
  destruct (cap_kind s) eqn:Hk.
  - inv_result. split; [done|]. exists [c]. split; [done|].
    exists m, s, c, z. unfold c at 1 2. rewrite Hk. by split_and!.
  - inv_result. rename z0 into rtx_pt.
    match goal with Hs : shift_payload_type _ = _ |- _ => apply shift_payload_type_Ok in Hs as -> end.
    pose proof Hal' as (Hnd' & _ & _ & _ & Hfresh). simpl in Hnd', Hfresh.
    apply NoDup_cons in Hnd' as [Hnew Hnd']. split.
    + apply (allocation_snoc _ _ _ rtx_pt); [|done|done|].
      * eapply allocation_subset; [exact Hal'|done|]. intros; by right.
      * apply Hfresh. by left.
    + exists [c; rtx_capability c z rtx_pt]. split; [simpl; by rewrite <-app_assoc|].
      exists m, s, c, z. unfold c at 1 2. rewrite Hk. split_and!; try done. by exists rtx_pt.
Qed.

Lemma add_media_codecs_Ok `{H264} supp l st st' :
  static_payload_types supp -> allocation st ->
  foldR (add_media_codec supp) st l = Ok st' ->
  allocation st' /\
  exists bs, st'.2 = st.2 ++ concat bs /\ Forall2 (router_block supp) l bs.
Proof.
  intros Hst. revert st. induction l as [|mc l IH]; intros st Hal H'; simpl in H'.
  - inv_result. split; [done|]. exists []. simpl. by rewrite app_nil_r.
  - inv_result. eapply add_media_codec_Ok in Ha as (Hal1 & b & Hb & Hblock); [|done..].
    destruct (IH _ Hal1 H') as (Hal2 & bs & Hbs & Hall).
    split; [done|]. exists (b :: bs). simpl. rewrite Hbs, Hb, <-app_assoc.
    split; [done|]. by constructor.
Qed.

Lemma supported_static : static_payload_types (caps_codecs supported).
Proof.
  assert (forallb (fun c => match cap_preferredPayloadType c with
            | Some pt => negb (bool_decide (pt ∈ DynamicPayloadTypes)) | None => true end)
          (caps_codecs supported) = true) as H by (vm_compute; reflexivity).
  intros c pt Hc Hpt. rewrite forallb_forall in H.
  specialize (H c (proj1 (list_elem_of_In _ _) Hc)). rewrite Hpt in H.
  by apply negb_true_iff, bool_decide_eq_false in H.
Qed.

Lemma supported_not_rtx c : c ∈ caps_codecs supported -> isRtxCodec c = false.
Proof.
  assert (forallb (fun c => negb (isRtxCodec c)) (caps_codecs supported) = true) as H
    by (vm_compute; reflexivity).
  intros Hc. rewrite forallb_forall in H.
  by apply negb_true_iff, H, list_elem_of_In.
Qed.

Lemma initial_allocation : allocation (DynamicPayloadTypes, []).
Proof.
  split_and!; simpl; try done.
  - apply (bool_decide_eq_true_1 _). vm_compute. reflexivity.
  - constructor.
  - intros pt _ ?%elem_of_nil. done.
Qed.

(** What [generateRouterRtpCapabilities] returns, for the other results. *)
Lemma generateRouterRtpCapabilities_inv `{H264} mediaCodecs caps :
  generateRouterRtpCapabilities mediaCodecs = Ok caps ->
  NoDup (payload_types (caps_codecs caps)) /\
  Forall is_Some (payload_types (caps_codecs caps)) /\
  (exists bs, caps_codecs caps = concat bs /\
     Forall2 (router_block (caps_codecs supported)) (elements_of mediaCodecs) bs) /\
  caps_headerExtensions caps = caps_headerExtensions supported.
Proof.
  intros Hg. unfold generateRouterRtpCapabilities in Hg.
  rewrite (bind_pass _ _ _ normalized_supported_eq) in Hg. cbv zeta in Hg. inv_result.
  apply add_media_codecs_Ok in Ha as (Hal & bs & Hbs & Hall);
    [|apply supported_static|apply initial_allocation].
  destruct Hal as (_ & _ & Hnd & Hsome & _). simpl in *. split_and!; [done|done| |done].
  exists bs. split; [done|]. by destruct mediaCodecs.
Qed.

(** ** The mapping of a producer's codecs *)

(** The matching may change the parameters of a codec and nothing else. *)
Definition same_codec (c c' : RtpCodecParameters) : Prop :=
  cp_payloadType c' = cp_payloadType c /\ cp_mimeType c' = cp_mimeType c /\
  cp_clockRate c' = cp_clockRate c /\ cp_channels c' = cp_channels c /\
  cp_rtcpFeedback c' = cp_rtcpFeedback c.

Lemma same_codec_refl c : same_codec c c.
Proof. by split_and!. Qed.

Lemma same_codec_isRtx c c' : same_codec c c' -> isRtxCodec c' = isRtxCodec c.
Proof. intros (_ & Hm & _). unfold isRtxCodec. simpl. by rewrite Hm. Qed.

Lemma find_match_Some `{H264} codec caps ps cap :
  find_match codec caps = Some (ps, cap) ->
  cap ∈ caps /\ matchCodecs codec cap true true = Some ps.
Proof.
  induction caps as [|c caps IH]; simpl; [done|].
  destruct (matchCodecs codec c true true) as [q|] eqn:Hm.
  - intros [= <- <-]. split; [by left|done].
  - intros H'. destruct (IH H'). split; [by right|done].
Qed.

Lemma matchCodecs_modify `{H264} `{Codec A} `{Codec B} (a : A) (b : B) strict :
  is_Some (matchCodecs a b strict true) <-> is_Some (matchCodecs a b strict false).
Proof.
  unfold matchCodecs.
  repeat match goal with
  | |- context [match generateProfileLevelIdForAnswer ?x ?y with _ => _ end] =>
      destruct (generateProfileLevelIdForAnswer x y) as [[?|]|?]
  | |- context [if ?c then _ else _] => destruct c; simpl
  end; split; intros [? [=]]; by eexists.
Qed.

Lemma find_match_None `{H264} codec caps :
  find_match codec caps = None -> forall cap, cap ∈ caps -> matches codec cap true = false.
Proof.
  induction caps as [|c caps IH]; simpl; [by intros _ ? ?%elem_of_nil|].
  destruct (matchCodecs codec c true true) as [q|] eqn:Hm; [done|].
  intros Hf cap [->|Hin]%elem_of_cons; [|by apply IH].
  apply bool_decide_eq_false. rewrite <-matchCodecs_modify, Hm. by intros [? ?].
Qed.

(** An entry of [codecToCapCodec]: the codec at its position, a capability of
    the router, both RTX or both not. *)
Definition entry_ok (caps : RtpCapabilities) (codecs : list RtpCodecParameters)
    (e : nat * (Z * RtpCodecCapability)) : Prop :=
  exists codec, codecs !! e.1 = Some codec /\ e.2.1 = cp_payloadType codec /\
    e.2.2 ∈ caps_codecs caps /\ isRtxCodec codec = isRtxCodec e.2.2.

Lemma match_media_codecs_Ok `{H264} caps i codecs codecs' m :
  match_media_codecs caps i codecs = Ok (codecs', m) ->
  Forall2 same_codec codecs codecs' /\
  (forall pre, length pre = i -> Forall (entry_ok caps (pre ++ codecs')) m) /\
  (forall j codec, codecs' !! j = Some codec -> isRtxCodec codec = false -> (i + j) ∈ jkeys m) /\
  (forall k, k ∈ jkeys m -> i <= k < i + length codecs) /\ NoDup (jkeys m).
Proof.
  revert i codecs' m. induction codecs as [|c codecs IH]; intros i codecs' m H'; simpl in H'.
  { inv_result. split_and!; [constructor|by constructor|done|by intros k ?%elem_of_nil|constructor]. }
  destruct (isRtxCodec c) eqn:Hr.
  - inv_result.
    destruct (IH _ _ _ Ha) as (H1 & H2 & H3 & H4 & H5). split_and!.
    + constructor; [apply same_codec_refl|done].
    + intros pre Hpre. specialize (H2 (pre ++ [c])).
      rewrite <-app_assoc in H2. apply H2. rewrite length_app. simpl. lia.
    + intros [|j] codec Hj Hn; simpl in Hj; [injection Hj as ->; congruence|].
      rewrite <-Nat.add_succ_comm. by eapply H3.
    + intros k Hk%H4. simpl. lia.
    + done.
  - inv_result. rename l into ps, r into cap, l0 into l.
    destruct (IH _ _ _ Ha0) as (H1 & H2 & H3 & H4 & H5).
    apply find_match_Some in Ha as [Hin Hm]. split_and!.
    + constructor; [by split_and!|done].
    + intros pre Hpre. constructor.
      * exists (with_parameters c ps). simpl. split_and!; [|done|done|].
        -- rewrite lookup_app_r by lia. by replace (i - length pre) with 0 by lia.
        -- by apply matchCodecs_isRtx in Hm.
      * specialize (H2 (pre ++ [with_parameters c ps])).
        rewrite <-app_assoc in H2. apply H2. rewrite length_app. simpl. lia.
    + intros [|j] codec Hj Hn; simpl in *.
      * rewrite Nat.add_0_r. by left.
      * right. rewrite Nat.add_succ_r. by eapply H3.
    + intros k. simpl. intros [->|Hk%H4]%elem_of_cons; lia.
    + simpl. apply NoDup_cons. split; [|done]. intros Hk%H4. lia.
Qed.

Lemma Forall_jset {K V} `{EqDecision K} (P : K * V -> Prop) k v (m : list (K * V)) :
  P (k, v) -> Forall P m -> Forall P (jset k v m).
Proof.
  intros Hkv. induction 1 as [|[k' v'] m Hx Hm IH]; simpl; [by repeat constructor|].
  destruct (decide (k = k')); by constructor.
Qed.

Lemma elem_of_jkeys_jset {K V} `{EqDecision K} k k' v (m : list (K * V)) :
  k ∈ jkeys (jset k' v m) <-> k = k' \/ k ∈ jkeys m.
Proof.
  rewrite jkeys_jset. case_decide as Hk; [split; [by right|intros [->|]; done]|].
  rewrite elem_of_app, list_elem_of_singleton. tauto.
Qed.

Lemma match_rtx_codec_Ok caps codecs m i codec m' :
  codecs !! i = Some codec ->
  match_rtx_codec caps codecs m (i, codec) = Ok m' ->
  Forall (entry_ok caps codecs) m -> NoDup (jkeys m) ->
  Forall (entry_ok caps codecs) m' /\ NoDup (jkeys m') /\
  (forall k, k ∈ jkeys m -> k ∈ jkeys m') /\ (isRtxCodec codec = true -> i ∈ jkeys m') /\
  (forall k, k ∈ jkeys m' -> k = i \/ k ∈ jkeys m).
Proof.
  intros Hi H' Hm Hnd. unfold match_rtx_codec in H'.
  destruct (isRtxCodec codec) eqn:Hr; simpl in H'; [|inv_result; split_and!; auto; done].
  inv_result. apply find_Some_elem in Ha1 as [Hin [Hrtx _]%andb_prop].
  split_and!.
  - apply Forall_jset; [|done]. exists codec. simpl. by rewrite Hrtx.
  - by apply NoDup_jset.
  - intros k Hk. apply elem_of_jkeys_jset. by right.
  - intros _. apply elem_of_jkeys_jset. by left.
  - intros k. by rewrite elem_of_jkeys_jset.
Qed.

Lemma match_rtx_codecs_Ok caps codecs l m m' :
  (forall i codec, (i, codec) ∈ l -> codecs !! i = Some codec) ->
  foldR (match_rtx_codec caps codecs) m l = Ok m' ->
  Forall (entry_ok caps codecs) m -> NoDup (jkeys m) ->
  Forall (entry_ok caps codecs) m' /\ NoDup (jkeys m') /\
  (forall k, k ∈ jkeys m -> k ∈ jkeys m') /\
  (forall i codec, (i, codec) ∈ l -> isRtxCodec codec = true -> i ∈ jkeys m') /\
  (forall k, k ∈ jkeys m' -> k ∈ jkeys m \/ k ∈ map fst l).
Proof.
  revert m. induction l as [|[i codec] l IH]; intros m Hl H' Hm Hnd; simpl in H'.
  { inv_result. split_and!; auto. by intros ? ? ?%elem_of_nil. }
  inv_result. eapply match_rtx_codec_Ok in Ha as (H1 & H2 & H3 & H4 & H5);
    [|apply Hl; by left|done|done].
  destruct (IH a) as (G1 & G2 & G3 & G4 & G5); [|done..|].
  { intros j c Hj. apply Hl. by right. }
  split_and!; [done|done|auto| |].
  - intros j c [[= -> ->]|Hj]%elem_of_cons Hr; [|by eapply G4]. by apply G3, H4.
  - intros k Hk%G5. simpl. rewrite elem_of_cons.
    destruct Hk as [Hk|?]; [|tauto]. destruct (H5 _ Hk); tauto.
Qed.

Lemma elem_of_imap_pair {A} (l : list A) i x : (i, x) ∈ imap pair l <-> l !! i = Some x.
Proof.
  rewrite list_elem_of_lookup. split.
  - intros [j Hj]. rewrite list_lookup_imap in Hj.
    apply fmap_Some in Hj as (y & Hy & [= -> ->]). done.
  - intros Hi. exists i. by rewrite list_lookup_imap, Hi.
Qed.

Lemma Forall2_lookup_r' {A B} (P : A -> B -> Prop) l k i y :
  Forall2 P l k -> k !! i = Some y -> exists x, l !! i = Some x /\ P x y.
Proof. intros Hf Hk. eapply Forall2_lookup_r in Hf; eauto. Qed.

Lemma match_media_codecs_media `{H264} caps i codecs codecs' m :
  match_media_codecs caps i codecs = Ok (codecs', m) ->
  Forall (fun e : nat * (Z * RtpCodecCapability) => isRtxCodec e.2.2 = false) m.
Proof.
  revert i codecs' m. induction codecs as [|c codecs IH]; intros i codecs' m H'; simpl in H'.
  { inv_result. constructor. }
  destruct (isRtxCodec c) eqn:Hr; inv_result; [by eapply IH|].
  apply find_match_Some in Ha as [_ Hm%matchCodecs_isRtx].
  constructor; [simpl; congruence|by eapply IH].
Qed.

Lemma jset_app_fresh {K V} `{EqDecision K} k v (m0 e : list (K * V)) :
  k ∉ jkeys m0 -> jset k v (m0 ++ e) = m0 ++ jset k v e.
Proof.
  induction m0 as [|[k' v'] m0 IH]; simpl; [done|]. rewrite not_elem_of_cons.
  intros [Hne Hk]. rewrite decide_False by done. by rewrite IH.
Qed.

(** The entries of the media codecs come first. *)
Lemma match_rtx_codecs_prefix caps codecs l m0 e m' :
  (forall i codec, (i, codec) ∈ l -> isRtxCodec codec = true -> i ∉ jkeys m0) ->
  foldR (match_rtx_codec caps codecs) (m0 ++ e) l = Ok m' ->
  exists e', m' = m0 ++ e'.
Proof.
  revert e. induction l as [|[i codec] l IH]; intros e Hl H'; simpl in H'.
  { inv_result. eauto. }
  inv_result. rename Ha into Hstep. unfold match_rtx_codec in Hstep.
  assert (forall j c, (j, c) ∈ l -> isRtxCodec c = true -> j ∉ jkeys m0) as Hl'.
  { intros j c Hj. apply Hl. by right. }
  destruct (isRtxCodec codec) eqn:Hr; simpl in Hstep; inv_result; [|by eapply IH].
  rewrite jset_app_fresh in H' by (eapply Hl; [by left|done]). by eapply IH.
Qed.

(** The first loop makes no entries for RTX codecs. *)
Lemma media_entries_fresh caps codecs (m0 : codec_map) i c :
  Forall (entry_ok caps codecs) m0 -> Forall (fun e => isRtxCodec e.2.2 = false) m0 ->
  codecs !! i = Some c -> isRtxCodec c = true -> i ∉ jkeys m0.
Proof.
  intros H2 H0 Hi Hr Hin.
  apply list_elem_of_In, in_map_iff in Hin as ([j [pt cap]] & Hj & Hin). simpl in Hj. subst j.
  apply list_elem_of_In in Hin. rewrite Forall_forall in H0, H2.
  destruct (H2 _ Hin) as (c' & Hc' & _ & _ & Hrtx). specialize (H0 _ Hin). simpl in *.
  congruence.
Qed.

(** The mapping has one entry per codec: same payload type, a capability of
    the router, RTX to RTX; the entries of the media codecs come first. *)
Lemma getProducerRtpParametersMapping_inv `{H264} p caps rnd p' mapping :
  getProducerRtpParametersMapping p caps rnd = Ok (p', mapping) ->
  Forall2 same_codec (rp_codecs p) (rp_codecs p') /\
  rp_encodings p' = rp_encodings p /\ rp_rtcp p' = rp_rtcp p /\
  (exists m0 e : codec_map, Forall (entry_ok caps (rp_codecs p')) (m0 ++ e) /\
     NoDup (jkeys (m0 ++ e)) /\
     (forall k, k ∈ jkeys (m0 ++ e) <-> k < length (rp_codecs p')) /\
     Forall (fun e => isRtxCodec e.2.2 = false) m0 /\
     (forall k codec, rp_codecs p' !! k = Some codec -> isRtxCodec codec = false -> k ∈ jkeys m0) /\
     map_codecs mapping = map (fun e : nat * (Z * RtpCodecCapability) =>
       mkMappedCodec e.2.1 (cap_preferredPayloadType e.2.2)) (m0 ++ e)) /\
  map_encodings mapping = imap (map_encoding rnd) (rp_encodings p).
Proof.
  intros H'. unfold getProducerRtpParametersMapping in H'. inv_result.
  rename l into codecs, l0 into m0, a into m. simpl.
  pose proof (match_media_codecs_media _ _ _ _ _ Ha) as H0.
  apply match_media_codecs_Ok in Ha as (H1 & H2 & H3 & H4 & H5).
  specialize (H2 [] eq_refl). simpl in H2.
  assert (forall i codec, (i, codec) ∈ imap pair codecs -> isRtxCodec codec = true ->
            i ∉ jkeys m0) as Hfresh.
  { intros i c Hi%elem_of_imap_pair. by eapply media_entries_fresh. }
  rewrite <-(app_nil_r m0) in Ha0.
  destruct (match_rtx_codecs_prefix _ _ _ _ _ _ Hfresh Ha0) as [e ->].
  rewrite app_nil_r in Ha0.
  eapply match_rtx_codecs_Ok in Ha0 as (G1 & G2 & G3 & G4 & G5); [|..|done|done].
  2: { intros i c. apply elem_of_imap_pair. }
  pose proof (Forall2_length _ _ _ H1) as Hlen.
  split_and!; [done|done|done| |done].
  exists m0, e. split_and!; [done|done| |done| |done].
  - intros k. split.
    + intros [Hk%H4|Hk]%G5; [lia|].
      apply list_elem_of_In, in_map_iff in Hk as ([j c] & <- & Hj).
      apply list_elem_of_In, elem_of_imap_pair, lookup_lt_Some in Hj. done.
    + intros Hk. destruct (lookup_lt_is_Some_2 _ _ Hk) as [c Hc].
      destruct (isRtxCodec c) eqn:Hr.
      * eapply G4; [|done]. by apply elem_of_imap_pair.
      * apply G3. by apply (H3 _ _ Hc).
  - intros k c Hc Hr. by apply (H3 _ _ Hc).
Qed.

(** ** Consumable parameters *)

Lemma NoDup_map_inj {A B} (f : A -> B) l x y :
  NoDup (map f l) -> x ∈ l -> y ∈ l -> f x = f y -> x = y.
Proof.
  induction l as [|z l IH]; simpl; [by intros _ ?%elem_of_nil|].
  intros [Hz Hnd]%NoDup_cons [->|Hx]%elem_of_cons [->|Hy]%elem_of_cons Hf; auto.
  - exfalso. apply Hz. rewrite Hf. by apply list_elem_of_In, in_map, list_elem_of_In.
  - exfalso. apply Hz. rewrite <-Hf. by apply list_elem_of_In, in_map, list_elem_of_In.
Qed.

(** The invariant of router capabilities the mapping relies on. *)
Definition caps_allocated (caps : RtpCapabilities) : Prop :=
  NoDup (payload_types (caps_codecs caps)) /\ Forall is_Some (payload_types (caps_codecs caps)).

Lemma caps_allocated_pt caps c :
  caps_allocated caps -> c ∈ caps_codecs caps -> is_Some (cap_preferredPayloadType c).
Proof.
  intros [_ H] Hc. rewrite Forall_forall in H. apply H.
  by apply list_elem_of_In, in_map, list_elem_of_In.
Qed.

Definition consumable_of (cap : RtpCodecCapability) (pt : Z) (ps : params) : RtpCodecParameters :=
  mkRtpCodecParameters (cap_mimeType cap) pt (cap_clockRate cap) (cap_channels cap) ps
    (cap_rtcpFeedback cap).

Definition consumable_rtx_of (rtx : RtpCodecCapability) (pt : Z) : RtpCodecParameters :=
  mkRtpCodecParameters (cap_mimeType rtx) pt (cap_clockRate rtx) None (cap_parameters rtx)
    (cap_rtcpFeedback rtx).

(** The consumable codecs of one codec of the producer: nothing for an RTX
    codec, and otherwise a media capability of the router with the producer's
    parameters, followed by its RTX capability if there is one. *)
Definition consumable_block (caps : RtpCapabilities) (codec : RtpCodecParameters)
    (b : list RtpCodecParameters) : Prop :=
  if isRtxCodec codec then b = []
  else exists cap pt, cap ∈ caps_codecs caps /\ isRtxCodec cap = false /\
    cap_preferredPayloadType cap = Some pt /\
    (b = [consumable_of cap pt (cp_parameters codec)] \/
     exists rtx rtx_pt, rtx ∈ caps_codecs caps /\ isRtxCodec rtx = true /\
       apt_is rtx (Some pt) = true /\ cap_preferredPayloadType rtx = Some rtx_pt /\
       b = [consumable_of cap pt (cp_parameters codec); consumable_rtx_of rtx rtx_pt]).

Lemma find_app_l {A} (f : A -> bool) l k :
  is_Some (List.find f l) -> List.find f (l ++ k) = List.find f l.
Proof.
  induction l as [|x l IH]; simpl; [by intros [? ?]|]. by destruct (f x).
Qed.

Lemma consumable_codecs_Ok `{H264} p caps rnd p' mapping codec :
  caps_allocated caps ->
  getProducerRtpParametersMapping p caps rnd = Ok (p', mapping) ->
  codec ∈ rp_codecs p' ->
  exists b, consumable_codecs caps mapping codec = Ok b /\ consumable_block caps codec b.
Proof.
  intros Hcaps Hmap Hcodec. unfold consumable_codecs, consumable_block.
  destruct (isRtxCodec codec) eqn:Hr; [by eauto|].
  apply getProducerRtpParametersMapping_inv in Hmap as (_ & _ & _ & (m0 & e & H1 & _ & _ & H2 & H3 & H4) & _).
  apply list_elem_of_lookup in Hcodec as [k Hk].
  pose proof (H3 _ _ Hk Hr) as Hin. apply list_elem_of_In, in_map_iff in Hin as ([k' [pt0 cap0]] & Hk' & Hin).
  simpl in Hk'. subst k'. apply list_elem_of_In in Hin.
  apply Forall_app in H1 as [H1 _]. rewrite Forall_forall in H1, H2.
  set (key := fun e => Z.eqb (mc_payloadType e) (cp_payloadType codec)).
  set (f := fun e : nat * (Z * RtpCodecCapability) =>
              mkMappedCodec e.2.1 (cap_preferredPayloadType e.2.2)) in H4.
  assert (is_Some (List.find key (map f m0))) as [entry Hentry].
  { eapply (find_is_Some _ _ (f (k, (pt0, cap0)))).
    - by apply list_elem_of_In, in_map, list_elem_of_In.
    - destruct (H1 _ Hin) as (c & Hc & Hpt & _). simpl in *. apply Z.eqb_eq. simpl. congruence. }
  rewrite H4, map_app, find_app_l by (by eexists). fold key. rewrite Hentry. simpl.
  apply find_Some_elem in Hentry as [He _].
  apply list_elem_of_In, in_map_iff in He as ([k1 [pt1 cap1]] & <- & He).
  apply list_elem_of_In in He.
  destruct (H1 _ He) as (c1 & _ & _ & Hcap1 & _). specialize (H2 _ He). simpl in *.
  destruct (caps_allocated_pt _ _ Hcaps Hcap1) as [q Hq].
  destruct (find_is_Some (fun c => bool_decide (cap_preferredPayloadType c =
    cap_preferredPayloadType cap1)) (caps_codecs caps) cap1) as [cap Hcap];
    [done|by apply bool_decide_eq_true|].
  rewrite Hcap. simpl. apply find_Some_elem in Hcap as [Hcap Heq%bool_decide_eq_true].
  assert (cap = cap1) as ->.
  { eapply NoDup_map_inj; [apply Hcaps|done|done|done]. }
  rewrite Hq. simpl.
  destruct (List.find (fun c => isRtxCodec c && apt_is c (Some q)) (caps_codecs caps)) as [rtx|] eqn:Hrtx.
  - apply find_Some_elem in Hrtx as [Hrin [Hr1 Hr2]%andb_prop].
    destruct (caps_allocated_pt _ _ Hcaps Hrin) as [rpt Hrpt]. rewrite Hrpt. simpl.
    eexists. split; [done|]. exists cap1, q. split_and!; try done. right. by exists rtx, rpt.
  - eexists. split; [done|]. exists cap1, q. split_and!; try done. by left.
Qed.

Lemma mapR_total {A B} (f : A -> result B) (P : A -> B -> Prop) l :
  (forall x, x ∈ l -> exists y, f x = Ok y /\ P x y) ->
  exists k, mapR f l = Ok k /\ Forall2 P l k.
Proof.
  induction l as [|x l IH]; intros Hf; simpl; [eauto|].
  destruct (Hf x) as (y & Hy & HP); [by left|].
  destruct IH as (k & Hk & HF); [intros z Hz; apply Hf; by right|].
  rewrite Hy, Hk. simpl. exists (y :: k). split; [done|by constructor].
Qed.

(** What a consumer sees of the [i]-th encoding of a producer: the mapped
    SSRC, and neither RID nor RTX. *)
Definition consumable_encoding_of (rnd : Z) (i : nat) (e : RtpEncodingParameters) :
    RtpEncodingParameters :=
  mkRtpEncodingParameters (Some (rnd + Z.of_nat i)%Z) None None None (enc_dtx e)
    (enc_scalabilityMode e) (enc_scaleResolutionDownBy e) (enc_maxBitrate e).

Lemma consumable_encodings_Ok rnd (encs : list RtpEncodingParameters) :
  mapR (fun ie => consumable_encoding (imap (map_encoding rnd) encs) ie.1 ie.2) (imap pair encs)
  = Ok (imap (consumable_encoding_of rnd) encs).
Proof.
  destruct (mapR_total (fun ie => consumable_encoding (imap (map_encoding rnd) encs) ie.1 ie.2)
    (fun ie y => y = consumable_encoding_of rnd ie.1 ie.2) (imap pair encs)) as (k & -> & HF).
  - intros [i e] Hi%elem_of_imap_pair. unfold consumable_encoding. simpl.
    rewrite list_lookup_imap, Hi. simpl. eauto.
  - f_equal. apply list_eq. intros i. rewrite list_lookup_imap.
    destruct (k !! i) as [y|] eqn:Hk.
    + destruct (Forall2_lookup_r' _ _ _ _ _ HF Hk) as ([j e] & Hj & ->).
      rewrite list_lookup_imap in Hj. apply fmap_Some in Hj as (e' & -> & [= -> ->]). done.
    + apply lookup_ge_None in Hk. apply Forall2_length in HF. rewrite length_imap in HF.
      rewrite (proj2 (lookup_ge_None encs i)) by lia. done.
Qed.

(** The parameters consumers see, once the mapping of the producer exists. *)
Lemma getConsumableRtpParameters_Ok `{H264} kind p caps rnd p' mapping :
  caps_allocated caps ->
  getProducerRtpParametersMapping p caps rnd = Ok (p', mapping) ->
  exists c bs, getConsumableRtpParameters kind p' caps mapping = Ok c /\
    rp_codecs c = concat bs /\ Forall2 (consumable_block caps) (rp_codecs p') bs /\
    rp_encodings c = imap (consumable_encoding_of rnd) (rp_encodings p) /\
    rp_headerExtensions c = map consumable_ext
      (List.filter (consumable_ext_kept kind) (caps_headerExtensions caps)).
Proof.
  intros Hcaps Hmap. unfold getConsumableRtpParameters.
  destruct (mapR_total (consumable_codecs caps mapping) (consumable_block caps) (rp_codecs p'))
    as (bs & Hbs & HF).
  { intros codec. by eapply consumable_codecs_Ok. }
  rewrite Hbs, Ok_bind. cbv zeta.
  apply getProducerRtpParametersMapping_inv in Hmap as (_ & Henc & _ & _ & Hm).
  rewrite Hm, Henc, consumable_encodings_Ok, Ok_bind.
  by eexists _, bs.
Qed.

(** ** Main results *)

(** C35: the codecs of the router capabilities all have a payload type, and no
    two of them have the same, whatever payload types the application asks for
    and however many codecs are allocated dynamically. *)
Theorem router_payload_types_distinct `{H264} mediaCodecs caps :
  generateRouterRtpCapabilities mediaCodecs = Ok caps ->
  NoDup (payload_types (caps_codecs caps)) /\ Forall is_Some (payload_types (caps_codecs caps)).
Proof. by intros (H1 & H2 & _)%generateRouterRtpCapabilities_inv. Qed.

(** The router codecs are, media codec by media codec and in their order,
    the matching supported codec with the requested payload type and the given
    parameters, directly followed by an RTX codec bound to it by [apt] exactly
    when it is a video codec; the header extensions are the supported ones. *)
Theorem router_codecs_shape `{H264} mediaCodecs caps :
  generateRouterRtpCapabilities mediaCodecs = Ok caps ->
  (exists bs, caps_codecs caps = concat bs /\
     Forall2 (router_block (caps_codecs supported)) (elements_of mediaCodecs) bs) /\
  caps_headerExtensions caps = caps_headerExtensions supported.
Proof. by intros (_ & _ & H1)%generateRouterRtpCapabilities_inv. Qed.

(** C12: for a router, a producer whose parameters can be mapped always has
    consumable parameters: none of the non-null assertions of
    [getConsumableRtpParameters] fails.  The consumable codecs are media
    codecs of the router with the producer's codec parameters, each followed
    by its RTX codec; the encodings carry the consecutive mapped SSRCs and
    neither RID nor RTX; the header extensions are those of the kind that can
    be sent. *)
Theorem producer_negotiation_total `{H264} mediaCodecs caps kind p rnd p' mapping :
  generateRouterRtpCapabilities mediaCodecs = Ok caps ->
  getProducerRtpParametersMapping p caps rnd = Ok (p', mapping) ->
  exists c bs, getConsumableRtpParameters kind p' caps mapping = Ok c /\
    rp_codecs c = concat bs /\ Forall2 (consumable_block caps) (rp_codecs p') bs /\
    rp_encodings c = imap (consumable_encoding_of rnd) (rp_encodings p) /\
    rp_headerExtensions c = map consumable_ext
      (List.filter (consumable_ext_kept kind) (caps_headerExtensions caps)).
Proof.
  intros (H1 & H2 & _)%generateRouterRtpCapabilities_inv.
  by apply getConsumableRtpParameters_Ok.
Qed.

(** The mapping gives every codec of the producer an entry: its payload
    type is mapped to the one of a capability of the router, and an RTX codec
    is mapped to an RTX capability. *)
Theorem mapping_covers_codecs `{H264} p caps rnd p' mapping :
  getProducerRtpParametersMapping p caps rnd = Ok (p', mapping) ->
  length (map_codecs mapping) = length (rp_codecs p) /\
  forall codec, codec ∈ rp_codecs p -> exists e cap, e ∈ map_codecs mapping /\
    mc_payloadType e = cp_payloadType codec /\ cap ∈ caps_codecs caps /\
    mc_mappedPayloadType e = cap_preferredPayloadType cap /\ isRtxCodec cap = isRtxCodec codec.
Proof.
  intros (Hs & _ & _ & (m0 & e & H1 & H2 & H3 & _ & _ & ->) & _)%getProducerRtpParametersMapping_inv.
  set (m := m0 ++ e) in *. split.
  - rewrite length_map, (Forall2_length _ _ _ Hs).
    rewrite <-(length_map fst m), <-(length_seq (length (rp_codecs p')) 0).
    apply Permutation_length, NoDup_Permutation; [done|apply NoDup_seq|].
    intros k. rewrite elem_of_seq. rewrite H3. lia.
  - intros codec [k Hk]%list_elem_of_lookup.
    destruct (Forall2_lookup_l _ _ _ _ _ Hs Hk) as (codec' & Hk' & Hsame).
    pose proof (proj2 (H3 k) (lookup_lt_Some _ _ _ Hk')) as Hin.
    apply list_elem_of_In, in_map_iff in Hin as ([k1 [pt cap]] & Hk1 & Hin).
    simpl in Hk1. subst k1. apply list_elem_of_In in Hin. rewrite Forall_forall in H1.
    destruct (H1 _ Hin) as (c & Hc & Hpt & Hcap & Hrtx). simpl in *.
    rewrite Hk' in Hc. injection Hc as <-.
    exists (mkMappedCodec pt (cap_preferredPayloadType cap)), cap. simpl. split_and!.
    + apply list_elem_of_In, in_map_iff. exists (k, (pt, cap)). split; [done|].
      by apply list_elem_of_In.
    + rewrite Hpt. apply Hsame.
    + done.
    + done.
    + rewrite <-Hrtx. by apply same_codec_isRtx.
Qed.

(** The mapped SSRCs of a producer are distinct, and they are 32-bit
    values as long as it has at most 2^31 encodings. *)
Theorem mapped_ssrcs_distinct_u32 `{H264} p caps rnd p' mapping :
  random_number rnd -> (Z.of_nat (length (rp_encodings p)) <= 2 ^ 31)%Z ->
  getProducerRtpParametersMapping p caps rnd = Ok (p', mapping) ->
  length (map_encodings mapping) = length (rp_encodings p) /\
  NoDup (me_mappedSsrc <$> map_encodings mapping) /\
  Forall (fun e => 0 < me_mappedSsrc e < 2 ^ 32)%Z (map_encodings mapping).
Proof.
  unfold random_number. intros Hr Hlen (_ & _ & _ & _ & ->)%getProducerRtpParametersMapping_inv.
  split; [by rewrite length_imap|]. split.
  - apply NoDup_alt. intros i j x Hi Hj.
    apply list_lookup_fmap_Some in Hi as (ei & -> & Hi).
    apply list_lookup_fmap_Some in Hj as (ej & Heq & Hj).
    rewrite list_lookup_imap in Hi, Hj.
    apply fmap_Some in Hi as (? & _ & ->). apply fmap_Some in Hj as (? & _ & ->).
    simpl in Heq. lia.
  - apply Forall_forall. intros e [i Hi]%list_elem_of_lookup.
    rewrite list_lookup_imap in Hi. apply fmap_Some in Hi as (x & Hx & ->).
    apply lookup_lt_Some in Hx. simpl. lia.
Qed.

Lemma find_match_unsupported `{H264} codec caps :
  (forall cap, cap ∈ caps -> matches codec cap true = false) -> find_match codec caps = None.
Proof.
  intros Hu. destruct (find_match codec caps) as [[ps cap]|] eqn:Hf; [|done].
  apply find_match_Some in Hf as [Hin Hm]. specialize (Hu _ Hin).
  apply bool_decide_eq_false in Hu. destruct Hu. rewrite <-matchCodecs_modify, Hm. by eexists.
Qed.

(** A media codec no capability of the router matches is always
    rejected, with an [UnsupportedError]. *)
Theorem unsupported_codec_rejected `{H264} p caps rnd codec :
  codec ∈ rp_codecs p -> isRtxCodec codec = false ->
  (forall cap, cap ∈ caps_codecs caps -> matches codec cap true = false) ->
  exists msg, getProducerRtpParametersMapping p caps rnd = Err (UnsupportedError msg).
Proof.
  intros Hin Hr Hu. unfold getProducerRtpParametersMapping.
  assert (forall i, exists msg, match_media_codecs caps i (rp_codecs p) = Err (UnsupportedError msg)) as Hm.
  { induction (rp_codecs p) as [|c l IH]; intros i; [by apply elem_of_nil in Hin|]. simpl.
    apply elem_of_cons in Hin as [->|Hin].
    - rewrite Hr, find_match_unsupported by done. by eexists.
    - destruct (IH Hin (S i)) as [msg Hmsg]. rewrite Hmsg.
      destruct (isRtxCodec c); [by exists msg|].
      destruct (find_match c _) as [[ps cap]|]; [by exists msg|by eexists]. }
  destruct (Hm 0) as [msg ->]. by exists msg.
Qed.

(** ** Examples *)

(** An H264 library that identifies a profile with its [profile-level-id]. *)
Definition example_h264 : H264 := {|
  isSameProfile := fun a b =>
    bool_decide (jget "profile-level-id" a = jget "profile-level-id" b);
  generateProfileLevelIdForAnswer := fun a _ =>
    match jget "profile-level-id" a with
    | Some (PStr s) => Ok (Some s)
    | Some (PNum _) => Err (TypeError "invalid profile-level-id")
    | None => Ok None
    end
|}.

(** Opus, VP8 under payload type 101 and H264. *)
Definition example_mediaCodecs : val :=
  VArr [VObj [("mimeType", VStr "audio/opus"); ("clockRate", VNum 48000); ("channels", VNum 2)];
        VObj [("mimeType", VStr "video/VP8"); ("clockRate", VNum 90000);
              ("preferredPayloadType", VNum 101)];
        VObj [("mimeType", VStr "video/H264"); ("clockRate", VNum 90000);
              ("parameters", VObj [("packetization-mode", VNum 1);
                                   ("profile-level-id", VStr "42e01f")])]] [].

Definition example_router : RtpCapabilities :=
  Eval vm_compute in
    match @generateRouterRtpCapabilities example_h264 example_mediaCodecs with
    | Ok caps => caps | Err _ => mkRtpCapabilities [] [] end.

Example example_router_payload_types :
  payload_types (caps_codecs example_router) = [Some 100; Some 101; Some 102; Some 103; Some 104]%Z.
Proof. reflexivity. Qed.

Lemma example_router_eq :
  @generateRouterRtpCapabilities example_h264 example_mediaCodecs = Ok example_router.
Proof. vm_compute. reflexivity. Qed.

(** A producer of VP8 under payload type 96, with RTX under 97, and two
    simulcast encodings. *)
Definition example_producer : RtpParameters :=
  mkRtpParameters (Some "0")
    [mkRtpCodecParameters "video/VP8" 96 90000 None [] [mkRtcpFeedback "nack" ""];
     mkRtpCodecParameters "video/rtx" 97 90000 None [("apt", PNum 96)] []]
    []
    [mkRtpEncodingParameters None (Some "r0") None (Some 7%Z) None (Some "L1T3") None (Some 100000%Z);
     mkRtpEncodingParameters None (Some "r1") None None None (Some "L1T3") None (Some 300000%Z)]
    (mkRtcpParameters (Some "cname") true None).

Definition example_mapping : RtpParameters * RtpMapping :=
  Eval vm_compute in
    match @getProducerRtpParametersMapping example_h264 example_producer example_router 123456789 with
    | Ok m => m | Err _ => (example_producer, mkRtpMapping [] []) end.

Lemma example_mapping_eq :
  @getProducerRtpParametersMapping example_h264 example_producer example_router 123456789
  = Ok (example_mapping.1, example_mapping.2).
Proof. vm_compute. reflexivity. Qed.

Example example_mapping_codecs :
  map_codecs example_mapping.2 = [mkMappedCodec 96 (Some 101%Z); mkMappedCodec 97 (Some 102%Z)].
Proof. reflexivity. Qed.

Lemma router_payload_types_distinct_witness :
  NoDup (payload_types (caps_codecs example_router)) /\
  Forall is_Some (payload_types (caps_codecs example_router)).
Proof. apply (@router_payload_types_distinct example_h264 example_mediaCodecs). apply example_router_eq. Defined.

Lemma router_codecs_shape_witness :
  (exists bs, caps_codecs example_router = concat bs /\
     Forall2 (@router_block example_h264 (caps_codecs supported))
       (elements_of example_mediaCodecs) bs) /\
  caps_headerExtensions example_router = caps_headerExtensions supported.
Proof. apply (@router_codecs_shape example_h264). apply example_router_eq. Defined.

Lemma producer_negotiation_total_witness :
  exists c bs, getConsumableRtpParameters Kvideo example_mapping.1 example_router
      example_mapping.2 = Ok c /\
    rp_codecs c = concat bs /\
    Forall2 (consumable_block example_router) (rp_codecs example_mapping.1) bs /\
    rp_encodings c = imap (consumable_encoding_of 123456789) (rp_encodings example_producer) /\
    rp_headerExtensions c = map consumable_ext
      (List.filter (consumable_ext_kept Kvideo) (caps_headerExtensions example_router)).
Proof.
  apply (@producer_negotiation_total example_h264 example_mediaCodecs);
    [apply example_router_eq | apply example_mapping_eq].
Defined.

Lemma mapping_covers_codecs_witness :
  length (map_codecs example_mapping.2) = 2.
Proof.
  exact (proj1 (@mapping_covers_codecs example_h264 _ _ _ _ _ example_mapping_eq)).
Defined.

Lemma mapped_ssrcs_distinct_u32_witness :
  NoDup (me_mappedSsrc <$> map_encodings example_mapping.2).
Proof.
  assert (random_number 123456789) as H1 by (unfold random_number; lia).
  assert (Z.of_nat (length (rp_encodings example_producer)) <= 2 ^ 31)%Z as H2 by (simpl; lia).
  exact (proj1 (proj2 (@mapped_ssrcs_distinct_u32 example_h264 _ _ _ _ _ H1 H2 example_mapping_eq))).
Defined.

Definition example_vp9 : RtpCodecParameters :=
  mkRtpCodecParameters "video/VP9" 98 90000 None [] [].

Lemma unsupported_codec_rejected_witness :
  exists msg, @getProducerRtpParametersMapping example_h264
    (with_codecs example_producer [example_vp9]) example_router 123456789
    = Err (UnsupportedError msg).
Proof.
  apply (@unsupported_codec_rejected example_h264 _ _ _ example_vp9).
  - left.
  - reflexivity.
  - assert (forallb (fun cap => negb (@matches example_h264 _ _ _ _ example_vp9 cap true))
              (caps_codecs example_router) = true) as H by (vm_compute; reflexivity).
    intros cap Hcap. rewrite forallb_forall in H.
    apply negb_true_iff, H. by apply list_elem_of_In.
Defined.
