(* ===== verification/OrtcConsumer.v ===== *)
(** * The consumer side of ortc.ts

    [canConsume], [getConsumerRtpParameters] and
    [getPipeConsumerRtpParameters]. *)

From S2P Require Import Prelude Js RtpParameters Validate ScalabilityModes Ortc.

Definition transport_cc_uri : string :=
  "http://www.ietf.org/id/draft-holmer-rmcat-transport-wide-cc-extensions-01".
Definition abs_send_time_uri : string :=
  "http://www.webrtc.org/experiments/rtp-hdrext/abs-send-time".
Definition mid_uri : string := "urn:ietf:params:rtp-hdrext:sdes:mid".

Definition not_capabilities : error := TypeError "not RtpCapabilities".

Definition canConsume `{H264} (consumableParams : RtpParameters) (caps : val) : result bool :=
  caps ← validateRtpCapabilities caps;
  caps ← from_option_or not_capabilities (RtpCapabilities_view caps);
  let matchingCodecs := List.filter
    (fun codec => existsb (fun capCodec => matches capCodec codec true) (caps_codecs caps))
    (rp_codecs consumableParams) in
  match matchingCodecs with
  | [] => Ok false
  | codec :: _ => Ok (negb (isRtxCodec codec))
  end.

(** ** getConsumerRtpParameters *)

(** [enableRtx || fb.type !== 'nack' || fb.parameter] *)
Definition feedback_kept (enableRtx : bool) (fb : RtcpFeedback) : bool :=
  enableRtx || negb (String.eqb (fb_type fb) "nack") || negb (String.eqb (fb_parameter fb) "").

(** The codecs of the first loop: those the remote side supports, with its
    RTCP feedback. *)
Fixpoint consumer_codecs `{H264} (capCodecs : list RtpCodecCapability) (enableRtx : bool)
    (codecs : list RtpCodecParameters) : list RtpCodecParameters :=
  match codecs with
  | [] => []
  | codec :: codecs =>
      if negb enableRtx && isRtxCodec codec then consumer_codecs capCodecs enableRtx codecs
      else match List.find (fun capCodec => matches capCodec codec true) capCodecs with
           | None => consumer_codecs capCodecs enableRtx codecs
           | Some matchedCapCodec =>
               with_feedback codec (List.filter (feedback_kept enableRtx)
                                      (cap_rtcpFeedback matchedCapCodec))
               :: consumer_codecs capCodecs enableRtx codecs
           end
  end.

(** The loop that removes RTX codecs without media codec, from the last index
    to the first; the state is the codec list and [rtxSupported]. *)
Definition has_media_codec (codecs : list RtpCodecParameters) (codec : RtpCodecParameters) : bool :=
  existsb (fun mediaCodec => apt_is codec (Some (cp_payloadType mediaCodec))) codecs.

Definition sanitize_step (st : list RtpCodecParameters * bool) (idx : nat) :
    list RtpCodecParameters * bool :=
  match st.1 !! idx with
  | Some codec =>
      if isRtxCodec codec then
        if has_media_codec st.1 codec then (st.1, true) else (delete idx st.1, st.2)
      else st
  | None => st
  end.

Definition sanitize_rtx (codecs : list RtpCodecParameters) : list RtpCodecParameters * bool :=
  foldl sanitize_step (codecs, false) (rev (seq 0 (length codecs))).

Definition has_uri (uri : string) (exts : list RtpHeaderExtensionParameters) : bool :=
  existsb (fun ext => String.eqb (hp_uri ext) uri) exts.

(** Transport-CC if available, REMB otherwise. *)
Definition bwe_feedback (exts : list RtpHeaderExtensionParameters) (fb : RtcpFeedback) : bool :=
  if has_uri transport_cc_uri exts then negb (String.eqb (fb_type fb) "goog-remb")
  else if has_uri abs_send_time_uri exts then negb (String.eqb (fb_type fb) "transport-cc")
  else negb (String.eqb (fb_type fb) "transport-cc") && negb (String.eqb (fb_type fb) "goog-remb").

Definition reduce_feedback (exts : list RtpHeaderExtensionParameters) (codec : RtpCodecParameters) :
    RtpCodecParameters :=
  with_feedback codec (List.filter (bwe_feedback exts) (cp_rtcpFeedback codec)).

Definition max_bitrate (encodings : list RtpEncodingParameters) : Z :=
  foldl (fun maxBitrate e =>
           match enc_maxBitrate e with
           | Some b => if negb (Z.eqb b 0) && Z.ltb maxBitrate b then b else maxBitrate
           | None => maxBitrate
           end) 0%Z encodings.

(** The scalability mode of the consumer: the first one given, with as many
    spatial layers as there are simulcast streams. *)
Definition consumer_scalabilityMode (encodings : list RtpEncodingParameters) : option string :=
  let scalabilityMode :=
    match List.find (fun e => bool_decide (is_Some (truthy_string (enc_scalabilityMode e)))) encodings with
    | Some e => enc_scalabilityMode e
    | None => None
    end in
  if (1 <? length encodings)%nat then
    Some ("L" +:+ pretty (Z.of_nat (length encodings)) +:+ "T" +:+
          pretty (temporalLayers (parse scalabilityMode)))
  else truthy_string scalabilityMode.

Definition consumer_encoding (encodings : list RtpEncodingParameters) (rtxSupported : bool)
    (ssrc : Z) : RtpEncodingParameters :=
  mkRtpEncodingParameters (Some ssrc) None None
    (if rtxSupported then Some (ssrc + 1)%Z else None) None
    (consumer_scalabilityMode encodings) None (truthy_Z (Some (max_bitrate encodings))).

(** One encoding per consumable encoding, numbered from the two base SSRCs. *)
Definition pipe_encoding (rtx : bool) (baseSsrc baseRtxSsrc : Z) (i : nat)
    (e : RtpEncodingParameters) : RtpEncodingParameters :=
  mkRtpEncodingParameters (Some (baseSsrc + Z.of_nat i)%Z) (enc_rid e) (enc_codecPayloadType e)
    (if rtx then Some (baseRtxSsrc + Z.of_nat i)%Z else None) (enc_dtx e)
    (enc_scalabilityMode e) (enc_scaleResolutionDownBy e) (enc_maxBitrate e).

Definition ext_supported (exts : list RtpHeaderExtension) (ext : RtpHeaderExtensionParameters) : bool :=
  existsb (fun capExt => Z.eqb (he_preferredId capExt) (hp_id ext) &&
                         String.eqb (he_uri capExt) (hp_uri ext)) exts.

(** The codecs of [remoteRtpCapabilities] are validated again; [rnd1] and
    [rnd2] are the random numbers drawn (the second one for pipes only). *)
Definition revalidate_codecs (caps : val) : result val :=
  codecs ← map_elements validateRtpCodecCapability (prop "codecs" caps);
  Ok (set_prop "codecs" codecs caps).

Definition getConsumerRtpParameters `{H264} (consumable : RtpParameters)
    (remoteRtpCapabilities : val) (pipe enableRtx : bool) (rnd1 rnd2 : Z) : result RtpParameters :=
  caps ← revalidate_codecs remoteRtpCapabilities;
  caps ← from_option_or not_capabilities (RtpCapabilities_view caps);
  let '(codecs, rtxSupported) :=
    sanitize_rtx (consumer_codecs (caps_codecs caps) enableRtx (rp_codecs consumable)) in
  throw_if (match codecs with [] => true | codec :: _ => isRtxCodec codec end)
    (UnsupportedError "no compatible media codecs");;
  let exts := List.filter (ext_supported (caps_headerExtensions caps))
                (rp_headerExtensions consumable) in
  let encodings :=
    if negb pipe then [consumer_encoding (rp_encodings consumable) rtxSupported rnd1]
    else imap (pipe_encoding rtxSupported rnd1 rnd2) (rp_encodings consumable) in
  Ok (mkRtpParameters None (map (reduce_feedback exts) codecs) exts encodings (rp_rtcp consumable)).

(** ** getPipeConsumerRtpParameters *)

Definition pipe_feedback_kept (enableRtx : bool) (fb : RtcpFeedback) : bool :=
  (String.eqb (fb_type fb) "nack" && String.eqb (fb_parameter fb) "pli") ||
  (String.eqb (fb_type fb) "ccm" && String.eqb (fb_parameter fb) "fir") ||
  (enableRtx && String.eqb (fb_type fb) "nack" && String.eqb (fb_parameter fb) "").

Definition pipe_ext_kept (ext : RtpHeaderExtensionParameters) : bool :=
  negb (String.eqb (hp_uri ext) mid_uri) &&
  negb (String.eqb (hp_uri ext) abs_send_time_uri) &&
  negb (String.eqb (hp_uri ext) transport_cc_uri).

Definition getPipeConsumerRtpParameters (consumable : RtpParameters) (enableRtx : bool)
    (baseSsrc baseRtxSsrc : Z) : RtpParameters :=
  let codecs := List.filter (fun codec => enableRtx || negb (isRtxCodec codec)) (rp_codecs consumable) in
  mkRtpParameters None
    (map (fun codec => with_feedback codec
            (List.filter (pipe_feedback_kept enableRtx) (cp_rtcpFeedback codec))) codecs)
    (List.filter pipe_ext_kept (rp_headerExtensions consumable))
    (imap (pipe_encoding enableRtx baseSsrc baseRtxSsrc) (rp_encodings consumable))
    (rp_rtcp consumable).

(** ** Removing useless RTX codecs *)

Lemma filter_Forall_id {A} (f : A -> bool) l :
  (forall x, x ∈ l -> f x = true) -> List.filter f l = l.
Proof.
  induction l as [|x l IH]; intros Hf; simpl; [done|].
  rewrite Hf by (by left). f_equal. apply IH. intros y Hy. apply Hf. by right.
Qed.

(** The loop has treated the indices from [k] on: the list is the untouched
    prefix followed by what remains of the suffix. *)
Definition sanitized_from (codecs : list RtpCodecParameters) (k : nat)
    (st : list RtpCodecParameters * bool) : Prop :=
  exists suffix, st.1 = take k codecs ++ suffix /\
    suffix `sublist_of` drop k codecs /\
    List.filter (fun c => negb (isRtxCodec c)) suffix =
      List.filter (fun c => negb (isRtxCodec c)) (drop k codecs) /\
    st.2 = existsb isRtxCodec suffix.

Lemma delete_middle' {A} (l1 l2 : list A) x i :
  length l1 = i -> delete i (l1 ++ x :: l2) = l1 ++ l2.
Proof. intros <-. apply delete_middle. Qed.

Lemma sanitize_step_from codecs k st :
  k < length codecs -> sanitized_from codecs (S k) st ->
  sanitized_from codecs k (sanitize_step st k).
Proof.
  intros Hk (suffix & Hst & Hsub & Hmedia & Hflag).
  destruct (lookup_lt_is_Some_2 _ _ Hk) as [c Hc].
  pose proof (take_S_r _ _ _ Hc) as Htake. pose proof (drop_S _ _ _ Hc) as Hdrop.
  assert (length (take k codecs) = k) as Hlen by (rewrite length_take; lia).
  rewrite Htake, <-app_assoc in Hst. simpl in Hst.
  assert (st.1 !! k = Some c) as Hl by (rewrite Hst; by apply list_lookup_middle).
  unfold sanitize_step. rewrite Hl. unfold sanitized_from. rewrite Hdrop. simpl.
  destruct (isRtxCodec c) eqn:Hr; simpl.
  - destruct (has_media_codec _ c) eqn:Hm; simpl.
    + exists (c :: suffix). simpl. rewrite Hr. simpl. split_and!; try done. by constructor.
    + exists suffix. rewrite Hst, delete_middle' by done. split_and!; try done. by constructor.
  - exists (c :: suffix). simpl. rewrite Hr. simpl.
    split_and!; try done; [by constructor | by f_equal].
Qed.

Lemma sanitize_loop codecs k st :
  k <= length codecs -> sanitized_from codecs k st ->
  sanitized_from codecs 0 (foldl sanitize_step st (rev (seq 0 k))).
Proof.
  revert st. induction k as [|k IH]; intros st Hk Hst; [done|].
  rewrite seq_S, rev_app_distr. simpl. apply IH; [lia|].
  apply sanitize_step_from; [lia|done].
Qed.

(** The loop removes RTX codecs only, and [rtxSupported] says whether one
    remains. *)
Lemma sanitize_rtx_inv codecs codecs' rtxSupported :
  sanitize_rtx codecs = (codecs', rtxSupported) ->
  codecs' `sublist_of` codecs /\
  List.filter (fun c => negb (isRtxCodec c)) codecs' =
    List.filter (fun c => negb (isRtxCodec c)) codecs /\
  rtxSupported = existsb isRtxCodec codecs'.
Proof.
  intros H. unfold sanitize_rtx in H.
  pose proof (sanitize_loop codecs (length codecs) (codecs, false)) as Hl. rewrite H in Hl.
  destruct Hl as (suffix & H1 & H2 & H3 & H4); [done| |].
  - exists []. rewrite drop_all, take_ge by done. by rewrite app_nil_r.
  - simpl in H1, H2, H3, H4. subst. by rewrite <-(drop_0 codecs) at 2.
Qed.

(** The first codec stays first when it is a media codec. *)
Lemma sanitize_rtx_head c codecs codecs' rtxSupported :
  isRtxCodec c = false -> sanitize_rtx (c :: codecs) = (codecs', rtxSupported) ->
  exists l, codecs' = c :: l.
Proof.
  intros Hc H. unfold sanitize_rtx in H. simpl length in H.

  assert (forall ks st, Forall (fun k => 1 <= k) ks -> (exists l, st.1 = c :: l) ->
    exists l, (foldl sanitize_step st ks).1 = c :: l) as Hkeep.
  { induction ks as [|k ks IH]; intros st Hks (l & Hst); simpl; [eauto|].
    inversion Hks; subst. apply IH; [done|]. unfold sanitize_step.
    destruct (st.1 !! k) as [r|]; [|eauto]. destruct (isRtxCodec r); [|eauto].
    destruct (has_media_codec st.1 r); [eauto|].
    destruct k as [|k]; [lia|]. simpl. rewrite Hst. simpl. eauto. }
  change (seq 0 (S (length codecs))) with ([0] ++ seq 1 (length codecs)) in H.
  rewrite rev_app_distr, foldl_app in H. simpl in H.
  set (st := foldl sanitize_step (c :: codecs, false) (rev (seq 1 (length codecs)))) in *.
  destruct (Hkeep (rev (seq 1 (length codecs))) (c :: codecs, false)) as (l & Hl).
  { apply Forall_forall. intros k Hk. apply list_elem_of_In, in_rev, list_elem_of_In, elem_of_seq in Hk.
    lia. }
  { by exists codecs. }
  fold st in Hl. unfold sanitize_step in H. rewrite Hl in H. simpl in H. rewrite Hc in H.
  exists l. by rewrite <-Hl, H.
Qed.

(** ** The codecs of a consumer *)

(** [c'] is [c] with RTCP feedback the remote capability [cap] offers. *)
Definition offered_codec `{H264} (caps : RtpCapabilities) (enableRtx : bool)
    (exts : list RtpHeaderExtensionParameters) (c c' : RtpCodecParameters) : Prop :=
  exists cap, cap ∈ caps_codecs caps /\ matches cap c true = true /\
    (enableRtx = false -> isRtxCodec c = false) /\
    c' = with_feedback c (List.filter (fun fb => feedback_kept enableRtx fb && bwe_feedback exts fb)
                            (cap_rtcpFeedback cap)).

(** What the first loop pushes, before the feedback for bandwidth estimation
    is reduced. *)
Definition pushed_codec `{H264} (caps : list RtpCodecCapability) (enableRtx : bool)
    (c' : RtpCodecParameters) (codecs : list RtpCodecParameters) : Prop :=
  exists c cap, c ∈ codecs /\ cap ∈ caps /\ matches cap c true = true /\
    (enableRtx = false -> isRtxCodec c = false) /\
    c' = with_feedback c (List.filter (feedback_kept enableRtx) (cap_rtcpFeedback cap)).

Lemma consumer_codecs_pushed `{H264} caps enableRtx codecs :
  Forall (fun c' => pushed_codec caps enableRtx c' codecs) (consumer_codecs caps enableRtx codecs).
Proof.
  induction codecs as [|c l IH]; simpl; [constructor|].
  assert (Forall (fun c' => pushed_codec caps enableRtx c' (c :: l))
            (consumer_codecs caps enableRtx l)) as IH'.
  { eapply Forall_impl; [exact IH|]. intros c' (c0 & cap & Hin & Hrest).
    exists c0, cap. split; [by right|done]. }
  destruct (negb enableRtx && isRtxCodec c) eqn:Hr; [done|].
  destruct (List.find _ caps) as [cap|] eqn:Hf; [|done].
  constructor; [|done]. apply find_Some_elem in Hf as [Hin Hm].
  exists c, cap. split_and!; try done; [by left|].
  intros ->. simpl in Hr. done.
Qed.

Lemma consumer_codecs_head `{H264} caps enableRtx codecs c ms :
  List.filter (fun codec => existsb (fun capCodec => matches capCodec codec true) caps) codecs
    = c :: ms ->
  isRtxCodec c = false ->
  exists fbs l, consumer_codecs caps enableRtx codecs = with_feedback c fbs :: l.
Proof.
  induction codecs as [|c0 l IH]; simpl; [done|]. intros Hf Hc.
  destruct (existsb _ caps) eqn:He; simpl in Hf.
  - injection Hf as -> Hf. rewrite Hc, andb_false_r.
    apply existsb_exists in He as (cap & Hin & Hm).
    destruct (List.find (fun capCodec => matches capCodec c true) caps) eqn:Hfind; [by repeat eexists|].
    eapply find_none in Hfind; [|exact Hin]. simpl in Hfind. congruence.
  - destruct (IH Hf Hc) as (fbs & k & Hk). rewrite Hk.
    destruct (negb enableRtx && isRtxCodec c0); [by repeat eexists|].
    destruct (List.find _ caps) as [cap|] eqn:Hfind; [|by repeat eexists].
    apply find_Some_elem in Hfind as [Hin Hm].
    assert (existsb (fun capCodec => matches capCodec c0 true) caps = true); [|congruence].
    apply existsb_exists. exists cap. split; [by apply list_elem_of_In|done].
Qed.

(** Capabilities that were validated pass the second validation unchanged. *)
Lemma revalidate_codecs_wf caps : wf_RtpCapabilities caps -> revalidate_codecs caps = Ok caps.
Proof.
  intros (Ho & Hc & _). unfold revalidate_codecs.
  rewrite (wf_array_id _ wf_RtpCodecCapability); [|apply wf_validateRtpCodecCapability|done].
  rewrite Ok_bind. f_equal. apply set_prop_same; [by eapply wf_array_ne|done].
Qed.

Lemma filter_andb {A} (f g : A -> bool) l :
  List.filter g (List.filter f l) = List.filter (fun x => f x && g x) l.
Proof.
  induction l as [|x l IH]; simpl; [done|]. destruct (f x); simpl; [|done].
  destruct (g x); by rewrite IH.
Qed.

Lemma existsb_map {A B} (f : B -> bool) (g : A -> B) l :
  existsb f (map g l) = existsb (fun x => f (g x)) l.
Proof. induction l as [|x l IH]; simpl; [done|]. by rewrite IH. Qed.

(** The codecs of consumer parameters, and what their construction ensures. *)
Lemma consumer_codecs_sound `{H264} caps enableRtx exts codecs codecs' rtx :
  sanitize_rtx (consumer_codecs (caps_codecs caps) enableRtx codecs) = (codecs', rtx) ->
  Forall (fun c' => exists c, c ∈ codecs /\ offered_codec caps enableRtx exts c c')
    (map (reduce_feedback exts) codecs') /\
  rtx = existsb isRtxCodec (map (reduce_feedback exts) codecs').
Proof.
  intros H'. apply sanitize_rtx_inv in H' as (Hs & _ & ->).
  split; [|by rewrite existsb_map].
  apply Forall_map, Forall_forall. intros c' Hc'.
  assert (c' ∈ consumer_codecs (caps_codecs caps) enableRtx codecs) as Hin
    by (by eapply elem_of_sublist).
  pose proof (proj1 (Forall_forall _ _) (consumer_codecs_pushed (caps_codecs caps) enableRtx codecs)
    _ Hin) as (c & cap & Hc & Hcap & Hm & Hr & ->).
  exists c. split; [done|]. exists cap. split_and!; try done.
  unfold reduce_feedback, with_feedback. simpl. by rewrite filter_andb.
Qed.

(** At most one kind of feedback for bandwidth estimation is left. *)
Lemma bwe_feedback_exclusive exts fb fb' :
  bwe_feedback exts fb = true -> bwe_feedback exts fb' = true ->
  fb_type fb = "transport-cc" -> fb_type fb' <> "goog-remb".
Proof.
  unfold bwe_feedback. intros H1 H2 H3 H4. rewrite H3 in H1. rewrite H4 in H2.
  destruct (has_uri transport_cc_uri exts), (has_uri abs_send_time_uri exts); done.
Qed.

Lemma getConsumerRtpParameters_inv `{H264} consumable v pipe enableRtx rnd1 rnd2 p :
  getConsumerRtpParameters consumable v pipe enableRtx rnd1 rnd2 = Ok p ->
  exists v' caps codecs rtx,
    revalidate_codecs v = Ok v' /\ RtpCapabilities_view v' = Some caps /\
    sanitize_rtx (consumer_codecs (caps_codecs caps) enableRtx (rp_codecs consumable)) = (codecs, rtx) /\
    (exists c l, codecs = c :: l /\ isRtxCodec c = false) /\
    let exts := List.filter (ext_supported (caps_headerExtensions caps)) (rp_headerExtensions consumable) in
    p = mkRtpParameters None (map (reduce_feedback exts) codecs) exts
          (if negb pipe then [consumer_encoding (rp_encodings consumable) rtx rnd1]
           else imap (pipe_encoding rtx rnd1 rnd2) (rp_encodings consumable))
          (rp_rtcp consumable).
Proof.
  unfold getConsumerRtpParameters. intros Hp.
  apply bind_Ok in Hp as (v' & Hv & Hp). apply bind_Ok in Hp as (caps & Hc & Hp).
  apply from_option_or_Ok in Hc.
  destruct (sanitize_rtx _) as [codecs rtx] eqn:Hs. inv_result.
  exists v', caps, codecs, rtx. split_and!; try done.
  destruct codecs as [|c l]; [done|]. by exists c, l.
Qed.

(** ** Encodings *)

Lemma max_bitrate_ge encodings b0 :
  let m := foldl (fun maxBitrate e =>
           match enc_maxBitrate e with
           | Some b => if negb (Z.eqb b 0) && Z.ltb maxBitrate b then b else maxBitrate
           | None => maxBitrate
           end) b0 encodings in
  (b0 <= m)%Z /\ (forall e b, e ∈ encodings -> enc_maxBitrate e = Some b -> b <= Z.max 0 m)%Z /\
  (m = b0 \/ exists e, e ∈ encodings /\ enc_maxBitrate e = Some m).
Proof.
  revert b0. induction encodings as [|e l IH]; intros b0; simpl.
  { split_and!; [lia| |by left]. by intros ? ? ?%elem_of_nil. }
  set (b1 := match enc_maxBitrate e with Some _ => _ | None => _ end).
  destruct (IH b1) as (H1 & H2 & H3).
  assert (b0 <= b1)%Z as Hle.
  { subst b1. destruct (enc_maxBitrate e); [|lia]. destruct (Z.eqb_spec z 0), (Z.ltb_spec b0 z); simpl; lia. }
  split_and!; [lia| |].
  - intros e' b [->|Hin]%elem_of_cons Hb; [|by eapply H2].
    assert (b <= Z.max 0 b1)%Z; [|lia]. subst b1. rewrite Hb.
    destruct (Z.eqb_spec b 0), (Z.ltb_spec b0 b); simpl; lia.
  - destruct H3 as [H3|(e' & Hin & He')]; [|right; exists e'; split; [by right|done]].
    rewrite H3. subst b1. destruct (enc_maxBitrate e) as [b|] eqn:Hb; [|by left].
    destruct (negb _ && _); [|by left]. right. exists e. split; [by left|done].
Qed.

Lemma consumer_scalabilityMode_parse encodings :
  (length encodings <= 99)%nat -> (1 < length encodings)%nat ->
  exists t, parse (consumer_scalabilityMode encodings) =
    mkScalabilityMode (Z.of_nat (length encodings)) t false /\ (1 <= t <= 99)%Z.
Proof.
  intros Hl H1. unfold consumer_scalabilityMode.
  rewrite (proj2 (Nat.ltb_lt _ _)) by done.
  set (m := match List.find _ _ with Some _ => _ | None => _ end).
  assert (1 <= temporalLayers (parse m) <= 99)%Z as Ht by apply parse_layers.
  exists (temporalLayers (parse m)). split; [|done].
  apply (parse_mode_text (Z.of_nat (length encodings)) (temporalLayers (parse m))); lia.
Qed.

(** ** Properties *)

(** What [canConsume] promises: when it answers [true], making consumer
    parameters for the same capabilities succeeds, whatever the other
    arguments. *)
Theorem canConsume_promise `{H264} consumable v v' pipe enableRtx rnd1 rnd2 :
  canConsume consumable v = Ok true -> validateRtpCapabilities v = Ok v' ->
  exists p, getConsumerRtpParameters consumable v' pipe enableRtx rnd1 rnd2 = Ok p.
Proof.
  unfold canConsume. intros Hc Hv. rewrite Hv, Ok_bind in Hc. inv_result.
  apply validateRtpCapabilities_wf in Hv.
  destruct (List.filter _ (rp_codecs consumable)) as [|c l] eqn:Hf; [done|].
  inv_result. apply negb_true_iff in Hc.
  unfold getConsumerRtpParameters. rewrite revalidate_codecs_wf, Ok_bind, Ha by done. simpl.
  destruct (consumer_codecs_head _ enableRtx _ _ _ Hf Hc) as (fbs & k & ->).
  destruct (sanitize_rtx _) as [codecs rtx] eqn:Hs.
  apply sanitize_rtx_head in Hs as (q & ->); [|done].
  rewrite throw_if_pass by done. by eexists.
Qed.

(** C11: the codecs of a consumer: the first one is a media codec, every one
    is a codec of the producer that the remote side supports, with feedback the
    remote side offers for it; without RTX there are neither RTX codecs nor
    plain NACK; REMB and transport-cc are never both left; header extensions
    are among those the remote side supports. *)
Theorem consumer_parameters_sound `{H264} consumable v pipe enableRtx rnd1 rnd2 p :
  getConsumerRtpParameters consumable v pipe enableRtx rnd1 rnd2 = Ok p ->
  exists v' caps,
    revalidate_codecs v = Ok v' /\ RtpCapabilities_view v' = Some caps /\
    (exists c l, rp_codecs p = c :: l /\ isRtxCodec c = false) /\
    Forall (fun c' => exists c, c ∈ rp_codecs consumable /\
              offered_codec caps enableRtx (rp_headerExtensions p) c c') (rp_codecs p) /\
    (forall c fb fb', c ∈ rp_codecs p -> fb ∈ cp_rtcpFeedback c -> fb' ∈ cp_rtcpFeedback c ->
       fb_type fb = "transport-cc" -> fb_type fb' <> "goog-remb") /\
    (forall ext, ext ∈ rp_headerExtensions p <->
       ext ∈ rp_headerExtensions consumable /\ ext_supported (caps_headerExtensions caps) ext = true).
Proof.
  intros (v' & caps & codecs & rtx & Hv & Hc & Hs & (c & l & Hcl & Hr) & ->)%getConsumerRtpParameters_inv.
  exists v', caps. simpl. split_and!; try done.
  - subst codecs. by eexists _, _.
  - by eapply (proj1 (consumer_codecs_sound _ _ _ _ _ _ Hs)).
  - intros c' fb fb' Hc' H1 H2. apply list_elem_of_In, in_map_iff in Hc' as (c0 & <- & _).
    simpl in *. apply list_elem_of_In, filter_In in H1 as [_ H1].
    apply list_elem_of_In, filter_In in H2 as [_ H2]. by apply (bwe_feedback_exclusive _ _ _ H1 H2).
  - intros ext. by rewrite list_elem_of_In, filter_In, <-list_elem_of_In.
Qed.


(** Pipe consumer parameters: every encoding of the producer, in order
    and with consecutive SSRCs, without the extensions of bandwidth estimation
    and MID; feedback is PLI, FIR and, with RTX only, plain NACK; without RTX
    the RTX codecs are dropped and nothing else is. *)
Theorem pipe_consumer_parameters_spec consumable enableRtx baseSsrc baseRtxSsrc :
  let p := getPipeConsumerRtpParameters consumable enableRtx baseSsrc baseRtxSsrc in
  length (rp_encodings p) = length (rp_encodings consumable) /\
  (forall i e, rp_encodings p !! i = Some e ->
     enc_ssrc e = Some (baseSsrc + Z.of_nat i)%Z /\
     enc_rtx e = (if enableRtx then Some (baseRtxSsrc + Z.of_nat i)%Z else None)) /\
  Forall (fun ext => hp_uri ext <> mid_uri /\ hp_uri ext <> abs_send_time_uri /\
                     hp_uri ext <> transport_cc_uri) (rp_headerExtensions p) /\
  (forall c fb, c ∈ rp_codecs p -> fb ∈ cp_rtcpFeedback c ->
     (fb = mkRtcpFeedback "nack" "pli" \/ fb = mkRtcpFeedback "ccm" "fir" \/
      enableRtx = true /\ fb = mkRtcpFeedback "nack" "")) /\
  map cp_payloadType (rp_codecs p) =
    map cp_payloadType (List.filter (fun c => enableRtx || negb (isRtxCodec c)) (rp_codecs consumable)).
Proof.
  simpl. split_and!.
  - apply length_imap.
  - intros i e He. rewrite list_lookup_imap in He. apply fmap_Some in He as (e0 & _ & ->). done.
  - apply Forall_forall. intros ext Hext. apply list_elem_of_In, filter_In in Hext as [_ Hext].
    unfold pipe_ext_kept in Hext. apply andb_prop in Hext as [Hext H3].
    apply andb_prop in Hext as [H1 H2].
    apply negb_true_iff, String.eqb_neq in H1, H2, H3. done.
  - intros c fb Hc Hfb. apply list_elem_of_In, in_map_iff in Hc as (c0 & <- & _). simpl in Hfb.
    apply list_elem_of_In, filter_In in Hfb as [_ Hfb]. unfold pipe_feedback_kept in Hfb.
    destruct fb as [ty pa]. simpl in Hfb.
    rewrite !orb_true_iff, !andb_true_iff, !String.eqb_eq in Hfb.
    destruct Hfb as [[[-> ->]|[-> ->]]|[[-> ->] ->]]; eauto.
  - rewrite map_map. done.
Qed.

(** ** Examples *)

(** A producer of VP8 and VP9, both with RTX. *)
Definition example_consumable : RtpParameters :=
  mkRtpParameters None
    [mkRtpCodecParameters "video/VP8" 101 90000 None [] [];
     mkRtpCodecParameters "video/rtx" 102 90000 None [("apt", PNum 101)] [];
     mkRtpCodecParameters "video/VP9" 103 90000 None [] [];
     mkRtpCodecParameters "video/rtx" 104 90000 None [("apt", PNum 103)] []]
    []
    [mkRtpEncodingParameters (Some 1000%Z) None None None None (Some "L1T3") None (Some 100000%Z);
     mkRtpEncodingParameters (Some 1001%Z) None None None None (Some "L1T3") None (Some 300000%Z)]
    (mkRtcpParameters None true None).

Definition example_codec (mimeType : string) : val :=
  VObj [("mimeType", VStr mimeType); ("clockRate", VNum 90000);
        ("rtcpFeedback", VArr [VObj [("type", VStr "nack")];
                               VObj [("type", VStr "goog-remb")]] [])].

(** A remote side that supports VP8, VP9 and RTX, and one without VP8. *)
Definition example_both : val :=
  VObj [("codecs", VArr [example_codec "video/VP8"; example_codec "video/VP9";
                         example_codec "video/rtx"] [])].
Definition example_only_vp9 : val :=
  VObj [("codecs", VArr [example_codec "video/VP9"; example_codec "video/rtx"] [])].

Definition validated (v : val) : val :=
  match validateRtpCapabilities v with Ok v' => v' | Err _ => VUndef end.

Lemma canConsume_promise_witness :
  exists p, @getConsumerRtpParameters example_h264 example_consumable (validated example_both)
              false true 500 600 = Ok p.
Proof.
  apply (@canConsume_promise example_h264 _ example_both); vm_compute; reflexivity.
Defined.

(** What the consumer of the example gets. *)
Definition example_consumer : RtpParameters :=
  Eval vm_compute in
  match @getConsumerRtpParameters example_h264 example_consumable (validated example_both)
          false true 500 600 with
  | Ok p => p | Err _ => example_consumable end.

Lemma consumer_parameters_sound_witness :
  exists c l, rp_codecs example_consumer = c :: l /\ isRtxCodec c = false.
Proof.
  edestruct (@consumer_parameters_sound example_h264 example_consumable (validated example_both)
    false true 500 600 example_consumer) as (v' & caps & _ & _ & H & _).
  - vm_compute. reflexivity.
  - exact H.
Defined.


(** The converse of [canConsume_promise] fails: [canConsume] looks at the first codec the
    remote side supports before RTX codecs of unsupported media codecs are
    removed.  A remote side with VP9 and RTX is refused a producer of VP8 and
    VP9 with RTX, although the parameters of the consumer can be made. *)
Theorem canConsume_incomplete :
  @canConsume example_h264 example_consumable example_only_vp9 = Ok false /\
  is_ok (@getConsumerRtpParameters example_h264 example_consumable (validated example_only_vp9)
           false true 500 600) = true.
Proof. split; vm_compute; reflexivity. Qed.
