(* ===== verification/RequestBodies.v ===== *)
(** * Media parameters in the bodies of requests

    The objects that [produce] and [consume] put into their requests, made from
    the records of RtpParameters.v and from the mapping of Ortc.v.  A field that
    is absent is [undefined], which [JSON.stringify] leaves out.  What is written
    is read back unchanged by the views of RtpParameters.v. *)

From S2P Require Import Prelude Js RtpParameters Ortc.

Definition opt_val {A} (f : A -> val) (o : option A) : val :=
  match o with Some a => f a | None => VUndef end.

Definition array_val {A} (f : A -> val) (l : list A) : val := VArr (map f l) [].

Definition pval_val (p : pval) : val := match p with PStr s => VStr s | PNum n => VNum n end.

Definition params_val (ps : params) : val := VObj (map (fun kx => (kx.1, pval_val kx.2)) ps).

Definition RtcpFeedback_val (fb : RtcpFeedback) : val :=
  VObj [("type", VStr (fb_type fb)); ("parameter", VStr (fb_parameter fb))].

Definition RtpCodecParameters_val (c : RtpCodecParameters) : val :=
  VObj [("mimeType", VStr (cp_mimeType c)); ("payloadType", VNum (cp_payloadType c));
        ("clockRate", VNum (cp_clockRate c)); ("channels", opt_val VNum (cp_channels c));
        ("parameters", params_val (cp_parameters c));
        ("rtcpFeedback", array_val RtcpFeedback_val (cp_rtcpFeedback c))].

Definition RtpHeaderExtensionParameters_val (e : RtpHeaderExtensionParameters) : val :=
  VObj [("uri", VStr (hp_uri e)); ("id", VNum (hp_id e)); ("encrypt", VBool (hp_encrypt e));
        ("parameters", params_val (hp_parameters e))].

Definition RtpEncodingParameters_val (e : RtpEncodingParameters) : val :=
  VObj [("ssrc", opt_val VNum (enc_ssrc e)); ("rid", opt_val VStr (enc_rid e));
        ("codecPayloadType", opt_val VNum (enc_codecPayloadType e));
        ("rtx", opt_val (fun ssrc => VObj [("ssrc", VNum ssrc)]) (enc_rtx e));
        ("dtx", opt_val VBool (enc_dtx e));
        ("scalabilityMode", opt_val VStr (enc_scalabilityMode e));
        ("scaleResolutionDownBy", opt_val VNum (enc_scaleResolutionDownBy e));
        ("maxBitrate", opt_val VNum (enc_maxBitrate e))].

Definition encodings_val (es : list RtpEncodingParameters) : val :=
  array_val RtpEncodingParameters_val es.

Definition RtcpParameters_val (r : RtcpParameters) : val :=
  VObj [("cname", opt_val VStr (rtcp_cname r)); ("reducedSize", VBool (rtcp_reducedSize r));
        ("mux", opt_val VBool (rtcp_mux r))].

Definition RtpParameters_val (p : RtpParameters) : val :=
  VObj [("mid", opt_val VStr (rp_mid p));
        ("codecs", array_val RtpCodecParameters_val (rp_codecs p));
        ("headerExtensions", array_val RtpHeaderExtensionParameters_val (rp_headerExtensions p));
        ("encodings", encodings_val (rp_encodings p));
        ("rtcp", RtcpParameters_val (rp_rtcp p))].

Definition MappedCodec_val (c : MappedCodec) : val :=
  VObj [("payloadType", VNum (mc_payloadType c));
        ("mappedPayloadType", opt_val VNum (mc_mappedPayloadType c))].

Definition MappedEncoding_val (e : MappedEncoding) : val :=
  VObj [("ssrc", opt_val VNum (me_ssrc e)); ("rid", opt_val VStr (me_rid e));
        ("scalabilityMode", opt_val VStr (me_scalabilityMode e));
        ("mappedSsrc", VNum (me_mappedSsrc e))].

Definition RtpMapping_val (m : RtpMapping) : val :=
  VObj [("codecs", array_val MappedCodec_val (map_codecs m));
        ("encodings", array_val MappedEncoding_val (map_encodings m))].

(** ** What is written is read back *)

Lemma views_map {A} (f : A -> val) (g : val -> option A) l :
  (forall a, g (f a) = Some a) -> views g (map f l) = Some l.
Proof.
  intros H. induction l as [|a l IH]; simpl; [done|]. by rewrite H, IH.
Qed.

Lemma array_view_val {A} (f : A -> val) (g : val -> option A) l :
  (forall a, g (f a) = Some a) -> array_view g (array_val f l) = Some l.
Proof. apply views_map. Qed.

Lemma params_view_val ps : params_view (own_props (params_val ps)) = Some ps.
Proof.
  simpl. induction ps as [|[k []] ps IH]; simpl; [done|by rewrite IH..].
Qed.

Lemma RtcpFeedback_view_val fb : RtcpFeedback_view (RtcpFeedback_val fb) = Some fb.
Proof. by destruct fb. Qed.

Lemma RtpCodecParameters_view_val c : RtpCodecParameters_view (RtpCodecParameters_val c) = Some c.
Proof.
  destruct c as [mime pt rate ch ps fbs].
  unfold RtpCodecParameters_view, RtpCodecParameters_val. cbn -[params_val params_view array_view array_val own_props prop].
  change (params_view _) with (params_view (own_props (params_val ps))). rewrite params_view_val. cbn -[array_view array_val prop].
  change (array_view _ _) with (array_view RtcpFeedback_view (array_val RtcpFeedback_val fbs)).
  rewrite (array_view_val _ _ _ RtcpFeedback_view_val). by destruct ch.
Qed.

Lemma RtpHeaderExtensionParameters_view_val e :
  RtpHeaderExtensionParameters_view (RtpHeaderExtensionParameters_val e) = Some e.
Proof.
  destruct e as [uri id enc ps].
  unfold RtpHeaderExtensionParameters_view, RtpHeaderExtensionParameters_val.
  cbn -[params_val params_view own_props prop].
  change (params_view _) with (params_view (own_props (params_val ps))). by rewrite params_view_val.
Qed.

Lemma RtpEncodingParameters_view_val e :
  RtpEncodingParameters_view (RtpEncodingParameters_val e) = Some e.
Proof. by destruct e as [[] [] [] [] [] [] [] []]. Qed.

Lemma RtcpParameters_view_val r : RtcpParameters_view (RtcpParameters_val r) = Some r.
Proof. by destruct r as [[] ? []]. Qed.

Lemma RtpParameters_view_val p : RtpParameters_view (RtpParameters_val p) = Some p.
Proof.
  destruct p as [mid codecs exts encs rtcp]. unfold RtpParameters_view.
  change (prop "codecs" _) with (array_val RtpCodecParameters_val codecs).
  rewrite (array_view_val _ _ _ RtpCodecParameters_view_val). cbn -[array_view array_val prop RtcpParameters_view RtpParameters_val].
  change (prop "headerExtensions" _) with (array_val RtpHeaderExtensionParameters_val exts).
  rewrite (array_view_val _ _ _ RtpHeaderExtensionParameters_view_val). cbn -[array_view array_val prop RtcpParameters_view RtpParameters_val].
  change (prop "encodings" _) with (array_val RtpEncodingParameters_val encs).
  rewrite (array_view_val _ _ _ RtpEncodingParameters_view_val). cbn -[prop RtcpParameters_view RtpParameters_val].
  change (prop "rtcp" _) with (RtcpParameters_val rtcp).
  rewrite RtcpParameters_view_val. by destruct mid.
Qed.
