(* ===== verification/Revalidate.v ===== *)
(** * Parameters that are validated again

    RTP parameters leave a Producer or a Consumer as an object and may come back
    as the argument of another call: [pipeToRouter] gives the parameters of a
    Consumer to [produce].  [validateRtpParameters] accepts what RequestBodies.v
    writes of parameters that are good in the sense below, and validated
    parameters are. *)

From S2P Require Import Prelude Js RtpParameters Validate Ortc RequestBodies.

(** ** Good parameters *)

Definition channels_ok (kind : string) (channels : option Z) : Prop :=
  if String.eqb kind "audio" then is_Some channels else channels = None.

Definition apt_ok (ps : params) : Prop := forall s, ("apt", PStr s) ∉ ps.

Definition good_feedback (fb : RtcpFeedback) : Prop := fb_type fb <> "".

Definition good_codec (c : RtpCodecParameters) : Prop :=
  (exists kind, mime_kind (cp_mimeType c) = Some kind /\ channels_ok kind (cp_channels c)) /\
  apt_ok (cp_parameters c) /\ Forall good_feedback (cp_rtcpFeedback c).

Definition good_parameters (p : RtpParameters) : Prop :=
  Forall good_codec (rp_codecs p) /\
  Forall (fun e => hp_uri e <> "") (rp_headerExtensions p) /\
  rtcp_reducedSize (rp_rtcp p) = true.

(** The default of [dtx]. *)
Definition default_dtx (e : RtpEncodingParameters) : RtpEncodingParameters :=
  mkRtpEncodingParameters (enc_ssrc e) (enc_rid e) (enc_codecPayloadType e) (enc_rtx e)
    (Some (default false (enc_dtx e))) (enc_scalabilityMode e) (enc_scaleResolutionDownBy e)
    (enc_maxBitrate e).

Definition default_dtxs (p : RtpParameters) : RtpParameters :=
  mkRtpParameters (rp_mid p) (rp_codecs p) (rp_headerExtensions p) (map default_dtx (rp_encodings p))
    (rp_rtcp p).

Lemma default_dtx_given e b : enc_dtx e = Some b -> default_dtx e = e.
Proof. destruct e. simpl. by intros ->. Qed.

(** ** Writing and validating *)

Lemma RtcpFeedback_val_wf fb : good_feedback fb -> wf_RtcpFeedback (RtcpFeedback_val fb).
Proof. intros Hg. split_and!; [done|by exists (fb_type fb)|by exists (fb_parameter fb)]. Qed.

Lemma params_val_wf ps : apt_ok ps -> wf_parameters wf_codec_param (params_val ps).
Proof.
  intros Hps. split; [done|]. simpl. apply Forall_map, Forall_forall. intros [k [s|n]] Hin; simpl.
  - right. split; [|by eexists]. intros ->. by apply (Hps s).
  - left. by eexists.
Qed.

Lemma feedbacks_val_wf fbs :
  Forall good_feedback fbs -> wf_array wf_RtcpFeedback (array_val RtcpFeedback_val fbs).
Proof.
  intros Hg. exists (map RtcpFeedback_val fbs), []. split; [done|]. apply Forall_map.
  eapply Forall_impl; [exact Hg|]. apply RtcpFeedback_val_wf.
Qed.

Lemma codec_tail_again kind v :
  wf_codec_tail kind (channels_step kind v) -> codec_tail kind v = Ok (channels_step kind v).
Proof.
  intros Hwf. pose proof (wf_codec_tail_id _ _ Hwf) as H. destruct Hwf as (_ & Hch & _).
  rewrite codec_tail_unfold in H. rewrite (wf_channels_step _ _ Hch) in H. by rewrite codec_tail_unfold.
Qed.

Lemma as_num_opt o : as_num (opt_val VNum o) = o.
Proof. by destruct o. Qed.

Lemma codec_revalidated c :
  good_codec c ->
  exists v, validateRtpCodecParameters (RtpCodecParameters_val c) = Ok v /\
            RtpCodecParameters_view v = Some c.
Proof.
  intros ((kind & Hkind & Hch) & Hapt & Hfb). set (x := RtpCodecParameters_val c).
  assert (is_obj x = true) as Ho by done.
  assert (prop "channels" x = opt_val VNum (cp_channels c)) as Hpc by done.
  assert (prop "parameters" x = params_val (cp_parameters c)) as Hpp by done.
  assert (prop "rtcpFeedback" x = array_val RtcpFeedback_val (cp_rtcpFeedback c)) as Hpf by done.
  pose proof (channels_step_wf kind x Ho) as Hwf.
  exists (channels_step kind x). split.
  - rewrite validateRtpCodecParameters_unfold, require_object_pass by done.
    rewrite throw_if_pass by (eapply as_str_missing; [done|by eapply mime_kind_ne]).
    erewrite from_option_pass by reflexivity. erewrite from_option_pass by exact Hkind.
    rewrite !throw_if_pass by reflexivity. apply codec_tail_again. unfold wf_codec_tail. rewrite is_obj_channels_step, !prop_channels_step by done.
    rewrite Hpp, Hpf. split_and!; [done|done|by apply params_val_wf|by apply feedbacks_val_wf].
  - rewrite <-(RtpCodecParameters_view_val c). fold x. unfold RtpCodecParameters_view.
    rewrite (prop_channels_step kind "mimeType"), (prop_channels_step kind "payloadType"),
      (prop_channels_step kind "clockRate"), (prop_channels_step kind "parameters"),
      (prop_channels_step kind "rtcpFeedback") by done.
    replace (as_num (prop "channels" (channels_step kind x))) with (as_num (prop "channels" x)); [done|].
    rewrite Hpc, as_num_opt. unfold channels_ok, wf_channels, channels_step in *.
    destruct (String.eqb kind "audio") eqn:Hk.
    + destruct Hch as [n Hn]. rewrite Hpc, Hn. simpl. by rewrite Hpc, Hn.
    + unfold prop. by rewrite Hwf, Hch.
Qed.

Lemma ext_revalidated e :
  hp_uri e <> "" ->
  exists v, validateRtpHeaderExtensionParameters (RtpHeaderExtensionParameters_val e) = Ok v /\
            RtpHeaderExtensionParameters_view v = Some e.
Proof.
  intros Hu. exists (RtpHeaderExtensionParameters_val e). split; [|apply RtpHeaderExtensionParameters_view_val].
  apply wf_validateRtpHeaderExtensionParameters. split_and!; [done|by exists (hp_uri e)|by eexists|by eexists|].
  split; [done|]. simpl. apply Forall_map, Forall_forall. intros [k [s|n]] _; [left|right]; by eexists.
Qed.

Lemma encoding_revalidated e :
  exists v, validateRtpEncodingParameters (RtpEncodingParameters_val e) = Ok v /\
            RtpEncodingParameters_view v = Some (default_dtx e).
Proof.
  set (x := RtpEncodingParameters_val e).
  exists (if missing "boolean" (prop "dtx" x) then set_prop "dtx" (VBool false) x else x). split.
  - assert (forall k o, prop k x = opt_val VStr o -> ill_typed "string" (prop k x) = false) as Hstr.
    { intros k o ->. destruct o; unfold ill_typed; simpl; by rewrite ?andb_false_r. }
    unfold validateRtpEncodingParameters. rewrite require_object_pass by done.
    rewrite throw_if_pass by (unfold x; destruct e as [[] ? ? ? ? ? ? ?]; unfold ill_typed; simpl; by rewrite ?andb_false_r).
    rewrite throw_if_pass by (by apply (Hstr "rid" (enc_rid e))).
    rewrite throw_if_pass by (by unfold x; destruct e as [? ? ? [] ? ? ? ?]).
    rewrite throw_if_pass by (by unfold x; destruct e as [? ? ? [] ? ? ? ?]).
    cbv zeta. rewrite prop_if by done. by rewrite throw_if_pass by (by apply (Hstr "scalabilityMode" (enc_scalabilityMode e))).
  - unfold x. destruct e as [ssrc rid pt rtx dtx sm sr mb].
    destruct dtx as [[]|]; cbv iota; destruct ssrc, rid, pt, rtx, sm, sr, mb; reflexivity.
Qed.

(** ** Arrays *)

Lemma elements_revalidated {A} (f : A -> val) (g : val -> result val) (view : val -> option A) (h : A -> A) l :
  Forall (fun a => exists v, g (f a) = Ok v /\ view v = Some (h a)) l ->
  exists ws, map_elements g (array_val f l) = Ok (VArr ws []) /\ views view ws = Some (map h l).
Proof.
  intros Hl. assert (exists ws, mapR g (map f l) = Ok ws /\ views view ws = Some (map h l)) as (ws & Hm & Hv).
  { induction Hl as [|a l (v & Hg & Hv) _ (ws & Hm & Hvs)]; [by exists []|].
    exists (v :: ws). cbn [map mapR views]. rewrite Hg, Hv, Hvs. cbn. by rewrite Hm. }
  exists ws. cbn. by rewrite Hm.
Qed.

Lemma rtcp_revalidated r :
  rtcp_reducedSize r = true -> validateRtcpParameters (RtcpParameters_val r) = Ok (RtcpParameters_val r).
Proof.
  intros Hr. apply wf_validateRtcpParameters. split_and!; [done| |exact (f_equal VBool Hr)].
  destruct r as [[c|] ? ?]; unfold ill_typed; simpl; by rewrite ?andb_false_r.
Qed.

(** What is written of good parameters is accepted, and nothing but the default
    of [dtx] is filled in. *)
Lemma parameters_revalidated p :
  good_parameters p ->
  exists v, validateRtpParameters (RtpParameters_val p) = Ok v /\ RtpParameters_view v = Some (default_dtxs p).
Proof.
  intros (Hc & He & Hr).
  destruct (elements_revalidated RtpCodecParameters_val validateRtpCodecParameters RtpCodecParameters_view id
    (rp_codecs p)) as (cs & Hcs & Hcv).
  { eapply Forall_impl; [exact Hc|]. apply codec_revalidated. }
  destruct (elements_revalidated RtpHeaderExtensionParameters_val validateRtpHeaderExtensionParameters
    RtpHeaderExtensionParameters_view id (rp_headerExtensions p)) as (es & Hes & Hev).
  { eapply Forall_impl; [exact He|]. apply ext_revalidated. }
  destruct (elements_revalidated RtpEncodingParameters_val validateRtpEncodingParameters
    RtpEncodingParameters_view default_dtx (rp_encodings p)) as (ns & Hns & Hnv).
  { apply Forall_forall. intros e _. apply encoding_revalidated. }
  rewrite map_id in Hcv, Hev.
  pose proof (rtcp_revalidated _ Hr) as Hrv. set (x := RtpParameters_val p).
  assert (is_obj x = true) as Ho by done.
  assert (prop "codecs" x = array_val RtpCodecParameters_val (rp_codecs p)) as Pc by done.
  assert (prop "headerExtensions" x = array_val RtpHeaderExtensionParameters_val (rp_headerExtensions p)) as Pe by done.
  assert (prop "encodings" x = array_val RtpEncodingParameters_val (rp_encodings p)) as Pn by done.
  assert (prop "rtcp" x = RtcpParameters_val (rp_rtcp p)) as Pr by done.
  assert (prop "mid" x = opt_val VStr (rp_mid p)) as Pm by done. clearbody x.
  eexists. split.
  - unfold validateRtpParameters. rewrite require_object_pass by done.
    rewrite throw_if_pass by (rewrite Pm; destruct (rp_mid p); unfold ill_typed; simpl; by rewrite ?andb_false_r).
    rewrite throw_if_pass by (by rewrite Pc). rewrite Pc, Hcs, Ok_bind. cbv zeta.
    rewrite !(prop_set_prop_ne "headerExtensions") by done. rewrite Pe.
    rewrite throw_if_pass by done. cbn [truthy array_val negb]. cbv iota.
    rewrite !(prop_set_prop_ne "headerExtensions"), Pe, Hes, Ok_bind by done.
    rewrite !(prop_set_prop_ne "encodings") by done. rewrite Pn.
    rewrite throw_if_pass by done. cbn [truthy array_val negb]. cbv iota.
    rewrite !(prop_set_prop_ne "encodings"), Pn, Hns, Ok_bind by done.
    rewrite !(prop_set_prop_ne "rtcp") by done. rewrite Pr.
    rewrite throw_if_pass by done. cbn [truthy RtcpParameters_val negb]. cbv iota.
    rewrite !(prop_set_prop_ne "rtcp"), Pr, Hrv, Ok_bind by done. reflexivity.
  - unfold RtpParameters_view. autorewrite with js.
    rewrite !(prop_set_prop_ne "codecs"), (prop_set_prop_eq "codecs") by (autorewrite with js; done).
    cbn [array_view]. rewrite Hcv. cbn -[prop set_prop array_view].
    rewrite !(prop_set_prop_ne "headerExtensions"), (prop_set_prop_eq "headerExtensions") by (autorewrite with js; done).
    cbn [array_view]. rewrite Hev. cbn -[prop set_prop array_view].
    rewrite !(prop_set_prop_ne "encodings"), (prop_set_prop_eq "encodings") by (autorewrite with js; done).
    cbn [array_view]. rewrite Hnv. cbn -[prop set_prop array_view RtcpParameters_view].
    rewrite (prop_set_prop_eq "rtcp") by (autorewrite with js; done).
    rewrite RtcpParameters_view_val, Pm. unfold default_dtxs. cbn. by destruct (rp_mid p).
Qed.

(** ** Validated parameters are good *)

Lemma views_Forall {A} (f : val -> option A) (P : val -> Prop) (Q : A -> Prop) l k :
  views f l = Some k -> Forall P l -> (forall v a, P v -> f v = Some a -> Q a) -> Forall Q k.
Proof.
  intros Hv%views_Some HP Himp. revert HP. induction Hv as [|v a l k Ha _ IH]; intros HP; [constructor|].
  inversion HP; subst. constructor; [by eapply Himp|by apply IH].
Qed.

Lemma array_Forall {A} (f : val -> option A) (P : val -> Prop) (Q : A -> Prop) v k :
  array_view f v = Some k -> wf_array P v -> (forall v a, P v -> f v = Some a -> Q a) -> Forall Q k.
Proof. intros Hv (l & ps & -> & HP) Hi. exact (views_Forall f P Q l k Hv HP Hi). Qed.

Lemma feedback_validated v fb : wf_RtcpFeedback v -> RtcpFeedback_view v = Some fb -> good_feedback fb.
Proof.
  intros (_ & (s & Hs & Hne) & (q & Hq)). unfold RtcpFeedback_view. rewrite Hs, Hq. by intros [= <-].
Qed.

Lemma params_validated v ps :
  wf_parameters wf_codec_param v -> params_view (own_props v) = Some ps -> apt_ok ps.
Proof.
  intros [_ Hwf] Hv s. revert ps Hv. induction Hwf as [|[k x] l Hx _ IH]; intros ps; simpl.
  { intros [= <-]. by apply not_elem_of_nil. }
  destruct (params_view l) as [q|]; [|by destruct x]. specialize (IH q eq_refl). intros Hps Hin.
  destruct x as [| | |n|s'| |]; try done; injection Hps as <-; apply elem_of_cons in Hin as [[= Hk He]|Hin];
    try done.
  destruct Hx as [[n Hn]|[Hk' _]]; [done|]. by apply Hk'.
Qed.

Lemma mime_kind_cases s kind : mime_kind s = Some kind -> kind = "audio" \/ kind = "video".
Proof.
  unfold mime_kind. destruct (starts_with_any _); [|done].
  destruct (String.eqb _ _); [intros [= <-]; by left|].
  destruct (String.eqb _ _); [intros [= <-]; by right|done].
Qed.

Lemma codec_validated v c : wf_RtpCodecParameters v -> RtpCodecParameters_view v = Some c -> good_codec c.
Proof.
  intros (_ & (s & kind & Hs & Hkind & Hch) & (m & Hm) & (n & Hn) & Hps & Hfb) Hv.
  unfold RtpCodecParameters_view in Hv. rewrite Hs, Hm, Hn in Hv. cbn -[params_view own_props prop array_view] in Hv.
  destruct (params_view _) as [ps|] eqn:Hp; [|done]. cbn -[params_view own_props prop array_view] in Hv.
  destruct (array_view _ _) as [fbs|] eqn:Hf; [|done]. injection Hv as <-. split_and!; simpl.
  - exists kind. split; [done|]. unfold channels_ok, wf_channels in *. destruct (String.eqb kind "audio").
    + destruct Hch as [k Hk]. rewrite Hk. by eexists.
    + unfold prop. by rewrite Hch.
  - by eapply params_validated.
  - eapply array_Forall; [exact Hf|exact Hfb|]. apply feedback_validated.
Qed.

Lemma ext_validated v e :
  wf_RtpHeaderExtensionParameters v -> RtpHeaderExtensionParameters_view v = Some e -> hp_uri e <> "".
Proof.
  intros (_ & (s & Hs & Hne) & (n & Hn) & (b & Hb) & _) Hv.
  unfold RtpHeaderExtensionParameters_view in Hv. rewrite Hs, Hn, Hb in Hv.
  cbn -[params_view own_props prop] in Hv. destruct (params_view _); [|done]. by injection Hv as <-.
Qed.

Lemma encoding_validated v e :
  wf_RtpEncodingParameters v -> RtpEncodingParameters_view v = Some e -> default_dtx e = e.
Proof.
  intros (_ & _ & _ & _ & _ & (b & Hb) & _) Hv. unfold RtpEncodingParameters_view in Hv. rewrite Hb in Hv.
  injection Hv as <-. done.
Qed.

Lemma validated_good v p :
  wf_RtpParameters v -> RtpParameters_view v = Some p -> good_parameters p /\ default_dtxs p = p.
Proof.
  intros (_ & _ & Hc & He & Hn & _ & _ & Hr) Hv. unfold RtpParameters_view in Hv.
  destruct (array_view RtpCodecParameters_view _) as [cs|] eqn:Hcs; [|done].
  cbn -[prop array_view RtcpParameters_view] in Hv.
  destruct (array_view RtpHeaderExtensionParameters_view _) as [es|] eqn:Hes; [|done].
  cbn -[prop array_view RtcpParameters_view] in Hv.
  destruct (array_view RtpEncodingParameters_view _) as [ns|] eqn:Hns; [|done].
  cbn -[prop array_view RtcpParameters_view] in Hv. unfold RtcpParameters_view in Hv. rewrite Hr in Hv.
  injection Hv as <-. split; [split_and!; simpl; [..|done]|].
  - eapply array_Forall; [exact Hcs|exact Hc|]. apply codec_validated.
  - eapply array_Forall; [exact Hes|exact He|]. apply ext_validated.
  - unfold default_dtxs. simpl. f_equal.
    assert (Forall (fun e => default_dtx e = e) ns) as HF.
    { eapply array_Forall; [exact Hns|exact Hn|]. apply encoding_validated. }
    clear -HF. induction HF as [|e l He _ IH]; simpl; [done|]. by rewrite He, IH.
Qed.

(** C26: parameters that were validated once are accepted when they are written
    into an object and given to another call, and they are read there as they
    were. *)
Theorem validated_parameters_roundtrip (given v : val) (p : RtpParameters) :
  validateRtpParameters given = Ok v -> RtpParameters_view v = Some p ->
  exists v', validateRtpParameters (RtpParameters_val p) = Ok v' /\ RtpParameters_view v' = Some p.
Proof.
  intros Hv%validateRtpParameters_wf Hp. destruct (validated_good _ _ Hv Hp) as [Hg Hd].
  destruct (parameters_revalidated _ Hg) as (v' & Ha & Hb). exists v'. by rewrite Hd in Hb.
Qed.

Definition example_view : RtpParameters :=
  Eval vm_compute in
    match validateRtpParameters example_params with
    | Ok v => default example_producer (RtpParameters_view v)
    | Err _ => example_producer
    end.

Lemma validated_parameters_roundtrip_witness :
  exists v', validateRtpParameters (RtpParameters_val example_view) = Ok v' /\
    RtpParameters_view v' = Some example_view.
Proof.
  assert (exists v, validateRtpParameters example_params = Ok v /\ RtpParameters_view v = Some example_view)
    as (v & Hv & Hp) by (eexists; split; vm_compute; reflexivity).
  exact (validated_parameters_roundtrip example_params v example_view Hv Hp).
Defined.
