(* ===== verification/Rematch.v ===== *)
(** * Codecs that are matched again

    What [getConsumableRtpParameters] makes of a codec carries the MIME type of
    the capability it was matched with and the parameters [matchCodecs] left in
    it.  Such a codec matches the same capability again, and its parameters stay:
    this is why the parameters of a consumer can be those of a producer, as
    [pipeToRouter] does.  For H264 the profile-level-id is replaced by the one
    of the answer; what the package promises of it is [H264_laws]. *)

From S2P Require Import Prelude Js RtpParameters Validate ScalabilityModes SupportedRtpCapabilities Ortc.

(** ** The package h264-profile-level-id *)

(** What [matchCodecs] does with the profile-level-id of the answer. *)
Definition answered (aps : params) (selectedProfileLevelId : option string) : params :=
  match selectedProfileLevelId with
  | Some id => if String.eqb id "" then jdel "profile-level-id" aps
               else jset "profile-level-id" (PStr id) aps
  | None => jdel "profile-level-id" aps
  end.

(** The answer exists for equal profiles, has the profile of the first argument
    (only the level is negotiated), and is its own answer. *)
Class H264_laws `{H264} : Prop := {
  answer_exists a b : isSameProfile a b = true -> exists sel, generateProfileLevelIdForAnswer a b = Ok sel;
  answer_profile a b c sel : isSameProfile a b = true -> generateProfileLevelIdForAnswer a b = Ok sel ->
    isSameProfile (answered a sel) c = isSameProfile a c;
  answer_stable a b sel : isSameProfile a b = true -> generateProfileLevelIdForAnswer a b = Ok sel ->
    generateProfileLevelIdForAnswer (answered a sel) b = Ok sel
}.

Lemma answered_other k aps sel : k <> "profile-level-id" -> jget k (answered aps sel) = jget k aps.
Proof.
  intros Hk. unfold answered. destruct sel as [id|]; [destruct (String.eqb id "")|];
    by rewrite ?jget_jset_ne, ?jget_jdel_ne.
Qed.

Lemma answered_answered aps sel : answered (answered aps sel) sel = answered aps sel.
Proof.
  unfold answered. destruct sel as [id|]; [destruct (String.eqb id "")|]; rewrite ?jset_jset; try done;
    apply jdel_fresh, jget_jdel_eq.
Qed.

Section again.
Context `{H264}.
Implicit Types (a k : RtpCodecParameters) (cap c : RtpCodecCapability).

Definition is_h264 (mime : string) : bool := String.eqb mime "video/h264" || String.eqb mime "video/h264-svc".

(** The same codec but for its payload type, its feedback, its parameters and
    the case of its MIME type. *)
Definition alike a k : Prop :=
  toLowerCase (cp_mimeType k) = toLowerCase (cp_mimeType a) /\
  cp_clockRate k = cp_clockRate a /\ cp_channels k = cp_channels a.

Lemma matchCodecs_alike a k cap strict modify :
  alike a k -> cp_parameters k = cp_parameters a ->
  matchCodecs k cap strict modify = matchCodecs a cap strict modify.
Proof. intros (H1 & H2 & H3) H4. unfold matchCodecs. simpl. by rewrite H1, H2, H3, H4. Qed.

(** Everything an H264 codec is matched by, but its profile. *)
Definition h264_alike a cap : Prop :=
  toLowerCase (cp_mimeType a) = toLowerCase (cap_mimeType cap) /\
  cp_clockRate a = cap_clockRate cap /\ cp_channels a = cap_channels cap /\
  or_zero (jget "packetization-mode" (cp_parameters a)) =
    or_zero (jget "packetization-mode" (cap_parameters cap)).

Lemma h264_match_iff a cap ps :
  is_h264 (toLowerCase (cp_mimeType a)) = true ->
  matchCodecs a cap true true = Some ps <->
  h264_alike a cap /\ isSameProfile (cp_parameters a) (cap_parameters cap) = true /\
  exists sel, generateProfileLevelIdForAnswer (cp_parameters a) (cap_parameters cap) = Ok sel /\
              ps = answered (cp_parameters a) sel.
Proof.
  intros Hh. unfold matchCodecs, h264_alike. simpl. fold (is_h264 (toLowerCase (cp_mimeType a))). rewrite Hh.
  destruct (String.eqb_spec (toLowerCase (cp_mimeType a)) (toLowerCase (cap_mimeType cap))) as [He|];
    [|split; [done|by intros ((? & _) & _)]].
  destruct (Z.eqb_spec (cp_clockRate a) (cap_clockRate cap)); [|split; [done|by intros ((_ & ? & _) & _)]].
  case_bool_decide; [|split; [done|by intros ((_ & _ & ? & _) & _)]]. simpl.
  destruct (String.eqb_spec (toLowerCase (cp_mimeType a)) "audio/multiopus") as [Hm|_]; [by rewrite Hm in Hh|].
  case_bool_decide; [|split; [done|by intros ((_ & _ & _ & ?) & _)]]. simpl.
  destruct (isSameProfile _ _); [|split; [done|by intros (_ & ? & _)]]. simpl.
  destruct (generateProfileLevelIdForAnswer _ _) as [sel|err]; [|split; [done|by intros (_ & _ & ? & ? & _)]].
  split.
  - intros Hs. split_and!; try done. exists sel. split; [done|]. unfold answered.
    destruct sel as [id|]; [destruct (String.eqb id "")|]; congruence.
  - intros (_ & _ & sel' & [= <-] & ->). unfold answered. destruct sel as [id|]; [destruct (String.eqb id "")|]; done.
Qed.

(** Codecs of other kinds keep their parameters. *)
Lemma other_match_keeps a cap ps :
  is_h264 (toLowerCase (cp_mimeType a)) = false -> matchCodecs a cap true true = Some ps -> ps = cp_parameters a.
Proof.
  intros Hh. unfold matchCodecs. simpl. fold (is_h264 (toLowerCase (cp_mimeType a))). rewrite Hh.
  repeat (case_match; try done); congruence.
Qed.

Context `{!H264_laws}.

(** A codec with the parameters the first match left in it. *)
Lemma match_again a cap ps k :
  matchCodecs a cap true true = Some ps -> alike a k -> cp_parameters k = ps ->
  matchCodecs k cap true true = Some ps /\
  forall c, is_Some (matchCodecs k c true true) <-> is_Some (matchCodecs a c true true).
Proof.
  intros Hm Hal Hps. destruct (is_h264 (toLowerCase (cp_mimeType a))) eqn:Hh.
  2:{ pose proof (other_match_keeps _ _ _ Hh Hm) as ->.
      split; [|intros c]; by rewrite (matchCodecs_alike a). }
  apply (h264_match_iff _ _ _ Hh) in Hm as (Hl & Hsame & sel & Hsel & ->).
  pose proof Hal as (Hk1 & Hk2 & Hk3).
  assert (is_h264 (toLowerCase (cp_mimeType k)) = true) as Hhk by by rewrite Hk1.
  assert (forall c, h264_alike k c <-> h264_alike a c) as Hlk.
  { intros c. unfold h264_alike. by rewrite Hk1, Hk2, Hk3, Hps, answered_other. }
  assert (forall c, isSameProfile (cp_parameters k) (cap_parameters c) =
                    isSameProfile (cp_parameters a) (cap_parameters c)) as Hsk.
  { intros c. rewrite Hps. by eapply answer_profile. }
  split.
  - apply (h264_match_iff _ _ _ Hhk). split_and!; [by apply Hlk|by rewrite Hsk|].
    exists sel. rewrite Hps. split; [by apply answer_stable|by rewrite answered_answered].
  - intros c. split; intros [q Hq].
    + apply (h264_match_iff _ _ _ Hhk) in Hq as (Hc & Hs & _). rewrite Hsk in Hs.
      destruct (answer_exists _ _ Hs) as [s Hs']. exists (answered (cp_parameters a) s).
      apply (h264_match_iff _ _ _ Hh). split_and!; [by apply Hlk|done|by exists s].
    + apply (h264_match_iff _ _ _ Hh) in Hq as (Hc & Hs & _). rewrite <-Hsk in Hs.
      destruct (answer_exists _ _ Hs) as [s Hs']. exists (answered (cp_parameters k) s).
      apply (h264_match_iff _ _ _ Hhk). split_and!; [by apply Hlk|done|by exists s].
Qed.

(** The first capability that matches stays the first one. *)
Lemma find_match_again a caps ps cap k :
  find_match a caps = Some (ps, cap) -> alike a k -> cp_parameters k = ps ->
  find_match k caps = Some (ps, cap).
Proof.
  intros Hf Hal Hps. pose proof (find_match_Some _ _ _ _ Hf) as [_ Hm].
  destruct (match_again _ _ _ _ Hm Hal Hps) as [Hk Hiff]. clear Hm. revert Hf.
  induction caps as [|c caps IH]; simpl; [done|].
  destruct (matchCodecs a c true true) as [q|] eqn:Ha.
  - intros [= -> ->]. by rewrite Hk.
  - intros Hf. destruct (matchCodecs k c true true) as [q|] eqn:Hkc; [|by apply IH].
    assert (is_Some (matchCodecs a c true true)) as [? ?] by (apply Hiff; by eexists). congruence.
Qed.

(** Parameters stay free of an [apt] that is a string. *)
Lemma answered_elem (key : string) (x : pval) aps sel :
  key <> "profile-level-id" -> (key, x) ∈ answered aps sel -> (key, x) ∈ aps.
Proof.
  intros Hk. unfold answered. destruct sel as [id|]; [destruct (String.eqb id "")|].
  - by intros [? _]%elem_of_jdel.
  - by intros [?|[-> _]]%elem_of_jset.
  - by intros [? _]%elem_of_jdel.
Qed.

Lemma match_elem a cap ps (key : string) (x : pval) :
  matchCodecs a cap true true = Some ps -> key <> "profile-level-id" ->
  (key, x) ∈ ps -> (key, x) ∈ cp_parameters a.
Proof.
  intros Hm Hk. destruct (is_h264 (toLowerCase (cp_mimeType a))) eqn:Hh.
  - apply (h264_match_iff _ _ _ Hh) in Hm as (_ & _ & sel & _ & ->). by apply answered_elem.
  - by rewrite (other_match_keeps _ _ _ Hh Hm).
Qed.
End again.

(** ** An example

    A package that identifies a profile with its profile-level-id, where a
    missing one and an empty one are the same. *)

Definition profile_of (ps : params) : option string :=
  match jget "profile-level-id" ps with Some (PStr s) => if String.eqb s "" then None else Some s | _ => None end.

Definition profile_h264 : H264 := {|
  isSameProfile a b := bool_decide (profile_of a = profile_of b);
  generateProfileLevelIdForAnswer a _ := Ok (profile_of a)
|}.

Lemma profile_answered a : profile_of (answered a (profile_of a)) = profile_of a.
Proof.
  destruct (profile_of a) as [s|] eqn:Hs; unfold answered.
  - assert (String.eqb s "" = false) as Hne.
    { unfold profile_of in Hs. destruct (jget _ a) as [[s'|]|]; [|done..].
      destruct (String.eqb s' "") eqn:He; [done|congruence]. }
    rewrite Hne. unfold profile_of. by rewrite jget_jset_eq, Hne.
  - unfold profile_of. by rewrite jget_jdel_eq.
Qed.

#[export] Instance profile_laws : @H264_laws profile_h264.
Proof.
  split; simpl.
  - intros a b _. by eexists.
  - intros a b c sel _ [= <-]. by rewrite profile_answered.
  - intros a b sel _ [= <-]. by rewrite profile_answered.
Qed.
