(* ===== verification/UnitTests.v ===== *)
(** * The unit tests of the repository, on the model

    tests/test-ortc.ts and the checks of tests/test-multiopus.ts that concern
    codecs, evaluated: what the tests expect of the code holds of the
    definitions.  Where a test passes parameters on that it has not validated,
    they are validated here first, as [produce] does; the random numbers are
    fixed. *)

From S2P Require Import Prelude Js RtpParameters Validate ScalabilityModes Ortc OrtcConsumer Rematch.

#[local] Existing Instance profile_h264.

(** ** generateRouterRtpCapabilities() succeeds *)

Definition feedback (l : list (string * string)) : list RtcpFeedback := map (fun p => mkRtcpFeedback p.1 p.2) l.

Definition fb_val (t p : string) : val := VObj [("type", VStr t); ("parameter", VStr p)].

Definition test_mediaCodecs : val :=
  VArr [VObj [("kind", VStr "audio"); ("mimeType", VStr "audio/opus"); ("clockRate", VNum 48000);
              ("channels", VNum 2); ("parameters", VObj [("useinbandfec", VNum 1); ("foo", VStr "bar")])];
        VObj [("kind", VStr "video"); ("mimeType", VStr "video/VP8"); ("preferredPayloadType", VNum 125);
              ("clockRate", VNum 90000)];
        VObj [("kind", VStr "video"); ("mimeType", VStr "video/H264"); ("clockRate", VNum 90000);
              ("parameters", VObj [("level-asymmetry-allowed", VNum 1); ("profile-level-id", VStr "42e01f");
                                   ("foo", VStr "bar")]);
              ("rtcpFeedback", VArr [] [])]] [].

Definition video_feedback : list RtcpFeedback :=
  feedback [("nack", ""); ("nack", "pli"); ("ccm", "fir"); ("goog-remb", ""); ("transport-cc", "")].

Example generateRouterRtpCapabilities_succeeds :
  caps_codecs <$> generateRouterRtpCapabilities test_mediaCodecs = Ok
    [mkRtpCodecCapability Kaudio "audio/opus" (Some 100%Z) 48000 (Some 2%Z)
       [("useinbandfec", PNum 1); ("foo", PStr "bar")] (feedback [("nack", ""); ("transport-cc", "")]);
     mkRtpCodecCapability Kvideo "video/VP8" (Some 125%Z) 90000 None [] video_feedback;
     mkRtpCodecCapability Kvideo "video/rtx" (Some 101%Z) 90000 None [("apt", PNum 125)] [];
     mkRtpCodecCapability Kvideo "video/H264" (Some 102%Z) 90000 None
       [("level-asymmetry-allowed", PNum 1); ("profile-level-id", PStr "42e01f"); ("foo", PStr "bar")] video_feedback;
     mkRtpCodecCapability Kvideo "video/rtx" (Some 103%Z) 90000 None [("apt", PNum 102)] []].
Proof. vm_compute. reflexivity. Qed.

(** ** ... with unsupported codecs throws UnsupportedError *)

Definition unsupported {A} (r : result A) : bool := match r with Err (UnsupportedError _) => true | _ => false end.

Example generateRouterRtpCapabilities_unsupported :
  unsupported (generateRouterRtpCapabilities
    (VArr [VObj [("kind", VStr "audio"); ("mimeType", VStr "audio/chicken"); ("clockRate", VNum 8000);
                 ("channels", VNum 4)]] [])) = true /\
  unsupported (generateRouterRtpCapabilities
    (VArr [VObj [("kind", VStr "audio"); ("mimeType", VStr "audio/opus"); ("clockRate", VNum 48000);
                 ("channels", VNum 1)]] [])) = true.
Proof. vm_compute. done. Qed.

(** ** ... with too many codecs throws *)

Example generateRouterRtpCapabilities_too_many :
  generateRouterRtpCapabilities
    (VArr (repeat (VObj [("kind", VStr "audio"); ("mimeType", VStr "audio/opus"); ("clockRate", VNum 48000);
                         ("channels", VNum 2)]) 100) []) =
  Err (PlainError "cannot allocate more dynamic codec payload types").
Proof. vm_compute. reflexivity. Qed.

(** ** getProducerRtpParametersMapping(), getConsumableRtpParameters(),
    getConsumerRtpParameters() and getPipeConsumerRtpParameters() succeed *)

Definition test_router_codecs : val :=
  VArr [VObj [("kind", VStr "audio"); ("mimeType", VStr "audio/opus"); ("clockRate", VNum 48000);
              ("channels", VNum 2)];
        VObj [("kind", VStr "video"); ("mimeType", VStr "video/H264"); ("clockRate", VNum 90000);
              ("parameters", VObj [("level-asymmetry-allowed", VNum 1); ("packetization-mode", VNum 1);
                                   ("profile-level-id", VStr "4d0032"); ("bar", VStr "lalala")])]] [].

Definition test_rtpParameters : val :=
  VObj [("codecs", VArr [
          VObj [("mimeType", VStr "video/H264"); ("payloadType", VNum 111); ("clockRate", VNum 90000);
                ("parameters", VObj [("foo", VNum 1234); ("packetization-mode", VNum 1);
                                     ("profile-level-id", VStr "4d0032")]);
                ("rtcpFeedback", VArr [fb_val "nack" ""; fb_val "nack" "pli"; fb_val "goog-remb" ""] [])];
          VObj [("mimeType", VStr "video/rtx"); ("payloadType", VNum 112); ("clockRate", VNum 90000);
                ("parameters", VObj [("apt", VNum 111)]); ("rtcpFeedback", VArr [] [])]] []);
        ("headerExtensions", VArr [
          VObj [("uri", VStr "urn:ietf:params:rtp-hdrext:sdes:mid"); ("id", VNum 1)];
          VObj [("uri", VStr "urn:3gpp:video-orientation"); ("id", VNum 2)]] []);
        ("encodings", VArr [
          VObj [("ssrc", VNum 11111111); ("rtx", VObj [("ssrc", VNum 11111112)]); ("maxBitrate", VNum 111111);
                ("scalabilityMode", VStr "L1T3")];
          VObj [("ssrc", VNum 21111111); ("rtx", VObj [("ssrc", VNum 21111112)]); ("maxBitrate", VNum 222222);
                ("scalabilityMode", VStr "L1T3")];
          VObj [("rid", VStr "high"); ("maxBitrate", VNum 333333); ("scalabilityMode", VStr "L1T3")]] []);
        ("rtcp", VObj [("cname", VStr "qwerty1234")])].

Definition ext_val (kind uri : string) (id : Z) : val :=
  VObj [("kind", VStr kind); ("uri", VStr uri); ("preferredId", VNum id); ("preferredEncrypt", VBool false);
        ("direction", VStr "sendrecv")].

Definition test_remoteRtpCapabilities : val :=
  VObj [("codecs", VArr [
          VObj [("kind", VStr "audio"); ("mimeType", VStr "audio/opus"); ("preferredPayloadType", VNum 100);
                ("clockRate", VNum 48000); ("channels", VNum 2); ("parameters", VObj []); ("rtcpFeedback", VArr [] [])];
          VObj [("kind", VStr "video"); ("mimeType", VStr "video/H264"); ("preferredPayloadType", VNum 101);
                ("clockRate", VNum 90000);
                ("parameters", VObj [("packetization-mode", VNum 1); ("profile-level-id", VStr "4d0032");
                                     ("baz", VStr "LOLOLO")]);
                ("rtcpFeedback", VArr [fb_val "nack" ""; fb_val "nack" "pli"; fb_val "foo" "FOO"] [])];
          VObj [("kind", VStr "video"); ("mimeType", VStr "video/rtx"); ("preferredPayloadType", VNum 102);
                ("clockRate", VNum 90000); ("parameters", VObj [("apt", VNum 101)]); ("rtcpFeedback", VArr [] [])]] []);
        ("headerExtensions", VArr [
          ext_val "audio" "urn:ietf:params:rtp-hdrext:sdes:mid" 1;
          ext_val "video" "urn:ietf:params:rtp-hdrext:sdes:mid" 1;
          ext_val "video" "urn:ietf:params:rtp-hdrext:sdes:rtp-stream-id" 2;
          ext_val "audio" "urn:ietf:params:rtp-hdrext:ssrc-audio-level" 8;
          ext_val "video" "urn:3gpp:video-orientation" 11;
          ext_val "video" "urn:ietf:params:rtp-hdrext:toffset" 12] [])].

(** Parameters as [produce] reads them. *)
Definition read_parameters (v : val) : result RtpParameters :=
  v ← validateRtpParameters v;
  from_option_or (TypeError "not RTP parameters") (RtpParameters_view v).

(** The four calls of the test in a row. *)
Record negotiation : Type := mkNegotiation {
  ng_mapping : RtpMapping;
  ng_consumable : RtpParameters;
  ng_consumer : RtpParameters;
  ng_pipe : RtpParameters
}.

Definition negotiate (mediaCodecs rtpParameters remoteRtpCapabilities : val) : result negotiation :=
  caps ← generateRouterRtpCapabilities mediaCodecs;
  params ← read_parameters rtpParameters;
  '(params, mapping) ← getProducerRtpParametersMapping params caps 123456789;
  consumable ← getConsumableRtpParameters Kvideo params caps mapping;
  consumer ← getConsumerRtpParameters consumable remoteRtpCapabilities false true 234567890 345678901;
  Ok (mkNegotiation mapping consumable consumer (getPipeConsumerRtpParameters consumable false 456789012 567890123)).

Definition test_negotiation : result negotiation :=
  Eval vm_compute in negotiate test_router_codecs test_rtpParameters test_remoteRtpCapabilities.

Lemma test_negotiation_eq : negotiate test_router_codecs test_rtpParameters test_remoteRtpCapabilities = test_negotiation.
Proof. vm_compute. reflexivity. Qed.

Definition test_h264 : params := [("foo", PNum 1234); ("packetization-mode", PNum 1); ("profile-level-id", PStr "4d0032")].

Example mapping_as_expected :
  (fun n => (map_codecs (ng_mapping n), map (fun e => (me_ssrc e, me_rid e)) (map_encodings (ng_mapping n)))) <$>
    test_negotiation =
  Ok ([mkMappedCodec 111 (Some 101%Z); mkMappedCodec 112 (Some 102%Z)],
      [(Some 11111111%Z, None); (Some 21111111%Z, None); (None, Some "high")]).
Proof. reflexivity. Qed.

Definition codec_facts (c : RtpCodecParameters) : string * Z * Z * params :=
  (cp_mimeType c, cp_payloadType c, cp_clockRate c, cp_parameters c).

Example consumable_as_expected :
  (fun n => (map codec_facts (rp_codecs (ng_consumable n)), rp_rtcp (ng_consumable n))) <$> test_negotiation =
    Ok ([("video/H264", 101%Z, 90000%Z, test_h264); ("video/rtx", 102%Z, 90000%Z, [("apt", PNum 101)])],
        mkRtcpParameters (Some "qwerty1234") true (Some true)) /\
  (fun n => map (fun e => (enc_rid e, enc_rtx e, enc_maxBitrate e, enc_scalabilityMode e)) (rp_encodings (ng_consumable n))) <$>
      test_negotiation =
    Ok [(None, None, Some 111111%Z, Some "L1T3"); (None, None, Some 222222%Z, Some "L1T3");
        (None, None, Some 333333%Z, Some "L1T3")] /\
  (fun n => map enc_ssrc (rp_encodings (ng_consumable n))) <$> test_negotiation =
    (fun n => map (fun e => Some (me_mappedSsrc e)) (map_encodings (ng_mapping n))) <$> test_negotiation.
Proof. split_and!; reflexivity. Qed.

Example consumer_as_expected :
  (fun n => (rp_codecs (ng_consumer n), rp_headerExtensions (ng_consumer n), rp_rtcp (ng_consumer n))) <$> test_negotiation =
    Ok ([mkRtpCodecParameters "video/H264" 101 90000 None test_h264 (feedback [("nack", ""); ("nack", "pli"); ("foo", "FOO")]);
         mkRtpCodecParameters "video/rtx" 102 90000 None [("apt", PNum 101)] []],
        [mkRtpHeaderExtensionParameters "urn:ietf:params:rtp-hdrext:sdes:mid" 1 false [];
         mkRtpHeaderExtensionParameters "urn:3gpp:video-orientation" 11 false [];
         mkRtpHeaderExtensionParameters "urn:ietf:params:rtp-hdrext:toffset" 12 false []],
        mkRtcpParameters (Some "qwerty1234") true (Some true)) /\
  (fun n => map (fun e => (bool_decide (is_Some (enc_ssrc e)), bool_decide (is_Some (enc_rtx e)), enc_scalabilityMode e,
                           enc_maxBitrate e)) (rp_encodings (ng_consumer n))) <$> test_negotiation =
    Ok [(true, true, Some "L3T3", Some 333333%Z)].
Proof. split; reflexivity. Qed.

Example pipe_consumer_as_expected :
  (fun n => (rp_codecs (ng_pipe n), rp_rtcp (ng_pipe n))) <$> test_negotiation =
    Ok ([mkRtpCodecParameters "video/H264" 101 90000 None test_h264 (feedback [("nack", "pli"); ("ccm", "fir")])],
        mkRtcpParameters (Some "qwerty1234") true (Some true)) /\
  (fun n => map (fun e => (bool_decide (is_Some (enc_ssrc e)), enc_rtx e, bool_decide (is_Some (enc_maxBitrate e)),
                           enc_scalabilityMode e)) (rp_encodings (ng_pipe n))) <$> test_negotiation =
    Ok (repeat (true, None, true, Some "L1T3") 3).
Proof. split; reflexivity. Qed.

(** ** getProducerRtpParametersMapping() with incompatible params throws
    UnsupportedError *)

Example mapping_of_incompatible_params :
  unsupported
    (caps ← generateRouterRtpCapabilities
       (VArr [VObj [("kind", VStr "audio"); ("mimeType", VStr "audio/opus"); ("clockRate", VNum 48000);
                    ("channels", VNum 2)];
              VObj [("kind", VStr "video"); ("mimeType", VStr "video/H264"); ("clockRate", VNum 90000);
                    ("parameters", VObj [("packetization-mode", VNum 1); ("profile-level-id", VStr "640032")])]] []);
     params ← read_parameters
       (VObj [("codecs", VArr [VObj [("mimeType", VStr "video/VP8"); ("payloadType", VNum 120);
                ("clockRate", VNum 90000);
                ("rtcpFeedback", VArr [fb_val "nack" ""; fb_val "nack" "fir"] [])]] []);
              ("headerExtensions", VArr [] []); ("encodings", VArr [VObj [("ssrc", VNum 11111111)]] []);
              ("rtcp", VObj [("cname", VStr "qwerty1234")])]);
     getProducerRtpParametersMapping params caps 123456789) = true.
Proof. vm_compute. reflexivity. Qed.

(** ** test-multiopus.ts *)

Definition multiopus (num coupled : Z) : val :=
  VObj [("channel_mapping", VStr "0,4,1,2,3,5"); ("num_streams", VNum num); ("coupled_streams", VNum coupled)].

Definition multiopus_produced (num coupled : Z) : result (RtpParameters * RtpMapping) :=
  caps ← generateRouterRtpCapabilities
    (VArr [VObj [("kind", VStr "audio"); ("mimeType", VStr "audio/multiopus"); ("clockRate", VNum 48000);
                 ("channels", VNum 6); ("parameters", multiopus 4 2)]] []);
  params ← read_parameters
    (VObj [("mid", VStr "AUDIO");
           ("codecs", VArr [VObj [("mimeType", VStr "audio/multiopus"); ("payloadType", VNum 0);
                                  ("clockRate", VNum 48000); ("channels", VNum 6);
                                  ("parameters", multiopus num coupled)]] [])]);
  getProducerRtpParametersMapping params caps 123456789.

Example multiopus_as_expected :
  (fun x => map_codecs x.2) <$> multiopus_produced 4 2 = Ok [mkMappedCodec 0 (Some 100%Z)] /\
  unsupported (multiopus_produced 2 2) = true /\ unsupported (multiopus_produced 4 1) = true.
Proof. vm_compute. done. Qed.
