(* ===== verification/PipeNegotiation.v ===== *)
(** * What a piped producer offers

    [pipeToRouter] makes a Consumer with the parameters of
    [getPipeConsumerRtpParameters] and gives them to [produce] on the transport of
    the other router.  When the two routers have the same media codecs, the other
    router accepts them, and what its consumers see is what the consumers of the
    original producer see, but for the SSRCs. *)

From S2P Require Import Prelude Js RtpParameters Validate ScalabilityModes SupportedRtpCapabilities Ortc OrtcConsumer RequestBodies Revalidate Rematch.

Definition is_media (c : RtpCodecParameters) : bool := negb (isRtxCodec c).

Lemma Forall2_impl_l {A B} (P Q : A -> B -> Prop) l k :
  Forall2 P l k -> (forall x y, x ∈ l -> P x y -> Q x y) -> Forall2 Q l k.
Proof.
  induction 1 as [|x y l k Hx _ IH]; intros Hi; [constructor|].
  constructor; [apply Hi; [by left|done]|]. apply IH. intros z w Hz. apply Hi. by right.
Qed.

(** ** Consumable codecs, media codec by media codec *)

Section blocks.
Context `{H264}.

(** The consumable codecs of a codec that was matched with [cap] and has the
    parameters [ps] afterwards. *)
Definition rtx_block (caps : RtpCapabilities) (pt : Z) : list RtpCodecParameters :=
  match List.find (fun c => isRtxCodec c && apt_is c (Some pt)) (caps_codecs caps) with
  | None => []
  | Some rtx =>
      match cap_preferredPayloadType rtx with
      | Some rtx_pt => [consumable_rtx_of rtx rtx_pt]
      | None => []
      end
  end.

Definition media_block (caps : RtpCapabilities) (x : RtpCodecCapability * params) : list RtpCodecParameters :=
  match cap_preferredPayloadType x.1 with
  | None => []
  | Some pt => consumable_of x.1 pt x.2 :: rtx_block caps pt
  end.

(** A codec of the producer is matched with [x.1], and left with [x.2]. *)
Definition matched_with (caps : RtpCapabilities) (codecs : list RtpCodecParameters)
    (c' : RtpCodecParameters) (x : RtpCodecCapability * params) : Prop :=
  exists c, c ∈ codecs /\ same_codec c c' /\ isRtxCodec c = false /\
    find_match c (caps_codecs caps) = Some (x.2, x.1) /\ cp_parameters c' = x.2.

Lemma matched_with_in caps codecs c' x :
  matched_with caps codecs c' x -> x.1 ∈ caps_codecs caps /\ isRtxCodec x.1 = false.
Proof.
  intros (c & _ & _ & Hr & Hf & _). apply find_match_Some in Hf as [Hin Hm%matchCodecs_isRtx].
  split; [done|congruence].
Qed.

(** The first loop, codec by codec. *)
Lemma match_media_codecs_matched caps i codecs codecs' m :
  match_media_codecs caps i codecs = Ok (codecs', m) ->
  Forall2 (fun c' (e : nat * (Z * RtpCodecCapability)) =>
             e.2.1 = cp_payloadType c' /\ matched_with caps codecs c' (e.2.2, cp_parameters c'))
    (List.filter is_media codecs') m.
Proof.
  revert i codecs' m. induction codecs as [|c codecs IH]; intros i codecs' m H'; simpl in H'.
  { inv_result. constructor. }
  assert (forall l m', Forall2 (fun c' (e : nat * (Z * RtpCodecCapability)) =>
    e.2.1 = cp_payloadType c' /\ matched_with caps codecs c' (e.2.2, cp_parameters c')) l m' ->
    Forall2 (fun c' (e : nat * (Z * RtpCodecCapability)) =>
    e.2.1 = cp_payloadType c' /\ matched_with caps (c :: codecs) c' (e.2.2, cp_parameters c')) l m') as Hmore.
  { intros l m' HF. eapply Forall2_impl; [exact HF|]. intros c' e (Hpt & c0 & Hin & Hrest). split; [done|].
    exists c0. split; [by right|done]. }
  destruct (isRtxCodec c) eqn:Hr.
  - inv_result. simpl. unfold is_media at 1. rewrite Hr. simpl. by eapply Hmore, IH.
  - inv_result. simpl. rename l into ps, r into cap.
    assert (is_media (with_parameters c ps) = true) as ->.
    { unfold is_media, isRtxCodec. simpl. by apply negb_true_iff. }
    constructor; [|by eapply Hmore, IH]. split; [done|]. exists c. split_and!; try done. by left.
Qed.

Lemma mapping_media_codecs p caps rnd p' mapping :
  getProducerRtpParametersMapping p caps rnd = Ok (p', mapping) ->
  exists m0 e : codec_map, match_media_codecs caps 0 (rp_codecs p) = Ok (rp_codecs p', m0) /\
    map_codecs mapping = map (fun e : nat * (Z * RtpCodecCapability) =>
      mkMappedCodec e.2.1 (cap_preferredPayloadType e.2.2)) (m0 ++ e).
Proof.
  intros H'. unfold getProducerRtpParametersMapping in H'. inv_result.
  rename l into codecs, l0 into m0, a into m. simpl.
  pose proof (match_media_codecs_media _ _ _ _ _ Ha) as H0.
  pose proof (match_media_codecs_Ok _ _ _ _ _ Ha) as (_ & H2 & _). specialize (H2 [] eq_refl). simpl in H2.
  rewrite <-(app_nil_r m0) in Ha0.
  destruct (match_rtx_codecs_prefix caps codecs (imap pair codecs) m0 [] m) as [e ->]; [|done|].
  { intros i c Hi%elem_of_imap_pair. by eapply media_entries_fresh. }
  by exists m0, e.
Qed.

(** Codecs with the same payload type are matched with the same capability: a
    producer has distinct payload types, and those of consumable codecs are the
    ones of capabilities. *)
Definition payload_type_decides (caps : RtpCapabilities) (codecs : list RtpCodecParameters) : Prop :=
  forall c1 c2 x1 x2, c1 ∈ codecs -> c2 ∈ codecs -> isRtxCodec c1 = false -> isRtxCodec c2 = false ->
    cp_payloadType c1 = cp_payloadType c2 ->
    find_match c1 (caps_codecs caps) = Some x1 -> find_match c2 (caps_codecs caps) = Some x2 -> x1.2 = x2.2.

Lemma NoDup_payload_type_decides caps codecs :
  NoDup (map cp_payloadType codecs) -> payload_type_decides caps codecs.
Proof.
  intros Hnd c1 c2 x1 x2 H1 H2 _ _ Hpt Hx1 Hx2.
  assert (c1 = c2) as -> by (by eapply (NoDup_map_inj cp_payloadType)). congruence.
Qed.

(** The consumable codecs of one media codec. *)
Lemma consumable_codecs_media caps p rnd p' mapping c' x :
  caps_allocated caps -> payload_type_decides caps (rp_codecs p) ->
  getProducerRtpParametersMapping p caps rnd = Ok (p', mapping) ->
  c' ∈ rp_codecs p' -> isRtxCodec c' = false -> matched_with caps (rp_codecs p) c' x ->
  consumable_codecs caps mapping c' = Ok (media_block caps x).
Proof.
  intros Hcaps Hpt Hmap Hc' Hr Hx. destruct (mapping_media_codecs _ _ _ _ _ Hmap) as (m0 & e & Hm & Hcodecs).
  pose proof (match_media_codecs_matched _ _ _ _ _ Hm) as HF.
  assert (c' ∈ List.filter is_media (rp_codecs p')) as Hin.
  { apply list_elem_of_In, filter_In. rewrite <-list_elem_of_In. split; [done|]. unfold is_media. by rewrite Hr. }
  destruct (matched_with_in _ _ _ _ Hx) as [Hcap _]. destruct Hx as (c & Hc & Hsame & Hrc & Hf & Hps).
  unfold consumable_codecs. rewrite Hr, Hcodecs, map_app.
  set (f := fun e : nat * (Z * RtpCodecCapability) => mkMappedCodec e.2.1 (cap_preferredPayloadType e.2.2)).
  set (key := fun e => Z.eqb (mc_payloadType e) (cp_payloadType c')).
  assert (exists e1, e1 ∈ m0 /\ e1.2.1 = cp_payloadType c' /\ List.find key (map f m0 ++ map f e) = Some (f e1))
    as (e1 & He1 & Hpt1 & ->).
  { apply list_elem_of_lookup in Hin as [j Hj]. destruct (Forall2_lookup_l _ _ _ _ _ HF Hj) as (e0 & He0 & Hp0 & _).
    apply list_elem_of_lookup_2 in He0.
    destruct (find_is_Some key (map f m0) (f e0)) as [y Hy];
      [by apply list_elem_of_In, in_map, list_elem_of_In|by apply Z.eqb_eq|].
    rewrite find_app_l by (by eexists). rewrite Hy. apply find_Some_elem in Hy as [Hy Hk].
    apply list_elem_of_In, in_map_iff in Hy as (e1 & <- & Hin1). exists e1.
    split_and!; [by apply list_elem_of_In|by apply Z.eqb_eq in Hk|done]. }
  cbn [from_option_or]. rewrite Ok_bind.
  assert (e1.2.2 = x.1) as Hcap1.
  { apply list_elem_of_lookup in He1 as [j Hj].
    destruct (Forall2_lookup_r _ _ _ _ _ HF Hj) as (c1' & _ & Hp1 & c1 & Hc1 & Hs1 & Hr1 & Hf1 & _).
    pose proof (proj1 Hs1) as Hpt2. pose proof (proj1 Hsame) as Hpt3.
    apply (Hpt c1 c _ _ Hc1 Hc Hr1 Hrc ltac:(congruence) Hf1 Hf). }
  cbn [f mc_mappedPayloadType]. rewrite Hcap1.
  destruct (caps_allocated_pt _ _ Hcaps Hcap) as [pt Hq].
  destruct (find_is_Some (fun c => bool_decide (cap_preferredPayloadType c = cap_preferredPayloadType x.1))
    (caps_codecs caps) x.1) as [cap Hfind]; [done|by apply bool_decide_eq_true|].
  rewrite Hfind. cbn [from_option_or]. rewrite Ok_bind.
  apply find_Some_elem in Hfind as [Hin2 Heq%bool_decide_eq_true].
  assert (cap = x.1) as -> by (eapply NoDup_map_inj; [apply Hcaps|done..]).
  unfold media_block, rtx_block. rewrite Hq. cbn [from_option_or]. rewrite Ok_bind, Hps.
  destruct (List.find _ (caps_codecs caps)) as [rtx|] eqn:Hrtx; [|done].
  apply find_Some_elem in Hrtx as [Hrin _].
  destruct (caps_allocated_pt _ _ Hcaps Hrin) as [rpt ->]. done.
Qed.

Lemma mapR_blocks {X} (f : RtpCodecParameters -> result (list RtpCodecParameters)) (g : X -> list RtpCodecParameters)
    codecs L :
  (forall c, c ∈ codecs -> isRtxCodec c = true -> f c = Ok []) ->
  Forall2 (fun c x => f c = Ok (g x)) (List.filter is_media codecs) L ->
  exists bs, mapR f codecs = Ok bs /\ concat bs = concat (map g L).
Proof.
  revert L. induction codecs as [|c codecs IH]; intros L Hr HF; simpl in *.
  { inversion HF. by exists []. }
  unfold is_media in HF at 1. destruct (isRtxCodec c) eqn:Hc; simpl in HF.
  - destruct (IH L) as (bs & Hbs & Hcat); [intros; apply Hr; [by right|done]|done|].
    exists ([] :: bs). rewrite Hr by (done || by left). by rewrite Ok_bind, Hbs.
  - inversion HF as [|? x ? L' Hx HF' Heq1 Heq2]; subst.
    destruct (IH L') as (bs & Hbs & Hcat); [intros; apply Hr; [by right|done]|done|].
    exists (g x :: bs). rewrite Hx, Ok_bind, Hbs. simpl. by rewrite Hcat.
Qed.

(** All consumable codecs of a producer. *)
Lemma consumable_codecs_blocks caps p rnd p' mapping :
  caps_allocated caps -> payload_type_decides caps (rp_codecs p) ->
  getProducerRtpParametersMapping p caps rnd = Ok (p', mapping) ->
  exists L bs, Forall2 (matched_with caps (rp_codecs p)) (List.filter is_media (rp_codecs p')) L /\
    mapR (consumable_codecs caps mapping) (rp_codecs p') = Ok bs /\ concat bs = concat (map (media_block caps) L).
Proof.
  intros Hcaps Hpt Hmap. destruct (mapping_media_codecs _ _ _ _ _ Hmap) as (m0 & e & Hm & _).
  pose proof (match_media_codecs_matched _ _ _ _ _ Hm) as HF.
  assert (exists L, Forall2 (matched_with caps (rp_codecs p)) (List.filter is_media (rp_codecs p')) L) as (L & HL).
  { clear -HF. induction HF as [|c' e0 l m0 [_ Hx] _ (L & HL)]; [by exists []|].
    eexists (_ :: L). by constructor. }
  exists L. destruct (mapR_blocks (consumable_codecs caps mapping) (media_block caps) (rp_codecs p') L)
    as (bs & Hbs & Hcat).
  - intros c _ Hr. unfold consumable_codecs. by rewrite Hr.
  - eapply Forall2_impl_l; [exact HL|]. intros c' x Hin Hx.
    apply list_elem_of_In, filter_In in Hin as [Hin Hr%negb_true_iff].
    eapply consumable_codecs_media; try done. by apply list_elem_of_In.
  - by exists bs.
Qed.

(** ** Codecs that are their own capabilities *)

(** Codecs as a router writes them: a media codec is matched by the capability
    with its payload type and keeps its parameters, an RTX codec belongs to a
    media codec that has an RTX capability. *)
Record own_codecs (caps : RtpCapabilities) (codecs : list RtpCodecParameters) : Prop := mkOwn {
  own_media c : c ∈ codecs -> isRtxCodec c = false -> exists cap,
    find_match c (caps_codecs caps) = Some (cp_parameters c, cap) /\
    cap_preferredPayloadType cap = Some (cp_payloadType c);
  own_rtx c : c ∈ codecs -> isRtxCodec c = true -> exists media rtx,
    media ∈ codecs /\ isRtxCodec media = false /\
    jget "apt" (cp_parameters c) = Some (PNum (cp_payloadType media)) /\
    List.find (fun c => isRtxCodec c && apt_is c (Some (cp_payloadType media))) (caps_codecs caps) = Some rtx;
  own_apart c1 c2 : c1 ∈ codecs -> c2 ∈ codecs -> isRtxCodec c1 = true -> isRtxCodec c2 = false ->
    cp_payloadType c1 <> cp_payloadType c2
}.

(** The first loop changes nothing. *)
Lemma match_media_codecs_own caps i codecs :
  (forall c, c ∈ codecs -> isRtxCodec c = false -> exists cap,
    find_match c (caps_codecs caps) = Some (cp_parameters c, cap) /\
    cap_preferredPayloadType cap = Some (cp_payloadType c)) ->
  exists m, match_media_codecs caps i codecs = Ok (codecs, m) /\
    forall j c, codecs !! j = Some c -> isRtxCodec c = false ->
      exists cap, jget (i + j) m = Some (cp_payloadType c, cap) /\
                  cap_preferredPayloadType cap = Some (cp_payloadType c).
Proof.
  revert i. induction codecs as [|c codecs IH]; intros i Hown; simpl; [by exists []|].
  destruct (IH (S i)) as (m & Hm & Hget); [intros; apply Hown; [by right|done]|].
  rewrite Hm. destruct (isRtxCodec c) eqn:Hr.
  - exists m. split; [done|]. intros [|j] c' Hj Hr'; simpl in Hj; [congruence|].
    rewrite <-Nat.add_succ_comm. by apply Hget.
  - destruct (Hown c ltac:(by left) Hr) as (cap & Hf & Hpt). rewrite Hf. eexists. split.
    + cbn. f_equal. by destruct c.
    + intros [|j] c' Hj Hr'; simpl in Hj.
      * injection Hj as <-. exists cap. rewrite Nat.add_0_r. simpl. by rewrite decide_True.
      * destruct (Hget j c' Hj Hr') as (cap' & Hc' & Hpt'). exists cap'. split; [|done].
        simpl. rewrite decide_False by lia. by rewrite <-Nat.add_succ_comm.
Qed.

Definition media_entries (codecs : list RtpCodecParameters) (m : codec_map) : Prop :=
  forall j c, codecs !! j = Some c -> isRtxCodec c = false ->
    exists cap, jget j m = Some (cp_payloadType c, cap) /\ cap_preferredPayloadType cap = Some (cp_payloadType c).

Lemma match_rtx_codec_own caps codecs m i c :
  own_codecs caps codecs -> media_entries codecs m -> codecs !! i = Some c ->
  exists m', match_rtx_codec caps codecs m (i, c) = Ok m' /\ media_entries codecs m'.
Proof.
  intros Hown Hm Hi. unfold match_rtx_codec. destruct (isRtxCodec c) eqn:Hr; [|by exists m]. cbn [negb].
  pose proof (list_elem_of_lookup_2 _ _ _ Hi) as Hin.
  destruct (own_rtx _ _ Hown c Hin Hr) as (media & rtx & Hmin & Hmr & Hapt & Hfind).
  apply list_elem_of_lookup in Hmin as [j Hj].
  set (P := fun mediaCodec => apt_is c (Some (cp_payloadType mediaCodec)) = true).
  assert (forall c2, P c2 <-> cp_payloadType c2 = cp_payloadType media) as HP.
  { intros c2. unfold P, apt_is. simpl. rewrite Hapt, bool_decide_eq_true. split; congruence. }
  destruct (list_find_elem_of P codecs media) as [[k a] Hfk];
    [by apply list_elem_of_lookup_2 in Hj|by apply HP|].
  rewrite Hfk. cbn [from_option_or]. rewrite Ok_bind. apply list_find_Some in Hfk as (Hk & Ha%HP & _).
  assert (isRtxCodec a = false) as Har.
  { destruct (isRtxCodec a) eqn:Har; [|done]. exfalso.
    apply (own_apart _ _ Hown a media); try done; by eapply list_elem_of_lookup_2. }
  destruct (Hm k a Hk Har) as (cap & Hget & Hcpt). cbn [fst]. rewrite Hget. cbn [from_option_or].
  rewrite Ok_bind. cbn [snd]. rewrite Hcpt, Ha, Hfind. cbn [from_option_or]. rewrite Ok_bind.
  eexists. split; [done|]. intros j' c' Hj' Hr'. assert (j' <> i) by congruence.
  destruct (Hm j' c' Hj' Hr') as (cap' & Hg & Hp). exists cap'. by rewrite jget_jset_ne.
Qed.

Lemma match_rtx_codecs_own caps codecs l m :
  own_codecs caps codecs -> media_entries codecs m ->
  (forall i c, (i, c) ∈ l -> codecs !! i = Some c) ->
  exists m', foldR (match_rtx_codec caps codecs) m l = Ok m'.
Proof.
  intros Hown. revert m. induction l as [|[i c] l IH]; intros m Hm Hl; cbn [foldR]; [by exists m|].
  destruct (match_rtx_codec_own caps codecs m i c Hown Hm) as (m' & Hm' & He); [apply Hl; by left|].
  rewrite Hm', Ok_bind. apply IH; [done|]. intros j c' Hj. apply Hl. by right.
Qed.

(** Such codecs are mapped, and left as they are. *)
Lemma mapping_own caps p rnd :
  own_codecs caps (rp_codecs p) -> exists mapping, getProducerRtpParametersMapping p caps rnd = Ok (p, mapping).
Proof.
  intros Hown. unfold getProducerRtpParametersMapping.
  destruct (match_media_codecs_own caps 0 (rp_codecs p) (own_media _ _ Hown)) as (m & Hm & Hget).
  rewrite Hm, Ok_bind.
  destruct (match_rtx_codecs_own caps (rp_codecs p) (imap pair (rp_codecs p)) m Hown) as (m' & Hm').
  { intros j c. apply (Hget j c). }
  { intros i c. apply elem_of_imap_pair. }
  rewrite Hm', Ok_bind. eexists. cbv zeta. f_equal. f_equal. by destruct p.
Qed.
End blocks.

(** ** The capabilities of a router *)

Record router_caps (caps : RtpCapabilities) : Prop := mkRouterCaps {
  rc_allocated : caps_allocated caps;
  rc_media c : c ∈ caps_codecs caps -> isRtxCodec c = false ->
    exists kind, mime_kind (cap_mimeType c) = Some kind /\ channels_ok kind (cap_channels c);
  rc_rtx c : c ∈ caps_codecs caps -> isRtxCodec c = true ->
    mime_kind (cap_mimeType c) = Some "video" /\ apt_ok (cap_parameters c) /\ cap_rtcpFeedback c = [];
  rc_exts : Forall (fun e => he_uri e <> "") (caps_headerExtensions caps)
}.

(** A property of the supported codecs that is checked by evaluation. *)
Definition channels_okb (kind : string) (channels : option Z) : bool :=
  if String.eqb kind "audio" then bool_decide (is_Some channels) else bool_decide (channels = None).

Definition supported_okb (c : RtpCodecCapability) : bool :=
  match mime_kind (cap_mimeType c) with Some kind => channels_okb kind (cap_channels c) | None => false end.

Lemma supported_ok c :
  c ∈ caps_codecs supported ->
  exists kind, mime_kind (cap_mimeType c) = Some kind /\ channels_ok kind (cap_channels c).
Proof.
  assert (forallb supported_okb (caps_codecs supported) = true) as H by (vm_compute; reflexivity).
  intros Hc. rewrite forallb_forall in H. specialize (H c (proj1 (list_elem_of_In _ _) Hc)).
  unfold supported_okb in H. destruct (mime_kind _) as [kind|]; [|done]. exists kind. split; [done|].
  unfold channels_ok, channels_okb in *. destruct (String.eqb kind "audio"); by apply bool_decide_eq_true in H.
Qed.

Lemma supported_exts_ok : Forall (fun e => he_uri e <> "") (caps_headerExtensions supported).
Proof.
  assert (forallb (fun e => negb (String.eqb (he_uri e) "")) (caps_headerExtensions supported) = true) as H
    by (vm_compute; reflexivity).
  apply Forall_forall. intros e He. rewrite forallb_forall in H.
  specialize (H e (proj1 (list_elem_of_In _ _) He)). by apply negb_true_iff, String.eqb_neq in H.
Qed.

Lemma generated_router_caps `{H264} mediaCodecs caps :
  generateRouterRtpCapabilities mediaCodecs = Ok caps -> router_caps caps.
Proof.
  intros (H1 & H2 & (bs & Hbs & HF) & He)%generateRouterRtpCapabilities_inv.
  assert (forall c, c ∈ caps_codecs caps -> exists b mc, c ∈ b /\ router_block (caps_codecs supported) mc b) as Hb.
  { intros c. rewrite Hbs, list_elem_of_In, in_concat. intros (b & Hin & Hc).
    apply list_elem_of_In, list_elem_of_lookup in Hin as [j Hj].
    destruct (Forall2_lookup_r _ _ _ _ _ HF Hj) as (mc & _ & Hblock). exists b, mc.
    split; [apply list_elem_of_In; exact Hc|exact Hblock]. }
  split; [exact (conj H1 H2)| | |rewrite He; exact supported_exts_ok].
  - intros c Hc Hr. destruct (Hb c Hc) as (b & mc & Hin & m & s & c0 & pt & _ & Hs & _ & -> & _ & Hk).
    assert (c = mkRtpCodecCapability (cap_kind s) (cap_mimeType s) (Some pt) (cap_clockRate s) (cap_channels s)
              (spread (cap_parameters s) (cap_parameters m)) (cap_rtcpFeedback s)) as ->.
    { destruct (cap_kind _); [subst b; by apply list_elem_of_singleton in Hin|]. destruct Hk as (rpt & ->).
      apply elem_of_cons in Hin as [->|Hin]; [reflexivity|]. apply list_elem_of_singleton in Hin as ->.
      discriminate Hr. }
    exact (supported_ok s Hs).
  - intros c Hc Hr. destruct (Hb c Hc) as (b & mc & Hin & m & s & c0 & pt & _ & Hs & _ & -> & _ & Hk).
    pose proof (supported_not_rtx s Hs) as Hns. unfold isRtxCodec in Hns, Hr. simpl in Hns, Hr, Hk.
    destruct (cap_kind s) eqn:Hkind; [subst b; apply list_elem_of_singleton in Hin as ->; simpl in Hr; congruence|].
    destruct Hk as (rpt & ->). apply elem_of_cons in Hin as [->|Hin]; [simpl in Hr; congruence|].
    apply list_elem_of_singleton in Hin as ->. simpl. split_and!; [done| |done].
    intros s'. rewrite list_elem_of_singleton. congruence.
Qed.

(** ** The codecs of a pipe consumer *)

Definition pipe_codec (enableRtx : bool) (c : RtpCodecParameters) : RtpCodecParameters :=
  with_feedback c (List.filter (pipe_feedback_kept enableRtx) (cp_rtcpFeedback c)).

Definition pipe_codecs (enableRtx : bool) (codecs : list RtpCodecParameters) : list RtpCodecParameters :=
  map (pipe_codec enableRtx) (List.filter (fun codec => enableRtx || is_media codec) codecs).

Section piped.
Context `{H264} `{!H264_laws}.

(** A capability and parameters that match again. *)
Definition settled (caps : RtpCapabilities) (x : RtpCodecCapability * params) : Prop :=
  x.1 ∈ caps_codecs caps /\ isRtxCodec x.1 = false /\
  forall pt fbs, find_match (with_feedback (consumable_of x.1 pt x.2) fbs) (caps_codecs caps) = Some (x.2, x.1).

Lemma matched_settled caps codecs c' x : matched_with caps codecs c' x -> settled caps x.
Proof.
  intros Hx. destruct (matched_with_in _ _ _ _ Hx) as [H1 H2]. split_and!; [done|done|].
  intros pt fbs. destruct Hx as (c & _ & _ & _ & Hf & _). eapply find_match_again; [exact Hf| |done].
  apply find_match_Some in Hf as [_ (Hm & Hr & Hch)%matchCodecs_agree]. by split_and!.
Qed.

Lemma elem_of_blocks caps L c :
  c ∈ concat (map (media_block caps) L) ->
  exists x pt, x ∈ L /\ cap_preferredPayloadType x.1 = Some pt /\
    (c = consumable_of x.1 pt x.2 \/
     exists rtx rpt, List.find (fun c => isRtxCodec c && apt_is c (Some pt)) (caps_codecs caps) = Some rtx /\
       cap_preferredPayloadType rtx = Some rpt /\ c = consumable_rtx_of rtx rpt).
Proof.
  rewrite list_elem_of_In, in_concat. intros (b & (x & <- & Hx)%in_map_iff & Hc).
  unfold media_block in Hc. destruct (cap_preferredPayloadType x.1) as [pt|] eqn:Hpt; [|done].
  exists x, pt. split_and!; [by apply list_elem_of_In|done|]. destruct Hc as [<-|Hc]; [by left|right].
  unfold rtx_block in Hc. destruct (List.find _ _) as [rtx|]; [|done].
  destruct (cap_preferredPayloadType rtx) as [rpt|] eqn:Hr; [|done]. destruct Hc as [<-|[]]. by exists rtx, rpt.
Qed.

Lemma consumable_of_in caps L x pt :
  x ∈ L -> cap_preferredPayloadType x.1 = Some pt -> consumable_of x.1 pt x.2 ∈ concat (map (media_block caps) L).
Proof.
  intros Hx Hpt. apply list_elem_of_In, in_concat. exists (media_block caps x). split.
  - by apply in_map, list_elem_of_In.
  - unfold media_block. rewrite Hpt. by left.
Qed.

(** A piped codec is a media codec or, with RTX, an RTX codec. *)
Lemma elem_of_pipe_codecs caps L enableRtx c :
  Forall (settled caps) L -> c ∈ pipe_codecs enableRtx (concat (map (media_block caps) L)) ->
  exists x pt, x ∈ L /\ cap_preferredPayloadType x.1 = Some pt /\
    (isRtxCodec c = false /\ c = pipe_codec enableRtx (consumable_of x.1 pt x.2) \/
     isRtxCodec c = true /\ enableRtx = true /\
     exists rtx rpt, List.find (fun c => isRtxCodec c && apt_is c (Some pt)) (caps_codecs caps) = Some rtx /\
       cap_preferredPayloadType rtx = Some rpt /\ c = pipe_codec enableRtx (consumable_rtx_of rtx rpt)).
Proof.
  intros HL. unfold pipe_codecs. rewrite list_elem_of_In, in_map_iff. intros (c0 & <- & [Hin Hkept]%filter_In).
  apply list_elem_of_In, elem_of_blocks in Hin as (x & pt & Hx & Hpt & [->|(rtx & rpt & Hf & Hr & ->)]);
    exists x, pt; split_and!; try done; [left|right].
  - rewrite Forall_forall in HL. by destruct (HL x Hx) as (_ & ? & _).
  - pose proof (find_Some_elem _ _ _ Hf) as [_ [Hrtx _]%andb_prop].
    assert (isRtxCodec (consumable_rtx_of rtx rpt) = true) as Hc by done. split; [done|].
    unfold is_media in Hkept. rewrite Hc, orb_false_r in Hkept. split; [done|]. by exists rtx, rpt.
Qed.

Lemma pipe_media_in caps L enableRtx x pt :
  settled caps x -> x ∈ L -> cap_preferredPayloadType x.1 = Some pt ->
  pipe_codec enableRtx (consumable_of x.1 pt x.2) ∈ pipe_codecs enableRtx (concat (map (media_block caps) L)).
Proof.
  intros (_ & Hr & _) Hx Hpt. apply list_elem_of_In, in_map, filter_In. split.
  - by apply list_elem_of_In, consumable_of_in.
  - unfold is_media. assert (isRtxCodec (consumable_of x.1 pt x.2) = false) as -> by done. apply orb_true_r.
Qed.

Lemma pipe_codecs_own caps L enableRtx :
  router_caps caps -> Forall (settled caps) L ->
  own_codecs caps (pipe_codecs enableRtx (concat (map (media_block caps) L))).
Proof.
  intros Hcaps HL. pose proof (rc_allocated _ Hcaps) as [Hnd _]. pose proof HL as HL'.
  rewrite Forall_forall in HL'. split.
  - intros c Hc Hr. destruct (elem_of_pipe_codecs _ _ _ _ HL Hc) as (x & pt & Hx & Hpt & [[_ ->]|(? & _)]);
      [|congruence]. exists x.1. split; [|done]. by apply (HL' x Hx).
  - intros c Hc Hr. destruct (elem_of_pipe_codecs _ _ _ _ HL Hc)
      as (x & pt & Hx & Hpt & [[? _]|(_ & He & rtx & rpt & Hf & Hrp & ->)]); [congruence|].
    exists (pipe_codec enableRtx (consumable_of x.1 pt x.2)), rtx.
    pose proof (find_Some_elem _ _ _ Hf) as [_ [_ Hapt]%andb_prop]. unfold apt_is in Hapt.
    apply bool_decide_eq_true in Hapt. split_and!; [|by apply (HL' x Hx)|done|done].
    apply pipe_media_in; auto.
  - intros c1 c2 H1 H2 Hr1 Hr2 Heq.
    destruct (elem_of_pipe_codecs _ _ _ _ HL H1)
      as (x & pt & Hx & Hpt & [[? _]|(_ & _ & rtx & rpt & Hf & Hrp & ->)]); [congruence|].
    destruct (elem_of_pipe_codecs _ _ _ _ HL H2) as (y & q & Hy & Hq & [[_ ->]|(? & _)]); [|congruence].
    apply find_Some_elem in Hf as [Hin [Hrtx _]%andb_prop]. destruct (HL' y Hy) as (Hyin & Hyr & _).
    simpl in Heq. subst q.
    assert (rtx = y.1) as -> by (eapply NoDup_map_inj; [exact Hnd|done|done|congruence]). congruence.
Qed.

Lemma pipe_codecs_decide caps L enableRtx :
  router_caps caps -> Forall (settled caps) L ->
  payload_type_decides caps (pipe_codecs enableRtx (concat (map (media_block caps) L))).
Proof.
  intros Hcaps HL c1 c2 x1 x2 H1 H2 Hr1 Hr2 Heq Hf1 Hf2. pose proof (rc_allocated _ Hcaps) as [Hnd _].
  pose proof HL as HL'. rewrite Forall_forall in HL'.
  destruct (elem_of_pipe_codecs _ _ _ _ HL H1) as (x & pt & Hx & Hpt & [[_ ->]|(? & _)]); [|congruence].
  destruct (elem_of_pipe_codecs _ _ _ _ HL H2) as (y & q & Hy & Hq & [[_ ->]|(? & _)]); [|congruence].
  destruct (HL' x Hx) as (Hxin & _ & Hxf). destruct (HL' y Hy) as (Hyin & _ & Hyf).
  unfold pipe_codec in Hf1, Hf2. rewrite Hxf in Hf1. rewrite Hyf in Hf2.
  injection Hf1 as <-. injection Hf2 as <-. simpl in *. subst q.
  eapply NoDup_map_inj; [exact Hnd|done|done|congruence].
Qed.
End piped.

Section offered.
Context `{H264} `{!H264_laws}.

Lemma pipe_codecs_app enableRtx l k :
  pipe_codecs enableRtx (l ++ k) = pipe_codecs enableRtx l ++ pipe_codecs enableRtx k.
Proof. unfold pipe_codecs. by rewrite List.filter_app, map_app. Qed.

(** The media codecs of a pipe consumer, one per block. *)
Lemma pipe_codecs_media caps L enableRtx :
  router_caps caps -> Forall (settled caps) L ->
  Forall2 (fun c x => exists pt, cap_preferredPayloadType x.1 = Some pt /\
                                 c = pipe_codec enableRtx (consumable_of x.1 pt x.2))
    (List.filter is_media (pipe_codecs enableRtx (concat (map (media_block caps) L)))) L.
Proof.
  intros Hcaps. induction 1 as [|x L (Hin & Hr & _) HL IH]; [constructor|].
  destruct (caps_allocated_pt _ _ (rc_allocated _ Hcaps) Hin) as [pt Hpt].
  cbn [map concat]. rewrite pipe_codecs_app, List.filter_app.
  unfold media_block at 1. rewrite Hpt. cbn [app].
  assert (List.filter is_media (pipe_codecs enableRtx (consumable_of x.1 pt x.2 :: rtx_block caps pt)) =
          [pipe_codec enableRtx (consumable_of x.1 pt x.2)]) as ->.
  { unfold pipe_codecs. cbn [List.filter]. unfold is_media at 2.
    assert (isRtxCodec (consumable_of x.1 pt x.2) = false) as -> by exact Hr. rewrite orb_true_r. cbn [map List.filter].
    unfold is_media at 1. assert (isRtxCodec (pipe_codec enableRtx (consumable_of x.1 pt x.2)) = false) as -> by exact Hr.
    cbn [negb]. f_equal. unfold rtx_block. destruct (List.find _ _) as [rtx|] eqn:Hf; [|done].
    apply find_Some_elem in Hf as [_ [Hrtx _]%andb_prop].
    destruct (cap_preferredPayloadType rtx) as [rpt|]; [|done]. cbn [List.filter].
    assert (isRtxCodec (consumable_rtx_of rtx rpt) = true) as Hc by exact Hrtx.
    unfold is_media. rewrite Hc. cbn [negb]. rewrite orb_false_r. destruct enableRtx; [|done]. cbn [map List.filter].
    assert (isRtxCodec (pipe_codec true (consumable_rtx_of rtx rpt)) = true) as -> by exact Hrtx. done. }
  constructor; [by exists pt|done].
Qed.

(** Matching the codecs of a pipe consumer gives the same blocks again. *)
Lemma pipe_codecs_blocks caps L enableRtx L' :
  router_caps caps -> Forall (settled caps) L ->
  let codecs := pipe_codecs enableRtx (concat (map (media_block caps) L)) in
  Forall2 (matched_with caps codecs) (List.filter is_media codecs) L' -> L' = L.
Proof.
  intros Hcaps HL codecs HF. pose proof (rc_allocated _ Hcaps) as [Hnd _].
  pose proof (pipe_codecs_media caps L enableRtx Hcaps HL) as HM. fold codecs in HM.
  pose proof HL as HLin. rewrite Forall_forall in HLin.
  apply list_eq. intros j. destruct (L !! j) as [x|] eqn:Hx.
  - destruct (Forall2_lookup_r _ _ _ _ _ HM Hx) as (c' & Hc' & pt & Hpt & ->).
    destruct (Forall2_lookup_l _ _ _ _ _ HF Hc') as (y & Hy & c & Hc & (Hsame & _) & Hr & Hf & Hps). rewrite Hy. f_equal.
    destruct (elem_of_pipe_codecs _ _ _ _ HL Hc) as (z & q & Hz & Hq & [[_ ->]|(? & _)]); [|congruence].
    destruct (HLin z Hz) as (Hzin & _ & Hzf). unfold pipe_codec in Hf. rewrite Hzf in Hf. simpl in Hsame, Hps.
    destruct (HLin x ltac:(by eapply list_elem_of_lookup_2)) as (Hxin & _).
    assert (x.1 = z.1) as Hxz by (eapply NoDup_map_inj; [exact Hnd|done|done|congruence]).
    destruct x as [cap ps], y as [cap' ps'], z as [cap'' ps'']. simpl in *. congruence.
  - apply lookup_ge_None. apply lookup_ge_None in Hx. rewrite <-(Forall2_length _ _ _ HF).
    by rewrite (Forall2_length _ _ _ HM).
Qed.

(** ** What the other router offers *)

Lemma pipe_parameters_codecs consumable enableRtx b1 b2 :
  rp_codecs (getPipeConsumerRtpParameters consumable enableRtx b1 b2) =
  pipe_codecs enableRtx (rp_codecs consumable).
Proof. done. Qed.

(** The consumable parameters of a piped producer, when [dtx] has its default. *)
Definition piped_consumable (rnd : Z) (c : RtpParameters) : RtpParameters :=
  mkRtpParameters None (rp_codecs c) (rp_headerExtensions c)
    (imap (consumable_encoding_of rnd) (map default_dtx (rp_encodings c))) (rp_rtcp c).

Lemma piped_encodings rnd enableRtx b1 b2 (encodings : list RtpEncodingParameters) :
  imap (consumable_encoding_of rnd) (map default_dtx (imap (pipe_encoding enableRtx b1 b2) encodings)) =
  imap (consumable_encoding_of rnd) (map default_dtx encodings).
Proof.
  apply list_eq. intros i. rewrite !list_lookup_imap, !list_lookup_fmap, list_lookup_imap.
  by destruct (encodings !! i).
Qed.

(** Consumable parameters are those of the blocks. *)
Lemma consumable_blocks kind caps p rnd p' mapping c :
  caps_allocated caps -> payload_type_decides caps (rp_codecs p) ->
  getProducerRtpParametersMapping p caps rnd = Ok (p', mapping) ->
  getConsumableRtpParameters kind p' caps mapping = Ok c ->
  exists L, Forall2 (matched_with caps (rp_codecs p)) (List.filter is_media (rp_codecs p')) L /\
    c = mkRtpParameters None (concat (map (media_block caps) L))
          (map consumable_ext (List.filter (consumable_ext_kept kind) (caps_headerExtensions caps)))
          (imap (consumable_encoding_of rnd) (rp_encodings p))
          (mkRtcpParameters (rtcp_cname (rp_rtcp p)) true (Some true)).
Proof.
  intros Hcaps Hpt Hmap Hc. destruct (consumable_codecs_blocks _ _ _ _ _ Hcaps Hpt Hmap) as (L & bs & HF & Hbs & Hcat).
  exists L. split; [done|]. unfold getConsumableRtpParameters in Hc. rewrite Hbs, Ok_bind in Hc. cbv zeta in Hc.
  apply getProducerRtpParametersMapping_inv in Hmap as (_ & He & Hr & _ & Hm).
  rewrite Hm, He, consumable_encodings_Ok, Ok_bind, Hcat, Hr in Hc. congruence.
Qed.

Lemma blocks_settled caps codecs l L : Forall2 (matched_with caps codecs) l L -> Forall (settled caps) L.
Proof.
  induction 1 as [|c x l L Hx _ IH]; constructor; [by eapply matched_settled|done].
Qed.

(** The negotiation of the other router, with the same capabilities, succeeds
    and gives the same consumable parameters. *)
Lemma pipe_negotiation kind caps p rnd p' mapping c enableRtx b1 b2 rnd' q :
  router_caps caps -> payload_type_decides caps (rp_codecs p) ->
  getProducerRtpParametersMapping p caps rnd = Ok (p', mapping) ->
  getConsumableRtpParameters kind p' caps mapping = Ok c ->
  q = default_dtxs (getPipeConsumerRtpParameters c enableRtx b1 b2) ->
  exists mapping', getProducerRtpParametersMapping q caps rnd' = Ok (q, mapping') /\
    getConsumableRtpParameters kind q caps mapping' = Ok (piped_consumable rnd' c).
Proof.
  intros Hcaps Hpt Hmap Hc ->. pose proof (rc_allocated _ Hcaps) as Hal.
  destruct (consumable_blocks _ _ _ _ _ _ _ Hal Hpt Hmap Hc) as (L & HF & Heq).
  pose proof (blocks_settled _ _ _ _ HF) as HL.
  set (q := default_dtxs (getPipeConsumerRtpParameters c enableRtx b1 b2)).
  assert (rp_codecs q = pipe_codecs enableRtx (concat (map (media_block caps) L))) as Hq.
  { unfold q. cbn [default_dtxs rp_codecs]. by rewrite pipe_parameters_codecs, Heq. }
  destruct (mapping_own caps q rnd') as (mapping' & Hm'); [rewrite Hq; by apply pipe_codecs_own|].
  exists mapping'. split; [done|].
  destruct (getConsumableRtpParameters_Ok kind _ _ _ _ _ Hal Hm') as (c' & _ & Hc' & _). rewrite Hc'. f_equal.
  assert (payload_type_decides caps (rp_codecs q)) as Hd by (rewrite Hq; by apply pipe_codecs_decide).
  destruct (consumable_blocks _ _ _ _ _ _ _ Hal Hd Hm' Hc') as (L' & HF' & ->).
  rewrite Hq in HF'. apply (pipe_codecs_blocks _ _ _ _ Hcaps HL) in HF' as ->.
  unfold piped_consumable. rewrite Heq. cbn [rp_codecs rp_headerExtensions rp_encodings rp_rtcp]. f_equal.
  - unfold q. cbn [default_dtxs rp_encodings getPipeConsumerRtpParameters]. rewrite piped_encodings.
    by rewrite Heq.
  - unfold q. cbn [default_dtxs rp_rtcp getPipeConsumerRtpParameters]. by rewrite Heq.
Qed.

(** The parameters of a pipe consumer are good. *)
Lemma pipe_parameters_good kind caps p rnd p' mapping c enableRtx b1 b2 :
  router_caps caps -> payload_type_decides caps (rp_codecs p) -> Forall good_codec (rp_codecs p) ->
  getProducerRtpParametersMapping p caps rnd = Ok (p', mapping) ->
  getConsumableRtpParameters kind p' caps mapping = Ok c ->
  good_parameters (getPipeConsumerRtpParameters c enableRtx b1 b2).
Proof.
  intros Hcaps Hpt Hgood Hmap Hc.
  destruct (consumable_blocks _ _ _ _ _ _ _ (rc_allocated _ Hcaps) Hpt Hmap Hc) as (L & HF & ->).
  pose proof (blocks_settled _ _ _ _ HF) as HL.
  assert (Forall (fun x => apt_ok x.2) L) as Hapt.
  { clear -HF Hgood H0. induction HF as [|c' x l L Hx _ IH]; constructor; [|done].
    destruct Hx as (c & Hc & _ & _ & Hf & _). apply find_match_Some in Hf as [_ Hm]. rewrite Forall_forall in Hgood.
    destruct (Hgood c Hc) as (_ & Ha & _). intros s Hs. by eapply Ha, match_elem. }
  rewrite Forall_forall in Hapt.
  assert (forall cd : RtpCodecParameters, Forall good_feedback (List.filter (pipe_feedback_kept enableRtx) (cp_rtcpFeedback cd))) as Hfb.
  { intros cd. apply Forall_forall. intros fb Hfb. apply list_elem_of_In, filter_In in Hfb as [_ Hfb].
    unfold pipe_feedback_kept in Hfb. unfold good_feedback. intros Heq. rewrite Heq in Hfb. by destruct enableRtx. }
  split_and!; [| |done].
  - rewrite pipe_parameters_codecs. cbn [rp_codecs]. apply Forall_forall. intros cd Hcd. pose proof HL as HL'.
    rewrite Forall_forall in HL'.
    destruct (elem_of_pipe_codecs _ _ _ _ HL Hcd) as (x & pt & Hx & Hpt' & [[_ ->]|(_ & _ & rtx & rpt & Hf & _ & ->)]).
    + destruct (HL' x Hx) as (Hin & Hr & _). destruct (rc_media _ Hcaps _ Hin Hr) as (k & Hk & Hch).
      split_and!; [by exists k|by apply Hapt|apply Hfb].
    + apply find_Some_elem in Hf as [Hin [Hr _]%andb_prop]. destruct (rc_rtx _ Hcaps _ Hin Hr) as (Hk & Ha & _).
      split_and!; [by exists "video"|done|apply Hfb].
  - cbn [getPipeConsumerRtpParameters rp_headerExtensions]. apply Forall_forall. intros e He.
    apply list_elem_of_In, filter_In in He as [He _]. apply in_map_iff in He as (e0 & <- & [He0 _]%filter_In).
    pose proof (rc_exts _ Hcaps) as Hexts. rewrite Forall_forall in Hexts.
    exact (Hexts e0 (proj2 (list_elem_of_In _ _) He0)).
Qed.
End offered.
