(* ===== verification/Framing.v ===== *)
(** * Message framing on the sockets to the worker

    What the 'data' handlers of Channel.ts and PayloadChannel.ts share: the
    receiving buffer, the length prefix in the byte order of the host, the loop
    that takes complete messages out of the buffer, and the two writes that
    send a message.  The handlers are the same code in both files; they differ
    in what is done with a payload, which is the parameter [process]. *)

From Stdlib Require Export Strings.Byte.
From S2P Require Import Prelude.

Abbreviation buffer := (list byte).

#[export] Instance byte_eq_dec : EqDecision byte := Byte.byte_eq_dec.

(** MESSAGE_MAX_LEN and PAYLOAD_MAX_LEN. *)
Definition MESSAGE_MAX_LEN : Z := 4194308.
Definition PAYLOAD_MAX_LEN : Z := 4194304.

Definition blen (b : buffer) : Z := Z.of_nat (length b).

Definition byte_Z (b : byte) : Z := Z.of_N (Byte.to_N b).
Definition Z_byte (z : Z) : byte := default x00 (Byte.of_N (Z.to_N (z `mod` 256))).

(** [Buffer.from(Uint32Array.of(n).buffer)], in the byte order of the host. *)
Definition Uint32Array_of (littleEndian : bool) (n : Z) : buffer :=
  let b := [Z_byte n; Z_byte (n `div` 256); Z_byte (n `div` 65536); Z_byte (n `div` 16777216)] in
  if littleEndian then b else rev b.

(** [dataView.getUint32(0, littleEndian)] *)
Definition getUint32 (littleEndian : bool) (b : buffer) : Z :=
  match take 4 b with
  | [b0; b1; b2; b3] =>
      if littleEndian
      then (byte_Z b0 + 256 * byte_Z b1 + 65536 * byte_Z b2 + 16777216 * byte_Z b3)%Z
      else (byte_Z b3 + 256 * byte_Z b2 + 65536 * byte_Z b1 + 16777216 * byte_Z b0)%Z
  | _ => 0%Z
  end.

(** What is written for a message: its length and its bytes. *)
Definition frame (littleEndian : bool) (msg : buffer) : buffer :=
  Uint32Array_of littleEndian (blen msg) ++ msg.

Section handler.
Context {S : Type} (littleEndian : bool) (process : S -> buffer -> S).

(** [while (true)]: takes messages from [msgStart] on; the fuel is an upper
    bound of the number of iterations. *)
Fixpoint read_loop (fuel : nat) (s : S) (recvBuffer : buffer) (msgStart : nat) : S * nat :=
  match fuel with
  | 0 => (s, msgStart)
  | Datatypes.S fuel =>
      let readLen := (blen recvBuffer - Z.of_nat msgStart)%Z in
      if (readLen <? 4)%Z then (s, msgStart)
      else
        let msgLen := getUint32 littleEndian (drop msgStart recvBuffer) in
        if (readLen <? 4 + msgLen)%Z then (s, msgStart)
        else
          let payload := take (Z.to_nat msgLen) (drop (msgStart + 4) recvBuffer) in
          read_loop fuel (process s payload) recvBuffer (msgStart + 4 + Z.to_nat msgLen)
  end.

(** The 'data' handler: the new state and receiving buffer. *)
Definition on_data (st : S * buffer) (data : buffer) : S * buffer :=
  let recvBuffer := match st.2 with [] => data | _ => st.2 ++ data end in
  if (blen recvBuffer >? PAYLOAD_MAX_LEN)%Z then (st.1, [])
  else
    let '(s, msgStart) := read_loop (Datatypes.S (length recvBuffer)) st.1 recvBuffer 0 in
    (s, if negb (msgStart =? 0)%nat then drop msgStart recvBuffer else recvBuffer).
End handler.

(** ** The byte order *)

Lemma byte_Z_range b : (0 <= byte_Z b < 256)%Z.
Proof. unfold byte_Z. pose proof (Byte.to_N_bounded b). lia. Qed.

Lemma byte_Z_byte z : byte_Z (Z_byte z) = (z `mod` 256)%Z.
Proof.
  unfold byte_Z, Z_byte. pose proof (Z.mod_pos_bound z 256 ltac:(lia)) as Hb.
  destruct (Byte.of_N (Z.to_N (z `mod` 256))) as [b|] eqn:H; simpl.
  - apply Byte.to_of_N in H. rewrite H. lia.
  - apply Byte.of_N_None_iff in H. lia.
Qed.

Lemma length_Uint32Array_of le n : length (Uint32Array_of le n) = 4.
Proof. by destruct le. Qed.

Lemma uint32_bytes n :
  (0 <= n < 2 ^ 32)%Z ->
  (n `mod` 256 + 256 * ((n `div` 256) `mod` 256) + 65536 * ((n `div` 65536) `mod` 256) +
   16777216 * ((n `div` 16777216) `mod` 256))%Z = n.
Proof. intros H. Z.to_euclidean_division_equations. lia. Qed.

Lemma getUint32_of le n rest :
  (0 <= n < 2 ^ 32)%Z -> getUint32 le (Uint32Array_of le n ++ rest) = n.
Proof.
  intros Hn. rewrite <-(uint32_bytes n Hn) at 2.
  unfold getUint32, Uint32Array_of. destruct le; simpl; rewrite !byte_Z_byte; lia.
Qed.

Lemma getUint32_nonneg le b : (0 <= getUint32 le b)%Z.
Proof.
  unfold getUint32. destruct (take 4 b) as [|b0 [|b1 [|b2 [|b3 [|]]]]]; try lia.
  pose proof (byte_Z_range b0). pose proof (byte_Z_range b1).
  pose proof (byte_Z_range b2). pose proof (byte_Z_range b3). destruct le; lia.
Qed.

Lemma getUint32_app le b rest : (4 <= length b)%nat -> getUint32 le (b ++ rest) = getUint32 le b.
Proof. intros Hb. unfold getUint32. by rewrite take_app_le. Qed.

(** ** The stream of messages

    The specification of the handler: the complete messages a sequence of
    bytes starts with, and the bytes that remain.  It does not depend on how
    the bytes are cut into chunks. *)

Section stream.
Context (le : bool).

(** The first message and what follows it. *)
Definition split_message (b : buffer) : option (buffer * buffer) :=
  if (blen b <? 4)%Z then None
  else let n := getUint32 le b in
       if (blen b <? 4 + n)%Z then None
       else Some (take (Z.to_nat n) (drop 4 b), drop (4 + Z.to_nat n) b).

Inductive parses : buffer -> list buffer -> buffer -> Prop :=
| parses_done b : split_message b = None -> parses b [] b
| parses_more b m b' ms rest :
    split_message b = Some (m, b') -> parses b' ms rest -> parses b (m :: ms) rest.

Lemma split_message_length b m b' :
  split_message b = Some (m, b') -> length b = 4 + length m + length b' /\ blen m = getUint32 le b.
Proof.
  unfold split_message, blen. pose proof (getUint32_nonneg le b).
  destruct (Z.ltb_spec (Z.of_nat (length b)) 4); [done|].
  destruct (Z.ltb_spec (Z.of_nat (length b)) (4 + getUint32 le b)); [done|].
  intros [= <- <-]. rewrite length_take, !length_drop. lia.
Qed.

Lemma split_message_app b m b' more :
  split_message b = Some (m, b') -> split_message (b ++ more) = Some (m, b' ++ more).
Proof.
  unfold split_message, blen. rewrite length_app. pose proof (getUint32_nonneg le b).
  destruct (Z.ltb_spec (Z.of_nat (length b)) 4); [done|].
  destruct (Z.ltb_spec (Z.of_nat (length b)) (4 + getUint32 le b)); [done|].
  intros [= <- <-].
  destruct (Z.ltb_spec (Z.of_nat (length b + length more)) 4); [lia|].
  rewrite getUint32_app by lia.
  destruct (Z.ltb_spec (Z.of_nat (length b + length more)) (4 + getUint32 le b)); [lia|].
  f_equal. rewrite !drop_app_le by lia. rewrite take_app_le; [done|]. rewrite length_drop. lia.
Qed.

Lemma parses_total b : exists ms rest, parses b ms rest.
Proof.
  remember (length b) as n eqn:Hn. revert b Hn.
  induction (lt_wf n) as [n _ IH]. intros b ->.
  destruct (split_message b) as [[m b']|] eqn:Hs.
  - pose proof (split_message_length _ _ _ Hs) as [Hl _].
    destruct (IH (length b') ltac:(lia) b' eq_refl) as (ms & rest & H).
    exists (m :: ms), rest. by eapply parses_more.
  - exists [], b. by constructor.
Qed.

Lemma parses_functional b ms rest ms' rest' :
  parses b ms rest -> parses b ms' rest' -> ms = ms' /\ rest = rest'.
Proof.
  intros H. revert ms' rest'. induction H as [b Hb|b m b' ms rest Hb _ IH]; intros ms' rest' H';
    inversion H'; subst; try congruence.
  - done.
  - assert (m0 = m /\ b'0 = b') as [-> ->] by (split; congruence).
    destruct (IH _ _ ltac:(eassumption)) as [-> ->]. done.
Qed.

(** Parsing may be interrupted anywhere. *)
Lemma parses_app b ms rest more ms' rest' :
  parses b ms rest -> parses (rest ++ more) ms' rest' -> parses (b ++ more) (ms ++ ms') rest'.
Proof.
  intros H H'. induction H as [b Hb|b m b' ms rest Hb H IH]; simpl; [done|].
  eapply parses_more; [by apply split_message_app|]. by apply IH.
Qed.

Lemma parses_rest b ms rest : parses b ms rest -> split_message rest = None.
Proof. by induction 1. Qed.

Lemma parses_frame msg more ms rest :
  (blen msg < 2 ^ 32)%Z -> parses more ms rest -> parses (frame le msg ++ more) (msg :: ms) rest.
Proof.
  intros Hm H. eapply parses_more; [|done]. unfold split_message, frame, blen in *.
  rewrite <-app_assoc, getUint32_of by lia. rewrite !length_app, length_Uint32Array_of.
  destruct (Z.ltb_spec (Z.of_nat (4 + (length msg + length more))) 4); [lia|].
  destruct (Z.ltb_spec (Z.of_nat (4 + (length msg + length more))) (4 + Z.of_nat (length msg))); [lia|].
  rewrite Nat2Z.id. f_equal. f_equal.
  - rewrite drop_app_length' by (by rewrite length_Uint32Array_of). by rewrite take_app_length.
  - rewrite app_assoc. apply drop_app_length'. by rewrite length_app, length_Uint32Array_of.
Qed.
End stream.

Section handler_lemmas.
Context {S : Type} (le : bool) (process : S -> buffer -> S).

(** Enough fuel: the loop processes exactly the messages of the buffer. *)
Lemma read_loop_parses fuel s b n ms rest :
  n <= length b -> length b - n < fuel -> parses le (drop n b) ms rest ->
  exists n', read_loop le process fuel s b n = (foldl process s ms, n') /\
    n <= n' /\ drop n' b = rest.
Proof.
  revert s n ms. induction fuel as [|fuel IH]; intros s n ms Hn Hf H; [lia|].
  assert (blen b - Z.of_nat n = blen (drop n b))%Z as Hlen
    by (unfold blen; rewrite length_drop; lia).
  simpl. rewrite Hlen. inversion H as [b0 Hs|b0 m b' ms' rest' Hs Hrest]; subst.
  - unfold split_message in Hs. exists n.
    destruct (_ <? 4)%Z; [done|]. by destruct (_ <? _)%Z.
  - pose proof (split_message_length _ _ _ _ Hs) as [Hl _]. rewrite length_drop in Hl.
    pose proof Hs as Hs'. unfold split_message in Hs.
    destruct (_ <? 4)%Z; [done|]. destruct (_ <? _)%Z; [done|]. injection Hs as Hm Hb'.
    rewrite drop_drop in Hm, Hb'. rewrite Hm.
    set (n' := n + 4 + Z.to_nat (getUint32 le (drop n b))).
    assert (drop n' b = b') as Hd' by (rewrite <-Hb'; unfold n'; f_equal; lia).
    destruct (IH (process s m) n' ms') as (n1 & -> & Hn1 & Hd); [| |by rewrite Hd'|].
    + apply split_message_length in Hs' as [_ Hg]. unfold blen in Hg. lia.
    + lia.
    + exists n1. split; [done|]. split; [lia|done].
Qed.
End handler_lemmas.

Section handler_properties.
Context {S : Type} (le : bool) (process : S -> buffer -> S).

(** One chunk that fits into the buffer. *)
Lemma on_data_parses s b data ms rest :
  (blen (b ++ data) <= PAYLOAD_MAX_LEN)%Z -> parses le (b ++ data) ms rest ->
  on_data le process (s, b) data = (foldl process s ms, rest).
Proof.
  intros Hfit H. unfold on_data. cbn [fst snd].
  assert (match b with [] => data | _ => b ++ data end = b ++ data) as -> by (by destruct b).
  destruct (Z.gtb_spec (blen (b ++ data)) PAYLOAD_MAX_LEN); [lia|].
  destruct (read_loop_parses le process (Datatypes.S (length (b ++ data))) s (b ++ data) 0 ms rest)
    as (n' & -> & _ & Hd); [lia|lia|done|].
  destruct n'; simpl; [|by rewrite Hd]. by rewrite <-Hd, drop_0.
Qed.

(** The buffer never grows beyond its limit while the chunks arrive. *)
Fixpoint fits (b : buffer) (chunks : list buffer) : Prop :=
  match chunks with
  | [] => True
  | data :: chunks =>
      (blen (b ++ data) <= PAYLOAD_MAX_LEN)%Z /\
      forall ms rest, parses le (b ++ data) ms rest -> fits rest chunks
  end.

Lemma on_data_stream s b chunks ms rest :
  fits b chunks -> split_message le b = None -> parses le (b ++ concat chunks) ms rest ->
  foldl (on_data le process) (s, b) chunks = (foldl process s ms, rest).
Proof.
  revert s b ms. induction chunks as [|data chunks IH]; intros s b ms Hfits Hb H; simpl in *.
  - rewrite app_nil_r in H. inversion H; subst; [done|congruence].
  - destruct Hfits as [Hfit Hfits].
    destruct (parses_total le (b ++ data)) as (ms1 & rest1 & H1).
    rewrite (on_data_parses _ _ _ _ _ Hfit H1).
    destruct (parses_total le (rest1 ++ concat chunks)) as (ms2 & rest2 & H2).
    pose proof (parses_app _ _ _ _ _ _ _ H1 H2) as H12. rewrite <-app_assoc in H12.
    destruct (parses_functional _ _ _ _ _ _ H H12) as [-> ->].
    rewrite foldl_app. apply IH; [by eapply Hfits|by eapply parses_rest|done].
Qed.

(** Frames followed by an incomplete one: what a prefix of a sequence of
    frames parses to. *)
Lemma parses_prefix msgs b more :
  b ++ more = concat (map (frame le) msgs) -> Forall (fun m => blen m < 2 ^ 32)%Z msgs ->
  exists done_ rest left_, msgs = done_ ++ left_ /\ parses le b done_ rest /\
    rest ++ more = concat (map (frame le) left_) /\
    (more <> [] \/ rest = []) /\
    (rest <> [] -> exists m l, left_ = m :: l /\ length rest < 4 + length m).
Proof.
  revert b. induction msgs as [|m msgs IH]; intros b Hb Hm; simpl in Hb.
  - apply app_eq_nil in Hb as [-> ->]. exists [], [], []. split_and!; try done; [by constructor|by right].
  - inversion Hm as [|? ? Hm1 Hms]; subst.
    destruct (decide (length (frame le m) <= length b)) as [Hlen|Hlen].
    + assert (b = frame le m ++ drop (length (frame le m)) b) as Hsplit.
      { rewrite <-(take_drop (length (frame le m)) b) at 1. f_equal.
        apply (f_equal (take (length (frame le m)))) in Hb.
        by rewrite take_app_le, take_app_length in Hb. }
      rewrite Hsplit, <-app_assoc in Hb. apply app_inv_head in Hb.
      destruct (IH _ Hb Hms) as (d & rest & l & -> & Hp & Hrest).
      exists (m :: d), rest, l. split; [done|]. split; [|done].
      rewrite Hsplit. by apply parses_frame.
    + exists [], b, (m :: msgs). assert (length b < 4 + length m) as Hl.
      { unfold frame in Hlen. rewrite length_app, length_Uint32Array_of in Hlen. lia. }
      assert (more <> []) as Hmore.
      { intros ->. rewrite app_nil_r in Hb. apply Hlen. subst b. rewrite length_app. lia. }
      split_and!; try done; [|by left|eauto].
      constructor. unfold split_message, blen.
      destruct (Z.ltb_spec (Z.of_nat (length b)) 4); [done|].
      assert (getUint32 le b = blen m) as ->.
      { rewrite <-(getUint32_app le b more) by lia. rewrite Hb. unfold frame.
        rewrite <-app_assoc. apply getUint32_of. unfold blen in *. lia. }
      unfold blen. destruct (Z.ltb_spec (Z.of_nat (length b)) (4 + Z.of_nat (length m))); [done|lia].
Qed.
End handler_properties.

Section framing.
Context {S : Type} (le : bool) (process : S -> buffer -> S).

Lemma fits_frames rest chunks left_ C :
  rest ++ concat chunks = concat (map (frame le) left_) ->
  (rest <> [] -> exists m l, left_ = m :: l /\ length rest < 4 + length m) ->
  Forall (fun c => blen c <= C)%Z chunks ->
  Forall (fun m => blen m + 3 + C <= PAYLOAD_MAX_LEN)%Z left_ ->
  fits le rest chunks.
Proof.
  revert rest left_. induction chunks as [|data chunks IH]; intros rest left_ Heq Hrest Hc Hm; [done|].
  inversion Hc as [|? ? Hdata Hchunks]; subst. simpl. split.
  - destruct left_ as [|m l].
    + simpl in Heq. apply app_eq_nil in Heq as [-> Heq]. simpl in Heq.
      apply app_eq_nil in Heq as [-> _]. done.
    + inversion Hm as [|? ? Hm1 _]; subst.
      assert (length rest < 4 + length m).
      { destruct rest as [|x rest]; [simpl; lia|].
        destruct (Hrest ltac:(done)) as (m' & l' & [= <- <-] & ?). done. }
      unfold blen in *. rewrite length_app. lia.
  - intros ms rest' Hp. simpl in Heq. rewrite app_assoc in Heq.
    assert (Forall (fun m => blen m < 2 ^ 32)%Z left_) as H32.
    { eapply Forall_impl; [exact Hm|]. intros m H. simpl in H.
      assert (0 <= blen data)%Z by (unfold blen; lia). unfold PAYLOAD_MAX_LEN in H. lia. }
    destruct (parses_prefix le _ _ _ Heq H32) as (d & rest1 & l & -> & Hp1 & Heq1 & _ & Hr1).
    destruct (parses_functional _ _ _ _ _ _ Hp Hp1) as [-> ->].
    apply Forall_app in Hm as [_ Hm]. by apply (IH _ l).
Qed.

(** Lossless delivery for any cutting into chunks. *)
Lemma framing_chunks s msgs chunks C :
  concat chunks = concat (map (frame le) msgs) ->
  Forall (fun c => blen c <= C)%Z chunks ->
  Forall (fun m => blen m + 3 + C <= PAYLOAD_MAX_LEN)%Z msgs ->
  foldl (on_data le process) (s, []) chunks = (foldl process s msgs, []).
Proof.
  intros Heq Hc Hm.
  assert (Forall (fun m => blen m < 2 ^ 32)%Z msgs) as H32.
  { destruct chunks as [|c chunks].
    - destruct msgs as [|m msgs]; [constructor|]. exfalso. simpl in Heq.
      apply (f_equal length) in Heq. unfold frame in Heq.
      rewrite !length_app, length_Uint32Array_of in Heq. simpl in Heq. lia.
    - eapply Forall_impl; [exact Hm|]. intros m H. simpl in H.
      inversion Hc; subst. assert (0 <= blen c)%Z by (unfold blen; lia).
      unfold PAYLOAD_MAX_LEN in H. lia. }
  apply on_data_stream; [|done|].
  - by apply (fits_frames [] chunks msgs C).
  - simpl. rewrite Heq. clear -H32. induction H32 as [|m l Hm _ IH]; simpl; [by constructor|].
    by apply parses_frame.
Qed.

(** The bytes of one message but for the last chunk are all kept. *)
Lemma partial_frame s m chunks more :
  concat chunks ++ more = frame le m -> more <> [] -> (blen m < 2 ^ 32)%Z ->
  (blen (concat chunks) <= PAYLOAD_MAX_LEN)%Z ->
  foldl (on_data le process) (s, []) chunks = (s, concat chunks).
Proof.
  revert more. induction chunks as [|data chunks IH] using rev_ind; intros more Heq Hmore Hm Hfit; [done|].
  rewrite concat_app in *. simpl in *. rewrite app_nil_r in *.
  assert (parses le (concat chunks ++ data) [] (concat chunks ++ data)) as Hp.
  { destruct (parses_prefix le [m] _ more ltac:(simpl; by rewrite app_nil_r) ltac:(by constructor))
      as (d & rest & l & Hl & Hp & Hrest & _ & _).
    destruct d as [|m' d]; simpl in Hl.
    - inversion Hp; subst. done.
    - injection Hl as <- Hl. symmetry in Hl. apply app_eq_nil in Hl as [-> ->]. simpl in Hrest.
      apply app_eq_nil in Hrest as [_ ?]. done. }
  rewrite foldl_app. simpl. rewrite (IH (data ++ more)).
  - by rewrite (on_data_parses le process _ _ _ _ _ Hfit Hp).
  - by rewrite app_assoc.
  - intros [_ ?]%app_eq_nil. done.
  - done.
  - unfold blen in *. rewrite length_app in Hfit. lia.
Qed.
End framing.

(** C15: framing is lossless: however the frames of a sequence of messages are
    cut into chunks of at most [C] bytes, the handler processes exactly these
    messages, in order, and keeps nothing, as long as a message and one chunk
    fit into the receiving buffer; in both byte orders. *)
Theorem framing_lossless {S} (le : bool) (process : S -> buffer -> S) s msgs chunks C :
  concat chunks = concat (map (frame le) msgs) ->
  Forall (fun c => blen c <= C)%Z chunks ->
  Forall (fun m => blen m + 3 + C <= PAYLOAD_MAX_LEN)%Z msgs ->
  foldl (on_data le process) (s, []) chunks = (foldl process s msgs, []).
Proof. apply framing_chunks. Qed.

(** A message whose length prefix makes it exceed the buffer is dropped
    whole when its last chunk arrives, although the worker may send it: the
    sender's limit MESSAGE_MAX_LEN leaves room for the prefix, the receiving
    buffer (PAYLOAD_MAX_LEN) does not. *)
Theorem maximal_message_lost {S} (le : bool) (process : S -> buffer -> S) s m chunks last_ :
  concat (chunks ++ [last_]) = frame le m ->
  (blen (concat chunks) <= PAYLOAD_MAX_LEN)%Z ->
  (PAYLOAD_MAX_LEN < blen m + 4 <= MESSAGE_MAX_LEN)%Z ->
  foldl (on_data le process) (s, []) (chunks ++ [last_]) = (s, []).
Proof.
  intros Heq Hfit Hm. rewrite concat_app in Heq. simpl in Heq. rewrite app_nil_r in Heq.
  assert (PAYLOAD_MAX_LEN < blen (concat chunks ++ last_))%Z as Hbig.
  { rewrite Heq. unfold frame, blen in *. rewrite length_app, length_Uint32Array_of. lia. }
  rewrite foldl_app. simpl.
  rewrite (partial_frame le process s m chunks last_); [|done| | |done].
  - unfold on_data. cbn [fst snd].
    assert (match concat chunks with [] => last_ | _ => concat chunks ++ last_ end
            = concat chunks ++ last_) as -> by (by destruct (concat chunks)).
    destruct (Z.gtb_spec (blen (concat chunks ++ last_)) PAYLOAD_MAX_LEN); [done|lia].
  - intros ->. rewrite app_nil_r in Hbig. lia.
  - unfold MESSAGE_MAX_LEN in Hm. lia.
Qed.

(** ** Examples *)

Definition example_messages : list buffer := [[x7b; x7d]; []; [x44]].

(** The frames of the example, five bytes at a time. *)
Definition example_chunks (le : bool) : list buffer :=
  let b := concat (map (frame le) example_messages) in
  [take 5 b; take 5 (drop 5 b); drop 10 b].

Lemma framing_lossless_witness :
  foldl (on_data false (fun ms m => ms ++ [m])) ([], []) (example_chunks false)
    = (example_messages, []).
Proof.
  apply (framing_lossless false (fun ms m => ms ++ [m]) [] example_messages (example_chunks false) 10).
  - vm_compute. reflexivity.
  - repeat constructor; vm_compute; discriminate.
  - repeat constructor; vm_compute; discriminate.
Defined.

Lemma maximal_message_lost_witness :
  foldl (on_data true (fun ms m => ms ++ [m])) ([], [])
    ([] ++ [frame true (repeat x20 (Z.to_nat PAYLOAD_MAX_LEN))]) = ([], []).
Proof.
  apply (maximal_message_lost true _ [] (repeat x20 (Z.to_nat PAYLOAD_MAX_LEN)) []).
  - apply app_nil_r.
  - vm_compute. discriminate.
  - unfold blen. rewrite repeat_length, Z2Nat.id by (vm_compute; discriminate).
    split; [reflexivity|]. vm_compute. discriminate.
Defined.
