(* ===== verification/Requests.v ===== *)
(** * Pending requests

    The request bookkeeping Channel.ts and PayloadChannel.ts share: the next
    id, the map [#sents] of pending requests and the closures [resolve],
    [reject] and [close] of its entries.  Promises are identified by the order
    in which they are made; [calls] is the sequence of calls of the functions
    [pResolve] and [pReject] of promises, of which the first one for a promise
    decides its outcome. *)

From S2P Require Import Prelude Js.

Abbreviation promise := nat.

Inductive outcome : Type :=
| Resolved (data : val)
| Rejected (e : error).

Record Sent : Type := mkSent {
  sent_id : Z;
  sent_method : string;
  sent_promise : promise
}.

Record requests : Type := mkRequests {
  nextId : Z;
  sents : list (Z * Sent);
  nextPromise : promise;
  calls : list (promise * outcome)
}.

Definition no_requests : requests := mkRequests 0 [] 0 [].

(** [this.#nextId < 4294967295 ? ++this.#nextId : (this.#nextId = 1)] *)
Definition bump_id (r : requests) : requests :=
  mkRequests (if Z.ltb (nextId r) 4294967295 then nextId r + 1 else 1)
    (sents r) (nextPromise r) (calls r).

(** [new Promise(...)] with the new entry of [#sents]. *)
Definition add_sent (method : string) (r : requests) : requests * promise :=
  let p := nextPromise r in
  (mkRequests (nextId r) (jset (nextId r) (mkSent (nextId r) method p) (sents r))
     (S p) (calls r), p).

(** The closures [resolve] and [reject] of an entry. *)
Definition settle (sent : Sent) (o : outcome) (r : requests) : requests :=
  if negb (jhas (sent_id sent) (sents r)) then r
  else mkRequests (nextId r) (jdel (sent_id sent) (sents r)) (nextPromise r)
         (calls r ++ [(sent_promise sent, o)]).

(** [for (const sent of this.#sents.values()) sent.close();] *)
Definition close_sents (e : error) (r : requests) : requests :=
  mkRequests (nextId r) (sents r) (nextPromise r)
    (calls r ++ map (fun sent => (sent_promise sent, Rejected e)) (jvals (sents r))).

(** [this.#sents.get(msg.id)] *)
Definition find_sent (id : val) (r : requests) : option Sent :=
  match id with VNum n => jget n (sents r) | _ => None end.

(** [new Error(msg.reason)] and the like: the message is empty when there is no
    reason. *)
Definition reason_text (reason : val) : string :=
  match reason with VUndef => "" | v => js_string v end.

Definition response_error (error_ reason : val) : error :=
  match error_ with
  | VStr s => if String.eqb s "TypeError" then TypeError (reason_text reason)
              else PlainError (reason_text reason)
  | _ => PlainError (reason_text reason)
  end.

(** The treatment of a message with an [id]. *)
Definition handle_response (msg : val) (r : requests) : requests :=
  match find_sent (prop "id" msg) r with
  | None => r
  | Some sent =>
      if truthy (prop "accepted" msg) then settle sent (Resolved (prop "data" msg)) r
      else if truthy (prop "error" msg) then
        settle sent (Rejected (response_error (prop "error" msg) (prop "reason" msg))) r
      else r
  end.

(** The outcome of a promise. *)
Definition outcome_of (p : promise) (r : requests) : option outcome :=
  snd <$> List.find (fun c => Nat.eqb c.1 p) (calls r).

(** ** Invariant *)

Definition called (p : promise) (r : requests) : list outcome :=
  snd <$> List.filter (fun c => Nat.eqb c.1 p) (calls r).

Definition pending_promises (r : requests) : list promise :=
  map sent_promise (jvals (sents r)).

(** [n] requests were made, counting those refused, and the ids have not
    wrapped around; [closed] tells whether [close_sents] ran. *)
Record requests_inv (closed : bool) (n : Z) (r : requests) : Prop := {
  inv_nonneg : (0 <= n)%Z;
  inv_id : nextId r = n;
  inv_keys : NoDup (jkeys (sents r));
  inv_sent : forall id s, (id, s) ∈ sents r -> sent_id s = id /\ (1 <= id <= n)%Z;
  inv_pending : NoDup (pending_promises r);
  inv_bound : forall p, p ∈ pending_promises r \/ called p r <> [] -> p < nextPromise r;
  inv_open : closed = false -> forall p, p < nextPromise r ->
    (p ∈ pending_promises r /\ called p r = []) \/
    ((p ∉ pending_promises r) /\ length (called p r) = 1);
  inv_closed : closed = true -> forall p, p < nextPromise r -> called p r <> []
}.

Lemma elem_of_pending p r :
  p ∈ pending_promises r <-> exists id s, (id, s) ∈ sents r /\ sent_promise s = p.
Proof.
  unfold pending_promises. rewrite list_elem_of_In, in_map_iff.
  setoid_rewrite <-list_elem_of_In. setoid_rewrite elem_of_jvals. firstorder.
Qed.

Lemma called_app p r r' l :
  calls r' = calls r ++ l ->
  called p r' = called p r ++ (snd <$> List.filter (fun c => Nat.eqb c.1 p) l).
Proof. intros H. unfold called. by rewrite H, List.filter_app, fmap_app. Qed.

Lemma called_single p q o r r' :
  calls r' = calls r ++ [(q, o)] ->
  called p r' = if decide (p = q) then called p r ++ [o] else called p r.
Proof.
  intros H. rewrite (called_app _ _ _ _ H). simpl.
  destruct (decide (p = q)) as [->|Hne]; [by rewrite Nat.eqb_refl|].
  rewrite (proj2 (Nat.eqb_neq _ _)) by congruence. by rewrite app_nil_r.
Qed.

Lemma no_requests_inv : requests_inv false 0 no_requests.
Proof.
  split; try done.
  - constructor.
  - by intros ? ? ?%elem_of_nil.
  - constructor.
  - intros p [H|H]; [by apply elem_of_nil in H|done].
  - intros _ p Hp. simpl in Hp. lia.
Qed.

Lemma bump_id_range r :
  (0 <= nextId r <= 4294967295)%Z -> (1 <= nextId (bump_id r) <= 4294967295)%Z.
Proof. intros H. unfold bump_id. simpl. destruct (Z.ltb_spec (nextId r) 4294967295); lia. Qed.

Lemma bump_id_inv closed n r :
  (n < 4294967295)%Z -> requests_inv closed n r -> requests_inv closed (n + 1) (bump_id r).
Proof.
  intros Hn H. destruct H. split; try done.
  - lia.
  - unfold bump_id. simpl. rewrite inv_id0. destruct (Z.ltb_spec n 4294967295); lia.
  - intros id s Hs. destruct (inv_sent0 id s Hs). split; [done|lia].
Qed.

Section add.
Context (n : Z) (method : string) (r : requests).
Hypothesis Hinv : requests_inv false n r.
Hypothesis Hn : (n < 4294967295)%Z.

Let r' := (add_sent method (bump_id r)).1.

Lemma add_sent_sents : sents r' = sents r ++ [(n + 1, mkSent (n + 1) method (nextPromise r))%Z].
Proof.
  subst r'. unfold add_sent, bump_id. simpl. rewrite (inv_id _ _ _ Hinv).
  destruct (Z.ltb_spec n 4294967295); [|lia]. apply jset_fresh.
  apply jget_None. intros Hk. unfold jkeys in Hk.
  apply list_elem_of_In, in_map_iff in Hk as ([k s] & Hk & Hin). simpl in Hk. subst k.
  apply list_elem_of_In, (inv_sent _ _ _ Hinv) in Hin. lia.
Qed.

Lemma add_sent_pending : pending_promises r' = pending_promises r ++ [nextPromise r].
Proof. unfold pending_promises, jvals. rewrite add_sent_sents. by rewrite !map_app. Qed.

Lemma called_bounded p : nextPromise r <= p -> called p r = [].
Proof.
  intros Hp. destruct (called p r) eqn:Hc; [done|].
  enough (p < nextPromise r) by lia. apply (inv_bound _ _ _ Hinv). right. by rewrite Hc.
Qed.

Lemma add_sent_inv : requests_inv false (n + 1) r'.
Proof.
  pose proof add_sent_sents as Hs. pose proof add_sent_pending as Hp.
  assert (forall p, called p r' = called p r) as Hc by done.
  assert (nextPromise r ∉ pending_promises r) as Hfresh.
  { intros Hin. assert (nextPromise r < nextPromise r); [|lia].
    apply (inv_bound _ _ _ Hinv). by left. }
  destruct (bump_id_inv _ _ _ Hn Hinv) as [Hnn Hid Hkeys Hsent Hpend Hbound Hopen _]. split.
  - exact Hnn.
  - exact Hid.
  - subst r'. by apply NoDup_jset.
  - intros id s Hin. rewrite Hs in Hin. apply elem_of_app in Hin as [Hin|Hin].
    + by apply Hsent.
    + apply list_elem_of_singleton in Hin. injection Hin as -> ->. simpl.
      split; [done|]. pose proof (inv_nonneg _ _ _ Hinv). lia.
  - rewrite Hp. apply NoDup_app. split; [done|]. split; [|apply NoDup_singleton].
    intros p Hin ->%list_elem_of_singleton. done.
  - intros p. rewrite Hp, Hc, elem_of_app, list_elem_of_singleton. simpl.
    intros [[H| ->]|H]; [|lia|]; (assert (p < nextPromise r); [apply Hbound|lia]); auto.
  - intros _ p Hlt. rewrite Hp, Hc, elem_of_app, list_elem_of_singleton. simpl in Hlt.
    destruct (decide (p = nextPromise r)) as [->|Hne].
    + left. split; [by right|]. by apply called_bounded.
    + destruct (Hopen eq_refl p ltac:(simpl; lia)) as [[? ?]|[? ?]]; [left|right]; split; auto.
      intros [?|?]; auto.
  - done.
Qed.
End add.

(** A promise is pending under one id only. *)
Lemma pending_inj closed n r id id' s s' :
  requests_inv closed n r -> (id, s) ∈ sents r -> (id', s') ∈ sents r ->
  sent_promise s = sent_promise s' -> id = id'.
Proof.
  intros H Hs Hs' Heq. pose proof (inv_pending _ _ _ H) as Hp.
  destruct (inv_sent _ _ _ H _ _ Hs) as [Hi _]. destruct (inv_sent _ _ _ H _ _ Hs') as [Hi' _].
  enough (s = s') by congruence.
  unfold pending_promises, jvals in Hp. rewrite map_map in Hp. clear H.
  induction (sents r) as [|[k t] m IH]; simpl in *; [by apply elem_of_nil in Hs|].
  apply NoDup_cons in Hp as [Hnot Hp].
  assert (forall k x, (k, x) ∈ m -> sent_promise t <> sent_promise x) as Hne.
  { intros k' x Hx Hxe. apply Hnot. rewrite Hxe. apply list_elem_of_In, in_map_iff.
    exists (k', x). split; [done|]. by apply list_elem_of_In. }
  apply elem_of_cons in Hs as [[= -> ->]|Hs], Hs' as [[= -> ->]|Hs'];
    [done|exfalso; by eapply Hne|exfalso; by eapply Hne|auto].
Qed.

Lemma settle_inv closed n r id sent o :
  requests_inv closed n r -> jget id (sents r) = Some sent ->
  requests_inv closed n (settle sent o r).
Proof.
  intros Hinv Hget. pose proof Hinv as [Hnn Hid Hkeys Hsent Hpend Hbound Hopen Hclosed].
  apply jget_Some_elem in Hget as Hin. destruct (Hsent _ _ Hin) as [Hsid _].
  unfold settle. rewrite Hsid. unfold jhas. rewrite Hget. simpl.
  set (r1 := mkRequests _ _ _ _).
  assert (forall p, called p r1 = if decide (p = sent_promise sent) then called p r ++ [o] else called p r)
    as Hc by (intros p; by apply called_single).
  assert (forall p, p ∈ pending_promises r1 <-> p ∈ pending_promises r /\ p <> sent_promise sent) as Hp.
  { intros p. rewrite !elem_of_pending. unfold r1. simpl. setoid_rewrite elem_of_jdel. split.
    - intros (id' & s & [Hs Hne] & <-). split; [by exists id', s|].
      intros Heq. apply Hne. eapply pending_inj; eauto.
    - intros ((id' & s & Hs & <-) & Hne). exists id', s. split; [|done]. split; [done|].
      intros ->. apply Hne. f_equal. apply (elem_of_jget _ _ _ Hkeys) in Hs. congruence. }
  assert (sent_promise sent ∈ pending_promises r) as Hpin by (apply elem_of_pending; by exists id, sent).
  split; try done.
  - by apply NoDup_jdel.
  - intros id' s Hs. apply elem_of_jdel in Hs as [Hs _]. by apply Hsent.
  - unfold pending_promises, jvals, r1. simpl. eapply sublist_NoDup; [exact Hpend|].
    apply fmap_sublist, fmap_sublist, jdel_sublist.
  - intros p. rewrite Hp, Hc. intros [[H _]|H]; [apply Hbound; by left|].
    destruct (decide (p = sent_promise sent)) as [->|]; apply Hbound; auto.
  - intros Hcl p Hlt. rewrite Hp, Hc. destruct (decide (p = sent_promise sent)) as [->|Hne].
    + right. split; [by intros [_ ?]|]. destruct (Hopen Hcl _ Hlt) as [[_ ->]|[? _]]; done.
    + destruct (Hopen Hcl _ Hlt) as [[? ?]|[? ?]]; [left|right]; split; auto. by intros [? _].
  - intros Hcl p Hlt. rewrite Hc. specialize (Hclosed Hcl p Hlt).
    destruct (decide _); [|done]. by intros [? _]%app_eq_nil.
Qed.

Lemma handle_response_inv closed n r msg :
  requests_inv closed n r -> requests_inv closed n (handle_response msg r).
Proof.
  intros Hinv. unfold handle_response, find_sent. destruct (prop "id" msg); try done.
  destruct (jget _ _) as [sent|] eqn:Hget; [|done].
  destruct (truthy (prop "accepted" msg)); [by eapply settle_inv|].
  destruct (truthy (prop "error" msg)); [by eapply settle_inv|done].
Qed.

Lemma close_sents_inv n r e :
  requests_inv false n r -> requests_inv true n (close_sents e r).
Proof.
  intros [Hnn Hid Hkeys Hsent Hpend Hbound Hopen _]. set (r1 := close_sents e r).
  assert (forall p, called p r1 = called p r ++
    (snd <$> List.filter (fun c => Nat.eqb c.1 p)
      (map (fun sent => (sent_promise sent, Rejected e)) (jvals (sents r))))) as Hc
    by (intros p; by apply called_app).
  assert (forall p, p ∈ pending_promises r -> called p r1 <> []) as Hcalled.
  { intros p Hp. rewrite Hc. intros [_ H]%app_eq_nil. apply fmap_nil_inv in H.
    unfold pending_promises in Hp. apply list_elem_of_In, in_map_iff in Hp as (s & Hs & Hin).
    assert ((sent_promise s, Rejected e) ∈ @nil (promise * outcome)) as He; [|by apply elem_of_nil in He].
    rewrite <-H. apply list_elem_of_In, filter_In. simpl. rewrite Hs, Nat.eqb_refl.
    split; [|done]. apply in_map_iff. exists s. split; [by rewrite Hs|done]. }
  split; try done.
  - intros p [H|H]; [apply Hbound; by left|]. rewrite Hc in H.
    destruct (called p r) eqn:Hcp; [|apply Hbound; right; by rewrite Hcp]. simpl in H.
    apply Hbound. left. unfold pending_promises.
    destruct (List.filter _ _) as [|[q o] l] eqn:Hf; [done|].
    assert ((q, o) ∈ List.filter (fun c : promise * outcome => Nat.eqb c.1 p)
      (map (fun sent => (sent_promise sent, Rejected e)) (jvals (sents r)))) as Hin by (rewrite Hf; by left).
    apply list_elem_of_In, filter_In in Hin as [Hin Hq]. simpl in Hq. apply Nat.eqb_eq in Hq as ->.
    apply in_map_iff in Hin as (s & [= <- <-] & Hin). apply list_elem_of_In, in_map_iff. by exists s.
  - intros _ p Hlt. destruct (Hopen eq_refl p Hlt) as [[Hp _]|[_ Hl]]; [by apply Hcalled|].
    rewrite Hc. intros [H _]%app_eq_nil. by rewrite H in Hl.
Qed.

Lemma called_length p r : called p r <> [] -> is_Some (outcome_of p r).
Proof.
  unfold called, outcome_of. intros H. apply fmap_is_Some.
  induction (calls r) as [|[q o] l IH]; simpl in *; [done|].
  destruct (Nat.eqb q p); [by eexists|auto].
Qed.

Lemma called_none p r : called p r = [] -> outcome_of p r = None.
Proof.
  unfold called, outcome_of. intros H. apply fmap_None.
  induction (calls r) as [|[q o] l IH]; simpl in *; [done|].
  destruct (Nat.eqb q p); [done|auto].
Qed.

Lemma outcome_of_first p r o n s k :
  called p r = [] -> outcome_of p (mkRequests n s k (calls r ++ [(p, o)])) = Some o.
Proof.
  unfold called, outcome_of. simpl. intros H.
  induction (calls r) as [|[q o'] l IH]; simpl in *; [by rewrite Nat.eqb_refl|].
  destruct (Nat.eqb q p); [done|auto].
Qed.

Lemma outcome_of_other p q r o n s k :
  p <> q -> outcome_of p (mkRequests n s k (calls r ++ [(q, o)])) = outcome_of p r.
Proof.
  unfold outcome_of. simpl. intros H.
  induction (calls r) as [|[q' o'] l IH]; simpl in *.
  - by rewrite (proj2 (Nat.eqb_neq _ _)) by congruence.
  - by destruct (Nat.eqb q' p).
Qed.

(** What settling a pending request does. *)
Lemma settle_pending n r id sent o :
  requests_inv false n r -> jget id (sents r) = Some sent ->
  outcome_of (sent_promise sent) (settle sent o r) = Some o /\
  (forall p, p <> sent_promise sent -> outcome_of p (settle sent o r) = outcome_of p r) /\
  sents (settle sent o r) = jdel id (sents r).
Proof.
  intros Hinv Hget. pose proof (jget_Some_elem _ _ _ Hget) as Hin.
  destruct (inv_sent _ _ _ Hinv _ _ Hin) as [Hsid _].
  assert (called (sent_promise sent) r = []) as Hnone.
  { assert (sent_promise sent ∈ pending_promises r) as Hp by (apply elem_of_pending; by exists id, sent).
    pose proof (inv_bound _ _ _ Hinv _ (or_introl Hp)) as Hlt.
    destruct (inv_open _ _ _ Hinv eq_refl _ Hlt) as [[_ ?]|[? _]]; done. }
  unfold settle. rewrite Hsid. unfold jhas. rewrite Hget. simpl.
  split_and!; [by apply outcome_of_first|intros p Hp; by apply outcome_of_other|done].
Qed.

(** The kind of an error is the one the worker names. *)
Lemma response_error_spec e reason :
  (e = VStr "TypeError" -> response_error e reason = TypeError (reason_text reason)) /\
  (e <> VStr "TypeError" -> response_error e reason = PlainError (reason_text reason)).
Proof.
  split; [by intros ->|]. destruct e as [| | | |s| |]; try done. intros He. simpl.
  destruct (String.eqb_spec s "TypeError") as [->|]; done.
Qed.
