(* ===== verification/Channel.v ===== *)
(** * Channel.ts

    The channel to the worker process: requests with their pending promises,
    the 'data' handler and [processMessage], deferred notifications and
    [close].  The state is the record [channel] together with the receiving
    buffer; what the instance writes to the socket, emits and logs on behalf of
    the worker is part of the state. *)

From S2P Require Import Prelude Js Framing Requests.

(** [JSON.parse(payload.toString('utf8'))]; it throws on other text. *)
Class JSON : Type := JSON_parse : buffer -> result val.

Record notification : Type := mkNotification {
  targetId : string;
  event : val;
  data : val
}.

(** The lines of the worker's log, by their first character. *)
Inductive log_level : Type := Debug | Warn | LogError | Dump | Unexpected.

Record channel : Type := mkChannel {
  closed : bool;
  pending : requests;                   (* #nextId and #sents *)
  written : list buffer;                (* writes to the producer socket *)
  immediates : list notification;       (* setImmediate() callbacks not run yet *)
  emitted : list notification;
  logged : list (log_level * buffer);
  destroy_timer : bool                  (* sockets are destroyed after a while *)
}.

Definition new_channel : channel := mkChannel false no_requests [] [] [] [] false.

Definition with_pending (r : requests) (c : channel) : channel :=
  mkChannel (closed c) r (written c) (immediates c) (emitted c) (logged c) (destroy_timer c).
Definition write (b : buffer) (c : channel) : channel :=
  mkChannel (closed c) (pending c) (written c ++ [b]) (immediates c) (emitted c) (logged c)
    (destroy_timer c).
Definition set_immediate (n : notification) (c : channel) : channel :=
  mkChannel (closed c) (pending c) (written c) (immediates c ++ [n]) (emitted c) (logged c)
    (destroy_timer c).
Definition log_line (l : log_level) (b : buffer) (c : channel) : channel :=
  mkChannel (closed c) (pending c) (written c) (immediates c) (emitted c) (logged c ++ [(l, b)])
    (destroy_timer c).

Definition channel_closed : error := InvalidStateError "Channel closed".

(** A string in a template literal, where [undefined] is spelled out, as the
    bytes of its UTF-8 encoding. *)
Definition or_undefined (s : option string) : string := default "undefined" s.

Definition request_text (id : Z) (method : string) (handlerId : option string) (data : val) : buffer :=
  String.list_byte_of_string (pretty id +:+ ":" +:+ method +:+ ":" +:+ or_undefined handlerId +:+ ":" +:+
    or_undefined (stringify data)).

Section channel.
Context (littleEndian : bool) `{JSON}.

(** [w1] and [w2] are what the two socket writes throw, if they do.  The
    result is the promise returned, or the error an already rejected promise
    is returned with. *)
Definition request (w1 w2 : option error) (method : string) (handlerId : option string)
    (data : val) (c : channel) : channel * result promise :=
  let c := with_pending (bump_id (pending c)) c in
  let id := nextId (pending c) in
  if closed c then (c, Err channel_closed)
  else
    let text := request_text id method handlerId data in
    if Z.gtb (blen text) MESSAGE_MAX_LEN then (c, Err (PlainError "Channel request too big"))
    else match w1 with
    | Some e => (c, Err e)
    | None =>
        let c := write (Uint32Array_of littleEndian (blen text)) c in
        match w2 with
        | Some e => (c, Err e)
        | None =>
            let c := write text c in
            let '(r, p) := add_sent method (pending c) in
            (with_pending r c, Ok p)
        end
    end.

Definition processMessage (msg : val) (c : channel) : channel :=
  if truthy (prop "id" msg) then with_pending (handle_response msg (pending c)) c
  else if truthy (prop "targetId" msg) && truthy (prop "event" msg) then
    set_immediate (mkNotification (js_string (prop "targetId" msg)) (prop "event" msg)
                     (prop "data" msg)) c
  else c.

(** The [switch (payload\[0\])] of the 'data' handler.  Errors thrown by
    [JSON.parse], and by property accesses on [null], are caught. *)
Definition receive (c : channel) (payload : buffer) : channel :=
  match payload with
  | x7b :: _ =>
      match JSON_parse payload with
      | Ok VNull | Ok VUndef | Err _ => c
      | Ok msg => processMessage msg c
      end
  | x44 :: text => log_line Debug text c
  | x57 :: text => log_line Warn text c
  | x45 :: text => log_line LogError text c
  | x58 :: text => log_line Dump text c
  | _ => log_line Unexpected (drop 1 payload) c
  end.

(** The 'data' handler on the channel and its receiving buffer. *)
Definition on_channel_data (st : channel * buffer) (data : buffer) : channel * buffer :=
  on_data littleEndian receive st data.

(** The callback of [setImmediate()] emits the notification. *)
Definition run_immediate (c : channel) : channel :=
  match immediates c with
  | [] => c
  | n :: rest => mkChannel (closed c) (pending c) (written c) rest (emitted c ++ [n])
                   (logged c) (destroy_timer c)
  end.

Definition close (c : channel) : channel :=
  if closed c then c
  else mkChannel true (close_sents channel_closed (pending c)) (written c) (immediates c)
         (emitted c) (logged c) true.
End channel.

(** ** The channel as a transition system *)

Section steps.
Context (le : bool) `{JSON}.

(** What happens to a channel: a request is made, a chunk arrives, a deferred
    callback runs, the channel is closed. *)
Inductive input : Type :=
| Irequest (w1 w2 : option error) (method : string) (handlerId : option string) (data : val)
| Idata (data : buffer)
| Iimmediate
| Iclose.

Definition step (st : channel * buffer) (i : input) : channel * buffer :=
  match i with
  | Irequest w1 w2 method handlerId data =>
      ((request le w1 w2 method handlerId data st.1).1, st.2)
  | Idata data => on_channel_data le st data
  | Iimmediate => (run_immediate st.1, st.2)
  | Iclose => (close st.1, st.2)
  end.

Definition run (inputs : list input) : channel * buffer := foldl step (new_channel, []) inputs.

Definition is_request (i : input) : bool := match i with Irequest _ _ _ _ _ => true | _ => false end.
Definition requests_made (inputs : list input) : Z :=
  Z.of_nat (length (List.filter is_request inputs)).
End steps.

(** ** Invariants *)

Lemma on_data_inv {S} le (process : S -> buffer -> S) (P : S -> Prop) st d :
  (forall s b, P s -> P (process s b)) -> P st.1 -> P (on_data le process st d).1.
Proof.
  intros Hp Hs. unfold on_data. destruct (_ >? _)%Z; [done|].
  set (b := match st.2 with [] => d | _ => _ end). clearbody b.
  assert (forall fuel s n, P s -> P (read_loop le process fuel s b n).1) as Hl.
  { induction fuel as [|fuel IH]; intros s n H; simpl; [done|].
    destruct (_ <? 4)%Z; [done|]. destruct (_ <? _)%Z; [done|]. apply IH. by apply Hp. }
  specialize (Hl (Datatypes.S (length b)) st.1 0 Hs).
  by destruct (read_loop le process _ _ _ _).
Qed.

Section channel_inv.
Context (le : bool) `{JSON}.

Definition channel_inv (n : Z) (c : channel) : Prop := requests_inv (closed c) n (pending c).

Lemma receive_inv n c payload : channel_inv n c -> channel_inv n (receive c payload).
Proof.
  intros Hc. assert (forall msg, channel_inv n (processMessage msg c)) as Hmsg.
  { intros msg. unfold processMessage. destruct (truthy _); [by apply handle_response_inv|].
    by destruct (_ && _). }
  unfold receive. destruct payload as [|b text]; [done|].
  destruct b; try done. destruct (JSON_parse _) as [[]|]; try done; apply Hmsg.
Qed.

Lemma request_inv n w1 w2 method handlerId data c :
  (n < 4294967295)%Z -> channel_inv n c ->
  channel_inv (n + 1) (request le w1 w2 method handlerId data c).1.
Proof.
  intros Hn Hc. unfold request, channel_inv in *. simpl.
  destruct (closed c) eqn:Hcl; simpl; rewrite ?Hcl.
  - by apply bump_id_inv.
  - destruct (_ >? _)%Z; simpl; [rewrite Hcl; by apply bump_id_inv|].
    destruct w1; simpl; [rewrite Hcl; by apply bump_id_inv|].
    destruct w2; simpl; [rewrite Hcl; by apply bump_id_inv|].
    rewrite Hcl. by apply (add_sent_inv n method (pending c)).
Qed.

Lemma step_inv n st i :
  (is_request i = true -> n < 4294967295)%Z -> channel_inv n st.1 ->
  channel_inv (if is_request i then n + 1 else n)%Z (step le st i).1.
Proof.
  intros Hn Hst. destruct i; simpl in *.
  - apply request_inv; auto.
  - unfold on_channel_data. apply on_data_inv; [|done]. intros c b. apply receive_inv.
  - unfold run_immediate. by destruct (immediates st.1).
  - unfold close. destruct (closed st.1) eqn:Hcl; [done|]. unfold channel_inv in *. simpl.
    rewrite Hcl in Hst. by apply close_sents_inv.
Qed.

Lemma run_inv inputs :
  (requests_made inputs <= 4294967295)%Z ->
  channel_inv (requests_made inputs) (run le inputs).1.
Proof.
  unfold run, requests_made. induction inputs as [|i inputs IH] using rev_ind; intros Hn.
  - apply no_requests_inv.
  - rewrite foldl_app, List.filter_app, length_app in *. simpl in *.
    set (n := length (List.filter is_request inputs)) in *.
    replace (Z.of_nat _) with (if is_request i then Z.of_nat n + 1 else Z.of_nat n)%Z
      by (destruct (is_request i); simpl; lia).
    apply step_inv; [intros Hi; rewrite Hi in Hn; simpl in Hn; lia|].
    apply IH. destruct (is_request i); simpl in Hn; lia.
Qed.

(** Calls of promise functions are never undone. *)
Lemma settle_calls sent o r : exists l, calls (settle sent o r) = calls r ++ l.
Proof.
  unfold settle. destruct (negb _); [exists []; by rewrite app_nil_r|by eexists].
Qed.

Lemma processMessage_calls msg c :
  exists l, calls (pending (processMessage msg c)) = calls (pending c) ++ l.
Proof.
  assert (exists l, calls (pending c) = calls (pending c) ++ l) as Hrefl
    by (exists []; by rewrite app_nil_r).
  unfold processMessage, handle_response. destruct (truthy _); simpl; [|by destruct (_ && _)].
  destruct (find_sent _ _); [|done].
  destruct (truthy _); [apply settle_calls|]. destruct (truthy _); [apply settle_calls|done].
Qed.

Lemma receive_calls c payload :
  exists l, calls (pending (receive c payload)) = calls (pending c) ++ l.
Proof.
  assert (exists l, calls (pending c) = calls (pending c) ++ l) as Hrefl
    by (exists []; by rewrite app_nil_r).
  unfold receive. destruct payload as [|b text]; [done|].
  destruct b; try done. destruct (JSON_parse _) as [[]|]; try done; apply processMessage_calls.
Qed.

Lemma step_calls st i : exists l, calls (pending (step le st i).1) = calls (pending st.1) ++ l.
Proof.
  assert (exists l, calls (pending st.1) = calls (pending st.1) ++ l) as Hrefl
    by (exists []; by rewrite app_nil_r).
  destruct i; simpl.
  - unfold request. simpl. destruct (closed st.1); [done|]. destruct (_ >? _)%Z; [done|].
    destruct w1; [done|]. by destruct w2.
  - unfold on_channel_data.
    apply (on_data_inv le receive (fun c => exists l, calls (pending c) = calls (pending st.1) ++ l));
      [|done].
    intros c b [l Hl]. destruct (receive_calls c b) as [k Hk]. exists (l ++ k).
    by rewrite Hk, Hl, app_assoc.
  - unfold run_immediate. by destruct (immediates st.1).
  - unfold close. destruct (closed st.1); [done|]. simpl. by eexists.
Qed.

Lemma outcome_of_app p r r' l o :
  calls r' = calls r ++ l -> outcome_of p r = Some o -> outcome_of p r' = Some o.
Proof.
  unfold outcome_of. intros -> Ho. apply fmap_Some in Ho as (c & Hc & ->).
  by rewrite (find_app_first _ _ _ _ Hc).
Qed.

Lemma steps_outcome st inputs p o :
  outcome_of p (pending st.1) = Some o ->
  outcome_of p (pending (foldl (step le) st inputs).1) = Some o.
Proof.
  revert st. induction inputs as [|i inputs IH]; intros st Hst; simpl; [done|].
  apply IH. destruct (step_calls st i) as [l Hl]. by eapply outcome_of_app.
Qed.

Lemma step_closed st i : closed st.1 = true -> closed (step le st i).1 = true.
Proof.
  intros Hc. destruct i; simpl.
  - unfold request. simpl. by rewrite Hc.
  - unfold on_channel_data. apply on_data_inv; [|done]. intros c b Hcl.
    assert (forall msg, closed (processMessage msg c) = true) as Hm.
    { intros msg. unfold processMessage. destruct (truthy _); [done|]. by destruct (_ && _). }
    unfold receive. destruct b as [|b text]; [done|].
    destruct b; try done. destruct (JSON_parse _) as [[]|]; try done; apply Hm.
  - unfold run_immediate. by destruct (immediates st.1).
  - unfold close. by rewrite Hc.
Qed.

Lemma steps_closed st inputs :
  closed st.1 = true -> closed (foldl (step le) st inputs).1 = true.
Proof.
  revert st. induction inputs as [|i inputs IH]; intros st Hst; simpl; [done|].
  apply IH. by apply step_closed.
Qed.

(** Ids stay 32-bit, whatever happens. *)
Lemma receive_nextId c payload : nextId (pending (receive c payload)) = nextId (pending c).
Proof.
  assert (forall msg, nextId (pending (processMessage msg c)) = nextId (pending c)) as Hm.
  { intros msg. unfold processMessage, handle_response, settle.
    destruct (truthy _); simpl; [|by destruct (_ && _)].
    destruct (find_sent _ _); [|done]. destruct (truthy _); [by destruct (negb _)|].
    destruct (truthy _); [by destruct (negb _)|done]. }
  unfold receive. destruct payload as [|b text]; [done|].
  destruct b; try done. destruct (JSON_parse _) as [[]|]; try done; apply Hm.
Qed.

Lemma run_nextId inputs : (0 <= nextId (pending (run le inputs).1) <= 4294967295)%Z.
Proof.
  unfold run. induction inputs as [|i inputs IH] using rev_ind; [simpl; lia|].
  rewrite foldl_app. simpl. set (st := foldl (step le) _ inputs) in *.
  destruct i; simpl.
  - pose proof (bump_id_range _ IH) as Hb. unfold request. simpl in *.
    destruct (closed st.1); simpl; [lia|]. destruct (_ >? _)%Z; simpl; [lia|].
    destruct w1; simpl; [lia|]. destruct w2; simpl; lia.
  - unfold on_channel_data.
    apply (on_data_inv le receive (fun c => 0 <= nextId (pending c) <= 4294967295)%Z); [|done].
    intros c b. by rewrite receive_nextId.
  - unfold run_immediate. by destruct (immediates st.1).
  - unfold close. by destruct (closed st.1).
Qed.
End channel_inv.

(** ** Properties *)

(** The notification of a payload, if it is one. *)
Definition notification_of `{JSON} (payload : buffer) : option notification :=
  match payload with
  | x7b :: _ =>
      match JSON_parse payload with
      | Ok msg =>
          if negb (truthy (prop "id" msg)) && truthy (prop "targetId" msg) && truthy (prop "event" msg)
          then Some (mkNotification (js_string (prop "targetId" msg)) (prop "event" msg) (prop "data" msg))
          else None
      | Err _ => None
      end
  | _ => None
  end.

Lemma receive_immediates `{JSON} c payload :
  immediates (receive c payload) = immediates c ++ option_list (notification_of payload) /\
  emitted (receive c payload) = emitted c.
Proof.
  assert (immediates c = immediates c ++ []) as Hnil by (by rewrite app_nil_r).
  unfold receive, notification_of. destruct payload as [|b text]; [done|].
  destruct b; try done. destruct (JSON_parse _) as [msg|]; [|done].
  assert (immediates (processMessage msg c) = immediates c ++ option_list
    (if negb (truthy (prop "id" msg)) && truthy (prop "targetId" msg) && truthy (prop "event" msg)
     then Some (mkNotification (js_string (prop "targetId" msg)) (prop "event" msg) (prop "data" msg))
     else None) /\ emitted (processMessage msg c) = emitted c) as Hm.
  { unfold processMessage. destruct (truthy (prop "id" msg)); simpl; [done|].
    by destruct (truthy (prop "targetId" msg) && truthy (prop "event" msg)). }
  by destruct msg.
Qed.

(** C1: no promise is lost or settled twice: after any sequence of requests,
    chunks, deferred callbacks and closes (with at most 2^32 - 1 requests, so
    that ids have not been reused), every promise of an open channel either is
    pending, with none of its functions called, or is no longer pending and had
    exactly one of them called once; every promise of a closed channel is
    settled. *)
Theorem channel_promises_settle_once (le : bool) `{JSON} inputs :
  (requests_made inputs <= 4294967295)%Z ->
  let c := (run le inputs).1 in
  forall p, p < nextPromise (pending c) ->
  if closed c then is_Some (outcome_of p (pending c))
  else (p ∈ pending_promises (pending c) /\ outcome_of p (pending c) = None) \/
       ((p ∉ pending_promises (pending c)) /\ exists o, called p (pending c) = [o]).
Proof.
  intros Hn c p Hp. pose proof (run_inv le inputs Hn) as Hinv. unfold channel_inv in Hinv. fold c in Hinv.
  destruct (closed c) eqn:Hcl.
  - apply called_length. by apply (inv_closed _ _ _ Hinv).
  - destruct (inv_open _ _ _ Hinv eq_refl p Hp) as [[? Hnil]|[? Hone]].
    + left. split; [done|]. by apply called_none.
    + right. split; [done|]. destruct (called p (pending c)) as [|o [|]]; [done| |done]. by exists o.
Qed.

(** The outcome of a promise is final, and closing is: whatever happens
    afterwards a settled promise keeps its outcome and a closed channel stays
    closed and refuses every request. *)
Theorem channel_outcomes_final (le : bool) `{JSON} st inputs p o :
  outcome_of p (pending st.1) = Some o -> closed st.1 = true ->
  let st' := foldl (step le) st inputs in
  outcome_of p (pending st'.1) = Some o /\ closed st'.1 = true /\
  forall w1 w2 method handlerId data,
    (request le w1 w2 method handlerId data st'.1).2 = Err channel_closed.
Proof.
  intros Ho Hc st'. split; [by apply steps_outcome|].
  assert (closed st'.1 = true) as Hc' by (by apply steps_closed).
  split; [done|]. intros. unfold request. simpl. by rewrite Hc'.
Qed.

(** A response settles the promise of the request with its id and no
    other: with its data when accepted, with an error of the kind and the text
    it names otherwise; and the request is no longer pending. *)
Theorem response_settles_its_request `{JSON} n c msg id sent :
  channel_inv n c -> closed c = false ->
  prop "id" msg = VNum id -> jget id (sents (pending c)) = Some sent ->
  truthy (prop "accepted" msg) = true \/ truthy (prop "error" msg) = true ->
  let c' := processMessage msg c in
  let reason := reason_text (prop "reason" msg) in
  (truthy (prop "accepted" msg) = true ->
     outcome_of (sent_promise sent) (pending c') = Some (Resolved (prop "data" msg))) /\
  (truthy (prop "accepted" msg) = false -> prop "error" msg = VStr "TypeError" ->
     outcome_of (sent_promise sent) (pending c') = Some (Rejected (TypeError reason))) /\
  (truthy (prop "accepted" msg) = false -> prop "error" msg <> VStr "TypeError" ->
     outcome_of (sent_promise sent) (pending c') = Some (Rejected (PlainError reason))) /\
  (forall p, p <> sent_promise sent -> outcome_of p (pending c') = outcome_of p (pending c)) /\
  sents (pending c') = jdel id (sents (pending c)).
Proof.
  intros Hinv Hcl Hid Hget Hac c' reason. unfold channel_inv in Hinv. rewrite Hcl in Hinv.
  pose proof (jget_Some_elem _ _ _ Hget) as Hin.
  destruct (inv_sent _ _ _ Hinv _ _ Hin) as [Hsid Hrange].
  pose proof (fun o => settle_pending _ _ _ _ o Hinv Hget) as Hs.
  destruct (response_error_spec (prop "error" msg) (prop "reason" msg)) as [Ht Hp].
  subst c'. unfold processMessage, handle_response. rewrite Hid. simpl.
  destruct (Z.eqb_spec id 0); [lia|]. simpl. rewrite Hget.
  destruct (truthy (prop "accepted" msg)); [destruct (Hs (Resolved (prop "data" msg))) as (? & ? & ?); by split_and!|].
  destruct Hac as [?| ->]; [done|].
  destruct (Hs (Rejected (response_error (prop "error" msg) (prop "reason" msg)))) as (Ho & ? & ?).
  split_and!; try done; intros _ He; rewrite Ho; [by rewrite Ht|by rewrite Hp].
Qed.

(** Bounds: whatever happens, and however often ids wrap around, the next
    id is a 32-bit number, and the id of a request is not 0 (a response with
    id 0 would not be recognised). *)
Theorem channel_ids_bounded (le : bool) `{JSON} inputs :
  let r := pending (run le inputs).1 in
  (0 <= nextId r <= 4294967295)%Z /\ (1 <= nextId (bump_id r) <= 4294967295)%Z.
Proof. split; [apply run_nextId|]. apply bump_id_range, run_nextId. Qed.

(** End to end: messages of the worker cut into arbitrary chunks are all
    received, in order, and their notifications are queued in the order they
    were sent. *)
Theorem channel_delivers_in_order (le : bool) `{JSON} c msgs chunks C :
  concat chunks = concat (map (frame le) msgs) ->
  Forall (fun b => blen b <= C)%Z chunks ->
  Forall (fun m => blen m + 3 + C <= PAYLOAD_MAX_LEN)%Z msgs ->
  exists c', foldl (on_channel_data le) (c, []) chunks = (c', []) /\
    c' = foldl receive c msgs /\
    immediates c' = immediates c ++ omap notification_of msgs /\ emitted c' = emitted c.
Proof.
  intros H1 H2 H3. exists (foldl receive c msgs).
  split; [by apply (framing_chunks le receive c msgs chunks C)|]. split; [done|].
  clear. revert c. induction msgs as [|m msgs IH]; intros c; simpl; [by rewrite app_nil_r|].
  destruct (receive_immediates c m) as [Hi He]. destruct (IH (receive c m)) as [-> ->].
  rewrite Hi, He, <-app_assoc. by destruct (notification_of m).
Qed.

(** ** Examples *)

(** A response and a notification, with the parser that knows their texts. *)
Definition example_response : val :=
  VObj [("id", VNum 1); ("accepted", VBool true); ("data", VObj [("type", VStr "simple")])].
Definition example_rejection : val :=
  VObj [("id", VNum 2); ("error", VStr "TypeError"); ("reason", VStr "wrong")].
Definition example_notification : val :=
  VObj [("targetId", VNum 7); ("event", VStr "close")].

Definition text_of (v : val) : buffer := String.list_byte_of_string (or_undefined (stringify v)).

Definition example_json : JSON := fun payload =>
  match List.find (fun v => bool_decide (text_of v = payload))
          [example_response; example_rejection; example_notification] with
  | Some v => Ok v
  | None => Err (PlainError "Unexpected token")
  end.

(** Two requests, then the response, the notification and the rejection, cut
    in the middle of the notification. *)
Definition example_stream : buffer :=
  frame true (text_of example_response) ++ frame true (text_of example_notification) ++
  frame true (text_of example_rejection).

Definition example_inputs : list input :=
  [Irequest None None "worker.createRouter" None VUndef;
   Irequest None None "router.close" (Some "r1") (VObj [("n", VNum 3)]);
   Idata (take 70 example_stream); Idata (drop 70 example_stream); Iimmediate].

Example example_run :
  let c := (@run true example_json example_inputs).1 in
  calls (pending c) = [(0, Resolved (VObj [("type", VStr "simple")])); (1, Rejected (TypeError "wrong"))] /\
  emitted c = [mkNotification "7" (VStr "close") VUndef] /\
  nth 3 (written c) [] = String.list_byte_of_string
    ("2:router.close:r1:{" +:+ quote "n" +:+ ":3}").
Proof. vm_compute. done. Qed.

Lemma channel_promises_settle_once_witness :
  ((1 ∉ pending_promises (pending (@run true example_json example_inputs).1)) /\
   exists o, called 1 (pending (@run true example_json example_inputs).1) = [o]).
Proof.
  pose proof (@channel_promises_settle_once true example_json example_inputs
    ltac:(vm_compute; discriminate) 1 ltac:(vm_compute; lia)) as H.
  cbv zeta in H. destruct (closed _) eqn:Hc; [vm_compute in Hc; discriminate|].
  destruct H as [[_ H]|H]; [vm_compute in H; discriminate|exact H].
Defined.

Lemma channel_outcomes_final_witness :
  outcome_of 0 (pending (foldl (@step true example_json)
    (@run true example_json [Irequest None None "worker.dump" None VUndef; Iclose])
    [Idata (frame true (text_of example_response))]).1)
  = Some (Rejected channel_closed).
Proof.
  apply (@channel_outcomes_final true example_json
    (@run true example_json [Irequest None None "worker.dump" None VUndef; Iclose]));
    vm_compute; reflexivity.
Defined.

Lemma response_settles_its_request_witness :
  let c := (@run true example_json [Irequest None None "worker.dump" None VUndef]).1 in
  outcome_of 0 (pending (processMessage example_response c)) =
    Some (Resolved (VObj [("type", VStr "simple")])).
Proof.
  intros c.
  assert (requests_made [Irequest None None "worker.dump" None VUndef] <= 4294967295)%Z as Hn
    by (vm_compute; discriminate).
  destruct (@response_settles_its_request example_json _ c example_response 1
    (mkSent 1 "worker.dump" 0) (@run_inv true example_json _ Hn)) as [H _];
    [reflexivity..|by left|apply H; reflexivity].
Defined.

Lemma channel_delivers_in_order_witness :
  exists c', foldl (@on_channel_data true example_json) (new_channel, [])
      [take 70 example_stream; drop 70 example_stream] = (c', []) /\
    immediates c' = [mkNotification "7" (VStr "close") VUndef].
Proof.
  destruct (@channel_delivers_in_order true example_json new_channel
    [text_of example_response; text_of example_notification; text_of example_rejection]
    [take 70 example_stream; drop 70 example_stream] 100) as (c' & H1 & _ & H2 & _).
  - vm_compute. reflexivity.
  - repeat constructor; vm_compute; discriminate.
  - repeat constructor; vm_compute; discriminate.
  - exists c'. split; [exact H1|]. rewrite H2. vm_compute. reflexivity.
Defined.
