(* ===== verification/EventLoop.v ===== *)
(** * The order in which an application sees messages

    The promise of a request is settled while a chunk of the channel is
    processed, but what awaits it runs when the event loop runs microtasks, after
    the whole chunk.  [processMessage] therefore emits notifications in callbacks
    of [setImmediate], so that a notification does not reach its target before
    the response that was sent before it (the comment in Channel.ts; an object
    made by a response registers for its notifications when the caller goes on).
    The channel of Channel.v is put into an event loop here, to state that. *)

From S2P Require Import Prelude Js Framing Requests Channel.

(** ** What happens, in the order of messages and in the order of the program *)

(** A promise is settled, a notification comes in; in the trace of the program:
    the method that awaits the promise goes on, the notification is emitted. *)
Inductive happening : Type :=
| Settled (p : promise) (o : outcome)
| Notified (n : notification).

Definition settled_in (l : list happening) : list (promise * outcome) :=
  omap (fun h => match h with Settled p o => Some (p, o) | Notified _ => None end) l.

Definition notified_in (l : list happening) : list notification :=
  omap (fun h => match h with Notified n => Some n | Settled _ _ => None end) l.

Definition settlings (l : list (promise * outcome)) : list happening := map (fun x => Settled x.1 x.2) l.

(** The calls of promise functions and the emissions since a state. *)
Definition calls_since (c c' : channel) : list (promise * outcome) :=
  drop (length (calls (pending c))) (calls (pending c')).
Definition emitted_since (c c' : channel) : list notification := drop (length (emitted c)) (emitted c').

(** ** The event loop *)

Section loop.
Context (le : bool) `{JSON}.

(** The channel, what the messages received so far say, in their order, the
    receiving buffer and what the program did. *)
Record loop : Type := mkLoop {
  lp_channel : channel;
  lp_arrived : list happening;
  lp_buffer : buffer;
  lp_trace : list happening
}.

Definition new_loop : loop := mkLoop new_channel [] [] [].

(** [processMessage] and the log of arrivals. *)
Definition receive_arrival (st : channel * list happening) (payload : buffer) : channel * list happening :=
  let c := receive st.1 payload in
  (c, st.2 ++ settlings (calls_since st.1 c) ++ map Notified (option_list (notification_of payload))).

(** A callback, and the microtasks after it: what it emits happens at once, what
    it settles after it. *)
Definition after_callback (c : channel) (trace : list happening) (c' : channel) : list happening :=
  trace ++ map Notified (emitted_since c c') ++ settlings (calls_since c c').

Definition loop_step (l : loop) (i : input) : loop :=
  let c := lp_channel l in
  match i with
  | Idata d =>
      let '(c', arrived, b) := on_data le receive_arrival (c, lp_arrived l, lp_buffer l) d in
      mkLoop c' arrived b (after_callback c (lp_trace l) c')
  | Iimmediate =>
      let c' := run_immediate c in
      mkLoop c' (lp_arrived l) (lp_buffer l) (after_callback c (lp_trace l) c')
  | Irequest w1 w2 method handlerId data =>
      let c' := (request le w1 w2 method handlerId data c).1 in
      mkLoop c' (lp_arrived l) (lp_buffer l) (after_callback c (lp_trace l) c')
  | Iclose =>
      let c' := close c in
      mkLoop c' (lp_arrived l ++ settlings (calls_since c c')) (lp_buffer l) (after_callback c (lp_trace l) c')
  end.

Definition loop_run (inputs : list input) : loop := foldl loop_step new_loop inputs.
End loop.

(** ** Lemmas *)

Lemma settled_in_app l k : settled_in (l ++ k) = settled_in l ++ settled_in k.
Proof. apply omap_app. Qed.
Lemma notified_in_app l k : notified_in (l ++ k) = notified_in l ++ notified_in k.
Proof. apply omap_app. Qed.
Lemma settled_in_settlings l : settled_in (settlings l) = l.
Proof. induction l as [|[p o] l IH]; simpl; [done|]. by f_equal. Qed.
Lemma notified_in_settlings l : notified_in (settlings l) = [].
Proof. induction l as [|[p o] l IH]; simpl; done. Qed.
Lemma settled_in_notified l : settled_in (map Notified l) = [].
Proof. induction l as [|n l IH]; simpl; done. Qed.
Lemma notified_in_notified l : notified_in (map Notified l) = l.
Proof. induction l as [|n l IH]; simpl; [done|]. by f_equal. Qed.

Create Rewrite HintDb happens.
#[export] Hint Rewrite settled_in_app notified_in_app settled_in_settlings notified_in_settlings
  settled_in_notified notified_in_notified : happens.

(** The arrival of a notification among the arrivals. *)
Lemma notified_split l ns n ns' :
  notified_in l = ns ++ n :: ns' -> exists l1 l2, l = l1 ++ Notified n :: l2 /\ notified_in l1 = ns.
Proof.
  revert ns. induction l as [|[p o|m] l IH]; intros ns Hl; simpl in Hl; [by destruct ns| |].
  - destruct (IH ns Hl) as (l1 & l2 & -> & Hn). by exists (Settled p o :: l1), l2.
  - destruct ns as [|m' ns]; simpl in Hl.
    + injection Hl as -> Hl. by exists [], l.
    + injection Hl as <- Hl. destruct (IH ns Hl) as (l1 & l2 & -> & Hn). exists (Notified m :: l1), l2.
      simpl. by rewrite Hn.
Qed.

(** A notification is in the trace with at least the settlings that arrived
    before it. *)
Definition in_order (arrived trace : list happening) : Prop :=
  forall T1 n T2, trace = T1 ++ Notified n :: T2 -> exists A1 A2,
    arrived = A1 ++ Notified n :: A2 /\ notified_in A1 = notified_in T1 /\
    settled_in A1 `prefix_of` settled_in T1.

Lemma in_order_settlings arrived trace more l :
  in_order arrived trace -> in_order (arrived ++ more) (trace ++ settlings l).
Proof.
  intros Ho T1 n T2 Heq.
  assert (exists T2', trace = T1 ++ Notified n :: T2') as (T2' & Ht).
  { apply app_eq_inv in Heq as [(k & -> & Hk)|(k & Hk & Hs)].
    - destruct k as [|h k]; simpl in Hk.
      + exfalso. destruct l as [|[p o] l]; simpl in Hk; congruence.
      + injection Hk as <- Hk. by exists k.
    - exfalso. assert (Notified n ∈ settlings l) as Hin by (rewrite Hs; apply elem_of_app; right; by left).
      apply list_elem_of_In, in_map_iff in Hin as ([p o] & ? & _). done. }
  destruct (Ho T1 n T2' Ht) as (A1 & A2 & -> & Hn & Hs). exists A1, (A2 ++ more). by rewrite <-app_assoc.
Qed.

Lemma in_order_notified arrived trace n ns :
  in_order arrived trace -> settled_in trace = settled_in arrived ->
  notified_in arrived = notified_in trace ++ n :: ns -> in_order arrived (trace ++ [Notified n]).
Proof.
  intros Ho Hset Hnot T1 m T2 Heq.
  apply app_eq_inv in Heq as [(k & -> & Hk)|(k & -> & Hk)].
  - destruct k as [|h k]; simpl in Hk.
    + injection Hk as -> _. rewrite app_nil_r in *.
      destruct (notified_split _ _ _ _ Hnot) as (A1 & A2 & -> & Hn). exists A1, A2. split_and!; [done|done|].
      rewrite Hset, settled_in_app. by apply prefix_app_r.
    + injection Hk as <- Hk. by apply (Ho T1 m k).
  - destruct k as [|h k]; simpl in Hk; [|by destruct k].
    injection Hk as <-. rewrite app_nil_r.
    destruct (notified_split _ _ _ _ Hnot) as (A1 & A2 & -> & Hn). exists A1, A2. split_and!; [done|done|].
    rewrite Hset, settled_in_app. by apply prefix_app_r.
Qed.

(** ** Invariant *)

Record loop_inv (l : loop) : Prop := mkLoopInv {
  li_settled_arrived : settled_in (lp_arrived l) = calls (pending (lp_channel l));
  li_settled_trace : settled_in (lp_trace l) = calls (pending (lp_channel l));
  li_notified_arrived : notified_in (lp_arrived l) = emitted (lp_channel l) ++ immediates (lp_channel l);
  li_notified_trace : notified_in (lp_trace l) = emitted (lp_channel l);
  li_order : in_order (lp_arrived l) (lp_trace l)
}.

Lemma calls_since_app c c' l : calls (pending c') = calls (pending c) ++ l -> calls_since c c' = l.
Proof. unfold calls_since. intros ->. by rewrite drop_app_length. Qed.

Lemma emitted_since_app c c' l : emitted c' = emitted c ++ l -> emitted_since c c' = l.
Proof. unfold emitted_since. intros ->. by rewrite drop_app_length. Qed.

(** A step that settles promises and emits nothing. *)
Lemma settling_step l c' arrived' b calls' :
  loop_inv l -> calls (pending c') = calls (pending (lp_channel l)) ++ calls' ->
  emitted c' = emitted (lp_channel l) ->
  (exists more, arrived' = lp_arrived l ++ more) ->
  settled_in arrived' = calls (pending c') -> notified_in arrived' = emitted c' ++ immediates c' ->
  loop_inv (mkLoop c' arrived' b (after_callback (lp_channel l) (lp_trace l) c')).
Proof.
  intros [H1 H2 H3 H4 H5] Hc He (more & ->) Hs Hn. unfold after_callback.
  rewrite (calls_since_app _ _ _ Hc), (emitted_since_app _ _ []) by (by rewrite app_nil_r). simpl.
  split; cbn [lp_channel lp_arrived lp_trace]; try done.
  - autorewrite with happens. by rewrite H2, Hc.
  - autorewrite with happens. by rewrite H4, He, app_nil_r.
  - by apply in_order_settlings.
Qed.

Section loop_inv.
Context (le : bool) `{JSON}.

Lemma receive_arrivals c arrived payload :
  settled_in arrived = calls (pending c) -> notified_in arrived = emitted c ++ immediates c ->
  let '(c', arrived') := receive_arrival (c, arrived) payload in
  (exists l, calls (pending c') = calls (pending c) ++ l) /\ emitted c' = emitted c /\
  (exists more, arrived' = arrived ++ more) /\
  settled_in arrived' = calls (pending c') /\ notified_in arrived' = emitted c' ++ immediates c'.
Proof.
  intros Hs Hn. unfold receive_arrival. cbn [fst snd]. destruct (receive_calls c payload) as [l Hl].
  destruct (receive_immediates c payload) as [Hi He]. rewrite (calls_since_app _ _ _ Hl).
  split_and!; [by exists l|done|by eexists| |]; autorewrite with happens.
  - by rewrite Hs, Hl, app_nil_r.
  - by rewrite Hn, Hi, He, <-app_assoc.
Qed.

Lemma data_step l d : loop_inv l -> loop_inv (loop_step le l (Idata d)).
Proof.
  intros Hi. unfold loop_step.
  pose proof (on_data_inv le receive_arrival
    (fun st => (exists l', calls (pending st.1) = calls (pending (lp_channel l)) ++ l') /\
               emitted st.1 = emitted (lp_channel l) /\ (exists more, st.2 = lp_arrived l ++ more) /\
               settled_in st.2 = calls (pending st.1) /\ notified_in st.2 = emitted st.1 ++ immediates st.1)
    (lp_channel l, lp_arrived l, lp_buffer l) d) as Hd.
  destruct (on_data le receive_arrival (lp_channel l, lp_arrived l, lp_buffer l) d) as [[c' arrived'] b]. cbn [fst snd] in Hd.
  destruct Hd as ((l' & Hc) & He & Hm & Hs & Hn).
  - intros [c a] payload ((l1 & Hc) & He & (m & Ha) & Hs & Hn). cbn [fst snd] in *.
    pose proof (receive_arrivals c a payload Hs Hn) as Hr. destruct (receive_arrival (c, a) payload) as [c2 a2].
    destruct Hr as ((l2 & Hc2) & He2 & (m2 & Ha2) & Hs2 & Hn2). cbn [fst snd]. split_and!; try done.
    + exists (l1 ++ l2). by rewrite Hc2, Hc, app_assoc.
    + by rewrite He2.
    + exists (m ++ m2). by rewrite Ha2, Ha, app_assoc.
  - split_and!; [by exists []; rewrite app_nil_r|done|by exists []; rewrite app_nil_r|apply Hi|apply Hi].
  - by eapply settling_step.
Qed.

Lemma immediate_step l : loop_inv l -> loop_inv (loop_step le l Iimmediate).
Proof.
  intros Hi. pose proof Hi as [H1 H2 H3 H4 H5]. unfold loop_step, run_immediate.
  destruct (immediates (lp_channel l)) as [|n ns] eqn:Him.
  - eapply (settling_step l _ _ _ []); [done|by rewrite app_nil_r|done|by exists []; rewrite app_nil_r|done|].
    by rewrite Him.
  - unfold after_callback. rewrite (calls_since_app _ _ []) by (by rewrite app_nil_r).
    rewrite (emitted_since_app _ _ [n]) by done. simpl.
    split; cbn [lp_channel lp_arrived lp_trace pending emitted immediates]; try done.
    + rewrite settled_in_app. simpl. by rewrite app_nil_r.
    + by rewrite H3, <-app_assoc.
    + by rewrite notified_in_app, H4.
    + apply (in_order_notified _ _ _ ns); [done|congruence|by rewrite H3, H4].
Qed.

Lemma request_step l w1 w2 method handlerId data :
  loop_inv l -> loop_inv (loop_step le l (Irequest w1 w2 method handlerId data)).
Proof.
  intros Hi. unfold loop_step.
  assert (forall c', calls (pending c') = calls (pending (lp_channel l)) -> emitted c' = emitted (lp_channel l) ->
    immediates c' = immediates (lp_channel l) ->
    loop_inv (mkLoop c' (lp_arrived l) (lp_buffer l) (after_callback (lp_channel l) (lp_trace l) c'))) as Hgo.
  { intros c' Hc He Him. apply (settling_step l _ _ _ []);
      [done|by rewrite app_nil_r|done|by exists []; rewrite app_nil_r|rewrite Hc; apply Hi|
       rewrite He, Him; apply Hi]. }
  unfold request. simpl. destruct (closed (lp_channel l)); [by apply Hgo|]. destruct (_ >? _)%Z; [by apply Hgo|].
  destruct w1; [by apply Hgo|]. destruct w2; by apply Hgo.
Qed.

Lemma close_step l : loop_inv l -> loop_inv (loop_step le l Iclose).
Proof.
  intros Hi. unfold loop_step, close. destruct (closed (lp_channel l)).
  - rewrite (calls_since_app _ _ []) by (by rewrite app_nil_r).
    eapply (settling_step l _ _ _ []); [done|by rewrite app_nil_r|done|by eexists|..]; simpl;
      rewrite app_nil_r; apply Hi.
  - set (c' := mkChannel true _ _ _ _ _ true).
    assert (calls (pending c') = calls (pending (lp_channel l)) ++
      map (fun sent => (sent_promise sent, Rejected channel_closed)) (jvals (sents (pending (lp_channel l))))) as Hc by done.
    rewrite (calls_since_app _ _ _ Hc). eapply settling_step; [done|exact Hc|done|by eexists|..].
    + autorewrite with happens. by rewrite (li_settled_arrived _ Hi), Hc.
    + autorewrite with happens. rewrite app_nil_r. apply Hi.
Qed.

Lemma loop_run_inv inputs : loop_inv (loop_run le inputs).
Proof.
  unfold loop_run. induction inputs as [|i inputs IH] using rev_ind.
  - split; try done. intros T1 n T2 Heq. by destruct T1.
  - rewrite foldl_app. simpl. destruct i; [by apply request_step|by apply data_step|by apply immediate_step|
      by apply close_step].
Qed.
End loop_inv.

(** ** The order *)

(** The loop runs the channel. *)
Lemma loop_run_channel (le : bool) `{JSON} inputs :
  (lp_channel (loop_run le inputs), lp_buffer (loop_run le inputs)) = run le inputs.
Proof.
  assert (forall d c a b, let '(c', _, b') := on_data le receive_arrival (c, a, b) d in
            (c', b') = on_channel_data le (c, b) d) as Hd.
  { intros d c a b. unfold on_channel_data, on_data. cbn [fst snd]. destruct (_ >? _)%Z; [done|].
    set (b2 := match b with [] => d | _ => b ++ d end). clearbody b2.
    assert (forall fuel c a n, let '(c', _, m) := read_loop le receive_arrival fuel (c, a) b2 n in
              (c', m) = read_loop le receive fuel c b2 n) as Hl.
    { induction fuel as [|fuel IH]; intros c1 a1 n; cbn [read_loop]; [done|].
      destruct (_ <? 4)%Z; [done|]. destruct (_ <? _)%Z; [done|]. apply IH. }
    specialize (Hl (S (length b2)) c a 0).
    destruct (read_loop le receive_arrival _ _ _ _) as [[c1 a1] n1]. by rewrite <-Hl. }
  unfold loop_run, run. induction inputs as [|i inputs IH] using rev_ind; [done|].
  rewrite !foldl_app. cbn [foldl]. rewrite <-IH. set (l := foldl (loop_step le) new_loop inputs).
  destruct i as [w1 w2 method handlerId x|d| |]; unfold loop_step, step; cbn [fst snd]; try done.
  specialize (Hd d (lp_channel l) (lp_arrived l) (lp_buffer l)).
  by destruct (on_data le receive_arrival _ _) as [[c' a'] b'].
Qed.

(** C16: a notification never overtakes a response: whatever chunks the messages
    arrive in, and whenever the event loop gets to run the callbacks of
    [setImmediate], requests are made and the channel is closed, by the time the
    k-th notification is emitted every method goes on whose response arrived
    before that notification, in the order of the responses. *)
Theorem responses_before_notifications (le : bool) `{JSON} (inputs : list input) T1 n T2 :
  lp_trace (loop_run le inputs) = T1 ++ Notified n :: T2 ->
  exists A1 A2, lp_arrived (loop_run le inputs) = A1 ++ Notified n :: A2 /\
    notified_in A1 = notified_in T1 /\ settled_in A1 `prefix_of` settled_in T1.
Proof. intros Ht. exact (li_order _ (loop_run_inv le inputs) T1 n T2 Ht). Qed.

(** What arrives is what the messages say, in their order, however they are cut
    into chunks. *)
Lemma arrivals_of_messages (le : bool) `{JSON} c arrived msgs chunks C :
  concat chunks = concat (map (frame le) msgs) ->
  Forall (fun b => blen b <= C)%Z chunks ->
  Forall (fun m => blen m + 3 + C <= PAYLOAD_MAX_LEN)%Z msgs ->
  foldl (on_data le receive_arrival) (c, arrived, []) chunks = (foldl receive_arrival (c, arrived) msgs, []).
Proof. apply framing_chunks. Qed.

(** The response and the notification of [example_stream], in one chunk. *)
Definition example_loop : list input :=
  [Irequest None None "worker.createRouter" None VUndef;
   Irequest None None "router.close" (Some "r1") VUndef;
   Idata example_stream; Iimmediate].

Lemma responses_before_notifications_witness :
  lp_trace (@loop_run true example_json example_loop) =
    [Settled 0 (Resolved (VObj [("type", VStr "simple")])); Settled 1 (Rejected (TypeError "wrong"));
     Notified (mkNotification "7" (VStr "close") VUndef)] /\
  exists A1 A2, lp_arrived (@loop_run true example_json example_loop) =
      A1 ++ Notified (mkNotification "7" (VStr "close") VUndef) :: A2 /\
    settled_in A1 `prefix_of` [(0, Resolved (VObj [("type", VStr "simple")])); (1, Rejected (TypeError "wrong"))].
Proof.
  assert (lp_trace (@loop_run true example_json example_loop) =
    [Settled 0 (Resolved (VObj [("type", VStr "simple")])); Settled 1 (Rejected (TypeError "wrong"))] ++
     Notified (mkNotification "7" (VStr "close") VUndef) :: []) as Ht by (vm_compute; reflexivity).
  split; [exact Ht|].
  destruct (@responses_before_notifications true example_json example_loop _ _ _ Ht) as (A1 & A2 & Ha & _ & Hp).
  exists A1, A2. split; [exact Ha|exact Hp].
Defined.
