(* ===== verification/PayloadChannel.v ===== *)
(** * PayloadChannel.ts

    The channel for messages that carry a binary payload: a notification
    announces itself with a JSON message and the next message is its payload.
    Framing and pending requests are those of Framing.v and Requests.v. *)

From S2P Require Import Prelude Js Framing Requests Channel.

Record payload_notification : Type := mkPayloadNotification {
  pn_targetId : string;
  pn_event : val;
  pn_data : val
}.

Record payload_channel : Type := mkPayloadChannel {
  pc_closed : bool;
  pc_pending : requests;
  pc_written : list buffer;
  ongoingNotification : option payload_notification;
  pc_emitted : list (payload_notification * buffer);
  pc_uncaught : option error;       (* an exception left the 'data' handler *)
  pc_destroy_timer : bool
}.

Definition new_payload_channel : payload_channel :=
  mkPayloadChannel false no_requests [] None [] None false.

Definition pc_with_pending (r : requests) (c : payload_channel) : payload_channel :=
  mkPayloadChannel (pc_closed c) r (pc_written c) (ongoingNotification c) (pc_emitted c)
    (pc_uncaught c) (pc_destroy_timer c).
Definition pc_write (b : buffer) (c : payload_channel) : payload_channel :=
  mkPayloadChannel (pc_closed c) (pc_pending c) (pc_written c ++ [b]) (ongoingNotification c)
    (pc_emitted c) (pc_uncaught c) (pc_destroy_timer c).
Definition with_ongoing (n : option payload_notification) (c : payload_channel) : payload_channel :=
  mkPayloadChannel (pc_closed c) (pc_pending c) (pc_written c) n
    (pc_emitted c) (pc_uncaught c) (pc_destroy_timer c).
Definition pc_emit (n : payload_notification) (payload : buffer) (c : payload_channel) : payload_channel :=
  mkPayloadChannel (pc_closed c) (pc_pending c) (pc_written c) (ongoingNotification c)
    (pc_emitted c ++ [(n, payload)]) (pc_uncaught c) (pc_destroy_timer c).
Definition pc_throw (e : error) (c : payload_channel) : payload_channel :=
  mkPayloadChannel (pc_closed c) (pc_pending c) (pc_written c) (ongoingNotification c)
    (pc_emitted c) (Some e) (pc_destroy_timer c).

Definition payload_channel_closed : error := InvalidStateError "PayloadChannel closed".

Definition notification_text (event handlerId : string) (data : option string) : buffer :=
  String.list_byte_of_string
    ("n:" +:+ event +:+ ":" +:+ handlerId +:+ ":" +:+ or_undefined data).

Definition payload_request_text (id : Z) (method handlerId data : string) : buffer :=
  String.list_byte_of_string
    ("r:" +:+ pretty id +:+ ":" +:+ method +:+ ":" +:+ handlerId +:+ ":" +:+ data).

Section payload_channel.
Context (littleEndian : bool) `{JSON}.

(** One block of two writes, which may throw [w1] or [w2]; the flag tells
    whether both were done. *)
Definition write_message (w1 w2 : option error) (b : buffer) (c : payload_channel) :
    payload_channel * option error :=
  match w1 with
  | Some e => (c, Some e)
  | None =>
      let c := pc_write (Uint32Array_of littleEndian (blen b)) c in
      match w2 with
      | Some e => (c, Some e)
      | None => (pc_write b c, None)
      end
  end.

(** [w1] to [w4] are what the four socket writes throw, if they do; such
    errors are logged. *)
Definition notify (w1 w2 w3 w4 : option error) (event handlerId : string) (data : option string)
    (payload : buffer) (c : payload_channel) : payload_channel * result unit :=
  if pc_closed c then (c, Err payload_channel_closed)
  else
    let notification := notification_text event handlerId data in
    if Z.gtb (blen notification) MESSAGE_MAX_LEN then
      (c, Err (PlainError "PayloadChannel notification too big"))
    else if Z.gtb (blen payload) MESSAGE_MAX_LEN then
      (c, Err (PlainError "PayloadChannel payload too big"))
    else
      let '(c, e) := write_message w1 w2 notification c in
      match e with
      | Some _ => (c, Ok tt)
      | None => ((write_message w3 w4 payload c).1, Ok tt)
      end.

Definition pc_request (w1 w2 w3 w4 : option error) (method handlerId data : string)
    (payload : buffer) (c : payload_channel) : payload_channel * result promise :=
  let c := pc_with_pending (bump_id (pc_pending c)) c in
  let id := nextId (pc_pending c) in
  if pc_closed c then (c, Err payload_channel_closed)
  else
    let text := payload_request_text id method handlerId data in
    if Z.gtb (blen text) MESSAGE_MAX_LEN then (c, Err (PlainError "PayloadChannel request too big"))
    else if Z.gtb (blen payload) MESSAGE_MAX_LEN then
      (c, Err (PlainError "PayloadChannel payload too big"))
    else
      let '(c, e) := write_message w1 w2 text c in
      match e with
      | Some e => (c, Err e)
      | None =>
          let '(c, e) := write_message w3 w4 payload c in
          match e with
          | Some e => (c, Err e)
          | None =>
              let '(r, p) := add_sent method (pc_pending c) in
              (pc_with_pending r c, Ok p)
          end
      end.

(** [processData]: property accesses on [null] throw, out of the handler. *)
Definition processData (c : payload_channel) (data : buffer) : payload_channel :=
  match ongoingNotification c with
  | None =>
      match JSON_parse data with
      | Err _ => c
      | Ok VNull | Ok VUndef => pc_throw (TypeError "Cannot read properties of null") c
      | Ok msg =>
          if truthy (prop "id" msg) then pc_with_pending (handle_response msg (pc_pending c)) c
          else if truthy (prop "targetId" msg) && truthy (prop "event" msg) then
            with_ongoing (Some (mkPayloadNotification (js_string (prop "targetId" msg))
                                  (prop "event" msg) (prop "data" msg))) c
          else c
      end
  | Some n => with_ongoing None (pc_emit n data c)
  end.

(** Nothing is received after an exception left the handler: it ends the
    process. *)
Definition pc_receive (c : payload_channel) (data : buffer) : payload_channel :=
  match pc_uncaught c with None => processData c data | Some _ => c end.

Definition on_payload_data (st : payload_channel * buffer) (data : buffer) :
    payload_channel * buffer :=
  on_data littleEndian pc_receive st data.

Definition pc_close (c : payload_channel) : payload_channel :=
  if pc_closed c then c
  else mkPayloadChannel true (pc_pending c) (pc_written c) (ongoingNotification c)
         (pc_emitted c) (pc_uncaught c) true.
End payload_channel.

(** ** Notifications with their payloads *)

(** The text announces [n]. *)
Definition announces `{JSON} (text : buffer) (n : payload_notification) : Prop :=
  exists msg, JSON_parse text = Ok msg /\ truthy (prop "id" msg) = false /\
    truthy (prop "targetId" msg) = true /\ truthy (prop "event" msg) = true /\
    n = mkPayloadNotification (js_string (prop "targetId" msg)) (prop "event" msg) (prop "data" msg).

(** Ready for the next announcement. *)
Definition idle (c : payload_channel) : Prop :=
  ongoingNotification c = None /\ pc_uncaught c = None.

Lemma receive_pair `{JSON} c text n payload :
  idle c -> announces text n ->
  let c' := pc_receive (pc_receive c text) payload in
  idle c' /\ pc_emitted c' = pc_emitted c ++ [(n, payload)] /\ pc_pending c' = pc_pending c.
Proof.
  intros [Ho Hu] (msg & Hp & Hid & Ht & He & ->). unfold pc_receive at 2. rewrite Hu.
  unfold processData. rewrite Ho, Hp.
  assert (msg <> VNull /\ msg <> VUndef) as [Hn1 Hn2] by (split; by intros ->).
  destruct msg; try done; rewrite Hid, Ht, He; simpl; unfold pc_receive; simpl; by rewrite Hu.
Qed.

Lemma receive_pairs `{JSON} c (pairs : list (buffer * payload_notification * buffer)) :
  idle c -> Forall (fun p => announces p.1.1 p.1.2) pairs ->
  let c' := foldl pc_receive c (concat (map (fun p => [p.1.1; p.2]) pairs)) in
  idle c' /\ pc_emitted c' = pc_emitted c ++ map (fun p => (p.1.2, p.2)) pairs /\
  pc_pending c' = pc_pending c.
Proof.
  revert c. induction pairs as [|[[text n] payload] pairs IH]; intros c Hc Hp; simpl.
  - by rewrite app_nil_r.
  - inversion Hp as [|? ? Hn Hps]; subst. simpl in Hn.
    destruct (receive_pair c text n payload Hc Hn) as (Hi & He & Hr).
    destruct (IH _ Hi Hps) as (Hi' & He' & Hr').
    split; [done|]. rewrite He', Hr', He, Hr. by rewrite <-app_assoc.
Qed.

(** ** Properties *)

(** Notifications keep their payloads: announcements and payloads cut into
    arbitrary chunks are emitted as the pairs that were sent, in order,
    whatever bytes the payloads consist of, and pending requests are left
    alone. *)
Theorem payloads_delivered_in_pairs (le : bool) `{JSON} c pairs chunks C :
  idle c -> Forall (fun p : buffer * payload_notification * buffer => announces p.1.1 p.1.2) pairs ->
  concat chunks = concat (map (frame le) (concat (map (fun p => [p.1.1; p.2]) pairs))) ->
  Forall (fun b => blen b <= C)%Z chunks ->
  Forall (fun p => blen p.1.1 + 3 + C <= PAYLOAD_MAX_LEN /\ blen p.2 + 3 + C <= PAYLOAD_MAX_LEN)%Z pairs ->
  exists c', foldl (on_payload_data le) (c, []) chunks = (c', []) /\ idle c' /\
    pc_emitted c' = pc_emitted c ++ map (fun p => (p.1.2, p.2)) pairs /\
    pc_pending c' = pc_pending c.
Proof.
  intros Hc Hp Hch HC Hsz. exists (foldl pc_receive c (concat (map (fun p => [p.1.1; p.2]) pairs))).
  split; [|by apply receive_pairs].
  apply (framing_chunks le pc_receive c _ chunks C); [done|done|].
  clear -Hsz. induction Hsz as [|p pairs [? ?] _ IH]; simpl; [constructor|]. by repeat constructor.
Qed.

(** A notification that is accepted is written as two frames, which the
    reader on the other side takes apart again: it receives the text and the
    payload. *)
Theorem notify_writes_two_messages (le : bool) {S} (process : S -> buffer -> S) s c event handlerId data payload :
  let text := notification_text event handlerId data in
  let r := notify le None None None None event handlerId data payload c in
  r.2 = Ok tt -> (blen text + blen payload + 8 <= PAYLOAD_MAX_LEN)%Z ->
  exists ws, pc_written r.1 = pc_written c ++ ws /\
    on_data le process (s, []) (concat ws) = (process (process s text) payload, []).
Proof.
  unfold notify. destruct (pc_closed c); [done|].
  destruct (_ >? _)%Z; [done|]. destruct (_ >? _)%Z; [done|]. simpl. intros _ Hsz.
  set (text := notification_text event handlerId data) in *.
  exists [Uint32Array_of le (blen text); text; Uint32Array_of le (blen payload); payload].
  split; [by rewrite <-!app_assoc|].
  assert (concat [Uint32Array_of le (blen text); text; Uint32Array_of le (blen payload); payload]
          = frame le text ++ frame le payload ++ []) as Hc.
  { simpl. unfold frame. by rewrite !app_nil_r, <-app_assoc. }
  assert (0 <= blen text /\ 0 <= blen payload)%Z as [? ?] by (unfold blen; lia).
  rewrite Hc. apply (on_data_parses le process s [] _ [text; payload]); simpl.
  - unfold frame, blen in *. rewrite !length_app, !length_Uint32Array_of. cbn [length]. lia.
  - unfold PAYLOAD_MAX_LEN in Hsz. apply parses_frame; [lia|]. apply parses_frame; [lia|]. by constructor.
Qed.

(** What can happen to a channel other than incoming data. *)
Inductive local_op : Type :=
| Onotify (w1 w2 w3 w4 : option error) (event handlerId : string) (data : option string) (payload : buffer)
| Orequest (w1 w2 w3 w4 : option error) (method handlerId data : string) (payload : buffer)
| Oclose.

Definition local_step (le : bool) (c : payload_channel) (op : local_op) : payload_channel :=
  match op with
  | Onotify w1 w2 w3 w4 event handlerId data payload =>
      (notify le w1 w2 w3 w4 event handlerId data payload c).1
  | Orequest w1 w2 w3 w4 method handlerId data payload =>
      (pc_request le w1 w2 w3 w4 method handlerId data payload c).1
  | Oclose => pc_close c
  end.

Lemma local_step_calls le c op : calls (pc_pending (local_step le c op)) = calls (pc_pending c).
Proof.
  destruct op; simpl.
  - unfold notify. destruct (pc_closed c); [done|]. destruct (_ >? _)%Z; [done|].
    destruct (_ >? _)%Z; [done|]. by destruct w1, w2, w3, w4.
  - unfold pc_request. simpl. destruct (pc_closed c); [done|]. destruct (_ >? _)%Z; [done|].
    destruct (_ >? _)%Z; [done|]. by destruct w1, w2, w3, w4.
  - unfold pc_close. by destruct (pc_closed c).
Qed.

(** Unlike the one of Channel.ts, [close] forgets the pending requests:
    once no data arrives any more, a promise that was pending stays unsettled
    whatever is called, [close] included. *)
Theorem payload_close_strands_requests (le : bool) c ops p :
  outcome_of p (pc_pending c) = None ->
  outcome_of p (pc_pending (foldl (local_step le) c (Oclose :: ops))) = None.
Proof.
  assert (forall ops c, calls (pc_pending (foldl (local_step le) c ops)) = calls (pc_pending c)) as Hc.
  { clear. induction ops as [|op ops IH]; intros c; simpl; [done|].
    by rewrite IH, local_step_calls. }
  unfold outcome_of. by rewrite Hc.
Qed.

(** ** Examples *)

Definition example_announcement : val :=
  VObj [("targetId", VStr "dc1"); ("event", VStr "message"); ("data", VObj [("ppid", VNum 51)])].

Definition example_payload_json : JSON := fun payload =>
  if bool_decide (text_of example_announcement = payload) then Ok example_announcement
  else Err (PlainError "Unexpected token").

Definition example_pairs : list (buffer * payload_notification * buffer) :=
  [((text_of example_announcement,
     mkPayloadNotification "dc1" (VStr "message") (VObj [("ppid", VNum 51)])), [x7b; x7d]);
   ((text_of example_announcement,
     mkPayloadNotification "dc1" (VStr "message") (VObj [("ppid", VNum 51)])), [])].

Definition example_payload_stream : buffer :=
  concat (map (frame false) (concat (map (fun p => [p.1.1; p.2]) example_pairs))).

Lemma payloads_delivered_in_pairs_witness :
  exists c', foldl (@on_payload_data false example_payload_json) (new_payload_channel, [])
      [take 60 example_payload_stream; drop 60 example_payload_stream] = (c', []) /\
    map snd (pc_emitted c') = [[x7b; x7d]; []].
Proof.
  destruct (@payloads_delivered_in_pairs false example_payload_json new_payload_channel example_pairs
    [take 60 example_payload_stream; drop 60 example_payload_stream] 100) as (c' & H1 & _ & H2 & _).
  - split; reflexivity.
  - repeat constructor; exists example_announcement; vm_compute; repeat split.
  - vm_compute. reflexivity.
  - repeat constructor; vm_compute; discriminate.
  - repeat constructor; vm_compute; discriminate.
  - exists c'. split; [exact H1|]. rewrite H2. reflexivity.
Defined.

Lemma notify_writes_two_messages_witness :
  exists ws, pc_written (notify true None None None None "rtpPacket" "t1" None [x01] new_payload_channel).1
    = [] ++ ws /\
  on_data true (fun ms m => ms ++ [m]) ([], []) (concat ws) =
    ([notification_text "rtpPacket" "t1" None; [x01]], []).
Proof.
  refine (notify_writes_two_messages true (fun ms m => ms ++ [m]) [] new_payload_channel
            "rtpPacket" "t1" None [x01] _ _); vm_compute; [reflexivity|discriminate].
Defined.

Lemma payload_close_strands_requests_witness :
  outcome_of 0 (pc_pending (foldl (local_step true)
    (pc_request true None None None None "dataProducer.send" "t1" "51" [x01] new_payload_channel).1
    [Oclose])) = None.
Proof. apply payload_close_strands_requests. reflexivity. Defined.
