(* ===== verification/EventEmitter.v ===== *)
(** * EnhancedEventEmitter.ts

    All objects of the API are event emitters.  EnhancedEventEmitter passes its
    calls on to the EventEmitter of Node's standard library, which is modelled
    with it, and adds [safeEmit], which does not let the exceptions of listeners
    through.

    Listeners are named by numbers, and [behaviour] says what a listener does: it
    may register and remove listeners, emit again and throw.  A listener added by
    [once] is a wrapper with an identity of its own, which removes itself and
    then calls the listener, once.  The depth of nested emissions is bounded by
    the size of the call stack, as in the program.  The events 'newListener' and
    'removeListener' of Node are left out: nobody listens to them. *)

From S2P Require Import Prelude Js.

(** ** State *)

(** What is registered: a listener, or the wrapper of one. *)
Record handler : Type := mkHandler {
  h_fn : nat;
  h_wrapper : option nat
}.

#[export] Instance handler_eq_dec : EqDecision handler.
Proof. solve_decision. Defined.

(** [fired] are the wrappers that have called their listener, [calls] the calls
    that listeners got. *)
Record emitter : Type := mkEmitter {
  registered : list (string * list handler);
  fired : list nat;
  next_wrapper : nat;
  calls : list (handler * list val)
}.

Definition new_emitter : emitter := mkEmitter [] [] 0 [].

Definition handlers (name : string) (em : emitter) : list handler := default [] (jget name (registered em)).

Definition set_handlers (name : string) (hs : list handler) (em : emitter) : emitter :=
  mkEmitter (jset name hs (registered em)) (fired em) (next_wrapper em) (calls em).

Definition wrap (em : emitter) : emitter :=
  mkEmitter (registered em) (fired em) (S (next_wrapper em)) (calls em).

Definition record_call (h : handler) (args : list val) (em : emitter) : emitter :=
  mkEmitter (registered em) (fired em) (next_wrapper em) (calls em ++ [(h, args)]).

Definition mark_fired (w : nat) (em : emitter) : emitter :=
  mkEmitter (registered em) (w :: fired em) (next_wrapper em) (calls em).

(** ** Methods *)

Definition on (name : string) (fn : nat) (em : emitter) : emitter :=
  set_handlers name (handlers name em ++ [mkHandler fn None]) em.

Definition addListener : string -> nat -> emitter -> emitter := on.

Definition prependListener (name : string) (fn : nat) (em : emitter) : emitter :=
  set_handlers name (mkHandler fn None :: handlers name em) em.

Definition once (name : string) (fn : nat) (em : emitter) : emitter :=
  set_handlers name (handlers name em ++ [mkHandler fn (Some (next_wrapper em))]) (wrap em).

Definition prependOnceListener (name : string) (fn : nat) (em : emitter) : emitter :=
  set_handlers name (mkHandler fn (Some (next_wrapper em)) :: handlers name em) (wrap em).

Fixpoint remove_first (p : handler -> bool) (hs : list handler) : list handler :=
  match hs with
  | [] => []
  | h :: hs => if p h then hs else h :: remove_first p hs
  end.

(** The last one that was registered. *)
Definition remove_last (p : handler -> bool) (hs : list handler) : list handler :=
  rev (remove_first p (rev hs)).

Definition off (name : string) (fn : nat) (em : emitter) : emitter :=
  set_handlers name (remove_last (fun h => Nat.eqb (h_fn h) fn) (handlers name em)) em.

Definition removeListener : string -> nat -> emitter -> emitter := off.

(** A wrapper removes itself. *)
Definition remove_wrapper (name : string) (w : nat) (em : emitter) : emitter :=
  set_handlers name (remove_last (fun h => bool_decide (h_wrapper h = Some w)) (handlers name em)) em.

(** [super.removeAllListeners(eventName)] passes an argument on in any case:
    without a name the property it removes is [undefined]. *)
Definition removeAllListeners (eventName : option string) (em : emitter) : emitter :=
  set_handlers (default "undefined" eventName) [] em.

Definition listenerCount (name : string) (em : emitter) : nat := length (handlers name em).
Definition listeners (name : string) (em : emitter) : list nat := map h_fn (handlers name em).
Definition rawListeners (name : string) (em : emitter) : list handler := handlers name em.

(** ** Emitting *)

Inductive action : Type :=
| AOn (name : string) (fn : nat)
| APrepend (name : string) (fn : nat)
| AOnce (name : string) (fn : nat)
| APrependOnce (name : string) (fn : nat)
| AOff (name : string) (fn : nat)
| ARemoveAll (eventName : option string)
| AEmit (name : string) (args : list val)
| ASafeEmit (name : string) (args : list val)
| AThrow (e : error).

Definition stack_overflow : error := PlainError "Maximum call stack size exceeded".
Definition unhandled_error : error := PlainError "Unhandled error.".

Section emitting.
Context (behaviour : nat -> list val -> list action).

(** The body of a listener, up to the first exception; [act] runs one action. *)
Fixpoint run_actions (act : action -> emitter -> emitter * result unit) (l : list action) (em : emitter) :
    emitter * result unit :=
  match l with
  | [] => (em, Ok tt)
  | a :: l =>
      match act a em with
      | (em, Ok _) => run_actions act l em
      | (em, Err e) => (em, Err e)
      end
  end.

Definition invoke act (h : handler) (args : list val) (em : emitter) : emitter * result unit :=
  run_actions act (behaviour (h_fn h) args) (record_call h args em).

(** A wrapper that has fired does nothing. *)
Definition call_handler act (name : string) (args : list val) (h : handler) (em : emitter) : emitter * result unit :=
  match h_wrapper h with
  | None => invoke act h args em
  | Some w =>
      if bool_decide (w ∈ fired em) then (em, Ok tt)
      else invoke act h args (mark_fired w (remove_wrapper name w em))
  end.

Fixpoint call_all act (name : string) (args : list val) (hs : list handler) (em : emitter) : emitter * result unit :=
  match hs with
  | [] => (em, Ok tt)
  | h :: hs =>
      match call_handler act name args h em with
      | (em, Ok _) => call_all act name args hs em
      | (em, Err e) => (em, Err e)
      end
  end.

(** The listeners are those registered when the event is emitted. *)
Definition emit_with act (name : string) (args : list val) (em : emitter) : emitter * result bool :=
  match handlers name em with
  | [] => (em, if String.eqb name "error" then Err unhandled_error else Ok false)
  | hs => match call_all act name args hs em with
          | (em, Ok _) => (em, Ok true)
          | (em, Err e) => (em, Err e)
          end
  end.

Definition safeEmit_with act (name : string) (args : list val) (em : emitter) : emitter * result bool :=
  let numListeners := listenerCount name em in
  match emit_with act name args em with
  | (em, Ok b) => (em, Ok b)
  | (em, Err _) => (em, Ok (0 <? numListeners)%nat)
  end.

Definition no_result {A} (x : emitter * result A) : emitter * result unit :=
  (x.1, match x.2 with Ok _ => Ok tt | Err e => Err e end).

Fixpoint perform (stack : nat) (a : action) (em : emitter) : emitter * result unit :=
  match a with
  | AOn name fn => (on name fn em, Ok tt)
  | APrepend name fn => (prependListener name fn em, Ok tt)
  | AOnce name fn => (once name fn em, Ok tt)
  | APrependOnce name fn => (prependOnceListener name fn em, Ok tt)
  | AOff name fn => (off name fn em, Ok tt)
  | ARemoveAll name => (removeAllListeners name em, Ok tt)
  | AThrow e => (em, Err e)
  | AEmit name args =>
      match stack with
      | O => (em, Err stack_overflow)
      | S stack => no_result (emit_with (perform stack) name args em)
      end
  | ASafeEmit name args =>
      match stack with
      | O => (em, Err stack_overflow)
      | S stack => no_result (safeEmit_with (perform stack) name args em)
      end
  end.

Definition emit (stack : nat) : string -> list val -> emitter -> emitter * result bool := emit_with (perform stack).
Definition safeEmit (stack : nat) : string -> list val -> emitter -> emitter * result bool :=
  safeEmit_with (perform stack).

(** What the owner of an emitter does with it, exceptions caught. *)
Definition run (stack : nat) (l : list action) : emitter :=
  foldl (fun em a => (perform stack a em).1) new_emitter l.
End emitting.

(** ** What emitting keeps *)

Definition wrappers (hs : list handler) : list nat := omap h_wrapper hs.

Lemma handlers_set name name' hs em :
  handlers name (set_handlers name' hs em) = if decide (name = name') then hs else handlers name em.
Proof.
  unfold handlers, set_handlers. simpl. case_decide as Hn; [by rewrite Hn, jget_jset_eq|by rewrite jget_jset_ne].
Qed.

Lemma remove_first_sublist p hs : remove_first p hs `sublist_of` hs.
Proof.
  induction hs as [|h hs IH]; simpl; [done|]. destruct (p h); [by apply sublist_cons|by apply sublist_skip].
Qed.

Lemma rev_sublist {A} (l k : list A) : l `sublist_of` k -> rev l `sublist_of` rev k.
Proof.
  induction 1 as [|x l k _ IH|x l k _ IH]; simpl; [done|by apply sublist_app|by apply sublist_inserts_r].
Qed.

Lemma remove_last_sublist p hs : remove_last p hs `sublist_of` hs.
Proof.
  unfold remove_last. rewrite <-(rev_involutive hs) at 2. apply rev_sublist, remove_first_sublist.
Qed.

Lemma wrappers_sublist hs hs' : hs `sublist_of` hs' -> wrappers hs `sublist_of` wrappers hs'.
Proof.
  induction 1 as [|[fn [w|]] l k _ IH|[fn [w|]] l k _ IH]; simpl; [done|by apply sublist_skip|done|
    by apply sublist_cons|done].
Qed.

Lemma wrappers_app hs hs' : wrappers (hs ++ hs') = wrappers hs ++ wrappers hs'.
Proof. apply omap_app. Qed.

(** A property that the changes of an emitter keep is kept by all actions, with
    whatever the listeners do. *)
Section kept.
Context (behaviour : nat -> list val -> list action) (P : emitter -> Prop).
Context (P_edit : forall name hs em, wrappers hs `sublist_of` wrappers (handlers name em) -> P em -> P (set_handlers name hs em)).
Context (P_once : forall name fn em, P em -> P (once name fn em)).
Context (P_prependOnce : forall name fn em, P em -> P (prependOnceListener name fn em)).
Context (P_call : forall h args em, h_wrapper h = None -> P em -> P (record_call h args em)).
Context (P_fire : forall h w args em, h_wrapper h = Some w -> w ∉ fired em -> P em ->
  P (record_call h args (mark_fired w em))).

Definition keeping {A} (act : A -> emitter -> emitter * result unit) : Prop :=
  forall a em, P em -> P (act a em).1.

Lemma run_actions_keeps act l : keeping act -> forall em, P em -> P (run_actions act l em).1.
Proof.
  intros Hact. induction l as [|a l IH]; intros em HP; simpl; [done|].
  pose proof (Hact a em HP) as Ha. destruct (act a em) as [em' [u|e]]; simpl in *; auto.
Qed.

Lemma call_handler_keeps act name args h em :
  keeping act -> P em -> P (call_handler behaviour act name args h em).1.
Proof.
  intros Hact HP. unfold call_handler, invoke. destruct (h_wrapper h) as [w|] eqn:Hw.
  - case_bool_decide as Hf; [done|]. apply run_actions_keeps; [done|]. apply P_fire; [done|done|].
    apply P_edit; [|done]. apply wrappers_sublist, remove_last_sublist.
  - apply run_actions_keeps; auto.
Qed.

Lemma emit_with_keeps act name args em :
  keeping act -> P em -> P (emit_with behaviour act name args em).1.
Proof.
  intros Hact HP. unfold emit_with. destruct (handlers name em) as [|h0 hs0]; [done|].
  set (hs := h0 :: hs0). clearbody hs. clear h0 hs0.
  assert (P (call_all behaviour act name args hs em).1) as Hall.
  { revert em HP. induction hs as [|h hs IH]; intros em HP; simpl; [done|].
    pose proof (call_handler_keeps act name args h em Hact HP) as Hh.
    destruct (call_handler _ _ _ _ _ _) as [em' [u|e]]; simpl in *; auto. }
  by destruct (call_all _ _ _ _ _ _) as [em' [u|e]].
Qed.

Lemma safeEmit_with_state act name args em :
  (safeEmit_with behaviour act name args em).1 = (emit_with behaviour act name args em).1.
Proof. unfold safeEmit_with. by destruct (emit_with _ _ _ _ _) as [em' [b|e]]. Qed.

Lemma perform_keeps stack : keeping (perform behaviour stack).
Proof.
  induction stack as [|stack IH]; intros a em HP; destruct a; simpl; try done; auto.
  all: try (apply P_edit; [|done]).
  all: try (rewrite wrappers_app; simpl; by rewrite app_nil_r).
  all: try (apply wrappers_sublist; (apply remove_last_sublist || apply sublist_nil_l)).
  all: try done.
  - by apply emit_with_keeps.
  - rewrite safeEmit_with_state. by apply emit_with_keeps.
Qed.

Lemma run_keeps stack l : P new_emitter -> P (run behaviour stack l).
Proof.
  unfold run. generalize new_emitter. induction l as [|a l IH]; intros em HP; simpl; [done|].
  by apply IH, perform_keeps.
Qed.
End kept.

(** ** Once *)

Definition calls_of (w : nat) (em : emitter) : nat :=
  length (List.filter (fun c => bool_decide (h_wrapper c.1 = Some w)) (calls em)).

Definition once_inv (em : emitter) : Prop :=
  forall w, calls_of w em = if decide (w ∈ fired em) then 1 else 0.

Lemma calls_of_record w h args em :
  calls_of w (record_call h args em) = calls_of w em + if decide (h_wrapper h = Some w) then 1 else 0.
Proof.
  unfold calls_of, record_call. simpl. rewrite List.filter_app, length_app. simpl.
  case_bool_decide; [by rewrite decide_True|by rewrite decide_False].
Qed.

Lemma once_inv_fire h w args em :
  h_wrapper h = Some w -> w ∉ fired em -> once_inv em -> once_inv (record_call h args (mark_fired w em)).
Proof.
  intros Hw Hf Hi w'. rewrite calls_of_record. change (calls_of w' (mark_fired w em)) with (calls_of w' em).
  rewrite Hi. cbn [record_call mark_fired fired]. rewrite Hw. destruct (decide (w' = w)) as [->|Hne].
  - rewrite (decide_False (P := w ∈ fired em)) by done. rewrite !decide_True by (done || by left). done.
  - rewrite (decide_False (P := Some w = Some w')) by congruence. rewrite Nat.add_0_r.
    destruct (decide (w' ∈ fired em)); [by rewrite decide_True by (by right)|].
    rewrite decide_False; [done|]. by intros [?|?]%elem_of_cons.
Qed.

Lemma run_once_inv behaviour stack l : once_inv (run behaviour stack l).
Proof.
  apply run_keeps.
  - intros name hs em _ Hi. exact Hi.
  - intros name fn em Hi. exact Hi.
  - intros name fn em Hi. exact Hi.
  - intros h args em Hw Hi w. rewrite calls_of_record, Hw, decide_False by done. rewrite Hi. simpl. lia.
  - intros h w args em. apply once_inv_fire.
  - intros w. rewrite decide_False; [done|]. apply not_elem_of_nil.
Qed.

(** ** Wrappers are distinct *)

Definition wrappers_inv (em : emitter) : Prop :=
  (forall name, NoDup (wrappers (handlers name em)) /\
     Forall (fun w => w < next_wrapper em) (wrappers (handlers name em))).

Lemma wrappers_inv_set name hs em n :
  NoDup (wrappers hs) -> Forall (fun w => w < n) (wrappers hs) -> next_wrapper em <= n -> wrappers_inv em ->
  wrappers_inv (set_handlers name hs (mkEmitter (registered em) (fired em) n (calls em))).
Proof.
  intros H1 H2 Hn Hi name'. rewrite handlers_set. cbn [set_handlers next_wrapper].
  case_decide; [done|]. destruct (Hi name') as [H3 H4]. split; [done|].
  eapply Forall_impl; [exact H4|]. simpl. lia.
Qed.

Lemma run_wrappers_inv behaviour stack l : wrappers_inv (run behaviour stack l).
Proof.
  apply run_keeps.
  - intros name hs em Hs Hi. destruct em as [r f n c]. destruct (Hi name) as [H1 H2].
    apply (wrappers_inv_set name hs (mkEmitter r f n c) n); [by eapply sublist_NoDup| |done|done].
    apply Forall_forall. intros w Hw. rewrite Forall_forall in H2. apply H2. by eapply elem_of_sublist.
  - intros name fn em Hi. destruct (Hi name) as [H1 H2]. apply (wrappers_inv_set name _ em); [| |lia|done].
    + rewrite wrappers_app. apply NoDup_app. split_and!; [done| |apply NoDup_singleton].
      intros w Hw ->%list_elem_of_singleton. rewrite Forall_forall in H2. specialize (H2 _ Hw). lia.
    + rewrite wrappers_app. apply Forall_app. split; [eapply Forall_impl; [exact H2|]; simpl; lia|].
      repeat constructor.
  - intros name fn em Hi. destruct (Hi name) as [H1 H2]. apply (wrappers_inv_set name _ em); [| |lia|done]; simpl.
    + apply NoDup_cons. split; [|done]. intros Hw. rewrite Forall_forall in H2. specialize (H2 _ Hw). lia.
    + constructor; [lia|]. eapply Forall_impl; [exact H2|]. simpl. lia.
  - intros h args em _ Hi. exact Hi.
  - intros h w args em _ _ Hi. exact Hi.
  - intros name. simpl. split; constructor.
Qed.

(** ** The calls of an emission *)

Definition quiet (a : action) : bool :=
  match a with AEmit _ _ | ASafeEmit _ _ => false | _ => true end.

(** The first exception of a listener. *)
Fixpoint thrown (l : list action) : option error :=
  match l with
  | [] => None
  | AThrow e :: _ => Some e
  | _ :: l => thrown l
  end.

(** The handlers that are called, and the exception that ends the emission. *)
Fixpoint called (behaviour : nat -> list val -> list action) (args : list val) (hs : list handler) :
    list handler * option error :=
  match hs with
  | [] => ([], None)
  | h :: hs =>
      match thrown (behaviour (h_fn h) args) with
      | Some e => ([h], Some e)
      | None => let '(l, r) := called behaviour args hs in (h :: l, r)
      end
  end.

Definition not_fired (em : emitter) (h : handler) : bool :=
  match h_wrapper h with None => true | Some w => negb (bool_decide (w ∈ fired em)) end.

Definition raised {A} (a : A) (o : option error) : result A := match o with Some e => Err e | None => Ok a end.

Section snapshot.
Context (behaviour : nat -> list val -> list action) (stack : nat).
Context (Hquiet : forall fn args, forallb quiet (behaviour fn args) = true).

Lemma run_actions_quiet l em :
  forallb quiet l = true ->
  let '(em', r) := run_actions (perform behaviour stack) l em in
  calls em' = calls em /\ fired em' = fired em /\ r = raised tt (thrown l).
Proof.
  revert em. induction l as [|a l IH]; intros em; simpl; [done|]. intros [Ha Hl]%andb_prop.
  assert (forall em', calls em' = calls em -> fired em' = fired em ->
    let '(em2, r) := run_actions (perform behaviour stack) l em' in
    calls em2 = calls em /\ fired em2 = fired em /\ r = raised tt (thrown l)) as Hgo.
  { intros em' Hc Hf. specialize (IH em' Hl). destruct (run_actions _ l em') as [em2 r]. by rewrite Hc, Hf in IH. }
  destruct stack, a; simpl in Ha |- *; try done; by apply Hgo.
Qed.

Lemma call_handler_quiet name args h em :
  let '(em', r) := call_handler behaviour (perform behaviour stack) name args h em in
  if not_fired em h then
    calls em' = calls em ++ [(h, args)] /\
    (forall w, w ∈ fired em' <-> w ∈ fired em \/ h_wrapper h = Some w) /\
    r = raised tt (thrown (behaviour (h_fn h) args))
  else em' = em /\ r = Ok tt.
Proof.
  unfold call_handler, not_fired, invoke. destruct (h_wrapper h) as [w|] eqn:Hw.
  - case_bool_decide as Hf; simpl; [done|].
    pose proof (run_actions_quiet (behaviour (h_fn h) args)
      (record_call h args (mark_fired w (remove_wrapper name w em))) (Hquiet _ _)) as Hr.
    destruct (run_actions _ _ _) as [em' r]. destruct Hr as (Hc & Hfi & ->). split_and!; [done| |done].
    intros w'. rewrite Hfi. cbn [record_call mark_fired fired remove_wrapper set_handlers].
    rewrite elem_of_cons. split; [intros [->|?]; auto|intros [?|[= ->]]; auto].
  - pose proof (run_actions_quiet (behaviour (h_fn h) args) (record_call h args em) (Hquiet _ _)) as Hr.
    destruct (run_actions _ _ _) as [em' r]. destruct Hr as (Hc & Hfi & ->). split_and!; [done| |done].
    intros w'. rewrite Hfi. cbn [record_call fired]. split; [by left|by intros [?|?]].
Qed.

Lemma call_all_quiet name args hs em :
  NoDup (wrappers hs) ->
  let '(em', r) := call_all behaviour (perform behaviour stack) name args hs em in
  let '(l, o) := called behaviour args (List.filter (not_fired em) hs) in
  calls em' = calls em ++ map (fun h => (h, args)) l /\ r = raised tt o.
Proof.
  revert em. induction hs as [|h hs IH]; intros em Hnd; simpl; [by rewrite app_nil_r|].
  assert (NoDup (wrappers hs)) as Hnd'.
  { destruct h as [fn [w|]]; simpl in Hnd; [by apply NoDup_cons in Hnd as [_ ?]|done]. }
  pose proof (call_handler_quiet name args h em) as Hh.
  destruct (call_handler _ _ _ _ _ _) as [em1 r1]. destruct (not_fired em h) eqn:Hlive.
  - destruct Hh as (Hc & Hf & ->). simpl. destruct (thrown _) as [e|]; simpl; [by rewrite Hc|].
    specialize (IH em1 Hnd'). destruct (call_all _ _ _ _ hs em1) as [em2 r2].
    assert (List.filter (not_fired em1) hs = List.filter (not_fired em) hs) as Heq.
    { apply List.filter_ext_in. intros h' Hin. unfold not_fired. destruct (h_wrapper h') as [w'|] eqn:Hw'; [|done].
      f_equal. apply bool_decide_ext. rewrite Hf. split; [|by left]. intros [?|Hw]; [done|]. exfalso.
      destruct h as [fn [w|]]; [|done]. simpl in Hw, Hnd. injection Hw as ->.
      apply NoDup_cons in Hnd as [Hnot _]. apply Hnot. apply list_elem_of_omap. exists h'. split; [|done].
      by apply list_elem_of_In. }
    rewrite Heq in IH. destruct (called behaviour args (List.filter _ hs)) as [l o]. destruct IH as [IH1 IH2].
    simpl. rewrite IH1, Hc, <-app_assoc. done.
  - destruct Hh as [-> ->]. by apply IH.
Qed.
End snapshot.

(** ** Properties *)

(** A listener registered with [once] or [prependOnceListener] is called at
    most once, even if it or another listener emits the event again while it is
    emitted, registers and removes listeners, or throws. *)
Theorem once_at_most_once (behaviour : nat -> list val -> list action) (stack : nat) (l : list action) (w : nat) :
  calls_of w (run behaviour stack l) <= 1.
Proof. rewrite run_once_inv. by destruct (decide _); [|lia]. Qed.


(** C33: [safeEmit] never throws: it does to the emitter what [emit] does, and
    returns whether the event had listeners, also when one of them throws and
    when nobody listens to 'error'. *)
Theorem safeEmit_never_throws (behaviour : nat -> list val -> list action) (stack : nat) (name : string)
    (args : list val) (em : emitter) :
  safeEmit behaviour stack name args em =
    ((emit behaviour stack name args em).1, Ok (0 <? listenerCount name em)%nat).
Proof.
  unfold safeEmit, safeEmit_with, emit.
  destruct (emit_with _ _ _ _ _) as [em' [b|e]] eqn:He; [|done]. simpl. f_equal. f_equal.
  unfold emit_with, listenerCount in *. destruct (handlers name em) as [|h hs].
  - destruct (String.eqb name "error"); [done|]. by injection He as _ <-.
  - destruct (call_all _ _ _ _ _ _) as [em2 [u|e]]; [|done]. by injection He as _ <-.
Qed.

(** Without a name [removeAllListeners] leaves the listeners of every event
    alone that is not called 'undefined'. *)
Lemma removeAllListeners_without_name (em : emitter) (name : string) :
  name <> "undefined" -> handlers name (removeAllListeners None em) = handlers name em.
Proof. intros Hn. unfold removeAllListeners. by rewrite handlers_set, decide_False by done. Qed.

(** ** An example

    Listener 1 adds listener 3 and removes listener 2; listener 2 throws. *)

Definition example_behaviour (fn : nat) (args : list val) : list action :=
  match fn with
  | 1 => [AOn "event" 3; AOff "event" 2]
  | 2 => [AThrow (PlainError "thrown")]
  | _ => []
  end.

Definition example_program : list action :=
  [AOn "event" 1; AOnce "event" 4; AOn "event" 2; APrepend "event" 5].

