(* ===== verification/Events.v ===== *)
(** * Effects and asynchronous calls

    What the objects of the API do to their surroundings: requests to the
    worker, events emitted to the application and to the parent object, and
    subscriptions given up.  An operation of an object is a function from its
    state to its new state and the effects in the order they happen.

    An asynchronous method runs up to its [await] and is resumed when the worker
    responds: the part after the [await] is a value of a type of continuations,
    kept in the list of calls in flight of the object.  Responses may arrive in
    any order. *)

From S2P Require Import Prelude Js Framing.

Inductive effect : Type :=
| Request (method : string) (handlerId : option string) (reqData : val)
| Notify (event handlerId : string) (data : option string) (payload : buffer)
| PayloadRequest (method handlerId data : string) (payload : buffer)
| Unsubscribe (id : string)           (* removeAllListeners(id) on both channels *)
| Emit (event : string) (arg : val)   (* this.emit() and this.safeEmit() *)
| Observer (event : string) (arg : val).

Section dec_list.
Context {A : Type} (dec : forall x y : A, {x = y} + {x <> y}).

Fixpoint list_dec (l k : list A) : {l = k} + {l <> k}.
Proof.
  destruct l as [|x l], k as [|y k]; [by left|by right|by right|].
  destruct (dec x y) as [->|]; [|right; congruence].
  destruct (list_dec l k) as [->|]; [by left|right; congruence].
Defined.

Fixpoint props_dec (l k : list (string * A)) : {l = k} + {l <> k}.
Proof.
  destruct l as [|[a x] l], k as [|[b y] k]; [by left|by right|by right|].
  destruct (decide (a = b)) as [->|]; [|right; congruence].
  destruct (dec x y) as [->|]; [|right; congruence].
  destruct (props_dec l k) as [->|]; [by left|right; congruence].
Defined.
End dec_list.

Fixpoint val_dec (v w : val) : {v = w} + {v <> w}.
Proof.
  destruct v as [| |b|n|s|l ps|ps], w as [| |b'|n'|s'|l' ps'|ps']; try (right; congruence);
    try (left; reflexivity).
  - destruct (decide (b = b')) as [->|]; [by left|right; congruence].
  - destruct (decide (n = n')) as [->|]; [by left|right; congruence].
  - destruct (decide (s = s')) as [->|]; [by left|right; congruence].
  - destruct (list_dec val_dec l l') as [->|]; [|right; congruence].
    destruct (props_dec val_dec ps ps') as [->|]; [by left|right; congruence].
  - destruct (props_dec val_dec ps ps') as [->|]; [by left|right; congruence].
Defined.

#[export] Instance val_eq_dec : EqDecision val := val_dec.

#[export] Instance effect_eq_dec : EqDecision effect.
Proof. solve_decision. Defined.

Definition count_effect (e : effect) (es : list effect) : nat :=
  length (List.filter (fun e' => bool_decide (e' = e)) es).

Lemma count_effect_app e es es' :
  count_effect e (es ++ es') = count_effect e es + count_effect e es'.
Proof. unfold count_effect. by rewrite List.filter_app, length_app. Qed.

(** A [string], a [Buffer] or anything else. *)
Inductive message : Type :=
| Mstring (s : string)
| Mbuffer (b : buffer)
| Mother.

(** ** Calls in flight *)

Section calls.
Context {K : Type}.

Record calls_in_flight : Type := mkCalls {
  next_call : nat;
  in_flight : list (nat * K)
}.

Definition no_calls : calls_in_flight := mkCalls 0 [].

(** A method reaches its [await]; the call is named by a number. *)
Definition await (k : K) (c : calls_in_flight) : calls_in_flight :=
  mkCalls (S (next_call c)) (in_flight c ++ [(next_call c, k)]).

(** The response to call [n] has arrived: its continuation. *)
Definition resume_call (n : nat) (c : calls_in_flight) : option (K * calls_in_flight) :=
  match jget n (in_flight c) with
  | Some k => Some (k, mkCalls (next_call c) (jdel n (in_flight c)))
  | None => None
  end.

(** Numbers of calls are not reused. *)
Definition calls_wf (c : calls_in_flight) : Prop :=
  Forall (fun n => n < next_call c) (jkeys (in_flight c)).

Lemma await_wf k c : calls_wf c -> calls_wf (await k c).
Proof.
  unfold calls_wf, await, jkeys. simpl. intros H. rewrite map_app. apply Forall_app.
  split; [|by repeat constructor; simpl; lia]. eapply Forall_impl; [exact H|]. simpl. lia.
Qed.

Lemma await_resume k c :
  calls_wf c -> exists c', resume_call (next_call c) (await k c) = Some (k, c') /\
    in_flight c' = in_flight c /\ next_call c' = S (next_call c).
Proof.
  intros Hwf. unfold resume_call, await. simpl.
  assert (jget (next_call c) (in_flight c) = None) as Hn.
  { apply jget_None. intros Hin. eapply Forall_forall in Hwf; [|exact Hin]. simpl in Hwf. lia. }
  rewrite <-(jset_fresh _ k _ Hn), jget_jset_eq. eexists. split; [done|]. simpl. split; [|done].
  rewrite (jset_fresh _ k _ Hn). clear Hwf. induction (in_flight c) as [|[m x] l IH]; simpl in *.
  - by rewrite decide_True.
  - destruct (decide (next_call c = m)); [done|]. by rewrite IH.
Qed.
End calls.
Arguments calls_in_flight : clear implicits.

(** ** Pause and resume events of an observer

    [pause_events paused es] follows the observer's 'pause' and 'resume' events:
    it fails when one comes in the state it is supposed to lead to. *)
Definition pause_event (paused : bool) (e : effect) : option bool :=
  match e with
  | Observer ev _ =>
      if String.eqb ev "pause" then if paused then None else Some true
      else if String.eqb ev "resume" then if paused then Some false else None
      else Some paused
  | _ => Some paused
  end.

Fixpoint pause_events (paused : bool) (es : list effect) : option bool :=
  match es with
  | [] => Some paused
  | e :: es => match pause_event paused e with
               | Some paused => pause_events paused es
               | None => None
               end
  end.

Lemma pause_events_app paused es es' :
  pause_events paused (es ++ es') =
    match pause_events paused es with Some b => pause_events b es' | None => None end.
Proof.
  revert paused. induction es as [|e es IH]; intros paused; simpl; [done|].
  by destruct (pause_event paused e).
Qed.
