(* ===== verification/Producer.v ===== *)
(** * Producer.ts

    The state of a producer and its methods.  [p_calls] holds the methods that
    wait for a response of the worker. *)

From S2P Require Import Prelude Js RtpParameters Framing Events.

(** What is left to do after the [await]; [Kdone] is a method that only waits. *)
Inductive continuation : Type :=
| Kpause (wasPaused : bool)
| Kresume (wasPaused : bool)
| Kdone.

Record producer : Type := mkProducer {
  producerId : string;
  transportId : string;
  kind : MediaKind;
  type : string;
  rtpParameters : RtpParameters;
  consumableRtpParameters : RtpParameters;
  closed : bool;
  paused : bool;
  score : val;
  p_calls : calls_in_flight continuation
}.

(** The constructor. *)
Definition new_producer (id tid : string) (k : MediaKind) (ty : string)
    (rtp consumable : RtpParameters) (isPaused : bool) : producer :=
  mkProducer id tid k ty rtp consumable false isPaused (VArr [] []) no_calls.

Definition with_closed (b : bool) (p : producer) : producer :=
  mkProducer (producerId p) (transportId p) (kind p) (type p) (rtpParameters p)
    (consumableRtpParameters p) b (paused p) (score p) (p_calls p).
Definition with_paused (b : bool) (p : producer) : producer :=
  mkProducer (producerId p) (transportId p) (kind p) (type p) (rtpParameters p)
    (consumableRtpParameters p) (closed p) b (score p) (p_calls p).
Definition with_score (v : val) (p : producer) : producer :=
  mkProducer (producerId p) (transportId p) (kind p) (type p) (rtpParameters p)
    (consumableRtpParameters p) (closed p) (paused p) v (p_calls p).
Definition with_calls (c : calls_in_flight continuation) (p : producer) : producer :=
  mkProducer (producerId p) (transportId p) (kind p) (type p) (rtpParameters p)
    (consumableRtpParameters p) (closed p) (paused p) (score p) c.

Definition close (p : producer) : producer * list effect :=
  if closed p then (p, [])
  else (with_closed true p,
        [Unsubscribe (producerId p);
         Request "transport.closeProducer" (Some (transportId p))
           (VObj [("producerId", VStr (producerId p))]);
         Emit "@close" VUndef;
         Observer "close" VUndef]).

Definition transportClosed (p : producer) : producer * list effect :=
  if closed p then (p, [])
  else (with_closed true p,
        [Unsubscribe (producerId p);
         Emit "transportclose" VUndef;
         Observer "close" VUndef]).

(** A method up to its [await]. *)
Definition call (method : string) (reqData : val) (k : continuation) (p : producer) :
    producer * list effect :=
  (with_calls (await k (p_calls p)) p, [Request method (Some (producerId p)) reqData]).

Definition dump (p : producer) := call "producer.dump" VUndef Kdone p.
Definition getStats (p : producer) := call "producer.getStats" VUndef Kdone p.
Definition pause (p : producer) := call "producer.pause" VUndef (Kpause (paused p)) p.
Definition resume (p : producer) := call "producer.resume" VUndef (Kresume (paused p)) p.
Definition enableTraceEvent (types : val) (p : producer) :=
  call "producer.enableTraceEvent"
    (VObj [("types", match types with VUndef => VArr [] [] | v => v end)]) Kdone p.

(** After the [await], when the request succeeded. *)
Definition continue (k : continuation) (p : producer) : producer * list effect :=
  match k with
  | Kpause wasPaused =>
      (with_paused true p, if negb wasPaused then [Observer "pause" VUndef] else [])
  | Kresume wasPaused =>
      (with_paused false p, if wasPaused then [Observer "resume" VUndef] else [])
  | Kdone => (p, [])
  end.

(** The response to a call: the promise of a failed request rejects the method. *)
Definition response (n : nat) (res : result val) (p : producer) : producer * list effect :=
  match resume_call n (p_calls p) with
  | None => (p, [])
  | Some (k, calls) =>
      let p := with_calls calls p in
      match res with Ok _ => continue k p | Err _ => (p, []) end
  end.

Definition send (rtpPacket : message) (p : producer) : result (list effect) :=
  match rtpPacket with
  | Mbuffer b => Ok [Notify "producer.send" (producerId p) None b]
  | _ => Err (TypeError "rtpPacket must be a Buffer")
  end.

(** [handleWorkerNotifications]: the listener on the channel. *)
Definition on_notification (event : string) (data : val) (p : producer) : producer * list effect :=
  if String.eqb event "score" then
    (with_score data p, [Emit "score" data; Observer "score" data])
  else if String.eqb event "videoorientationchange" then
    (p, [Emit "videoorientationchange" data; Observer "videoorientationchange" data])
  else if String.eqb event "trace" then
    (p, [Emit "trace" data; Observer "trace" data])
  else (p, []).

(** ** Runs *)

Inductive op : Type :=
| Close
| TransportClosed
| Dump
| GetStats
| Pause
| Resume
| EnableTraceEvent (types : val)
| Response (n : nat) (res : result val)
| Notification (event : string) (data : val).

Definition apply_op (o : op) (p : producer) : producer * list effect :=
  match o with
  | Close => close p
  | TransportClosed => transportClosed p
  | Dump => dump p
  | GetStats => getStats p
  | Pause => pause p
  | Resume => resume p
  | EnableTraceEvent types => enableTraceEvent types p
  | Response n res => response n res p
  | Notification event data => on_notification event data p
  end.

(** A run accumulates the effects. *)
Definition step (st : producer * list effect) (o : op) : producer * list effect :=
  let '(p, es) := apply_op o st.1 in (p, st.2 ++ es).

Definition run (p : producer) (ops : list op) : producer * list effect := foldl step (p, []) ops.

(** A use of the producer in which a method is awaited before the next thing
    happens. *)
Inductive sequential_op : Type :=
| Awaited (o : op) (res : result val)
| Immediate (o : op).

Definition is_call (o : op) : bool :=
  match o with Dump | GetStats | Pause | Resume | EnableTraceEvent _ => true | _ => false end.

(** The operations, given the number of the next call. *)
Fixpoint sequential (n : nat) (ops : list sequential_op) : list op :=
  match ops with
  | [] => []
  | Awaited o res :: ops =>
      if is_call o then o :: Response n res :: sequential (S n) ops else o :: sequential n ops
  | Immediate o :: ops =>
      if is_call o then sequential n ops
      else match o with Response _ _ => sequential n ops | _ => o :: sequential n ops end
  end.

Lemma producer_step_eq o p p' es es' : apply_op o p = (p', es') -> step (p, es) o = (p', es ++ es').
Proof. intros H. unfold step. cbn [fst snd]. by rewrite H. Qed.

(** ** Closing *)

Definition closed_effects (id tid : string) (b : bool) (es : list effect) : Prop :=
  count_effect (Observer "close" VUndef) es = Nat.b2n b /\
  count_effect (Emit "@close" VUndef) es + count_effect (Emit "transportclose" VUndef) es = Nat.b2n b /\
  count_effect (Request "transport.closeProducer" (Some tid) (VObj [("producerId", VStr id)])) es =
    count_effect (Emit "@close" VUndef) es.

Lemma producer_closed_effects_app id tid b b' es es' :
  closed_effects id tid b es -> closed_effects id tid b' es' -> b && b' = false ->
  closed_effects id tid (b || b') (es ++ es').
Proof.
  unfold closed_effects. rewrite !count_effect_app. intros (H1 & H2 & H3) (H4 & H5 & H6) Hb.
  destruct b, b'; simpl in *; try done; lia.
Qed.

(** One operation: it closes an open producer at most once. *)
Lemma producer_apply_op_closed o p p' es :
  apply_op o p = (p', es) ->
  producerId p' = producerId p /\ transportId p' = transportId p /\
  closed p' = closed p || closed p' /\
  closed_effects (producerId p) (transportId p) (negb (closed p) && closed p') es.
Proof.
  assert (closed_effects (producerId p) (transportId p) false []) as Hnil by done.
  destruct o; simpl.
  - unfold close. destruct (closed p) eqn:Hc; intros [= <- <-]; simpl; rewrite ?Hc; [done|].
    split_and!; try done. unfold closed_effects, count_effect. simpl.
    rewrite !bool_decide_eq_true_2 by done. done.
  - unfold transportClosed. destruct (closed p) eqn:Hc; intros [= <- <-]; simpl; rewrite ?Hc; done.
  - intros [= <- <-]. simpl. destruct (closed p); done.
  - intros [= <- <-]. simpl. destruct (closed p); done.
  - intros [= <- <-]. simpl. destruct (closed p); done.
  - intros [= <- <-]. simpl. destruct (closed p); done.
  - intros [= <- <-]. simpl. destruct (closed p); done.
  - unfold response. destruct (resume_call n (p_calls p)) as [[k calls]|].
    + destruct res; [destruct k as [[]|[]|]|]; intros [= <- <-]; simpl; destruct (closed p); done.
    + intros [= <- <-]. destruct (closed p); done.
  - unfold on_notification. destruct (String.eqb event "score"); [|destruct (String.eqb event "videoorientationchange");
      [|destruct (String.eqb event "trace")]]; intros [= <- <-]; simpl; destruct (closed p); done.
Qed.

Lemma producer_run_closed p ops :
  closed p = false ->
  let '(p', es) := run p ops in
  producerId p' = producerId p /\ transportId p' = transportId p /\
  closed_effects (producerId p) (transportId p) (closed p') es.
Proof.
  intros Hc. unfold run. induction ops as [|o ops IH] using rev_ind; [simpl; by rewrite Hc|].
  rewrite foldl_app. simpl. destruct (foldl step (p, []) ops) as [p1 es1]. unfold step. simpl.
  destruct IH as (Hi1 & Ht1 & He1). destruct (apply_op o p1) as [p2 es2] eqn:Ho.
  apply producer_apply_op_closed in Ho as (Hi2 & Ht2 & Hc2 & He2). rewrite Hi1, Ht1 in *.
  split; [done|]. split; [done|].
  pose proof (producer_closed_effects_app _ _ _ _ _ _ He1 He2) as H. rewrite Hc2.
  replace (closed p1 || closed p2) with (closed p1 || negb (closed p1) && closed p2)
    by (by destruct (closed p1)).
  apply H. by destruct (closed p1).
Qed.

(** ** Sequential use *)

Definition settled (p : producer) : Prop := in_flight (p_calls p) = [].

Lemma producer_apply_op_sequential o p p' es :
  is_call o = false -> (forall n res, o <> Response n res) ->
  apply_op o p = (p', es) ->
  paused p' = paused p /\ p_calls p' = p_calls p /\ pause_events (paused p) es = Some (paused p).
Proof.
  intros Hcall Hres. destruct o; simpl in *; try done; try (by exfalso; eapply Hres).
  - unfold close. destruct (closed p); intros [= <- <-]; done.
  - unfold transportClosed. destruct (closed p); intros [= <- <-]; done.
  - unfold on_notification. destruct (String.eqb event "score"); [|destruct (String.eqb event "videoorientationchange");
      [|destruct (String.eqb event "trace")]]; intros [= <- <-]; done.
Qed.

(** A call and its response. *)
Lemma producer_awaited_call o res p es :
  is_call o = true -> settled p ->
  exists p' es', foldl step (p, es) [o; Response (next_call (p_calls p)) res] = (p', es ++ es') /\
    settled p' /\ next_call (p_calls p') = S (next_call (p_calls p)) /\
    pause_events (paused p) es' = Some (paused p').
Proof.
  intros Hcall Hs. unfold settled in *.
  assert (exists method data k, apply_op o p = call method data k p /\
    (forall b, k = Kpause b \/ k = Kresume b -> b = paused p)) as (method & data & k & Ho & Hk).
  { destruct o; try done; repeat eexists; by intros b [[=]|[=]]. }
  cbn [foldl]. rewrite (producer_step_eq _ _ _ _ _ Ho). unfold step. cbn [fst snd]. simpl apply_op.
  unfold response. simpl p_calls.
  destruct (await_resume k (p_calls p)) as (c & Hr & Hif & Hn); [unfold calls_wf; by rewrite Hs|].
  rewrite Hr.
  destruct res as [v|e]; [destruct k as [b|b|]|]; cbn [continue].
  - rewrite (Hk b) by by left. eexists _, _. split; [by rewrite <-app_assoc|]. simpl. rewrite Hif.
    split_and!; try done. by destruct (paused p).
  - rewrite (Hk b) by by right. eexists _, _. split; [by rewrite <-app_assoc|]. simpl. rewrite Hif.
    split_and!; try done. by destruct (paused p).
  - eexists _, _. split; [by rewrite <-app_assoc|]. simpl. by rewrite Hif.
  - eexists _, _. split; [by rewrite app_nil_r|]. simpl. by rewrite Hif.
Qed.

Lemma producer_sequential_pause ops p es b :
  settled p -> pause_events b es = Some (paused p) ->
  let '(p', es') := foldl step (p, es) (sequential (next_call (p_calls p)) ops) in
  settled p' /\ pause_events b es' = Some (paused p').
Proof.
  revert p es. induction ops as [|o ops IH]; intros p es Hs Hes; [done|].
  assert (forall o', is_call o' = false -> (forall n res, o' <> Response n res) ->
    let '(p', es') := foldl step (p, es) (o' :: sequential (next_call (p_calls p)) ops) in
    settled p' /\ pause_events b es' = Some (paused p')) as Hstep.
  { intros o' Hc Hr. cbn [foldl]. unfold step at 2. simpl.
    destruct (apply_op o' p) as [p1 es1] eqn:Ho.
    apply producer_apply_op_sequential in Ho as (Hp & Hcalls & He); [|done..].
    rewrite <-Hcalls. apply IH; [unfold settled; by rewrite Hcalls|].
    rewrite pause_events_app, Hes. by rewrite Hp. }
  destruct o as [o res|o]; cbn [sequential].
  - destruct (is_call o) eqn:Hc.
    + destruct (producer_awaited_call o res p es Hc Hs) as (p1 & es1 & Hf & Hs1 & Hn1 & He1).
      change (o :: Response _ res :: ?l) with ([o; Response (next_call (p_calls p)) res] ++ l).
      rewrite foldl_app, Hf, <-Hn1. apply IH; [done|].
      by rewrite pause_events_app, Hes.
    + destruct o; try (apply Hstep; done). cbn [foldl].
      rewrite (producer_step_eq (Response n res0) p p es []), app_nil_r; [by apply IH|].
      simpl. unfold response, resume_call. by rewrite Hs.
  - destruct (is_call o) eqn:Hc; [by apply IH|]. destruct o; try (by apply Hstep). by apply IH.
Qed.

(** ** Properties *)

(** A producer is closed once, for one reason: in any run of a producer
    (calls, responses in any order, notifications, closing by itself and by the
    transport) the observer sees one 'close' if the producer is closed in the
    end and none otherwise, exactly one of '@close' and 'transportclose' goes
    with it, and the worker is asked to close the producer just when it was not
    closed by its transport. *)
Theorem producer_closes_once p ops :
  closed p = false ->
  let p' := (run p ops).1 in
  let es := (run p ops).2 in
  count_effect (Observer "close" VUndef) es = Nat.b2n (closed p') /\
  count_effect (Emit "@close" VUndef) es + count_effect (Emit "transportclose" VUndef) es =
    Nat.b2n (closed p') /\
  count_effect (Request "transport.closeProducer" (Some (transportId p))
                  (VObj [("producerId", VStr (producerId p))])) es =
    count_effect (Emit "@close" VUndef) es.
Proof.
  intros Hc. pose proof (producer_run_closed p ops Hc) as H. destruct (run p ops) as [p' es]. apply H.
Qed.

(** Pause and resume: when every call is awaited before the next thing
    happens, the observer's 'pause' and 'resume' events alternate, starting
    from the initial state, and the last one agrees with [paused]; whatever
    responses the worker gives. *)
Theorem producer_pause_events id tid k ty rtp consumable isPaused ops :
  let r := run (new_producer id tid k ty rtp consumable isPaused) (sequential 0 ops) in
  pause_events isPaused r.2 = Some (paused r.1).
Proof.
  pose proof (producer_sequential_pause ops (new_producer id tid k ty rtp consumable isPaused) [] isPaused
    eq_refl eq_refl) as H.
  unfold run. simpl in *. destruct (foldl step _ _) as [p' es']. apply H.
Qed.

(** Without awaiting, it is not so: two overlapping calls of [pause] that
    both succeed make the observer see 'pause' twice, since each compares with
    the flag as it was before its [await]. *)
Theorem producer_overlapping_pause id tid k ty rtp consumable :
  let r := run (new_producer id tid k ty rtp consumable false)
             [Pause; Pause; Response 0 (Ok VUndef); Response 1 (Ok VUndef)] in
  count_effect (Observer "pause" VUndef) r.2 = 2 /\ pause_events false r.2 = None.
Proof. split; vm_compute; reflexivity. Qed.

Definition example_rtp : RtpParameters := mkRtpParameters None [] [] [] (mkRtcpParameters None true None).

Lemma producer_closes_once_witness :
  count_effect (Observer "close" VUndef)
    (run (new_producer "p" "t" Kaudio "simple" example_rtp example_rtp false)
       [Pause; Close; Response 0 (Ok VUndef); TransportClosed]).2 = 1.
Proof.
  exact (proj1 (producer_closes_once (new_producer "p" "t" Kaudio "simple" example_rtp example_rtp false)
    [Pause; Close; Response 0 (Ok VUndef); TransportClosed] eq_refl)).
Defined.
