(* ===== verification/Consumer.v ===== *)
(** * Consumer.ts

    The state of a consumer and its methods, with the pause state of its
    producer.  The consumer is paused in effect when either of the two flags is
    set; this is what its observer is told. *)

From S2P Require Import Prelude Js RtpParameters Framing Events.

Inductive continuation : Type :=
| Kpause (wasPaused : bool)
| Kresume (wasPaused : bool)
| KpreferredLayers
| Kpriority
| Kdone.

Record consumer : Type := mkConsumer {
  consumerId : string;
  transportId : string;
  producerId : string;
  kind : MediaKind;
  type : string;
  rtpParameters : RtpParameters;
  closed : bool;
  paused : bool;
  producerPaused : bool;
  priority : val;
  score : val;
  preferredLayers : val;
  currentLayers : val;
  c_calls : calls_in_flight continuation
}.

(** The default of [score] in the constructor. *)
Definition default_score : val :=
  VObj [("score", VNum 10); ("producerScore", VNum 10); ("producerScores", VArr [] [])].

Definition new_consumer (id tid pid : string) (k : MediaKind) (ty : string) (rtp : RtpParameters)
    (isPaused isProducerPaused : bool) (initialScore layers : val) : consumer :=
  mkConsumer id tid pid k ty rtp false isPaused isProducerPaused (VNum 1)
    (match initialScore with VUndef => default_score | v => v end) layers VUndef no_calls.

Definition with_closed (b : bool) (c : consumer) : consumer :=
  mkConsumer (consumerId c) (transportId c) (producerId c) (kind c) (type c) (rtpParameters c)
    b (paused c) (producerPaused c) (priority c) (score c) (preferredLayers c) (currentLayers c)
    (c_calls c).
Definition with_paused (b : bool) (c : consumer) : consumer :=
  mkConsumer (consumerId c) (transportId c) (producerId c) (kind c) (type c) (rtpParameters c)
    (closed c) b (producerPaused c) (priority c) (score c) (preferredLayers c) (currentLayers c)
    (c_calls c).
Definition with_producerPaused (b : bool) (c : consumer) : consumer :=
  mkConsumer (consumerId c) (transportId c) (producerId c) (kind c) (type c) (rtpParameters c)
    (closed c) (paused c) b (priority c) (score c) (preferredLayers c) (currentLayers c)
    (c_calls c).
Definition with_priority (v : val) (c : consumer) : consumer :=
  mkConsumer (consumerId c) (transportId c) (producerId c) (kind c) (type c) (rtpParameters c)
    (closed c) (paused c) (producerPaused c) v (score c) (preferredLayers c) (currentLayers c)
    (c_calls c).
Definition with_score (v : val) (c : consumer) : consumer :=
  mkConsumer (consumerId c) (transportId c) (producerId c) (kind c) (type c) (rtpParameters c)
    (closed c) (paused c) (producerPaused c) (priority c) v (preferredLayers c) (currentLayers c)
    (c_calls c).
Definition with_preferredLayers (v : val) (c : consumer) : consumer :=
  mkConsumer (consumerId c) (transportId c) (producerId c) (kind c) (type c) (rtpParameters c)
    (closed c) (paused c) (producerPaused c) (priority c) (score c) v (currentLayers c)
    (c_calls c).
Definition with_currentLayers (v : val) (c : consumer) : consumer :=
  mkConsumer (consumerId c) (transportId c) (producerId c) (kind c) (type c) (rtpParameters c)
    (closed c) (paused c) (producerPaused c) (priority c) (score c) (preferredLayers c) v
    (c_calls c).
Definition with_calls (calls : calls_in_flight continuation) (c : consumer) : consumer :=
  mkConsumer (consumerId c) (transportId c) (producerId c) (kind c) (type c) (rtpParameters c)
    (closed c) (paused c) (producerPaused c) (priority c) (score c) (preferredLayers c)
    (currentLayers c) calls.

Definition close (c : consumer) : consumer * list effect :=
  if closed c then (c, [])
  else (with_closed true c,
        [Unsubscribe (consumerId c);
         Request "transport.closeConsumer" (Some (transportId c))
           (VObj [("consumerId", VStr (consumerId c))]);
         Emit "@close" VUndef;
         Observer "close" VUndef]).

Definition transportClosed (c : consumer) : consumer * list effect :=
  if closed c then (c, [])
  else (with_closed true c,
        [Unsubscribe (consumerId c);
         Emit "transportclose" VUndef;
         Observer "close" VUndef]).

Definition call (method : string) (reqData : val) (k : continuation) (c : consumer) :
    consumer * list effect :=
  (with_calls (await k (c_calls c)) c, [Request method (Some (consumerId c)) reqData]).

(** [this.#paused || this.#producerPaused] *)
Definition wasPaused (c : consumer) : bool := paused c || producerPaused c.

Definition dump (c : consumer) := call "consumer.dump" VUndef Kdone c.
Definition getStats (c : consumer) := call "consumer.getStats" VUndef Kdone c.
Definition pause (c : consumer) := call "consumer.pause" VUndef (Kpause (wasPaused c)) c.
Definition resume (c : consumer) := call "consumer.resume" VUndef (Kresume (wasPaused c)) c.
Definition setPreferredLayers (spatialLayer temporalLayer : val) (c : consumer) :=
  call "consumer.setPreferredLayers"
    (VObj [("spatialLayer", spatialLayer); ("temporalLayer", temporalLayer)]) KpreferredLayers c.
Definition setPriority (prio : val) (c : consumer) :=
  call "consumer.setPriority" (VObj [("priority", prio)]) Kpriority c.
Definition unsetPriority (c : consumer) :=
  call "consumer.setPriority" (VObj [("priority", VNum 1)]) Kpriority c.
Definition requestKeyFrame (c : consumer) := call "consumer.requestKeyFrame" VUndef Kdone c.
Definition enableTraceEvent (types : val) (c : consumer) :=
  call "consumer.enableTraceEvent"
    (VObj [("types", match types with VUndef => VArr [] [] | v => v end)]) Kdone c.

(** After the [await]; [data.priority] throws when there is no data. *)
Definition continue (k : continuation) (data : val) (c : consumer) : consumer * list effect :=
  match k with
  | Kpause wasPaused =>
      (with_paused true c, if negb wasPaused then [Observer "pause" VUndef] else [])
  | Kresume wasPaused =>
      (with_paused false c,
       if wasPaused && negb (producerPaused c) then [Observer "resume" VUndef] else [])
  | KpreferredLayers => (with_preferredLayers (if truthy data then data else VUndef) c, [])
  | Kpriority =>
      match data with
      | VUndef | VNull => (c, [])
      | _ => (with_priority (prop "priority" data) c, [])
      end
  | Kdone => (c, [])
  end.

Definition response (n : nat) (res : result val) (c : consumer) : consumer * list effect :=
  match resume_call n (c_calls c) with
  | None => (c, [])
  | Some (k, calls) =>
      let c := with_calls calls c in
      match res with Ok data => continue k data c | Err _ => (c, []) end
  end.

(** [handleWorkerNotifications]: the listeners on the two channels. *)
Definition on_notification (event : string) (data : val) (c : consumer) : consumer * list effect :=
  if String.eqb event "producerclose" then
    if closed c then (c, [])
    else (with_closed true c,
          [Unsubscribe (consumerId c);
           Emit "@producerclose" VUndef;
           Emit "producerclose" VUndef;
           Observer "close" VUndef])
  else if String.eqb event "producerpause" then
    if producerPaused c then (c, [])
    else (with_producerPaused true c,
          Emit "producerpause" VUndef ::
          (if negb (wasPaused c) then [Observer "pause" VUndef] else []))
  else if String.eqb event "producerresume" then
    if negb (producerPaused c) then (c, [])
    else (with_producerPaused false c,
          Emit "producerresume" VUndef ::
          (if wasPaused c && negb (paused c) then [Observer "resume" VUndef] else []))
  else if String.eqb event "score" then
    (with_score data c, [Emit "score" data; Observer "score" data])
  else if String.eqb event "layerschange" then
    (with_currentLayers data c, [Emit "layerschange" data; Observer "layerschange" data])
  else if String.eqb event "trace" then
    (c, [Emit "trace" data; Observer "trace" data])
  else (c, []).

(** The packet is named by its bytes. *)
Definition on_payload_notification (event : string) (payload : buffer) (c : consumer) :
    consumer * list effect :=
  if String.eqb event "rtp" then
    if closed c then (c, [])
    else (c, [Emit "rtp" (VStr (String.string_of_list_byte payload))])
  else (c, []).

(** ** Runs *)

Inductive op : Type :=
| Close
| TransportClosed
| Dump
| GetStats
| Pause
| Resume
| SetPreferredLayers (spatialLayer temporalLayer : val)
| SetPriority (prio : val)
| UnsetPriority
| RequestKeyFrame
| EnableTraceEvent (types : val)
| Response (n : nat) (res : result val)
| Notification (event : string) (data : val)
| PayloadNotification (event : string) (payload : buffer).

Definition apply_op (o : op) (c : consumer) : consumer * list effect :=
  match o with
  | Close => close c
  | TransportClosed => transportClosed c
  | Dump => dump c
  | GetStats => getStats c
  | Pause => pause c
  | Resume => resume c
  | SetPreferredLayers s t => setPreferredLayers s t c
  | SetPriority prio => setPriority prio c
  | UnsetPriority => unsetPriority c
  | RequestKeyFrame => requestKeyFrame c
  | EnableTraceEvent types => enableTraceEvent types c
  | Response n res => response n res c
  | Notification event data => on_notification event data c
  | PayloadNotification event payload => on_payload_notification event payload c
  end.

Definition step (st : consumer * list effect) (o : op) : consumer * list effect :=
  let '(c, es) := apply_op o st.1 in (c, st.2 ++ es).

Definition run (c : consumer) (ops : list op) : consumer * list effect := foldl step (c, []) ops.

(** A use of the consumer in which a method is awaited before the next thing
    happens. *)
Inductive sequential_op : Type :=
| Awaited (o : op) (res : result val)
| Immediate (o : op).

Definition is_call (o : op) : bool :=
  match o with
  | Close | TransportClosed | Response _ _ | Notification _ _ | PayloadNotification _ _ => false
  | _ => true
  end.

Fixpoint sequential (n : nat) (ops : list sequential_op) : list op :=
  match ops with
  | [] => []
  | Awaited o res :: ops =>
      if is_call o then o :: Response n res :: sequential (S n) ops else o :: sequential n ops
  | Immediate o :: ops =>
      if is_call o then sequential n ops
      else match o with Response _ _ => sequential n ops | _ => o :: sequential n ops end
  end.

Lemma consumer_step_eq o c c' es es' : apply_op o c = (c', es') -> step (c, es) o = (c', es ++ es').
Proof. intros H. unfold step. cbn [fst snd]. by rewrite H. Qed.

(** ** Closing *)

(** The events a consumer is closed with. *)
Definition closing_events (es : list effect) : nat :=
  count_effect (Emit "@close" VUndef) es + count_effect (Emit "transportclose" VUndef) es +
  count_effect (Emit "@producerclose" VUndef) es.

Definition closed_effects (id tid : string) (b : bool) (es : list effect) : Prop :=
  count_effect (Observer "close" VUndef) es = Nat.b2n b /\
  closing_events es = Nat.b2n b /\
  count_effect (Unsubscribe id) es = Nat.b2n b /\
  count_effect (Request "transport.closeConsumer" (Some tid) (VObj [("consumerId", VStr id)])) es =
    count_effect (Emit "@close" VUndef) es.

Lemma consumer_closed_effects_app id tid b b' es es' :
  closed_effects id tid b es -> closed_effects id tid b' es' -> b && b' = false ->
  closed_effects id tid (b || b') (es ++ es').
Proof.
  unfold closed_effects, closing_events. rewrite !count_effect_app.
  intros (H1 & H2 & H3 & H4) (H5 & H6 & H7 & H8) Hb.
  destruct b, b'; simpl in *; try done; lia.
Qed.

Lemma payload_event_closed id tid s :
  closed_effects id tid false [Emit "rtp" s].
Proof. done. Qed.

Lemma consumer_apply_op_closed o c c' es :
  apply_op o c = (c', es) ->
  consumerId c' = consumerId c /\ transportId c' = transportId c /\
  closed c' = closed c || closed c' /\
  closed_effects (consumerId c) (transportId c) (negb (closed c) && closed c') es.
Proof.
  destruct o; simpl; try (intros [= <- <-]; simpl; destruct (closed c); done).
  - unfold close. destruct (closed c) eqn:Hc; intros [= <- <-]; simpl; rewrite ?Hc; [done|].
    split_and!; try done. unfold closed_effects, closing_events, count_effect. simpl.
    rewrite !bool_decide_eq_true_2 by done. done.
  - unfold transportClosed. destruct (closed c) eqn:Hc; intros [= <- <-]; simpl; rewrite ?Hc; [done|].
    split_and!; try done. unfold closed_effects, closing_events, count_effect. simpl.
    rewrite !bool_decide_eq_true_2 by done. done.
  - unfold response. destruct (resume_call n (c_calls c)) as [[k calls]|].
    + destruct res as [data|]; [destruct k as [[]|[]| | |]; simpl; [| |destruct (producerPaused c)| | |destruct data|]|];
        intros [= <- <-]; simpl; destruct (closed c); done.
    + intros [= <- <-]. destruct (closed c); done.
  - unfold on_notification. destruct (String.eqb event "producerclose").
    { destruct (closed c) eqn:Hc; intros [= <- <-]; simpl; rewrite ?Hc; [done|].
      split_and!; try done. unfold closed_effects, closing_events, count_effect. simpl.
      rewrite !bool_decide_eq_true_2 by done. done. }
    destruct (String.eqb event "producerpause").
    { destruct (producerPaused c); [|destruct (wasPaused c)]; intros [= <- <-]; simpl;
        destruct (closed c); done. }
    destruct (String.eqb event "producerresume").
    { destruct (producerPaused c); [|]; simpl; [destruct (wasPaused c && negb (paused c))|]; intros [= <- <-]; simpl;
        destruct (closed c); done. }
    destruct (String.eqb event "score"); [|destruct (String.eqb event "layerschange");
      [|destruct (String.eqb event "trace")]]; intros [= <- <-]; simpl; destruct (closed c); done.
  - unfold on_payload_notification. destruct (String.eqb event "rtp"); [destruct (closed c) eqn:Hc|];
      intros [= <- <-]; simpl; rewrite ?Hc; try done. destruct (closed c); done.
Qed.

Lemma consumer_run_closed c ops :
  closed c = false ->
  let '(c', es) := run c ops in
  consumerId c' = consumerId c /\ transportId c' = transportId c /\
  closed_effects (consumerId c) (transportId c) (closed c') es.
Proof.
  intros Hc. unfold run. induction ops as [|o ops IH] using rev_ind; [simpl; by rewrite Hc|].
  rewrite foldl_app. simpl. destruct (foldl step (c, []) ops) as [c1 es1].
  destruct IH as (Hi1 & Ht1 & He1). destruct (apply_op o c1) as [c2 es2] eqn:Ho.
  rewrite (consumer_step_eq _ _ _ _ _ Ho).
  apply consumer_apply_op_closed in Ho as (Hi2 & Ht2 & Hc2 & He2). rewrite Hi1, Ht1 in *.
  split; [done|]. split; [done|].
  pose proof (consumer_closed_effects_app _ _ _ _ _ _ He1 He2) as H. rewrite Hc2.
  replace (closed c1 || closed c2) with (closed c1 || negb (closed c1) && closed c2)
    by (by destruct (closed c1)).
  apply H. by destruct (closed c1).
Qed.

(** ** Sequential use *)

Definition settled (c : consumer) : Prop := in_flight (c_calls c) = [].

Lemma consumer_apply_op_sequential o c c' es :
  is_call o = false -> (forall n res, o <> Response n res) ->
  apply_op o c = (c', es) ->
  c_calls c' = c_calls c /\ pause_events (wasPaused c) es = Some (wasPaused c').
Proof.
  intros Hcall Hres. destruct o; simpl in *; try done; try (by exfalso; eapply Hres).
  - unfold close. destruct (closed c); intros [= <- <-]; done.
  - unfold transportClosed. destruct (closed c); intros [= <- <-]; done.
  - unfold on_notification, wasPaused. destruct (String.eqb event "producerclose").
    { destruct (closed c); intros [= <- <-]; done. }
    destruct (String.eqb event "producerpause").
    { destruct (producerPaused c) eqn:Hp; intros [= <- <-]; simpl; rewrite ?Hp; destruct (paused c); done. }
    destruct (String.eqb event "producerresume").
    { destruct (producerPaused c) eqn:Hp; intros [= <- <-]; simpl; rewrite ?Hp; destruct (paused c); done. }
    destruct (String.eqb event "score"); [|destruct (String.eqb event "layerschange");
      [|destruct (String.eqb event "trace")]]; intros [= <- <-]; done.
  - unfold on_payload_notification. destruct (String.eqb event "rtp"); [destruct (closed c)|];
      intros [= <- <-]; done.
Qed.

Lemma continue_sequential k data c c' es :
  (forall b, k = Kpause b \/ k = Kresume b -> b = wasPaused c) ->
  continue k data c = (c', es) ->
  c_calls c' = c_calls c /\ pause_events (wasPaused c) es = Some (wasPaused c').
Proof.
  intros Hk. destruct k as [b|b| | |]; simpl.
  - rewrite (Hk b) by by left. intros [= <- <-]. unfold wasPaused. simpl.
    destruct (paused c), (producerPaused c); done.
  - rewrite (Hk b) by by right. intros [= <- <-]. unfold wasPaused. simpl.
    destruct (paused c), (producerPaused c); done.
  - intros [= <- <-]. done.
  - destruct data; intros [= <- <-]; done.
  - intros [= <- <-]. done.
Qed.

Lemma consumer_awaited_call o res c es :
  is_call o = true -> settled c ->
  exists c' es', foldl step (c, es) [o; Response (next_call (c_calls c)) res] = (c', es ++ es') /\
    settled c' /\ next_call (c_calls c') = S (next_call (c_calls c)) /\
    pause_events (wasPaused c) es' = Some (wasPaused c').
Proof.
  intros Hcall Hs. unfold settled in *.
  assert (exists method data k, apply_op o c = call method data k c /\
    (forall b, k = Kpause b \/ k = Kresume b -> b = wasPaused c)) as (method & data & k & Ho & Hk).
  { destruct o; try done; repeat eexists; by intros b [[=]|[=]]. }
  cbn [foldl]. rewrite (consumer_step_eq _ _ _ _ _ Ho). unfold step. cbn [fst snd]. simpl apply_op.
  unfold response. simpl c_calls.
  destruct (await_resume k (c_calls c)) as (calls & Hr & Hif & Hn); [unfold calls_wf; by rewrite Hs|].
  rewrite Hr. set (c1 := with_calls calls _).
  destruct res as [v|e].
  - destruct (continue k v c1) as [c2 es2] eqn:Hcont.
    destruct (continue_sequential k v c1 c2 es2 Hk Hcont) as [Hc2 He2].
    eexists _, _. split; [by rewrite <-app_assoc|]. rewrite Hc2. simpl. by rewrite Hif.
  - eexists _, _. split; [by rewrite app_nil_r|]. simpl. by rewrite Hif.
Qed.

Lemma consumer_sequential_pause ops c es b :
  settled c -> pause_events b es = Some (wasPaused c) ->
  let '(c', es') := foldl step (c, es) (sequential (next_call (c_calls c)) ops) in
  settled c' /\ pause_events b es' = Some (wasPaused c').
Proof.
  revert c es. induction ops as [|o ops IH]; intros c es Hs Hes; [done|].
  assert (forall o', is_call o' = false -> (forall n res, o' <> Response n res) ->
    let '(c', es') := foldl step (c, es) (o' :: sequential (next_call (c_calls c)) ops) in
    settled c' /\ pause_events b es' = Some (wasPaused c')) as Hstep.
  { intros o' Hc Hr. cbn [foldl]. destruct (apply_op o' c) as [c1 es1] eqn:Ho.
    rewrite (consumer_step_eq _ _ _ _ _ Ho).
    apply consumer_apply_op_sequential in Ho as (Hcalls & He); [|done..].
    rewrite <-Hcalls. apply IH; [unfold settled; by rewrite Hcalls|].
    by rewrite pause_events_app, Hes. }
  destruct o as [o res|o]; cbn [sequential].
  - destruct (is_call o) eqn:Hc.
    + destruct (consumer_awaited_call o res c es Hc Hs) as (c1 & es1 & Hf & Hs1 & Hn1 & He1).
      change (o :: Response _ res :: ?l) with ([o; Response (next_call (c_calls c)) res] ++ l).
      rewrite foldl_app, Hf, <-Hn1. apply IH; [done|].
      by rewrite pause_events_app, Hes.
    + destruct o; try (apply Hstep; done). cbn [foldl].
      rewrite (consumer_step_eq (Response n res0) c c es []), app_nil_r; [by apply IH|].
      simpl. unfold response, resume_call. by rewrite Hs.
  - destruct (is_call o) eqn:Hc; [by apply IH|]. destruct o; try (by apply Hstep). by apply IH.
Qed.

(** ** Properties *)

(** A consumer is closed once, for one of its three reasons (by itself, by
    its transport, by its producer), in any run: one observer 'close', one
    closing event, subscriptions given up once, and the worker is asked to
    close it just when it was closed by itself. *)
Theorem consumer_closes_once c ops :
  closed c = false ->
  let c' := (run c ops).1 in
  let es := (run c ops).2 in
  count_effect (Observer "close" VUndef) es = Nat.b2n (closed c') /\
  closing_events es = Nat.b2n (closed c') /\
  count_effect (Unsubscribe (consumerId c)) es = Nat.b2n (closed c') /\
  count_effect (Request "transport.closeConsumer" (Some (transportId c))
                  (VObj [("consumerId", VStr (consumerId c))])) es =
    count_effect (Emit "@close" VUndef) es.
Proof.
  intros Hc. pose proof (consumer_run_closed c ops Hc) as H. destruct (run c ops) as [c' es]. apply H.
Qed.

(** What the observer of a consumer is told: when every call is awaited
    before the next thing happens, its 'pause' and 'resume' events alternate and
    agree with the consumer being paused in effect, that is, by itself or by its
    producer, whichever of the two flags changes. *)
Theorem consumer_pause_events id tid pid k ty rtp isPaused isProducerPaused sc layers ops :
  let r := run (new_consumer id tid pid k ty rtp isPaused isProducerPaused sc layers)
             (sequential 0 ops) in
  pause_events (isPaused || isProducerPaused) r.2 = Some (paused r.1 || producerPaused r.1).
Proof.
  pose proof (consumer_sequential_pause ops
    (new_consumer id tid pid k ty rtp isPaused isProducerPaused sc layers) []
    (isPaused || isProducerPaused) eq_refl eq_refl) as H.
  unfold run. simpl in *. destruct (foldl step _ _) as [c' es']. apply H.
Qed.

(** A race the code does not handle: when the producer is paused while
    [pause] waits for its response, the observer sees 'pause' twice. *)
Theorem consumer_pause_race id tid pid k ty rtp sc layers :
  let r := run (new_consumer id tid pid k ty rtp false false sc layers)
             [Pause; Notification "producerpause" VUndef; Response 0 (Ok VUndef)] in
  count_effect (Observer "pause" VUndef) r.2 = 2 /\ pause_events false r.2 = None.
Proof. split; vm_compute; reflexivity. Qed.

Definition example_consumer : consumer :=
  new_consumer "c" "t" "p" Kvideo "simple" (mkRtpParameters None [] [] [] (mkRtcpParameters None true None))
    false false VUndef VUndef.

Lemma consumer_closes_once_witness :
  count_effect (Observer "close" VUndef)
    (run example_consumer [Notification "producerclose" VUndef; Close; TransportClosed]).2 = 1.
Proof.
  exact (proj1 (consumer_closes_once example_consumer
    [Notification "producerclose" VUndef; Close; TransportClosed] eq_refl)).
Defined.
