(* ===== verification/DataProducer.v ===== *)
(** * DataProducer.ts

    Data producers, and the choice of the SCTP payload protocol identifier that
    DataProducer.ts and DataConsumer.ts share. *)

From S2P Require Import Prelude Js Framing Events.

Record dataProducer : Type := mkDataProducer {
  dataProducerId : string;
  transportId : string;
  type : string;
  sctpStreamParameters : val;
  label : string;
  protocol : string;
  closed : bool
}.

(** The constructor; [type], the stream parameters, [label] and [protocol] are
    the data the worker answered with. *)
Definition new_dataProducer (id tid ty : string) (sctp : val) (lab proto : string) : dataProducer :=
  mkDataProducer id tid ty sctp lab proto false.

Definition with_closed (b : bool) (p : dataProducer) : dataProducer :=
  mkDataProducer (dataProducerId p) (transportId p) (type p) (sctpStreamParameters p) (label p)
    (protocol p) b.

Definition close (p : dataProducer) : dataProducer * list effect :=
  if closed p then (p, [])
  else (with_closed true p,
        [Unsubscribe (dataProducerId p);
         Request "transport.closeDataProducer" (Some (transportId p))
           (VObj [("dataProducerId", VStr (dataProducerId p))]);
         Emit "@close" VUndef;
         Observer "close" VUndef]).

Definition transportClosed (p : dataProducer) : dataProducer * list effect :=
  if closed p then (p, [])
  else (with_closed true p,
        [Unsubscribe (dataProducerId p);
         Emit "transportclose" VUndef;
         Observer "close" VUndef]).

Definition dump (p : dataProducer) : list effect :=
  [Request "dataProducer.dump" (Some (dataProducerId p)) VUndef].
Definition getStats (p : dataProducer) : list effect :=
  [Request "dataProducer.getStats" (Some (dataProducerId p)) VUndef].

(** ** Sending *)

(** [message.length > 0] *)
Definition nonempty (m : message) : bool :=
  match m with
  | Mstring s => negb (String.eqb s "")
  | Mbuffer b => negb (Nat.eqb (length b) 0)
  | Mother => false
  end.

(** The identifier used unless a number is given. *)
Definition choose_ppid (m : message) (ppid : val) : Z :=
  match ppid with
  | VNum n => n
  | _ =>
      match m with
      | Mstring _ => if nonempty m then 51 else 56
      | _ => if nonempty m then 53 else 57
      end
  end.

(** Identifiers 56 and 57 stand for empty messages, sent as one byte. *)
Definition honor_ppid (ppid : Z) (m : message) : message :=
  if Z.eqb ppid 56 then Mstring " "
  else if Z.eqb ppid 57 then Mbuffer [x00]
  else m.

(** The bytes written for a message. *)
Definition message_bytes (m : message) : buffer :=
  match m with
  | Mstring s => String.list_byte_of_string s
  | Mbuffer b => b
  | Mother => []
  end.

Definition not_a_message : error := TypeError "message must be a string or a Buffer".

Definition send (m : message) (ppid : val) (p : dataProducer) : result (list effect) :=
  match m with
  | Mother => Err not_a_message
  | _ =>
      let ppid := choose_ppid m ppid in
      Ok [Notify "dataProducer.send" (dataProducerId p) (Some (pretty ppid))
            (message_bytes (honor_ppid ppid m))]
  end.

(** ** Reading a message back

    The meaning of the identifiers (the table in the source): what a receiver
    makes of the identifier and the bytes. *)
Definition read_message (ppid : Z) (payload : buffer) : option message :=
  if Z.eqb ppid 51 then Some (Mstring (String.string_of_list_byte payload))
  else if Z.eqb ppid 53 then Some (Mbuffer payload)
  else if Z.eqb ppid 56 then Some (Mstring "")
  else if Z.eqb ppid 57 then Some (Mbuffer [])
  else None.

Lemma default_ppid_roundtrip m ppid :
  m <> Mother -> (forall n, ppid <> VNum n) ->
  let id := choose_ppid m ppid in
  let payload := message_bytes (honor_ppid id m) in
  payload <> [] /\ read_message id payload = Some m.
Proof.
  intros Hm Hp. destruct m as [s|b|]; [| |done]; unfold choose_ppid; simpl.
  - assert (match ppid with VNum n => n | _ => if negb (String.eqb s "") then 51 else 56 end
      = if negb (String.eqb s "") then 51 else 56)%Z as -> by (destruct ppid; try done; by exfalso; eapply Hp).
    destruct (String.eqb_spec s "") as [->|Hs]; simpl; [done|]. split; [by destruct s|].
    unfold read_message. simpl. by rewrite String.string_of_list_byte_of_string.
  - assert (match ppid with VNum n => n | _ => if negb (Nat.eqb (length b) 0) then 53 else 57 end
      = if negb (Nat.eqb (length b) 0) then 53 else 57)%Z as -> by (destruct ppid; try done; by exfalso; eapply Hp).
    by destruct b.
Qed.
