(* ===== verification/DataConsumer.v ===== *)
(** * DataConsumer.ts *)

From S2P Require Import Prelude Js Framing Events.
From S2P Require DataProducer.

Record dataConsumer : Type := mkDataConsumer {
  dataConsumerId : string;
  transportId : string;
  dataProducerId : string;
  type : string;
  sctpStreamParameters : val;
  label : string;
  protocol : string;
  closed : bool
}.

Definition new_dataConsumer (id tid pid ty : string) (sctp : val) (lab proto : string) : dataConsumer :=
  mkDataConsumer id tid pid ty sctp lab proto false.

Definition with_closed (b : bool) (c : dataConsumer) : dataConsumer :=
  mkDataConsumer (dataConsumerId c) (transportId c) (dataProducerId c) (type c)
    (sctpStreamParameters c) (label c) (protocol c) b.

Definition close (c : dataConsumer) : dataConsumer * list effect :=
  if closed c then (c, [])
  else (with_closed true c,
        [Unsubscribe (dataConsumerId c);
         Request "transport.closeDataConsumer" (Some (transportId c))
           (VObj [("dataConsumerId", VStr (dataConsumerId c))]);
         Emit "@close" VUndef;
         Observer "close" VUndef]).

Definition transportClosed (c : dataConsumer) : dataConsumer * list effect :=
  if closed c then (c, [])
  else (with_closed true c,
        [Unsubscribe (dataConsumerId c);
         Emit "transportclose" VUndef;
         Observer "close" VUndef]).

Definition request (method : string) (reqData : val) (c : dataConsumer) : list effect :=
  [Request method (Some (dataConsumerId c)) reqData].

Definition dump (c : dataConsumer) := request "dataConsumer.dump" VUndef c.
Definition getStats (c : dataConsumer) := request "dataConsumer.getStats" VUndef c.
Definition setBufferedAmountLowThreshold (threshold : val) (c : dataConsumer) :=
  request "dataConsumer.setBufferedAmountLowThreshold" (VObj [("threshold", threshold)]) c.
Definition getBufferedAmount (c : dataConsumer) := request "dataConsumer.getBufferedAmount" VUndef c.

(** The result of [getBufferedAmount] after the response [data]. *)
Definition buffered_amount (data : val) : result val :=
  match data with
  | VUndef | VNull => Err (TypeError "Cannot destructure property 'bufferedAmount'")
  | _ => Ok (prop "bufferedAmount" data)
  end.

Definition send (m : message) (ppid : val) (c : dataConsumer) : result (list effect) :=
  match m with
  | Mother => Err DataProducer.not_a_message
  | _ =>
      let ppid := DataProducer.choose_ppid m ppid in
      Ok [PayloadRequest "dataConsumer.send" (dataConsumerId c) (pretty ppid)
            (DataProducer.message_bytes (DataProducer.honor_ppid ppid m))]
  end.

(** [handleWorkerNotifications]; an error is thrown out of the listener. *)
Definition on_notification (event : string) (data : val) (c : dataConsumer) :
    result (dataConsumer * list effect) :=
  if String.eqb event "dataproducerclose" then
    if closed c then Ok (c, [])
    else Ok (with_closed true c,
             [Unsubscribe (dataConsumerId c);
              Emit "@dataproducerclose" VUndef;
              Emit "dataproducerclose" VUndef;
              Observer "close" VUndef])
  else if String.eqb event "sctpsendbufferfull" then Ok (c, [Emit "sctpsendbufferfull" VUndef])
  else if String.eqb event "bufferedamountlow" then
    amount ← buffered_amount data;
    Ok (c, [Emit "bufferedamountlow" amount])
  else Ok (c, []).

(** The message and its identifier. *)
Definition on_payload_notification (event : string) (data : val) (payload : buffer) (c : dataConsumer) :
    result (list effect) :=
  if String.eqb event "message" then
    if closed c then Ok []
    else match data with
         | VUndef | VNull => Err (TypeError "Cannot read properties of undefined (reading 'ppid')")
         | _ => Ok [Emit "message" (VArr [VStr (String.string_of_list_byte payload); prop "ppid" data] [])]
         end
  else Ok [].

(** ** Properties *)

(** C40: round trip of data messages: unless the application chooses an
    identifier, what [DataProducer.send] hands to the channel is never empty
    (SCTP cannot carry empty messages), and a receiver that follows the table of
    identifiers reads back the message, its type included; [DataConsumer.send]
    sends the same identifier and bytes. *)
Theorem data_send_roundtrip p c m ppid :
  m <> Mother -> (forall n, ppid <> VNum n) ->
  exists id payload,
    DataProducer.send m ppid p =
      Ok [Notify "dataProducer.send" (DataProducer.dataProducerId p) (Some (pretty id)) payload] /\
    send m ppid c = Ok [PayloadRequest "dataConsumer.send" (dataConsumerId c) (pretty id) payload] /\
    payload <> [] /\ DataProducer.read_message id payload = Some m.
Proof.
  intros Hm Hp. destruct (DataProducer.default_ppid_roundtrip m ppid Hm Hp) as [H1 H2].
  exists (DataProducer.choose_ppid m ppid),
    (DataProducer.message_bytes (DataProducer.honor_ppid (DataProducer.choose_ppid m ppid) m)).
  by destruct m.
Qed.

Lemma data_send_roundtrip_witness :
  exists id payload,
    DataProducer.send (Mstring "") VUndef (DataProducer.new_dataProducer "d" "t" "sctp" VUndef "" "") =
      Ok [Notify "dataProducer.send" "d" (Some (pretty id)) payload] /\
    payload <> [] /\ DataProducer.read_message id payload = Some (Mstring "").
Proof.
  destruct (data_send_roundtrip (DataProducer.new_dataProducer "d" "t" "sctp" VUndef "" "")
    (new_dataConsumer "c" "t" "d" "sctp" VUndef "" "") (Mstring "") VUndef) as (id & payload & H1 & _ & H2);
    [discriminate|discriminate|].
  exists id, payload. split; [exact H1|exact H2].
Defined.
