(* ===== verification/RtpObserver.v ===== *)
(** * RtpObserver.ts, AudioLevelObserver.ts and ActiveSpeakerObserver.ts

    [getProducerById] looks a producer up in the router; producers are named by
    their ids. *)

From S2P Require Import Prelude Js Framing Events.

Inductive observer_class : Type := AudioLevelObserver | ActiveSpeakerObserver.

Inductive continuation : Type :=
| Kpause (wasPaused : bool)
| Kresume (wasPaused : bool)
| Kadd (producerId : string)
| Kremove (producerId : string).

Record rtpObserver : Type := mkRtpObserver {
  rtpObserverId : string;
  routerId : string;
  class_ : observer_class;
  closed : bool;
  paused : bool;
  o_calls : calls_in_flight continuation
}.

Definition new_rtpObserver (id rid : string) (cl : observer_class) : rtpObserver :=
  mkRtpObserver id rid cl false false no_calls.

Definition with_closed (b : bool) (o : rtpObserver) : rtpObserver :=
  mkRtpObserver (rtpObserverId o) (routerId o) (class_ o) b (paused o) (o_calls o).
Definition with_paused (b : bool) (o : rtpObserver) : rtpObserver :=
  mkRtpObserver (rtpObserverId o) (routerId o) (class_ o) (closed o) b (o_calls o).
Definition with_calls (c : calls_in_flight continuation) (o : rtpObserver) : rtpObserver :=
  mkRtpObserver (rtpObserverId o) (routerId o) (class_ o) (closed o) (paused o) c.

Definition close (o : rtpObserver) : rtpObserver * list effect :=
  if closed o then (o, [])
  else (with_closed true o,
        [Unsubscribe (rtpObserverId o);
         Request "router.closeRtpObserver" (Some (routerId o))
           (VObj [("rtpObserverId", VStr (rtpObserverId o))]);
         Emit "@close" VUndef;
         Observer "close" VUndef]).

Definition routerClosed (o : rtpObserver) : rtpObserver * list effect :=
  if closed o then (o, [])
  else (with_closed true o,
        [Unsubscribe (rtpObserverId o);
         Emit "routerclose" VUndef;
         Observer "close" VUndef]).

Definition call (method : string) (reqData : val) (k : continuation) (o : rtpObserver) :
    rtpObserver * list effect :=
  (with_calls (await k (o_calls o)) o, [Request method (Some (rtpObserverId o)) reqData]).

Definition pause (o : rtpObserver) := call "rtpObserver.pause" VUndef (Kpause (paused o)) o.
Definition resume (o : rtpObserver) := call "rtpObserver.resume" VUndef (Kresume (paused o)) o.

Section lookup.
Context (getProducerById : string -> bool).

Definition producer_not_found (producerId : string) : error :=
  PlainError ("Producer with id " +:+ dquote +:+ producerId +:+ dquote +:+ " not found").

Definition addProducer (producerId : string) (o : rtpObserver) : result (rtpObserver * list effect) :=
  if negb (getProducerById producerId) then Err (producer_not_found producerId)
  else Ok (call "rtpObserver.addProducer" (VObj [("producerId", VStr producerId)]) (Kadd producerId) o).

Definition removeProducer (producerId : string) (o : rtpObserver) : result (rtpObserver * list effect) :=
  if negb (getProducerById producerId) then Err (producer_not_found producerId)
  else Ok (call "rtpObserver.removeProducer" (VObj [("producerId", VStr producerId)])
             (Kremove producerId) o).

Definition continue (k : continuation) (o : rtpObserver) : rtpObserver * list effect :=
  match k with
  | Kpause wasPaused =>
      (with_paused true o, if negb wasPaused then [Observer "pause" VUndef] else [])
  | Kresume wasPaused =>
      (with_paused false o, if wasPaused then [Observer "resume" VUndef] else [])
  | Kadd id => (o, [Observer "addproducer" (VStr id)])
  | Kremove id => (o, [Observer "removeproducer" (VStr id)])
  end.

Definition response (n : nat) (res : result val) (o : rtpObserver) : rtpObserver * list effect :=
  match resume_call n (o_calls o) with
  | None => (o, [])
  | Some (k, calls) =>
      let o := with_calls calls o in
      match res with Ok _ => continue k o | Err _ => (o, []) end
  end.

(** The volumes of producers that still exist. *)
Definition known_volume (v : val) : list val :=
  match prop "producerId" v with
  | VStr id =>
      if getProducerById id then [VObj [("producer", VStr id); ("volume", prop "volume" v)]] else []
  | _ => []
  end.

Definition on_audio_level (event : string) (data : val) (o : rtpObserver) : result (list effect) :=
  if String.eqb event "volumes" then
    match data with
    | VArr l _ =>
        let volumes := concat (map known_volume l) in
        if (0 <? length volumes)%nat then
          Ok [Emit "volumes" (VArr volumes []); Observer "volumes" (VArr volumes [])]
        else Ok []
    | _ => Err (TypeError "data.map is not a function")
    end
  else if String.eqb event "silence" then Ok [Emit "silence" VUndef; Observer "silence" VUndef]
  else Ok [].

Definition on_active_speaker (event : string) (data : val) (o : rtpObserver) : result (list effect) :=
  if String.eqb event "dominantspeaker" then
    match data with
    | VUndef | VNull => Err (TypeError "Cannot read properties of undefined (reading 'producerId')")
    | _ =>
        match prop "producerId" data with
        | VStr id =>
            if getProducerById id then
              Ok [Emit "dominantspeaker" (VObj [("producer", VStr id)]);
                  Observer "dominantspeaker" (VObj [("producer", VStr id)])]
            else Ok []
        | _ => Ok []
        end
    end
  else Ok [].

Definition on_notification (event : string) (data : val) (o : rtpObserver) : result (list effect) :=
  match class_ o with
  | AudioLevelObserver => on_audio_level event data o
  | ActiveSpeakerObserver => on_active_speaker event data o
  end.
End lookup.
