(* ===== verification/TransportState.v ===== *)
(** * Allocation of SCTP stream ids and MIDs in Transport.ts

    [getNextSctpStreamId], the marking and freeing of stream ids, and the
    counter of MIDs for consumers. *)

From S2P Require Import Prelude Js.

(** ** SCTP stream ids

    [#sctpStreamIds], a buffer with a byte per stream that is not 0 when the
    stream is in use, and [#nextSctpStreamId]. *)
Record sctp_ids : Type := mkSctpIds {
  sctpStreamIds : option (list bool);
  nextSctpStreamId : nat
}.

Definition no_sctp_ids : sctp_ids := mkSctpIds None 0.

(** The loop over [idx]; [fuel] is the number of iterations left. *)
Fixpoint scan_streams (used : list bool) (next idx fuel : nat) : option nat :=
  match fuel with
  | 0 => None
  | S fuel =>
      let sctpStreamId := (next + idx) mod length used in
      if default true (used !! sctpStreamId) then scan_streams used next (S idx) fuel
      else Some sctpStreamId
  end.

(** [MIS] is [#data.sctpParameters.MIS], when there is one that is a number. *)
Definition getNextSctpStreamId (MIS : option Z) (s : sctp_ids) : result (nat * sctp_ids) :=
  match MIS with
  | None => Err (TypeError "missing sctpParameters.MIS")
  | Some numStreams =>
      used ← match sctpStreamIds s with
             | Some used => Ok used
             | None => if Z.ltb numStreams 0 then Err (PlainError "The argument 'size' is invalid")
                       else Ok (repeat false (Z.to_nat numStreams))
             end;
      match scan_streams used (nextSctpStreamId s) 0 (length used) with
      | Some sctpStreamId => Ok (sctpStreamId, mkSctpIds (Some used) (S sctpStreamId))
      | None => Err (PlainError "no sctpStreamId available")
      end
  end.

(** [this.#sctpStreamIds![sctpStreamId] = v] *)
Definition mark_stream (v : bool) (sctpStreamId : nat) (s : sctp_ids) : sctp_ids :=
  mkSctpIds (insert sctpStreamId v <$> sctpStreamIds s) (nextSctpStreamId s).

(** What [consumeData] does to reserve a stream. *)
Definition reserve_stream (MIS : option Z) (s : sctp_ids) : result (nat * sctp_ids) :=
  '(sctpStreamId, s) ← getNextSctpStreamId MIS s;
  Ok (sctpStreamId, mark_stream true sctpStreamId s).

(** ** MIDs *)

(** [`${this.#nextMidForConsumers++}`] and the restart from 0. *)
Definition next_mid (nextMidForConsumers : Z) : string * Z :=
  (pretty nextMidForConsumers,
   if Z.eqb (nextMidForConsumers + 1) 100000000 then 0%Z else (nextMidForConsumers + 1)%Z).

(** ** Lemmas *)

Definition in_use (s : sctp_ids) (i : nat) : Prop :=
  exists used, sctpStreamIds s = Some used /\ used !! i = Some true.

Lemma scan_streams_Some used next idx fuel i :
  scan_streams used next idx fuel = Some i ->
  exists d, idx <= d < idx + fuel /\ i = (next + d) mod length used /\ used !! i = Some false /\
    forall e, idx <= e < d -> used !! ((next + e) mod length used) = Some true \/
                             used !! ((next + e) mod length used) = None.
Proof.
  revert idx. induction fuel as [|fuel IH]; intros idx; simpl; [done|].
  destruct (used !! ((next + idx) mod length used)) as [[]|] eqn:Hu; simpl.
  - intros H. destruct (IH _ H) as (d & ? & ? & ? & Hlt). exists d. split_and!; try done; try lia.
    intros e He. destruct (decide (e = idx)) as [->|]; [by left|]. apply Hlt. lia.
  - intros [= <-]. exists idx. split_and!; try done; try lia.
  - intros H. destruct (IH _ H) as (d & ? & ? & ? & Hlt). exists d. split_and!; try done; try lia.
    intros e He. destruct (decide (e = idx)) as [->|]; [by right|]. apply Hlt. lia.
Qed.

Lemma scan_streams_None used next idx fuel :
  scan_streams used next idx fuel = None -> 0 < length used ->
  forall e, idx <= e < idx + fuel -> used !! ((next + e) mod length used) = Some true.
Proof.
  revert idx. induction fuel as [|fuel IH]; intros idx; simpl; [intros; lia|].
  intros H Hlen e He.
  destruct (used !! ((next + idx) mod length used)) as [[]|] eqn:Hu; simpl in H; [| done |].
  - destruct (decide (e = idx)) as [->|]; [done|]. apply (IH (S idx)); [done|done|lia].
  - apply lookup_ge_None in Hu. pose proof (Nat.mod_upper_bound (next + idx) (length used)). lia.
Qed.

(** The residues [next], [next + 1], ... cover all streams. *)
Lemma residues_cover n next i : i < n -> exists e, 0 <= e < 0 + n /\ (next + e) mod n = i.
Proof.
  intros Hi. exists ((i + (n - next mod n)) mod n).
  assert (n <> 0) as Hn by lia. split; [pose proof (Nat.mod_upper_bound (i + (n - next mod n)) n Hn); lia|].
  rewrite Nat.Div0.add_mod_idemp_r. pose proof (Nat.mod_upper_bound next n Hn).
  rewrite (Nat.div_mod_eq next n) at 1.
  replace (n * (next / n) + next mod n + (i + (n - next mod n))) with (i + (next / n + 1) * n) by nia.
  rewrite Nat.Div0.mod_add. by apply Nat.mod_small.
Qed.

(** ** Properties *)



(** ** The MIDs of consumers *)

Lemma pretty_N_go_length k (x : N) (str : string) :
  (x < 10 ^ N.of_nat k)%N -> String.length (pretty_N_go x str) <= k + String.length str.
Proof.
  revert x str. induction k as [|k IH]; intros x str Hx.
  - assert (x = 0)%N as -> by (simpl in Hx; lia). by rewrite pretty_N_go_0.
  - destruct (decide (x = 0)%N) as [->|Hn]; [rewrite pretty_N_go_0; lia|].
    rewrite pretty_N_go_step by lia.
    etransitivity; [apply IH|simpl; lia].
    rewrite Nat2N.inj_succ, N.pow_succ_r' in Hx. apply N.Div0.div_lt_upper_bound. lia.
Qed.

Lemma pretty_Z_length k (n : Z) :
  0 < k -> (0 <= n < 10 ^ Z.of_nat k)%Z -> String.length (pretty n) <= k.
Proof.
  intros Hk Hn. destruct n as [|p|p]; [simpl; lia| |lia].
  change (pretty (Zpos p)) with (pretty_N_go (Npos p) "").
  etransitivity; [apply (pretty_N_go_length k)|simpl; lia].
  apply N2Z.inj_lt. rewrite N2Z.inj_pow, nat_N_Z. simpl. lia.
Qed.

(** The counter after [k] more consumers. *)
Fixpoint mids (k : nat) (n : Z) : list string :=
  match k with
  | 0 => []
  | S k => let '(mid, n) := next_mid n in mid :: mids k n
  end.

Lemma mids_lookup k n i :
  (0 <= n < 100000000)%Z -> i < k ->
  mids k n !! i = Some (pretty ((n + Z.of_nat i) mod 100000000)%Z).
Proof.
  revert n i. induction k as [|k IH]; intros n i Hn Hi; [lia|]. simpl.
  destruct i as [|i]; simpl.
  - by rewrite Z.add_0_r, Z.mod_small.
  - destruct (Z.eqb_spec (n + 1) 100000000) as [He|He]; rewrite IH by lia; do 2 f_equal.
    + replace (n + Z.of_nat (S i))%Z with (0 + Z.of_nat i + 1 * 100000000)%Z by lia.
      by rewrite Z.mod_add by lia.
    + f_equal. lia.
Qed.

Lemma length_mids k n : length (mids k n) = k.
Proof. revert n. induction k as [|k IH]; intros n; simpl; [done|]. by rewrite IH. Qed.

(** The MIDs fit into the 8 bytes the header extension has for them, and any
    100000000 consecutive ones are distinct, across the restart from 0. *)
Lemma mids_NoDup (k : nat) (n : Z) :
  (0 <= n < 100000000)%Z -> (Z.of_nat k <= 100000000)%Z ->
  NoDup (mids k n) /\ Forall (fun mid => 1 <= String.length mid <= 8) (mids k n).
Proof.
  intros Hn Hk. split.
  - apply NoDup_alt. intros i j mid Hi Hj.
    pose proof (lookup_lt_Some _ _ _ Hi) as Hli. pose proof (lookup_lt_Some _ _ _ Hj) as Hlj.
    rewrite length_mids in Hli, Hlj. rewrite mids_lookup in Hi, Hj by done.
    injection Hi as <-. injection Hj as Hj. apply (inj pretty) in Hj.
    apply Nat2Z.inj. 
    rewrite (Z.mod_eq (n + Z.of_nat j)), (Z.mod_eq (n + Z.of_nat i)) in Hj by lia.
    assert (((n + Z.of_nat i) / 100000000) - 1 <= (n + Z.of_nat j) / 100000000 <= (n + Z.of_nat i) / 100000000 + 1)%Z by (split; Z.to_euclidean_division_equations; lia).
    nia.
  - apply Forall_lookup. intros i mid Hi. pose proof (lookup_lt_Some _ _ _ Hi) as Hli.
    rewrite length_mids in Hli. rewrite mids_lookup in Hi by done. injection Hi as <-.
    pose proof (Z.mod_pos_bound (n + Z.of_nat i) 100000000 ltac:(lia)) as Hb.
    split; [|apply (pretty_Z_length 8); [lia|exact Hb]].
    destruct ((n + Z.of_nat i) mod 100000000)%Z as [|p|p]; [simpl; lia| |lia].
    change (pretty (Zpos p)) with (pretty_N_go (Npos p) "").
    destruct (pretty_N_go (Npos p) "") eqn:He; [|simpl; lia].
    exfalso. revert He. pose proof (pretty_N_go_head (Npos p) "") as Hh. intros He.
    rewrite He in Hh. by discriminate Hh; right; lia.
Qed.
