(* ===== verification/Registry.v ===== *)
(** * Registries

    The pattern by which the objects of the API own each other: an object has a
    set of the open objects that belong to it, an object that closes leaves the
    set of its owner, and an owner that closes closes the objects of its set and
    clears it.  The class says what of two types of objects the pattern is
    about; the lemmas say when it is kept, also in the middle of closing. *)

From S2P Require Import Prelude.

Class Registry (A B : Type) : Type := {
  reg_parent : A -> option nat;        (* who owns it *)
  reg_open : A -> bool;
  reg_closed : B -> bool;
  reg_entries : B -> list nat          (* what the owner has in its set *)
}.

Section registry.
Context `{Registry A B}.
Implicit Types (cs : gmap nat A) (ps : gmap nat B) (L C : nat -> Prop).

(** Objects in [L] may be in a set although they are closed, owners in [C] may
    be closed with objects in their set. *)
Record registered L C cs ps : Prop := mkRegistered {
  rg_has : forall l a p, cs !! l = Some a -> reg_open a = true -> reg_parent a = Some p ->
    exists b, ps !! p = Some b /\ l ∈ reg_entries b;
  rg_in : forall p b l, ps !! p = Some b -> l ∈ reg_entries b ->
    exists a, cs !! l = Some a /\ reg_parent a = Some p /\ (~ L l -> reg_open a = true);
  rg_empty : forall p b, ps !! p = Some b -> reg_closed b = true -> ~ C p -> reg_entries b = []
}.

Lemma registered_mono L L' C C' cs ps :
  (forall l, L l -> L' l) -> (forall p, C p -> C' p) -> registered L C cs ps -> registered L' C' cs ps.
Proof.
  intros HL HC [H1 H2 H3]. split; [done| |].
  - intros p b l Hp Hl. destruct (H2 _ _ _ Hp Hl) as (a & ? & ? & Ho). exists a.
    split_and!; [done..|]. intros Hn. apply Ho. intros ?. by apply Hn, HL.
  - intros p b Hp Hc HnC. eapply H3; [done..|]. intros ?. by apply HnC, HC.
Qed.

(** An object that is in no set any more need not be excepted, nor an owner
    that is not closed or has an empty set. *)
Lemma registered_tighten L L' C C' cs ps :
  (forall p b l, ps !! p = Some b -> l ∈ reg_entries b -> L l -> L' l) ->
  (forall p b, ps !! p = Some b -> reg_closed b = true -> C p -> C' p \/ reg_entries b = []) ->
  registered L C cs ps -> registered L' C' cs ps.
Proof.
  intros HL HC [H1 H2 H3]. split; [done| |].
  - intros p b l Hp Hl. destruct (H2 _ _ _ Hp Hl) as (a & ? & ? & Ho). exists a.
    split_and!; [done..|]. intros Hn. apply Ho. intros HLl. by eapply Hn, HL.
  - intros p b Hp Hc HnC. destruct (reg_entries b) as [|l ls] eqn:He; [done|]. exfalso.
    assert (~ C p) as HnC'.
    { intros HCp. destruct (HC _ _ Hp Hc HCp) as [?|?]; [done|congruence]. }
    specialize (H3 _ _ Hp Hc HnC'). congruence.
Qed.

(** Without exceptions the sets hold the open objects. *)
Lemma registered_exact L C cs ps p b l :
  (forall l, ~ L l) -> registered L C cs ps -> ps !! p = Some b ->
  l ∈ reg_entries b <-> exists a, cs !! l = Some a /\ reg_open a = true /\ reg_parent a = Some p.
Proof.
  intros HL Hr Hb. split.
  - intros Hin. destruct (rg_in _ _ _ _ Hr _ _ _ Hb Hin) as (a & Ha & Hp & Ho). exists a.
    split_and!; [done|apply Ho, HL|done].
  - intros (a & Ha & Ho & Hp). destruct (rg_has _ _ _ _ Hr _ _ _ Ha Ho Hp) as (b' & Hb' & Hin). congruence.
Qed.

(** Changes of other parts of the objects. *)
Definition child_view (a : A) : option nat * bool := (reg_parent a, reg_open a).
Definition parent_view (b : B) : list nat * bool := (reg_entries b, reg_closed b).

Lemma registered_ext L C cs ps cs' ps' :
  (forall l, child_view <$> cs' !! l = child_view <$> cs !! l) ->
  (forall p, parent_view <$> ps' !! p = parent_view <$> ps !! p) ->
  registered L C cs ps -> registered L C cs' ps'.
Proof.
  intros Hc Hp [H1 H2 H3]. split.
  - intros l a p Hl Ho Hpa. specialize (Hc l). rewrite Hl in Hc. symmetry in Hc.
    apply fmap_Some in Hc as (a0 & Hl0 & [= Hpa0 Ho0]).
    destruct (H1 l a0 p Hl0 ltac:(congruence) ltac:(congruence)) as (b & Hb & Hin).
    specialize (Hp p). rewrite Hb in Hp. apply fmap_Some in Hp as (b' & Hb' & [= He _]).
    exists b'. split; [done|congruence].
  - intros p b l Hb Hin. specialize (Hp p). rewrite Hb in Hp. symmetry in Hp.
    apply fmap_Some in Hp as (b0 & Hb0 & [= He _]). rewrite He in Hin.
    destruct (H2 _ _ _ Hb0 Hin) as (a & Ha & Hpa & Ho).
    specialize (Hc l). rewrite Ha in Hc. apply fmap_Some in Hc as (a' & Ha' & [= Hpa' Ho']).
    exists a'. split_and!; [done|congruence|]. intros HL. rewrite <-Ho'. by apply Ho.
  - intros p b Hb Hcl HC. specialize (Hp p). rewrite Hb in Hp. symmetry in Hp.
    apply fmap_Some in Hp as (b0 & Hb0 & [= He Hc0]). rewrite He. eapply H3; [done| |done]. congruence.
Qed.

(** An object and its owner. *)
Lemma registered_child_open L C cs ps l a p b :
  registered L C cs ps -> cs !! l = Some a -> reg_open a = true -> reg_parent a = Some p ->
  ps !! p = Some b -> ~ C p -> reg_closed b = false.
Proof.
  intros Hr Hl Ho Hpa Hb HC. destruct (rg_has _ _ _ _ Hr _ _ _ Hl Ho Hpa) as (b' & Hb' & Hin).
  rewrite Hb in Hb'. injection Hb' as <-. destruct (reg_closed b) eqn:Hc; [|done].
  rewrite (rg_empty _ _ _ _ Hr _ _ Hb Hc HC) in Hin. by apply elem_of_nil in Hin.
Qed.

Lemma alter_inv {V} (f : V -> V) i (m : gmap nat V) j y :
  alter f i m !! j = Some y ->
  exists x, m !! j = Some x /\ y = if decide (j = i) then f x else x.
Proof.
  destruct (decide (j = i)) as [->|Hne].
  - rewrite lookup_alter_eq. intros Hy. apply fmap_Some in Hy as (x & Hx & ->). by exists x.
  - rewrite lookup_alter_ne by congruence. by exists y.
Qed.

Lemma alter_lookup {V} (f : V -> V) i (m : gmap nat V) j x :
  m !! j = Some x -> alter f i m !! j = Some (if decide (j = i) then f x else x).
Proof.
  intros Hx. destruct (decide (j = i)) as [->|Hne].
  - by rewrite lookup_alter_eq, Hx.
  - by rewrite lookup_alter_ne by congruence.
Qed.

(** A new object enters the set of its owner, which is open. *)
Lemma registered_enter L C cs ps l a p b f :
  registered L C cs ps -> cs !! l = None -> ps !! p = Some b -> reg_closed b = false ->
  reg_parent a = Some p -> reg_open a = true ->
  (forall l', l' ∈ reg_entries (f b) <-> l' ∈ reg_entries b \/ l' = l) ->
  reg_closed (f b) = reg_closed b ->
  registered L C (<[l := a]> cs) (alter f p ps).
Proof.
  intros Hr Hl Hb Hc Hpa Ho He Hcl. split.
  - intros l' a' p' Hl' Ho' Hp'. destruct (decide (l' = l)) as [->|Hne].
    + rewrite lookup_insert_eq in Hl'. injection Hl' as <-. rewrite Hpa in Hp'. injection Hp' as <-.
      exists (f b). split; [by rewrite lookup_alter_eq, Hb|]. apply He. auto.
    + rewrite lookup_insert_ne in Hl' by congruence.
      destruct (rg_has _ _ _ _ Hr _ _ _ Hl' Ho' Hp') as (b' & Hb' & Hin).
      eexists. split; [by eapply alter_lookup|]. case_decide as Hd; [|done].
      subst p'. rewrite Hb in Hb'. injection Hb' as <-. apply He. auto.
  - intros p' b' l' Hp' Hin. apply alter_inv in Hp' as (b0 & Hb0 & ->).
    assert (l' ∈ reg_entries b0 \/ p' = p /\ l' = l) as [Hin0|[-> ->]].
    { case_decide as Hd; [|by left]. subst p'. rewrite Hb in Hb0. injection Hb0 as <-.
      apply He in Hin as [?| ->]; auto. }
    + destruct (rg_in _ _ _ _ Hr _ _ _ Hb0 Hin0) as (a' & Ha' & Hrest). exists a'.
      by rewrite lookup_insert_ne by congruence.
    + exists a. by rewrite lookup_insert_eq.
  - intros p' b' Hp' Hcl' HC. apply alter_inv in Hp' as (b0 & Hb0 & ->). case_decide as Hd.
    + subst p'. rewrite Hb in Hb0. injection Hb0 as <-. congruence.
    + by eapply rg_empty.
Qed.

(** A new object without owner. *)
Lemma registered_orphan L C cs ps l a :
  registered L C cs ps -> cs !! l = None -> reg_parent a = None -> registered L C (<[l := a]> cs) ps.
Proof.
  intros Hr Hl Hpa. split.
  - intros l' a' p' Hl' Ho' Hp'. destruct (decide (l' = l)) as [->|Hne].
    + rewrite lookup_insert_eq in Hl'. congruence.
    + rewrite lookup_insert_ne in Hl' by congruence. by eapply rg_has.
  - intros p' b' l' Hp' Hin. destruct (rg_in _ _ _ _ Hr _ _ _ Hp' Hin) as (a' & Ha' & Hrest).
    exists a'. by rewrite lookup_insert_ne by congruence.
  - by eapply rg_empty.
Qed.

(** A new owner. *)
Lemma registered_owner L C cs ps p b :
  registered L C cs ps -> ps !! p = None -> reg_entries b = [] -> registered L C cs (<[p := b]> ps).
Proof.
  intros Hr Hp He. split.
  - intros l a p' Hl Ho Hp'. destruct (rg_has _ _ _ _ Hr _ _ _ Hl Ho Hp') as (b' & Hb' & Hin).
    exists b'. by rewrite lookup_insert_ne by congruence.
  - intros p' b' l Hp' Hin. destruct (decide (p' = p)) as [->|Hne].
    + rewrite lookup_insert_eq in Hp'. injection Hp' as <-. rewrite He in Hin. by apply elem_of_nil in Hin.
    + rewrite lookup_insert_ne in Hp' by congruence. by eapply rg_in.
  - intros p' b' Hp' Hc HC. destruct (decide (p' = p)) as [->|Hne].
    + rewrite lookup_insert_eq in Hp'. by injection Hp' as <-.
    + rewrite lookup_insert_ne in Hp' by congruence. by eapply rg_empty.
Qed.

(** An object closes and stays in the set. *)
Lemma registered_close L C cs ps l a a' :
  registered L C cs ps -> cs !! l = Some a -> L l -> reg_parent a' = reg_parent a ->
  reg_open a' = false -> registered L C (<[l := a']> cs) ps.
Proof.
  intros Hr Hl HL Hpa Ho. split.
  - intros l' a1 p' Hl' Ho' Hp'. destruct (decide (l' = l)) as [->|Hne].
    + rewrite lookup_insert_eq in Hl'. congruence.
    + rewrite lookup_insert_ne in Hl' by congruence. by eapply rg_has.
  - intros p b l' Hp Hin. destruct (rg_in _ _ _ _ Hr _ _ _ Hp Hin) as (a1 & Ha1 & Hp1 & Ho1).
    destruct (decide (l' = l)) as [->|Hne].
    + exists a'. rewrite lookup_insert_eq. split_and!; [done|congruence|done].
    + exists a1. by rewrite lookup_insert_ne by congruence.
  - by eapply rg_empty.
Qed.

(** A closed object leaves the set. *)
Lemma registered_leave L C cs ps l a p f :
  registered L C cs ps -> cs !! l = Some a -> reg_open a = false ->
  (forall b, ps !! p = Some b -> forall l', l' ∈ reg_entries (f b) <-> l' ∈ reg_entries b /\ l' <> l) ->
  (forall b, reg_closed (f b) = reg_closed b) ->
  registered L C cs (alter f p ps).
Proof.
  intros Hr Hl Ho He Hc. split.
  - intros l' a' p' Hl' Ho' Hp'. destruct (rg_has _ _ _ _ Hr _ _ _ Hl' Ho' Hp') as (b & Hb & Hin).
    eexists. split; [by eapply alter_lookup|]. case_decide as Hd; [|done]. subst p'.
    apply He; [done|]. split; [done|]. intros ->. congruence.
  - intros p' b' l' Hp' Hin. apply alter_inv in Hp' as (b0 & Hb0 & ->).
    eapply (rg_in _ _ _ _ Hr p' b0); [done|]. case_decide as Hd; [|done]. subst p'.
    by apply (He _ Hb0) in Hin as [? _].
  - intros p' b' Hp' Hc' HC. apply alter_inv in Hp' as (b0 & Hb0 & ->). case_decide as Hd.
    + rewrite Hc in Hc'. pose proof (rg_empty _ _ _ _ Hr _ _ Hb0 Hc' HC) as Hnil. subst p'.
      destruct (reg_entries (f b0)) as [|x xs] eqn:Hf; [done|]. exfalso.
      assert (x ∈ reg_entries (f b0)) as Hx by (rewrite Hf; by left).
      apply (He _ Hb0) in Hx as [Hx _]. rewrite Hnil in Hx. by apply elem_of_nil in Hx.
    + by eapply rg_empty.
Qed.

(** An object closes and leaves the set of its owner. *)
Lemma registered_close_leave L C cs ps l a a' p f :
  registered L C cs ps -> cs !! l = Some a -> reg_parent a = Some p -> reg_parent a' = Some p ->
  reg_open a' = false ->
  (forall b, ps !! p = Some b -> forall l', l' ∈ reg_entries (f b) <-> l' ∈ reg_entries b /\ l' <> l) ->
  (forall b, reg_closed (f b) = reg_closed b) ->
  registered L C (<[l := a']> cs) (alter f p ps).
Proof.
  intros Hr Hl Hp Hp' Ho He Hc.
  assert (registered (fun x => L x \/ x = l) C (<[l := a']> cs) (alter f p ps)) as Hr'.
  { apply (registered_leave _ _ _ _ l a'); [|apply lookup_insert_eq|done..].
    apply (registered_close _ _ _ _ _ a); [|done|by right|congruence|done].
    eapply registered_mono; [| |exact Hr]; auto. }
  eapply registered_tighten; [| |exact Hr']; [|by auto].
  intros p' b' l' Hp1 Hin [?| ->]; [done|]. exfalso.
  destruct (rg_in _ _ _ _ Hr' _ _ _ Hp1 Hin) as (a1 & Ha1 & Hpa1 & _).
  rewrite lookup_insert_eq in Ha1. injection Ha1 as <-. rewrite Hp' in Hpa1. injection Hpa1 as <-.
  apply alter_inv in Hp1 as (b0 & Hb0 & ->). rewrite decide_True in Hin by done.
  by apply (He _ Hb0) in Hin as [_ ?].
Qed.

(** An owner is marked as closed. *)
Lemma registered_mark L C cs ps p f :
  registered L C cs ps -> C p -> (forall b, reg_entries (f b) = reg_entries b) ->
  registered L C cs (alter f p ps).
Proof.
  intros Hr HC He. split.
  - intros l a p' Hl Ho Hp'. destruct (rg_has _ _ _ _ Hr _ _ _ Hl Ho Hp') as (b & Hb & Hin).
    eexists. split; [by eapply alter_lookup|]. case_decide; by rewrite ?He.
  - intros p' b' l Hp' Hin. apply alter_inv in Hp' as (b0 & Hb0 & ->).
    eapply (rg_in _ _ _ _ Hr p' b0); [done|]. case_decide; by rewrite ?He in Hin.
  - intros p' b' Hp' Hc' HC'. apply alter_inv in Hp' as (b0 & Hb0 & ->). case_decide as Hd.
    + by subst p'.
    + by eapply rg_empty.
Qed.

(** The set of an owner is cleared, all of whose objects are closed. *)
Lemma registered_clear L C cs ps p f :
  registered L C cs ps ->
  (forall l a, cs !! l = Some a -> reg_parent a = Some p -> reg_open a = false) ->
  (forall b, reg_entries (f b) = []) ->
  registered L C cs (alter f p ps).
Proof.
  intros Hr Hall He. split.
  - intros l a p' Hl Ho Hp'. destruct (rg_has _ _ _ _ Hr _ _ _ Hl Ho Hp') as (b & Hb & Hin).
    eexists. split; [by eapply alter_lookup|]. case_decide as Hd; [|done]. subst p'.
    by rewrite (Hall _ _ Hl Hp') in Ho.
  - intros p' b' l Hp' Hin. apply alter_inv in Hp' as (b0 & Hb0 & ->). case_decide.
    + rewrite He in Hin. by apply elem_of_nil in Hin.
    + by eapply rg_in.
  - intros p' b' Hp' Hc' HC'. apply alter_inv in Hp' as (b0 & Hb0 & ->). case_decide as Hd; [done|].
    by eapply rg_empty.
Qed.

(** Nothing is registered in the beginning. *)
Lemma registered_nil L C : registered L C ∅ ∅.
Proof.
  split; intros; match goal with Hn : ∅ !! _ = Some _ |- _ => by rewrite lookup_empty in Hn end.
Qed.
End registry.

(** ** Maps from ids as sets *)

(** Every entry of a map is filed under the id of the object. *)
Definition filed {A} (id_of : A -> string) (cs : gmap nat A) (m : list (string * nat)) : Prop :=
  forall id l, (id, l) ∈ m -> exists a, cs !! l = Some a /\ id_of a = id.

Definition distinct_ids {A} (id_of : A -> string) (cs : gmap nat A) : Prop :=
  forall l l' a a', cs !! l = Some a -> cs !! l' = Some a' -> id_of a = id_of a' -> l = l'.

Section filed.
Context {A : Type} (id_of : A -> string).
Implicit Types (cs : gmap nat A) (m : list (string * nat)).

Lemma filed_jdel cs m id : filed id_of cs m -> filed id_of cs (jdel id m).
Proof. intros H id' l Hin. apply elem_of_jdel in Hin as [Hin _]. by apply H. Qed.

Lemma filed_nil cs : filed id_of cs [].
Proof. by intros id l ?%elem_of_nil. Qed.

(** Deleting the id of an object deletes the object. *)
Lemma elem_of_jvals_jdel cs m l a l' :
  filed id_of cs m -> distinct_ids id_of cs -> cs !! l = Some a ->
  l' ∈ jvals (jdel (id_of a) m) <-> l' ∈ jvals m /\ l' <> l.
Proof.
  intros Hf Hd Hl. rewrite !elem_of_jvals. split.
  - intros [id Hin]. apply elem_of_jdel in Hin as [Hin Hid]. split; [by exists id|]. intros ->.
    destruct (Hf _ _ Hin) as (a' & Ha' & <-). congruence.
  - intros [[id Hin] Hne]. exists id. apply elem_of_jdel. split; [done|]. intros ->. apply Hne.
    destruct (Hf _ _ Hin) as (a' & Ha' & Hid). by apply (Hd _ _ _ _ Ha' Hl).
Qed.

(** Adding a new object under its id, which no object has, keeps the others. *)
Lemma jset_new cs m id l :
  filed id_of cs m -> (forall l' a, cs !! l' = Some a -> id_of a <> id) ->
  jset id l m = m ++ [(id, l)].
Proof.
  intros Hf Hid. apply jset_fresh, eq_None_not_Some. intros [l' Hg].
  apply jget_Some_elem, Hf in Hg as (a & Ha & Heq). by eapply Hid.
Qed.

Lemma elem_of_jvals_jset cs m id l l' :
  filed id_of cs m -> (forall l1 a, cs !! l1 = Some a -> id_of a <> id) ->
  l' ∈ jvals (jset id l m) <-> l' ∈ jvals m \/ l' = l.
Proof.
  intros Hf Hid. rewrite (jset_new cs) by done. unfold jvals. rewrite map_app, elem_of_app. simpl.
  by rewrite list_elem_of_singleton.
Qed.

Lemma filed_insert cs m id l a :
  filed id_of cs m -> cs !! l = None -> id_of a = id ->
  (forall l' a, cs !! l' = Some a -> id_of a <> id) ->
  filed id_of (<[l := a]> cs) (jset id l m).
Proof.
  intros Hf Hl Ha Hid. rewrite (jset_new cs) by done. intros id' l' Hin.
  apply elem_of_app in Hin as [Hin|Hin].
  - destruct (Hf _ _ Hin) as (a' & Ha' & Heq). exists a'. by rewrite lookup_insert_ne by congruence.
  - apply list_elem_of_singleton in Hin. injection Hin as -> ->. exists a. by rewrite lookup_insert_eq.
Qed.

Lemma filed_ext cs cs' m :
  (forall l, id_of <$> cs' !! l = id_of <$> cs !! l) -> filed id_of cs m -> filed id_of cs' m.
Proof.
  intros Hs Hf id l Hin. destruct (Hf _ _ Hin) as (a & Ha & Hid). specialize (Hs l). rewrite Ha in Hs.
  apply fmap_Some in Hs as (a' & Ha' & Heq). exists a'. split; [done|congruence].
Qed.

Lemma filed_new cs m l a : cs !! l = None -> filed id_of cs m -> filed id_of (<[l := a]> cs) m.
Proof.
  intros Hl Hf id l' Hin. destruct (Hf _ _ Hin) as (a' & Ha' & Hid). exists a'.
  by rewrite lookup_insert_ne by congruence.
Qed.

Lemma distinct_ids_ext cs cs' :
  (forall l, id_of <$> cs' !! l = id_of <$> cs !! l) -> distinct_ids id_of cs -> distinct_ids id_of cs'.
Proof.
  intros Hs Hd l l' a a' Hl Hl' Hid. pose proof (Hs l) as H1. pose proof (Hs l') as H2.
  rewrite Hl in H1. rewrite Hl' in H2. symmetry in H1, H2.
  apply fmap_Some in H1 as (b & Hb & He). apply fmap_Some in H2 as (b' & Hb' & He').
  eapply Hd; [exact Hb|exact Hb'|congruence].
Qed.

Lemma distinct_ids_insert cs l a :
  distinct_ids id_of cs -> (forall l' a', cs !! l' = Some a' -> id_of a' <> id_of a) ->
  distinct_ids id_of (<[l := a]> cs).
Proof.
  intros Hd Hn l1 l2 a1 a2. destruct (decide (l1 = l)) as [->|H1], (decide (l2 = l)) as [->|H2];
    rewrite ?lookup_insert_eq, ?lookup_insert_ne by congruence.
  - done.
  - intros [= <-] H Hid. by apply Hn in H.
  - intros H [= <-] Hid. by apply Hn in H.
  - by apply Hd.
Qed.
End filed.

Lemma registered_filed `{Registry A B} (id_of : A -> string) (L C : nat -> Prop) (cs : gmap nat A)
    (ps : gmap nat B) p b (m : B -> list (string * nat)) id l :
  (forall l, ~ L l) -> reg_entries b = jvals (m b) -> filed id_of cs (m b) -> registered L C cs ps ->
  ps !! p = Some b ->
  (id, l) ∈ m b <-> exists a, cs !! l = Some a /\ reg_open a = true /\ reg_parent a = Some p /\ id_of a = id.
Proof.
  intros HL He Hf Hr Hb. split.
  - intros Hin. destruct (Hf _ _ Hin) as (a & Ha & Hid).
    assert (l ∈ reg_entries b) as Hl by (rewrite He; apply elem_of_jvals; by exists id).
    apply (registered_exact _ _ _ _ _ _ _ HL Hr Hb) in Hl as (a' & Ha' & Ho & Hp).
    rewrite Ha in Ha'. injection Ha' as <-. by exists a.
  - intros (a & Ha & Ho & Hp & Hid).
    assert (l ∈ reg_entries b) as Hl by (apply (registered_exact _ _ _ _ _ _ _ HL Hr Hb); by exists a).
    rewrite He in Hl. apply elem_of_jvals in Hl as [id' Hin].
    destruct (Hf _ _ Hin) as (a' & Ha' & Hid'). congruence.
Qed.
