(* ===== verification/World.v ===== *)
(** * The objects of the API and how they close each other

    Workers, WebRtcServers, routers, RtpObservers, transports and their
    producers, consumers, data producers and data consumers, as objects in a
    store: several maps refer to the same object (a producer is in a map of its
    transport and in one of its router), and the listeners the code registers
    on its private events connect them.

    From Worker.ts, WebRtcServer.ts, Router.ts and Transport.ts: the maps of
    every object, what is left of the creating methods after their [await], and
    the closing methods.  What objects do (events, requests) is appended to a
    log.  Listeners of the application are not modelled: they see the events of
    the log, and are supposed not to call back into the API while an object
    closes. *)

From S2P Require Import Prelude Js RtpParameters Framing Events TransportState.
From S2P Require Producer Consumer DataProducer DataConsumer RtpObserver.

Abbreviation loc := nat.

(** ** What a transport owns *)

Inductive child : Type :=
| CProducer (p : Producer.producer)
| CConsumer (c : Consumer.consumer)
| CDataProducer (p : DataProducer.dataProducer)
| CDataConsumer (c : DataConsumer.dataConsumer).

Inductive child_kind : Type := KProducer | KConsumer | KDataProducer | KDataConsumer.

#[export] Instance child_kind_eq_dec : EqDecision child_kind.
Proof. solve_decision. Defined.

Definition kind_of (c : child) : child_kind :=
  match c with
  | CProducer _ => KProducer
  | CConsumer _ => KConsumer
  | CDataProducer _ => KDataProducer
  | CDataConsumer _ => KDataConsumer
  end.

Definition child_id (c : child) : string :=
  match c with
  | CProducer p => Producer.producerId p
  | CConsumer c => Consumer.consumerId c
  | CDataProducer p => DataProducer.dataProducerId p
  | CDataConsumer c => DataConsumer.dataConsumerId c
  end.

Definition child_closed (c : child) : bool :=
  match c with
  | CProducer p => Producer.closed p
  | CConsumer c => Consumer.closed c
  | CDataProducer p => DataProducer.closed p
  | CDataConsumer c => DataConsumer.closed c
  end.

Definition child_close (c : child) : child * list effect :=
  match c with
  | CProducer p => let '(p, es) := Producer.close p in (CProducer p, es)
  | CConsumer c => let '(c, es) := Consumer.close c in (CConsumer c, es)
  | CDataProducer p => let '(p, es) := DataProducer.close p in (CDataProducer p, es)
  | CDataConsumer c => let '(c, es) := DataConsumer.close c in (CDataConsumer c, es)
  end.

Definition child_transportClosed (c : child) : child * list effect :=
  match c with
  | CProducer p => let '(p, es) := Producer.transportClosed p in (CProducer p, es)
  | CConsumer c => let '(c, es) := Consumer.transportClosed c in (CConsumer c, es)
  | CDataProducer p => let '(p, es) := DataProducer.transportClosed p in (CDataProducer p, es)
  | CDataConsumer c => let '(c, es) := DataConsumer.transportClosed c in (CDataConsumer c, es)
  end.

(** The notification with which the worker says that the (data) producer of a
    (data) consumer is closed; other children get none. *)
Definition child_producerclose (c : child) : child * list effect :=
  match c with
  | CConsumer c =>
      let '(c, es) := Consumer.on_notification "producerclose" VUndef c in (CConsumer c, es)
  | CDataConsumer c =>
      match DataConsumer.on_notification "dataproducerclose" VUndef c with
      | Ok (c, es) => (CDataConsumer c, es)
      | Err _ => (CDataConsumer c, [])
      end
  | c => (c, [])
  end.

(** ** The store *)

(** A child, the transport whose method created it, and for data consumers the
    SCTP stream the listeners of [consumeData] will free. *)
Record child_node : Type := mkChildNode {
  n_child : child;
  n_transport : loc;
  n_streamId : option nat
}.

Inductive transport_class : Type :=
| WebRtcTransport | PlainTransport | PipeTransport | DirectTransport.

#[export] Instance transport_class_eq_dec : EqDecision transport_class.
Proof. solve_decision. Defined.

Record transport : Type := mkTransport {
  t_id : string;
  t_class : transport_class;
  t_router : loc;                          (* registered listeners: the router *)
  t_server : option loc;                   (* and the WebRtcServer, if any *)
  t_closed : bool;
  t_data : list (string * val);            (* #data of the subclass *)
  t_producers : list (string * loc);
  t_consumers : list (string * loc);
  t_dataProducers : list (string * loc);
  t_dataConsumers : list (string * loc);
  t_cname : option string;                 (* #cnameForProducers *)
  t_nextMid : Z;                           (* #nextMidForConsumers *)
  t_sctp : sctp_ids
}.

Record router : Type := mkRouter {
  r_id : string;
  r_worker : loc;
  r_closed : bool;
  r_rtpCapabilities : RtpCapabilities;
  r_transports : list (string * loc);
  r_producers : list (string * loc);
  r_dataProducers : list (string * loc);
  r_rtpObservers : list (string * loc)
}.

Record webRtcServer : Type := mkWebRtcServer {
  s_id : string;
  s_worker : loc;
  s_closed : bool;
  s_transports : list (string * loc)
}.

Record worker : Type := mkWorker {
  w_closed : bool;
  w_died : bool;
  w_channels_closed : bool;                (* both channels *)
  w_routers : list loc;                    (* sets, in insertion order *)
  w_servers : list loc
}.

(** Objects by the store they are in. *)
Inductive obj : Type :=
| Ochild (l : loc)
| Oobserver (l : loc)
| Otransport (l : loc)
| Orouter (l : loc)
| Oserver (l : loc)
| Oworker (l : loc).

#[export] Instance obj_eq_dec : EqDecision obj.
Proof. solve_decision. Defined.

Record world : Type := mkWorld {
  children : gmap loc child_node;
  observers : gmap loc (RtpObserver.rtpObserver * loc);    (* with its router *)
  transports : gmap loc transport;
  routers : gmap loc router;
  servers : gmap loc webRtcServer;
  workers : gmap loc worker;
  subscriptions : list (loc * string * obj);    (* worker, id listened to, listener *)
  log : list (obj * effect)
}.

Definition empty_world : world := mkWorld ∅ ∅ ∅ ∅ ∅ ∅ [] [].

Definition set_children f (w : world) : world :=
  mkWorld (f (children w)) (observers w) (transports w) (routers w) (servers w) (workers w)
    (subscriptions w) (log w).
Definition set_observers f (w : world) : world :=
  mkWorld (children w) (f (observers w)) (transports w) (routers w) (servers w) (workers w)
    (subscriptions w) (log w).
Definition set_transports f (w : world) : world :=
  mkWorld (children w) (observers w) (f (transports w)) (routers w) (servers w) (workers w)
    (subscriptions w) (log w).
Definition set_routers f (w : world) : world :=
  mkWorld (children w) (observers w) (transports w) (f (routers w)) (servers w) (workers w)
    (subscriptions w) (log w).
Definition set_servers f (w : world) : world :=
  mkWorld (children w) (observers w) (transports w) (routers w) (f (servers w)) (workers w)
    (subscriptions w) (log w).
Definition set_workers f (w : world) : world :=
  mkWorld (children w) (observers w) (transports w) (routers w) (servers w) (f (workers w))
    (subscriptions w) (log w).
Definition set_subscriptions f (w : world) : world :=
  mkWorld (children w) (observers w) (transports w) (routers w) (servers w) (workers w)
    (f (subscriptions w)) (log w).
Definition record_effect (o : obj) (e : effect) (w : world) : world :=
  mkWorld (children w) (observers w) (transports w) (routers w) (servers w) (workers w)
    (subscriptions w) (log w ++ [(o, e)]).

(** ** Updates of objects *)

Definition with_child (c : child) (n : child_node) : child_node :=
  mkChildNode c (n_transport n) (n_streamId n).

(** The map of a transport for a kind of child. *)
Definition t_map (k : child_kind) (t : transport) : list (string * loc) :=
  match k with
  | KProducer => t_producers t
  | KConsumer => t_consumers t
  | KDataProducer => t_dataProducers t
  | KDataConsumer => t_dataConsumers t
  end.

Definition update_t_map (k : child_kind) (f : list (string * loc) -> list (string * loc))
    (t : transport) : transport :=
  let on k' := if decide (k = k') then f else id in
  mkTransport (t_id t) (t_class t) (t_router t) (t_server t) (t_closed t) (t_data t)
    (on KProducer (t_producers t)) (on KConsumer (t_consumers t))
    (on KDataProducer (t_dataProducers t)) (on KDataConsumer (t_dataConsumers t))
    (t_cname t) (t_nextMid t) (t_sctp t).

Definition update_t_sctp (f : sctp_ids -> sctp_ids) (t : transport) : transport :=
  mkTransport (t_id t) (t_class t) (t_router t) (t_server t) (t_closed t) (t_data t)
    (t_producers t) (t_consumers t) (t_dataProducers t) (t_dataConsumers t)
    (t_cname t) (t_nextMid t) (f (t_sctp t)).

(** What the creating methods of a transport keep in it. *)
Definition with_state (cname : option string) (nextMid : Z) (s : sctp_ids) (t : transport) : transport :=
  mkTransport (t_id t) (t_class t) (t_router t) (t_server t) (t_closed t) (t_data t)
    (t_producers t) (t_consumers t) (t_dataProducers t) (t_dataConsumers t)
    cname nextMid s.

(** The [#data] of a closed transport: what the closing methods of the
    subclasses set before they call the one of Transport.ts. *)
Definition closed_sctp (data : list (string * val)) : list (string * val) :=
  if truthy (default VUndef (jget "sctpState" data)) then jset "sctpState" (VStr "closed") data
  else data.

Definition closed_webRtc (data : list (string * val)) : list (string * val) :=
  closed_sctp (jset "dtlsState" (VStr "closed")
    (jset "iceSelectedTuple" VUndef (jset "iceState" (VStr "closed") data))).

Definition closed_data (cls : transport_class) : list (string * val) -> list (string * val) :=
  match cls with
  | WebRtcTransport => closed_webRtc
  | PlainTransport | PipeTransport => closed_sctp
  | DirectTransport => fun data => data
  end.

Definition closed_transport (t : transport) : transport :=
  mkTransport (t_id t) (t_class t) (t_router t) (t_server t) true (closed_data (t_class t) (t_data t))
    (t_producers t) (t_consumers t) (t_dataProducers t) (t_dataConsumers t)
    (t_cname t) (t_nextMid t) (t_sctp t).

(** The map of a router for a kind of child; consumers are in none. *)
Definition r_map (k : child_kind) (r : router) : list (string * loc) :=
  match k with
  | KProducer => r_producers r
  | KDataProducer => r_dataProducers r
  | _ => []
  end.

Definition update_r_map (k : child_kind) (f : list (string * loc) -> list (string * loc))
    (r : router) : router :=
  let on k' := if decide (k = k') then f else id in
  mkRouter (r_id r) (r_worker r) (r_closed r) (r_rtpCapabilities r) (r_transports r)
    (on KProducer (r_producers r)) (on KDataProducer (r_dataProducers r)) (r_rtpObservers r).

Definition update_r_transports f (r : router) : router :=
  mkRouter (r_id r) (r_worker r) (r_closed r) (r_rtpCapabilities r) (f (r_transports r))
    (r_producers r) (r_dataProducers r) (r_rtpObservers r).
Definition update_r_rtpObservers f (r : router) : router :=
  mkRouter (r_id r) (r_worker r) (r_closed r) (r_rtpCapabilities r) (r_transports r)
    (r_producers r) (r_dataProducers r) (f (r_rtpObservers r)).
Definition closed_router (r : router) : router :=
  mkRouter (r_id r) (r_worker r) true (r_rtpCapabilities r) (r_transports r)
    (r_producers r) (r_dataProducers r) (r_rtpObservers r).

Definition update_s_transports f (s : webRtcServer) : webRtcServer :=
  mkWebRtcServer (s_id s) (s_worker s) (s_closed s) (f (s_transports s)).
Definition closed_server (s : webRtcServer) : webRtcServer :=
  mkWebRtcServer (s_id s) (s_worker s) true (s_transports s).

Definition update_w_routers f (w : worker) : worker :=
  mkWorker (w_closed w) (w_died w) (w_channels_closed w) (f (w_routers w)) (w_servers w).
Definition update_w_servers f (w : worker) : worker :=
  mkWorker (w_closed w) (w_died w) (w_channels_closed w) (w_routers w) (f (w_servers w)).

(** The worker whose channels an object uses. *)
Definition router_worker (r : loc) (w : world) : loc :=
  match routers w !! r with Some ro => r_worker ro | None => 0 end.
Definition transport_worker (t : loc) (w : world) : loc :=
  match transports w !! t with Some tr => router_worker (t_router tr) w | None => 0 end.

(** [channel.removeAllListeners(id)] and the same on the payload channel. *)
Definition unsubscribe (wk : loc) (id : string) (w : world) : world :=
  set_subscriptions (List.filter (fun s => negb (Nat.eqb s.1.1 wk && String.eqb s.1.2 id))) w.
Definition subscribe (wk : loc) (id : string) (o : obj) (w : world) : world :=
  set_subscriptions (fun subs => subs ++ [(wk, id, o)]) w.

(** ** Events of children *)

(** The private events on which the listeners of Transport.ts remove a child
    from its map. *)
Definition removing_event (k : child_kind) (ev : string) : bool :=
  String.eqb ev "@close" ||
  match k with
  | KConsumer => String.eqb ev "@producerclose"
  | KDataConsumer => String.eqb ev "@dataproducerclose"
  | _ => false
  end.

(** The event with which a transport tells its router about a closed child, and
    the one about a new child. *)
Definition close_event (k : child_kind) : option string :=
  match k with
  | KProducer => Some "@producerclose"
  | KDataProducer => Some "@dataproducerclose"
  | _ => None
  end.
Definition new_event (k : child_kind) : option string :=
  match k with
  | KProducer => Some "@newproducer"
  | KDataProducer => Some "@newdataproducer"
  | _ => None
  end.

(** [this.emit('@producerclose', producer)] on a transport, with the listener of
    the router. *)
Definition tell_router_closed (t : loc) (k : child_kind) (id : string) (w : world) : world :=
  match close_event k, transports w !! t with
  | Some ev, Some tr =>
      set_routers (alter (update_r_map k (jdel id)) (t_router tr))
        (record_effect (Otransport t) (Emit ev (VStr id)) w)
  | _, _ => w
  end.

(** [this.emit('@newproducer', producer)] *)
Definition tell_router_new (t : loc) (k : child_kind) (id : string) (l : loc) (w : world) : world :=
  match new_event k, transports w !! t with
  | Some ev, Some tr =>
      set_routers (alter (update_r_map k (jset id l)) (t_router tr))
        (record_effect (Otransport t) (Emit ev (VStr id)) w)
  | _, _ => w
  end.

(** The listeners of Transport.ts on a child. *)
Definition on_child_event (l : loc) (ev : string) (w : world) : world :=
  match children w !! l with
  | None => w
  | Some n =>
      let k := kind_of (n_child n) in
      if removing_event k ev then
        let free s := match n_streamId n with Some i => mark_stream false i s | None => s end in
        let id := child_id (n_child n) in
        let w := set_transports (alter (fun t => update_t_sctp free (update_t_map k (jdel id) t))
                                   (n_transport n)) w in
        tell_router_closed (n_transport n) k id w
      else w
  end.

Definition run_effect (l wk : loc) (w : world) (e : effect) : world :=
  match e with
  | Unsubscribe id => unsubscribe wk id w
  | Emit ev _ => on_child_event l ev (record_effect (Ochild l) e w)
  | _ => record_effect (Ochild l) e w
  end.

(** A method of a child. *)
Definition apply_child (f : child -> child * list effect) (l : loc) (w : world) : world :=
  match children w !! l with
  | None => w
  | Some n =>
      let '(c, es) := f (n_child n) in
      foldl (run_effect l (transport_worker (n_transport n) w))
        (set_children (insert l (with_child c n)) w) es
  end.

Definition close_child : loc -> world -> world := apply_child child_close.

(** ** Transports *)

(** [for (const producer of this.#producers.values()) { ... }] and [clear()];
    [tell]: the router is told of every closed producer. *)
Definition close_one (tell : bool) (t : loc) (k : child_kind) (w : world) (l : loc) : world :=
  let w := apply_child child_transportClosed l w in
  if tell then
    match children w !! l with
    | Some n => tell_router_closed t k (child_id (n_child n)) w
    | None => w
    end
  else w.

Definition close_kind (tell : bool) (t : loc) (w : world) (k : child_kind) : world :=
  match transports w !! t with
  | None => w
  | Some tr =>
      set_transports (alter (update_t_map k (fun _ => [])) t)
        (foldl (close_one tell t k) w (jvals (t_map k tr)))
  end.

Definition close_children (tell : bool) (t : loc) (w : world) : world :=
  foldl (close_kind tell t) w [KProducer; KConsumer; KDataProducer; KDataConsumer].

(** The beginning of the three closing methods. *)
Definition mark_transport_closed (t : loc) (tr : transport) (w : world) : world :=
  unsubscribe (transport_worker t w) (t_id tr)
    (set_transports (insert t (closed_transport tr)) w).

(** [this.emit('@close')] with the listeners of the router and of the
    WebRtcServer. *)
Definition emit_transport_close (t : loc) (tr : transport) (w : world) : world :=
  let w := record_effect (Otransport t) (Emit "@close" VUndef) w in
  let w := set_routers (alter (update_r_transports (jdel (t_id tr))) (t_router tr)) w in
  match t_server tr with
  | None => w
  | Some s =>
      record_effect (Oserver s) (Observer "webrtctransportunhandled" (VStr (t_id tr)))
        (set_servers (alter (update_s_transports (jdel (t_id tr))) s) w)
  end.

Definition transport_close (t : loc) (w : world) : world :=
  match transports w !! t with
  | None => w
  | Some tr =>
      if t_closed tr then w
      else
        let routerId := match routers w !! t_router tr with Some r => r_id r | None => "" end in
        let w := mark_transport_closed t tr w in
        let w := record_effect (Otransport t)
                   (Request "router.closeTransport" (Some routerId)
                      (VObj [("transportId", VStr (t_id tr))])) w in
        let w := close_children true t w in
        let w := emit_transport_close t tr w in
        record_effect (Otransport t) (Observer "close" VUndef) w
  end.

Definition transport_routerClosed (t : loc) (w : world) : world :=
  match transports w !! t with
  | None => w
  | Some tr =>
      if t_closed tr then w
      else
        let w := mark_transport_closed t tr w in
        let w := close_children false t w in
        let w := record_effect (Otransport t) (Emit "routerclose" VUndef) w in
        record_effect (Otransport t) (Observer "close" VUndef) w
  end.

Definition transport_listenServerClosed (t : loc) (w : world) : world :=
  match transports w !! t with
  | None => w
  | Some tr =>
      if t_closed tr then w
      else
        let w := mark_transport_closed t tr w in
        let w := close_children false t w in
        let w := set_routers (alter (update_r_transports (jdel (t_id tr))) (t_router tr))
                   (record_effect (Otransport t) (Emit "@listenserverclose" VUndef) w) in
        let w := record_effect (Otransport t) (Emit "listenserverclose" VUndef) w in
        record_effect (Otransport t) (Observer "close" VUndef) w
  end.

(** ** RtpObservers *)

(** An observer object; '@close' has the listener of the router. *)
Definition run_observer_effect (l wk r : loc) (id : string) (w : world) (e : effect) : world :=
  match e with
  | Unsubscribe id => unsubscribe wk id w
  | Emit ev _ =>
      let w := record_effect (Oobserver l) e w in
      if String.eqb ev "@close" then set_routers (alter (update_r_rtpObservers (jdel id)) r) w else w
  | _ => record_effect (Oobserver l) e w
  end.

Definition apply_observer (f : RtpObserver.rtpObserver -> RtpObserver.rtpObserver * list effect)
    (l : loc) (w : world) : world :=
  match observers w !! l with
  | None => w
  | Some (o, r) =>
      let '(o', es) := f o in
      foldl (run_observer_effect l (router_worker r w) r (RtpObserver.rtpObserverId o))
        (set_observers (insert l (o', r)) w) es
  end.

Definition observer_close : loc -> world -> world := apply_observer RtpObserver.close.
Definition observer_routerClosed : loc -> world -> world := apply_observer RtpObserver.routerClosed.

(** ** Routers *)

Definition for_each {A} (f : A -> world -> world) (l : list A) (w : world) : world :=
  foldl (fun w x => f x w) w l.

(** What [close] and [workerClosed] have in common: every transport and every
    RtpObserver is closed and the maps are cleared. *)
Definition close_router_objects (r : loc) (w : world) : world :=
  match routers w !! r with
  | None => w
  | Some ro =>
      let w := for_each transport_routerClosed (jvals (r_transports ro)) w in
      let w := set_routers (alter (update_r_transports (fun _ => [])) r) w in
      let w := set_routers (alter (update_r_map KProducer (fun _ => [])) r) w in
      let w := for_each observer_routerClosed (jvals (r_rtpObservers ro)) w in
      let w := set_routers (alter (update_r_rtpObservers (fun _ => [])) r) w in
      set_routers (alter (update_r_map KDataProducer (fun _ => [])) r) w
  end.

Definition router_close (r : loc) (w : world) : world :=
  match routers w !! r with
  | None => w
  | Some ro =>
      if r_closed ro then w
      else
        let w := set_routers (alter closed_router r) w in
        let w := record_effect (Orouter r)
                   (Request "worker.closeRouter" None (VObj [("routerId", VStr (r_id ro))])) w in
        let w := close_router_objects r w in
        let w := record_effect (Orouter r) (Emit "@close" VUndef) w in
        let w := set_workers (alter (update_w_routers (filter (fun l => l <> r))) (r_worker ro)) w in
        record_effect (Orouter r) (Observer "close" VUndef) w
  end.

Definition router_workerClosed (r : loc) (w : world) : world :=
  match routers w !! r with
  | None => w
  | Some ro =>
      if r_closed ro then w
      else
        let w := set_routers (alter closed_router r) w in
        let w := close_router_objects r w in
        let w := record_effect (Orouter r) (Emit "workerclose" VUndef) w in
        record_effect (Orouter r) (Observer "close" VUndef) w
  end.

(** ** WebRtcServers *)

Definition unhandle (s : loc) (t : loc) (w : world) : world :=
  let w := transport_listenServerClosed t w in
  match transports w !! t with
  | Some tr => record_effect (Oserver s) (Observer "webrtctransportunhandled" (VStr (t_id tr))) w
  | None => w
  end.

Definition server_close (s : loc) (w : world) : world :=
  match servers w !! s with
  | None => w
  | Some sv =>
      if s_closed sv then w
      else
        let w := set_servers (alter closed_server s) w in
        let w := record_effect (Oserver s)
                   (Request "worker.closeWebRtcServer" None
                      (VObj [("webRtcServerId", VStr (s_id sv))])) w in
        let w := for_each (unhandle s) (jvals (s_transports sv)) w in
        let w := set_servers (alter (update_s_transports (fun _ => [])) s) w in
        let w := record_effect (Oserver s) (Emit "@close" VUndef) w in
        let w := set_workers (alter (update_w_servers (filter (fun l => l <> s))) (s_worker sv)) w in
        record_effect (Oserver s) (Observer "close" VUndef) w
  end.

Definition server_workerClosed (s : loc) (w : world) : world :=
  match servers w !! s with
  | None => w
  | Some sv =>
      if s_closed sv then w
      else
        let w := set_servers (alter closed_server s) w in
        let w := set_servers (alter (update_s_transports (fun _ => [])) s) w in
        let w := record_effect (Oserver s) (Emit "workerclose" VUndef) w in
        record_effect (Oserver s) (Observer "close" VUndef) w
  end.

(** ** Workers *)

(** What [close] and [workerDied] have in common: the channels, the routers and
    the WebRtcServers are closed. *)
Definition close_worker_objects (k : loc) (w : world) : world :=
  match workers w !! k with
  | None => w
  | Some wk =>
      let w := for_each router_workerClosed (w_routers wk) w in
      let w := set_workers (alter (update_w_routers (fun _ => [])) k) w in
      let w := for_each server_workerClosed (w_servers wk) w in
      set_workers (alter (update_w_servers (fun _ => [])) k) w
  end.

Definition closed_worker (died : bool) (wk : worker) : worker :=
  mkWorker true (died || w_died wk) true (w_routers wk) (w_servers wk).

Definition worker_close (k : loc) (w : world) : world :=
  match workers w !! k with
  | None => w
  | Some wk =>
      if w_closed wk then w
      else
        let w := set_workers (alter (closed_worker false) k) w in
        let w := close_worker_objects k w in
        record_effect (Oworker k) (Observer "close" VUndef) w
  end.

Definition worker_died (message : string) (k : loc) (w : world) : world :=
  match workers w !! k with
  | None => w
  | Some wk =>
      if w_closed wk then w
      else
        let w := set_workers (alter (closed_worker true) k) w in
        let w := close_worker_objects k w in
        let w := record_effect (Oworker k) (Emit "died" (VStr message)) w in
        record_effect (Oworker k) (Observer "close" VUndef) w
  end.

(** ** Creation: what follows the [await] of the creating methods

    [l] is the new object. *)

Definition createRouter_done (l k : loc) (id : string) (caps : RtpCapabilities) (w : world) : world :=
  let w := set_routers (insert l (mkRouter id k false caps [] [] [] [])) w in
  let w := set_workers (alter (update_w_routers (fun ls => ls ++ [l])) k) w in
  record_effect (Oworker k) (Observer "newrouter" (VStr id)) w.

Definition createWebRtcServer_done (l k : loc) (id : string) (w : world) : world :=
  let w := set_servers (insert l (mkWebRtcServer id k false [])) w in
  let w := set_workers (alter (update_w_servers (fun ls => ls ++ [l])) k) w in
  record_effect (Oworker k) (Observer "newwebrtcserver" (VStr id)) w.

(** [handleWebRtcTransport] *)
Definition handleWebRtcTransport (s t : loc) (id : string) (w : world) : world :=
  record_effect (Oserver s) (Observer "webrtctransporthandled" (VStr id))
    (set_servers (alter (update_s_transports (jset id t)) s) w).

(** [createWebRtcTransport] and the other three; the constructor of the subclass
    subscribes to notifications. *)
Definition createTransport_done (l r : loc) (cls : transport_class) (server : option loc)
    (id : string) (data : list (string * val)) (w : world) : world :=
  let w := subscribe (router_worker r w) id (Otransport l) w in
  let w := set_transports (insert l
             (mkTransport id cls r server false data [] [] [] [] None 0 no_sctp_ids)) w in
  let w := set_routers (alter (update_r_transports (jset id l)) r) w in
  let w := record_effect (Orouter r) (Observer "newtransport" (VStr id)) w in
  match server with
  | None => w
  | Some s => handleWebRtcTransport s l id w
  end.

Definition createRtpObserver_done (l r : loc) (cls : RtpObserver.observer_class) (id : string)
    (w : world) : world :=
  let routerId := match routers w !! r with Some ro => r_id ro | None => "" end in
  let w := subscribe (router_worker r w) id (Oobserver l) w in
  let w := set_observers (insert l (RtpObserver.new_rtpObserver id routerId cls, r)) w in
  let w := set_routers (alter (update_r_rtpObservers (jset id l)) r) w in
  record_effect (Orouter r) (Observer "newrtpobserver" (VStr id)) w.

(** The end of [produce], [consume], [produceData] and [consumeData]: the object
    is made (data producers subscribe to nothing), put into the map, the router
    is told, and the observer. *)
Definition observer_event (k : child_kind) : string :=
  match k with
  | KProducer => "newproducer"
  | KConsumer => "newconsumer"
  | KDataProducer => "newdataproducer"
  | KDataConsumer => "newdataconsumer"
  end.

Definition add_child (l t : loc) (c : child) (streamId : option nat) (w : world) : world :=
  let id := child_id c in
  let k := kind_of c in
  let w := if decide (k = KDataProducer) then w
           else subscribe (transport_worker t w) id (Ochild l) w in
  let w := set_children (insert l (mkChildNode c t streamId)) w in
  let w := set_transports (alter (update_t_map k (jset id l)) t) w in
  let w := tell_router_new t k id l w in
  record_effect (Otransport t) (Observer (observer_event k) (VStr id)) w.

(** A new child is open. *)
Definition produce_done (l t : loc) (id tid : string) (kind : MediaKind) (type : string)
    (rtp consumable : RtpParameters) (paused : bool) : world -> world :=
  add_child l t (CProducer (Producer.new_producer id tid kind type rtp consumable paused)) None.

Definition consume_done (l t : loc) (id tid producerId : string) (kind : MediaKind) (type : string)
    (rtp : RtpParameters) (paused producerPaused : bool) (score layers : val) : world -> world :=
  add_child l t (CConsumer (Consumer.new_consumer id tid producerId kind type rtp paused
                              producerPaused score layers)) None.

Definition produceData_done (l t : loc) (id tid type : string) (sctp : val) (label protocol : string) :
    world -> world :=
  add_child l t (CDataProducer (DataProducer.new_dataProducer id tid type sctp label protocol)) None.

Definition consumeData_done (l t : loc) (id tid producerId type : string) (sctp : val)
    (label protocol : string) (streamId : option nat) : world -> world :=
  add_child l t (CDataConsumer (DataConsumer.new_dataConsumer id tid producerId type sctp label
                                  protocol)) streamId.

(** ** The system

    Locations of new objects are fresh, and so are the ids of new transports and
    RtpObservers, which the code makes with [uuidv4].  A worker refuses to make
    an object for a closed owner, and a child whose id an open child of the same
    kind and router has (the application may choose ids of producers).
    What the creating methods of a transport do before their [await] is in
    TransportCalls.v; here it is any change of what they keep.  Methods and
    notifications of objects that close nothing are in Delivery.v; here they are
    any change of details.  [add_child] may happen on an open transport only: an application ensures it
    that does not close a transport while it produces or consumes on it. *)

Definition fresh_transport_id (id : string) (w : world) : Prop :=
  forall t tr, transports w !! t = Some tr -> t_id tr <> id.
Definition fresh_observer_id (id : string) (w : world) : Prop :=
  forall l o, observers w !! l = Some o -> RtpObserver.rtpObserverId o.1 <> id.
Definition fresh_child_id (k : child_kind) (id : string) (r : loc) (w : world) : Prop :=
  forall l n tr, children w !! l = Some n -> child_closed (n_child n) = false ->
    kind_of (n_child n) = k -> child_id (n_child n) = id ->
    transports w !! n_transport n = Some tr -> t_router tr <> r.

(** Methods and notifications that close nothing change the details of an object:
    the store is the same afterwards but for these, and what was recorded tells
    of no closing. *)
Definition producer_parameters (c : child) : option (RtpParameters * RtpParameters) :=
  match c with
  | CProducer p => Some (Producer.rtpParameters p, Producer.consumableRtpParameters p)
  | _ => None
  end.

Definition c_frame (n : child_node) :
    child_kind * string * bool * option (RtpParameters * RtpParameters) * loc * option nat :=
  (kind_of (n_child n), child_id (n_child n), child_closed (n_child n), producer_parameters (n_child n),
   n_transport n, n_streamId n).
Definition o_frame (o : RtpObserver.rtpObserver * loc) : string * bool * loc :=
  (RtpObserver.rtpObserverId o.1, RtpObserver.closed o.1, o.2).
Definition with_data (data : list (string * val)) (t : transport) : transport :=
  mkTransport (t_id t) (t_class t) (t_router t) (t_server t) (t_closed t) data
    (t_producers t) (t_consumers t) (t_dataProducers t) (t_dataConsumers t)
    (t_cname t) (t_nextMid t) (t_sctp t).
Definition t_frame : transport -> transport := with_data [].

Definition quiet_effect (e : effect) : bool :=
  match e with
  | Unsubscribe _ => false
  | Emit ev _ => negb (existsb (String.eqb ev) ["@close"; "@producerclose"; "@dataproducerclose"])
  | Observer ev _ => negb (String.eqb ev "close")
  | _ => true
  end.

Record alike (w w' : world) : Prop := mkAlike {
  al_children : forall l, c_frame <$> children w' !! l = c_frame <$> children w !! l;
  al_observers : forall l, o_frame <$> observers w' !! l = o_frame <$> observers w !! l;
  al_transports : forall t, t_frame <$> transports w' !! t = t_frame <$> transports w !! t;
  al_routers : routers w' = routers w;
  al_servers : servers w' = servers w;
  al_workers : workers w' = workers w;
  al_subscriptions : subscriptions w' = subscriptions w;
  al_log : exists es, log w' = log w ++ es /\ Forall (fun x => quiet_effect x.2 = true) es
}.

(** The WebRtcServer a transport is made for: of the same worker. *)
Definition usable_server (server : option loc) (k : loc) (w : world) : Prop :=
  match server with
  | None => True
  | Some s => exists sv, servers w !! s = Some sv /\ s_closed sv = false /\ s_worker sv = k
  end.

Inductive step : world -> world -> Prop :=
| step_worker k w :
    workers w !! k = None ->
    step w (set_workers (insert k (mkWorker false false false [] [])) w)
| step_router l k id caps w wk :
    routers w !! l = None -> workers w !! k = Some wk -> w_closed wk = false ->
    step w (createRouter_done l k id caps w)
| step_server l k id w wk :
    servers w !! l = None -> workers w !! k = Some wk -> w_closed wk = false ->
    step w (createWebRtcServer_done l k id w)
| step_transport l r cls server id data w ro :
    transports w !! l = None -> routers w !! r = Some ro -> r_closed ro = false ->
    usable_server server (r_worker ro) w -> fresh_transport_id id w ->
    step w (createTransport_done l r cls server id data w)
| step_observer l r cls id w ro :
    observers w !! l = None -> routers w !! r = Some ro -> r_closed ro = false ->
    fresh_observer_id id w ->
    step w (createRtpObserver_done l r cls id w)
| step_child l t c streamId w tr :
    children w !! l = None -> child_closed c = false ->
    transports w !! t = Some tr -> t_closed tr = false ->
    fresh_child_id (kind_of c) (child_id c) (t_router tr) w ->
    step w (add_child l t c streamId w)
| step_state t cname nextMid s w :
    step w (set_transports (alter (with_state cname nextMid s) t) w)
| step_detail w w' : alike w w' -> step w w'
| step_child_close l w : step w (close_child l w)
| step_child_producerclose l w : step w (apply_child child_producerclose l w)
| step_transport_close t w : step w (transport_close t w)
| step_observer_close l w : step w (observer_close l w)
| step_router_close r w : step w (router_close r w)
| step_server_close s w : step w (server_close s w)
| step_worker_close k w : step w (worker_close k w)
| step_worker_died message k w : step w (worker_died message k w).

Inductive reachable : world -> Prop :=
| reachable_empty : reachable empty_world
| reachable_step w w' : reachable w -> step w w' -> reachable w'.
