(* ===== verification/TransportCalls.v ===== *)
(** * produce, consume, produceData and consumeData up to their requests

    From Transport.ts, with the [consume] of PipeTransport.ts: the checks of the
    arguments, the negotiation, what is kept in the transport (the CNAME of the
    producers, the counter of MIDs, the SCTP stream), the body of the request
    and what the method remembers for the time after its [await].

    A method runs on the transport and may throw; what it has changed before
    stays changed. *)

From S2P Require Import Prelude Js RtpParameters Validate Ortc OrtcConsumer RequestBodies Framing Events TransportState World.
From S2P Require Producer Consumer DataProducer DataConsumer.

(** ** Code that changes a transport and may throw *)

Definition M (A : Type) : Type := transport -> transport * result A.

#[export] Instance M_ret : MRet M := fun A a tr => (tr, Ok a).
#[export] Instance M_bind : MBind M := fun A B f m tr =>
  match m tr with
  | (tr, Ok a) => f a tr
  | (tr, Err e) => (tr, Err e)
  end.

Definition lift {A} (m : result A) : M A := fun tr => (tr, m).
Definition throw_when (b : bool) (e : error) : M unit := lift (throw_if b e).
Definition this : M transport := fun tr => (tr, Ok tr).
Definition update (f : transport -> transport) : M unit := fun tr => (f tr, Ok tt).

(** ** What a transport keeps for its methods *)

Definition with_cname (c : option string) (t : transport) : transport :=
  with_state c (t_nextMid t) (t_sctp t) t.
Definition with_nextMid (n : Z) (t : transport) : transport :=
  with_state (t_cname t) n (t_sctp t) t.

(** The functions a router gives its transports when it makes them. *)
Record router_access : Type := mkRouterAccess {
  getRouterRtpCapabilities : RtpCapabilities;
  getProducerById : string -> option Producer.producer;
  getDataProducerById : string -> option DataProducer.dataProducer
}.

(** ** Arguments *)

(** Destructuring the argument of a method. *)
Definition destructure (options : val) : result val :=
  match options with
  | VUndef | VNull => Err (TypeError "Cannot destructure properties")
  | v => Ok v
  end.

(** [v = d] in a parameter list. *)
Definition by_default (d v : val) : val := match v with VUndef => d | v => v end.

(** [appData && typeof appData !== 'object'] *)
Definition bad_appData (appData : val) : bool := truthy appData && negb (is_type "object" appData).
Definition appData_error : error := TypeError "if given, appData must be an object".

(** [!v || typeof v !== 'string'] *)
Definition bad_id (v : val) : bool := negb (truthy v) || negb (is_type "string" v).

(** A value where a string is expected. *)
Definition text (v : val) : string := match v with VStr s => s | v => js_string v end.

(** [map.has(id)]; the keys are strings. *)
Definition has_id {V} (id : val) (m : list (string * V)) : bool :=
  match id with VStr s => jhas s m | _ => false end.

Definition in_quotes (s : string) : string := dquote +:+ s +:+ dquote.

(** [v.k] on the answer of the worker. *)
Definition field (k : string) (v : val) : result val :=
  match v with
  | VUndef | VNull => Err undefined_access
  | v => Ok (prop k v)
  end.

Definition transport_request (method : string) (reqData : val) (tr : transport) : effect :=
  Request method (Some (t_id tr)) reqData.

(** [this.internal.transportId], when a method goes on after its [await]. *)
Definition transport_id (t : loc) (w : world) : string :=
  match transports w !! t with Some tr => t_id tr | None => "" end.

(** ** produce *)

(** What [produce] keeps while it waits. *)
Record producing : Type := mkProducing {
  pr_producerId : string;
  pr_kind : MediaKind;
  pr_rtpParameters : RtpParameters;
  pr_consumableRtpParameters : RtpParameters;
  pr_paused : val
}.

Definition not_parameters : error := TypeError "not RtpParameters".

(** [{}] *)
Definition no_encoding : RtpEncodingParameters := mkRtpEncodingParameters None None None None None None None None.

(** Validated parameters have an array of encodings. *)
Definition with_encoding (p : RtpParameters) : RtpParameters :=
  match rp_encodings p with
  | [] => mkRtpParameters (rp_mid p) (rp_codecs p) (rp_headerExtensions p) [no_encoding] (rp_rtcp p)
  | _ => p
  end.

Definition set_cname (c : option string) (p : RtpParameters) : RtpParameters :=
  mkRtpParameters (rp_mid p) (rp_codecs p) (rp_headerExtensions p) (rp_encodings p)
    (mkRtcpParameters c (rtcp_reducedSize (rp_rtcp p)) (rtcp_mux (rp_rtcp p))).

(** The CNAME of all producers of the transport; [uuid] is random. *)
Definition override_cname (uuid : string) (p : RtpParameters) : M RtpParameters :=
  tr ← this;
  match t_class tr with
  | PipeTransport => mret p
  | _ =>
      match truthy_string (t_cname tr), truthy_string (rtcp_cname (rp_rtcp p)) with
      | None, Some cname => update (with_cname (Some cname))
      | None, None => update (with_cname (Some (String.substring 0 8 uuid)))
      | Some _, _ => mret tt
      end ≫= fun _ =>
      tr ← this;
      mret (set_cname (t_cname tr) p)
  end.

(** [uuid1] and [uuid2] come from [uuidv4], [rnd] from [generateRandomNumber]. *)
Definition produce `{H264} (router : router_access) (options : val) (uuid1 uuid2 : string) (rnd : Z) :
    M (effect * producing) :=
  options ← lift (destructure options);
  let id := prop "id" options in
  let paused := by_default (VBool false) (prop "paused" options) in
  tr ← this;
  throw_when (truthy id && has_id id (t_producers tr))
    (TypeError ("a Producer with same id " +:+ in_quotes (text id) +:+ " already exists"));;
  kind ← lift (from_option_or
           (TypeError ("invalid kind " +:+ in_quotes (js_string (prop "kind" options))))
           (as_kind (prop "kind" options)));
  throw_when (bad_appData (prop "appData" options)) appData_error;;
  rtpParameters ← lift (validateRtpParameters (prop "rtpParameters" options));
  rtpParameters ← lift (from_option_or not_parameters (RtpParameters_view rtpParameters));
  rtpParameters ← override_cname uuid1 (with_encoding rtpParameters);
  '(rtpParameters, rtpMapping) ←
    lift (getProducerRtpParametersMapping rtpParameters (getRouterRtpCapabilities router) rnd);
  consumableRtpParameters ←
    lift (getConsumableRtpParameters kind rtpParameters (getRouterRtpCapabilities router) rtpMapping);
  let producerId := if truthy id then text id else uuid2 in
  tr ← this;
  mret (transport_request "transport.produce"
          (VObj [("producerId", VStr producerId); ("kind", VStr (kind_string kind));
                 ("rtpParameters", RtpParameters_val rtpParameters);
                 ("rtpMapping", RtpMapping_val rtpMapping);
                 ("keyFrameRequestDelay", prop "keyFrameRequestDelay" options);
                 ("paused", paused)]) tr,
        mkProducing producerId kind rtpParameters consumableRtpParameters paused).

(** The answer of the worker. *)
Definition produce_continue (l t : loc) (c : producing) (status : val) (w : world) : result world :=
  type ← field "type" status;
  Ok (produce_done l t (pr_producerId c) (transport_id t w) (pr_kind c) (text type) (pr_rtpParameters c)
        (pr_consumableRtpParameters c) (truthy (pr_paused c)) w).

(** ** consume *)

Record consuming : Type := mkConsuming {
  co_consumerId : string;
  co_producerId : string;
  co_kind : MediaKind;
  co_rtpParameters : RtpParameters;
  co_type : string
}.

Definition set_mid (mid : string) (p : RtpParameters) : RtpParameters :=
  mkRtpParameters (Some mid) (rp_codecs p) (rp_headerExtensions p) (rp_encodings p) (rp_rtcp p).

(** The MID of the consumer: the given one or the next number. *)
Definition choose_mid (mid : val) (p : RtpParameters) : M RtpParameters :=
  if truthy mid then mret (set_mid (text mid) p)
  else
    tr ← this;
    let '(s, n) := next_mid (t_nextMid tr) in
    update (with_nextMid n);;
    mret (set_mid s p).

Definition producer_not_found (what id : string) : error :=
  PlainError (what +:+ " with id " +:+ in_quotes id +:+ " not found").

Definition transport_consume `{H264} (router : router_access) (options : val) (uuid : string) (rnd1 rnd2 : Z) :
    M (effect * consuming) :=
  options ← lift (destructure options);
  let paused := by_default (VBool false) (prop "paused" options) in
  let mid := prop "mid" options in
  let ignoreDtx := by_default (VBool false) (prop "ignoreDtx" options) in
  let pipe := truthy (prop "pipe" options) in
  throw_when (bad_id (prop "producerId" options)) (TypeError "missing producerId");;
  throw_when (bad_appData (prop "appData" options)) appData_error;;
  throw_when (truthy mid && negb (is_type "string" mid)) (TypeError "if given, mid must be non empty string");;
  rtpCapabilities ← lift (validateRtpCapabilities (prop "rtpCapabilities" options));
  let producerId := text (prop "producerId" options) in
  producer ← lift (from_option_or (producer_not_found "Producer" producerId) (getProducerById router producerId));
  let enableRtx := match prop "enableRtx" options with
                   | VUndef => bool_decide (Producer.kind producer = Kvideo)
                   | v => truthy v
                   end in
  rtpParameters ← lift (getConsumerRtpParameters (Producer.consumableRtpParameters producer)
                          rtpCapabilities pipe enableRtx rnd1 rnd2);
  rtpParameters ← (if pipe then mret rtpParameters else choose_mid mid rtpParameters : M _);
  let type := if pipe then "pipe" else Producer.type producer in
  tr ← this;
  mret (transport_request "transport.consume"
          (VObj [("consumerId", VStr uuid); ("producerId", VStr producerId);
                 ("kind", VStr (kind_string (Producer.kind producer)));
                 ("rtpParameters", RtpParameters_val rtpParameters); ("type", VStr type);
                 ("consumableRtpEncodings",
                    encodings_val (rp_encodings (Producer.consumableRtpParameters producer)));
                 ("paused", paused); ("preferredLayers", prop "preferredLayers" options);
                 ("ignoreDtx", ignoreDtx)]) tr,
        mkConsuming uuid producerId (Producer.kind producer) rtpParameters type).

(** The [consume] of PipeTransport.ts. *)
Definition pipe_consume (router : router_access) (options : val) (uuid : string) (rnd1 rnd2 : Z) :
    M (effect * consuming) :=
  options ← lift (destructure options);
  throw_when (bad_id (prop "producerId" options)) (TypeError "missing producerId");;
  throw_when (bad_appData (prop "appData" options)) appData_error;;
  let producerId := text (prop "producerId" options) in
  producer ← lift (from_option_or (producer_not_found "Producer" producerId) (getProducerById router producerId));
  tr ← this;
  let rtx := truthy (default VUndef (jget "rtx" (t_data tr))) in
  let rtpParameters :=
    getPipeConsumerRtpParameters (Producer.consumableRtpParameters producer) rtx rnd1 rnd2 in
  mret (transport_request "transport.consume"
          (VObj [("consumerId", VStr uuid); ("producerId", VStr producerId);
                 ("kind", VStr (kind_string (Producer.kind producer)));
                 ("rtpParameters", RtpParameters_val rtpParameters); ("type", VStr "pipe");
                 ("consumableRtpEncodings",
                    encodings_val (rp_encodings (Producer.consumableRtpParameters producer)))]) tr,
        mkConsuming uuid producerId (Producer.kind producer) rtpParameters "pipe").

(** The method of the class of the transport. *)
Definition consume `{H264} (router : router_access) (options : val) (uuid : string) (rnd1 rnd2 : Z) :
    M (effect * consuming) :=
  tr ← this;
  match t_class tr with
  | PipeTransport => pipe_consume router options uuid rnd1 rnd2
  | _ => transport_consume router options uuid rnd1 rnd2
  end.

(** In a PipeTransport [score] and [preferredLayers] are not passed on. *)
Definition consume_continue (l t : loc) (c : consuming) (status : val) (w : world) : result world :=
  paused ← field "paused" status;
  let pipe := match transports w !! t with
              | Some tr => bool_decide (t_class tr = PipeTransport)
              | None => false
              end in
  let given k := if pipe then VUndef else prop k status in
  Ok (consume_done l t (co_consumerId c) (transport_id t w) (co_producerId c) (co_kind c) (co_type c)
        (co_rtpParameters c) (truthy paused) (truthy (prop "producerPaused" status))
        (given "score") (given "preferredLayers") w).

(** ** produceData *)

Record producingData : Type := mkProducingData { pd_dataProducerId : string }.

Definition produceData (options : val) (uuid : string) : M (effect * producingData) :=
  options ← lift (destructure (by_default (VObj []) options));
  let id := prop "id" options in
  let label := by_default (VStr "") (prop "label" options) in
  let protocol := by_default (VStr "") (prop "protocol" options) in
  tr ← this;
  throw_when (truthy id && has_id id (t_dataProducers tr))
    (TypeError ("a DataProducer with same id " +:+ in_quotes (text id) +:+ " already exists"));;
  throw_when (bad_appData (prop "appData" options)) appData_error;;
  '(type, sctpStreamParameters) ←
    (match t_class tr with
     | DirectTransport => mret ("direct", prop "sctpStreamParameters" options)
     | _ =>
         v ← lift (validateSctpStreamParameters (prop "sctpStreamParameters" options));
         mret ("sctp", v)
     end : M _);
  let dataProducerId := if truthy id then text id else uuid in
  mret (transport_request "transport.produceData"
          (VObj [("dataProducerId", VStr dataProducerId); ("type", VStr type);
                 ("sctpStreamParameters", sctpStreamParameters);
                 ("label", label); ("protocol", protocol)]) tr,
        mkProducingData dataProducerId).

Definition produceData_continue (l t : loc) (c : producingData) (data : val) (w : world) : result world :=
  Ok (produceData_done l t (pd_dataProducerId c) (transport_id t w) (text (prop "type" data))
        (prop "sctpStreamParameters" data) (text (prop "label" data)) (text (prop "protocol" data)) w).

(** ** consumeData *)

Record consumingData : Type := mkConsumingData {
  cd_dataConsumerId : string;
  cd_dataProducerId : string;
  cd_streamId : option nat
}.

(** [#data.sctpParameters.MIS] *)
Definition transport_MIS (tr : transport) : option Z :=
  let sctpParameters := default VUndef (jget "sctpParameters" (t_data tr)) in
  if truthy sctpParameters then as_num (prop "MIS" sctpParameters) else None.

Definition reserve : M nat :=
  tr ← this;
  '(sctpStreamId, s) ← lift (reserve_stream (transport_MIS tr) (t_sctp tr));
  update (update_t_sctp (fun _ => s));;
  mret sctpStreamId.

(** [v.k = x], which throws when [v] is [null]. *)
Definition assign (k : string) (x v : val) : result val :=
  if is_obj v then Ok (set_prop k x v) else Err (TypeError "Cannot set properties of null").

(** [if (x !== undefined) v.k = x] *)
Definition assign_given (k : string) (x v : val) : result val :=
  match x with VUndef => Ok v | x => assign k x v end.

(** The stream parameters of the data producer with what the application
    overrides, and a stream of this transport. *)
Definition consumer_stream (options sctpStreamParameters : val) : M (val * nat) :=
  v ← lift (assign_given "ordered" (prop "ordered" options) (clone sctpStreamParameters));
  v ← lift (assign_given "maxPacketLifeTime" (prop "maxPacketLifeTime" options) v);
  v ← lift (assign_given "maxRetransmits" (prop "maxRetransmits" options) v);
  sctpStreamId ← reserve;
  v ← lift (assign "streamId" (VNum (Z.of_nat sctpStreamId)) v);
  mret (v, sctpStreamId).

Definition consumeData (router : router_access) (options : val) (uuid : string) : M (effect * consumingData) :=
  options ← lift (destructure options);
  throw_when (bad_id (prop "dataProducerId" options)) (TypeError "missing dataProducerId");;
  throw_when (bad_appData (prop "appData" options)) appData_error;;
  let dataProducerId := text (prop "dataProducerId" options) in
  dataProducer ← lift (from_option_or (producer_not_found "DataProducer" dataProducerId)
                         (getDataProducerById router dataProducerId));
  tr ← this;
  '(type, sctpStreamParameters, streamId) ←
    (match t_class tr with
     | DirectTransport => mret ("direct", VUndef, None)
     | _ =>
         '(v, sctpStreamId) ← consumer_stream options (DataProducer.sctpStreamParameters dataProducer);
         mret ("sctp", v, Some sctpStreamId)
     end : M _);
  mret (transport_request "transport.consumeData"
          (VObj [("dataConsumerId", VStr uuid); ("dataProducerId", VStr dataProducerId);
                 ("type", VStr type); ("sctpStreamParameters", sctpStreamParameters);
                 ("label", VStr (DataProducer.label dataProducer));
                 ("protocol", VStr (DataProducer.protocol dataProducer))]) tr,
        mkConsumingData uuid dataProducerId streamId).

(** [data.dataProducerId] is what the worker answers with. *)
Definition consumeData_continue (l t : loc) (c : consumingData) (data : val) (w : world) : result world :=
  Ok (consumeData_done l t (cd_dataConsumerId c) (transport_id t w) (text (prop "dataProducerId" data))
        (text (prop "type" data)) (prop "sctpStreamParameters" data) (text (prop "label" data)) (text (prop "protocol" data))
        (cd_streamId c) w).
