(* ===== verification/RouterCalls.v ===== *)
(** * The creating methods of Worker.ts and Router.ts up to their requests

    The checks of the arguments, the defaults, the request bodies, and what the
    methods do with the answer of the worker; [Router.canConsume]. *)

From S2P Require Import Prelude Js RtpParameters Validate Ortc OrtcConsumer Framing Events TransportState World TransportCalls.
From S2P Require Producer DataProducer RtpObserver.

(** ** Worker.ts *)

(** What [createRouter] keeps while it waits. *)
Record creatingRouter : Type := mkCreatingRouter {
  cr_routerId : string;
  cr_rtpCapabilities : RtpCapabilities
}.

Definition createRouter `{H264} (options : val) (uuid : string) : result (effect * creatingRouter) :=
  options ← destructure (by_default (VObj []) options);
  throw_if (bad_appData (prop "appData" options)) appData_error;;
  rtpCapabilities ← generateRouterRtpCapabilities (prop "mediaCodecs" options);
  Ok (Request "worker.createRouter" None (VObj [("routerId", VStr uuid)]),
      mkCreatingRouter uuid rtpCapabilities).

Definition createRouter_continue (l k : loc) (c : creatingRouter) (w : world) : world :=
  createRouter_done l k (cr_routerId c) (cr_rtpCapabilities c) w.

(** The result carries the id of the new server. *)
Definition createWebRtcServer (options : val) (uuid : string) : result (effect * string) :=
  options ← destructure options;
  throw_if (bad_appData (prop "appData" options)) appData_error;;
  Ok (Request "worker.createWebRtcServer" None
        (VObj [("webRtcServerId", VStr uuid); ("listenInfos", prop "listenInfos" options)]), uuid).

Definition updateSettings (options : val) : result effect :=
  options ← destructure (by_default (VObj []) options);
  Ok (Request "worker.updateSettings" None
        (VObj [("logLevel", prop "logLevel" options); ("logTags", prop "logTags" options)])).

(** The methods that only ask; they return the answer. *)
Definition worker_dump : effect := Request "worker.dump" None VUndef.
Definition getResourceUsage : effect := Request "worker.getResourceUsage" None VUndef.
Definition server_dump (webRtcServerId : string) : effect :=
  Request "webRtcServer.dump" (Some webRtcServerId) VUndef.
Definition router_dump (routerId : string) : effect := Request "router.dump" (Some routerId) VUndef.

(** ** Transports *)

(** What the methods keep while they wait; the server is the one given. *)
Record creatingTransport : Type := mkCreatingTransport {
  ct_transportId : string;
  ct_class : transport_class;
  ct_server : option loc
}.

(** [announcedIp || undefined] *)
Definition or_undefined (v : val) : val := if truthy v then v else VUndef.

Definition listen_ip (listenIp : val) : result val :=
  match listenIp with
  | VStr s => if String.eqb s "" then Err (TypeError "wrong listenIp") else Ok (VObj [("ip", VStr s)])
  | VNull => Err (TypeError "Cannot read properties of null")
  | VObj _ | VArr _ _ =>
      Ok (VObj [("ip", prop "ip" listenIp); ("announcedIp", or_undefined (prop "announcedIp" listenIp))])
  | _ => Err (TypeError "wrong listenIp")
  end.

(** [if (listenIps) listenIps = listenIps.map(...)] *)
Definition listen_ips (listenIps : val) : result val :=
  match listenIps with
  | VArr l _ => l ← mapR listen_ip l; Ok (VArr l [])
  | v => if truthy v then Err (TypeError "listenIps.map is not a function") else Ok v
  end.

Definition default_streams : val := VObj [("OS", VNum 1024); ("MIS", VNum 1024)].

(** [k = d] in a parameter list, as a property of the request. *)
Definition with_default (k : string) (d : val) (options : val) : string * val :=
  (k, by_default d (prop k options)).
Definition passed (k : string) (options : val) : string * val := (k, prop k options).

(** [webRtcServer] is the server with its id, when it is given. *)
Definition createWebRtcTransport (routerId : string) (webRtcServer : option (loc * string))
    (options : val) (uuid : string) : result (effect * creatingTransport) :=
  options ← destructure options;
  throw_if (bool_decide (webRtcServer = None) && negb (isArray (prop "listenIps" options)))
    (TypeError "missing webRtcServer and listenIps (one of them is mandatory)");;
  throw_if (bad_appData (prop "appData" options)) appData_error;;
  listenIps ← listen_ips (prop "listenIps" options);
  let reqData := VObj
    [("transportId", VStr uuid);
     ("webRtcServerId", match webRtcServer with Some s => VStr s.2 | None => VUndef end);
     ("listenIps", listenIps); passed "port" options;
     with_default "enableUdp" (VBool true) options; with_default "enableTcp" (VBool false) options;
     with_default "preferUdp" (VBool false) options; with_default "preferTcp" (VBool false) options;
     with_default "initialAvailableOutgoingBitrate" (VNum 600000) options;
     with_default "enableSctp" (VBool false) options;
     with_default "numSctpStreams" default_streams options;
     with_default "maxSctpMessageSize" (VNum 262144) options;
     with_default "sctpSendBufferSize" (VNum 262144) options;
     ("isDataChannel", VBool true)] in
  let method := match webRtcServer with
                | Some _ => "router.createWebRtcTransportWithServer"
                | None => "router.createWebRtcTransport"
                end in
  Ok (Request method (Some routerId) reqData, mkCreatingTransport uuid WebRtcTransport (fst <$> webRtcServer)).

Definition createPlainTransport (routerId : string) (options : val) (uuid : string) :
    result (effect * creatingTransport) :=
  options ← destructure options;
  throw_if (negb (truthy (prop "listenIp" options))) (TypeError "missing listenIp");;
  throw_if (bad_appData (prop "appData" options)) appData_error;;
  listenIp ← listen_ip (prop "listenIp" options);
  let reqData := VObj
    [("transportId", VStr uuid); ("listenIp", listenIp); passed "port" options;
     with_default "rtcpMux" (VBool true) options; with_default "comedia" (VBool false) options;
     with_default "enableSctp" (VBool false) options;
     with_default "numSctpStreams" default_streams options;
     with_default "maxSctpMessageSize" (VNum 262144) options;
     with_default "sctpSendBufferSize" (VNum 262144) options;
     ("isDataChannel", VBool false);
     with_default "enableSrtp" (VBool false) options;
     with_default "srtpCryptoSuite" (VStr "AES_CM_128_HMAC_SHA1_80") options] in
  Ok (Request "router.createPlainTransport" (Some routerId) reqData,
      mkCreatingTransport uuid PlainTransport None).

Definition createPipeTransport (routerId : string) (options : val) (uuid : string) :
    result (effect * creatingTransport) :=
  options ← destructure options;
  throw_if (negb (truthy (prop "listenIp" options))) (TypeError "missing listenIp");;
  throw_if (bad_appData (prop "appData" options)) appData_error;;
  listenIp ← listen_ip (prop "listenIp" options);
  let reqData := VObj
    [("transportId", VStr uuid); ("listenIp", listenIp); passed "port" options;
     with_default "enableSctp" (VBool false) options;
     with_default "numSctpStreams" default_streams options;
     with_default "maxSctpMessageSize" (VNum 268435456) options;
     with_default "sctpSendBufferSize" (VNum 268435456) options;
     ("isDataChannel", VBool false);
     with_default "enableRtx" (VBool false) options;
     with_default "enableSrtp" (VBool false) options] in
  Ok (Request "router.createPipeTransport" (Some routerId) reqData,
      mkCreatingTransport uuid PipeTransport None).

Definition createDirectTransport (routerId : string) (options : val) (uuid : string) :
    result (effect * creatingTransport) :=
  options ← destructure (by_default (VObj [("maxMessageSize", VNum 262144)]) options);
  Ok (Request "router.createDirectTransport" (Some routerId)
        (VObj [("transportId", VStr uuid); ("direct", VBool true);
               with_default "maxMessageSize" (VNum 262144) options]),
      mkCreatingTransport uuid DirectTransport None).

(** The fields of the answer that the constructors of the subclasses keep. *)
Definition webRtc_fields : list string :=
  ["iceRole"; "iceParameters"; "iceCandidates"; "iceState"; "iceSelectedTuple"; "dtlsParameters";
   "dtlsState"; "dtlsRemoteCert"; "sctpParameters"; "sctpState"].
Definition plain_fields : list string :=
  ["rtcpMux"; "comedia"; "tuple"; "rtcpTuple"; "sctpParameters"; "sctpState"; "srtpParameters"].
Definition pipe_fields : list string := ["tuple"; "sctpParameters"; "sctpState"; "rtx"; "srtpParameters"].

Definition data_fields (cls : transport_class) : list string :=
  match cls with
  | WebRtcTransport => webRtc_fields
  | PlainTransport => plain_fields
  | PipeTransport => pipe_fields
  | DirectTransport => []
  end.

Definition transport_data (cls : transport_class) (data : val) : result (list (string * val)) :=
  mapR (fun k => x ← field k data; Ok (k, x)) (data_fields cls).

Definition createTransport_continue (l r : loc) (c : creatingTransport) (data : val) (w : world) :
    result world :=
  data ← transport_data (ct_class c) data;
  Ok (createTransport_done l r (ct_class c) (ct_server c) (ct_transportId c) data w).

(** ** RtpObservers *)

Record creatingRtpObserver : Type := mkCreatingRtpObserver {
  co_rtpObserverId : string;
  co_class : RtpObserver.observer_class
}.

Definition createActiveSpeakerObserver (routerId : string) (options : val) (uuid : string) :
    result (effect * creatingRtpObserver) :=
  options ← destructure (by_default (VObj []) options);
  throw_if (bad_appData (prop "appData" options)) appData_error;;
  Ok (Request "router.createActiveSpeakerObserver" (Some routerId)
        (VObj [("rtpObserverId", VStr uuid); with_default "interval" (VNum 300) options]),
      mkCreatingRtpObserver uuid RtpObserver.ActiveSpeakerObserver).

Definition createAudioLevelObserver (routerId : string) (options : val) (uuid : string) :
    result (effect * creatingRtpObserver) :=
  options ← destructure (by_default (VObj []) options);
  throw_if (bad_appData (prop "appData" options)) appData_error;;
  Ok (Request "router.createAudioLevelObserver" (Some routerId)
        (VObj [("rtpObserverId", VStr uuid); with_default "maxEntries" (VNum 1) options;
               with_default "threshold" (VNum (-80)) options; with_default "interval" (VNum 1000) options]),
      mkCreatingRtpObserver uuid RtpObserver.AudioLevelObserver).

Definition createRtpObserver_continue (l r : loc) (c : creatingRtpObserver) (w : world) : world :=
  createRtpObserver_done l r (co_class c) (co_rtpObserverId c) w.

(** ** What a router gives its transports and its application *)

Definition producer_of (w : world) (l : loc) : option Producer.producer :=
  match n_child <$> children w !! l with Some (CProducer p) => Some p | _ => None end.
Definition dataProducer_of (w : world) (l : loc) : option DataProducer.dataProducer :=
  match n_child <$> children w !! l with Some (CDataProducer p) => Some p | _ => None end.

Definition access_of (w : world) (ro : router) : router_access :=
  mkRouterAccess (r_rtpCapabilities ro)
    (fun id => jget id (r_producers ro) ≫= producer_of w)
    (fun id => jget id (r_dataProducers ro) ≫= dataProducer_of w).

(** [canConsume] of a router: an error counts as a refusal. *)
Definition router_canConsume `{H264} (router : router_access) (producerId : string)
    (rtpCapabilities : val) : bool :=
  match getProducerById router producerId with
  | None => false
  | Some producer =>
      match canConsume (Producer.consumableRtpParameters producer) rtpCapabilities with
      | Ok b => b
      | Err _ => false
      end
  end.
