(* ===== verification/TransportEvents.v ===== *)
(** * What transports keep from their peer in the worker

    The methods of Transport.ts and of its subclasses that only wait for an
    answer, [connect] and [restartIce], and the listeners on the notifications of
    the worker.  The state is the transport of World.v with its [#data], whether
    the listeners are there (closing removes them), and the calls in flight. *)

From S2P Require Import Prelude Js RtpParameters Ortc Framing Events TransportState World TransportCalls.

(** ** The state *)

(** What is left to do after the [await]. *)
Inductive continuation : Type := Kconnect | KrestartIce | Kdone.

Record endpoint : Type := mkEndpoint {
  e_transport : transport;
  e_subscribed : bool;
  e_calls : calls_in_flight continuation
}.

(** The constructor of a subclass subscribes. *)
Definition new_endpoint (tr : transport) : endpoint := mkEndpoint tr true no_calls.

Definition e_class (e : endpoint) : transport_class := t_class (e_transport e).
Definition e_data (e : endpoint) : list (string * val) := t_data (e_transport e).

(** [this.#data.k], also behind the getters. *)
Definition get_data (k : string) (e : endpoint) : val := default VUndef (jget k (e_data e)).
Definition set_data (k : string) (v : val) (e : endpoint) : endpoint :=
  mkEndpoint (with_data (jset k v (e_data e)) (e_transport e)) (e_subscribed e) (e_calls e).

(** ** Methods up to their [await] *)

Definition send (method : string) (reqData : val) (k : continuation) (e : endpoint) :
    endpoint * list effect :=
  (mkEndpoint (e_transport e) (e_subscribed e) (await k (e_calls e)),
   [Request method (Some (t_id (e_transport e))) reqData]).

Definition dump (e : endpoint) := send "transport.dump" VUndef Kdone e.
Definition getStats (e : endpoint) := send "transport.getStats" VUndef Kdone e.

Definition enableTraceEvent (types : val) (e : endpoint) :=
  send "transport.enableTraceEvent" (VObj [("types", by_default (VArr [] []) types)]) Kdone e.

(** The three bitrates of Transport.ts; a DirectTransport has none. *)
Inductive bitrate_method : Type := MaxIncoming | MaxOutgoing | MinOutgoing.

Definition bitrate_name (m : bitrate_method) : string :=
  match m with
  | MaxIncoming => "setMaxIncomingBitrate"
  | MaxOutgoing => "setMaxOutgoingBitrate"
  | MinOutgoing => "setMinOutgoingBitrate"
  end.

Definition setBitrate (m : bitrate_method) (bitrate : val) (e : endpoint) :
    result (endpoint * list effect) :=
  match e_class e with
  | DirectTransport =>
      Err (UnsupportedError (bitrate_name m +:+ "() not implemented in DirectTransport"))
  | _ => Ok (send ("transport." +:+ bitrate_name m) (VObj [("bitrate", bitrate)]) Kdone e)
  end.

(** [connect] of the four subclasses; in a DirectTransport it does nothing. *)
Definition connect (params : val) (e : endpoint) : result (endpoint * list effect) :=
  match e_class e with
  | DirectTransport => Ok (e, [])
  | cls =>
      params ← destructure params;
      let fields := match cls with
                    | WebRtcTransport => ["dtlsParameters"]
                    | PlainTransport => ["ip"; "port"; "rtcpPort"; "srtpParameters"]
                    | _ => ["ip"; "port"; "srtpParameters"]
                    end in
      Ok (send "transport.connect" (VObj (map (fun k => (k, prop k params)) fields)) Kconnect e)
  end.

(** Of WebRtcTransport.ts only. *)
Definition restartIce (e : endpoint) : endpoint * list effect :=
  send "transport.restartIce" VUndef KrestartIce e.

(** Of DirectTransport.ts only. *)
Definition sendRtcp (rtcpPacket : message) (e : endpoint) : result (list effect) :=
  match rtcpPacket with
  | Mbuffer b => Ok [Notify "transport.sendRtcp" (t_id (e_transport e)) None b]
  | _ => Err (TypeError "rtcpPacket must be a Buffer")
  end.

(** ** After the [await] *)

(** [if (data.k) this.#data.k = data.k] *)
Definition keep_if_given (k : string) (data : val) (e : endpoint) : endpoint :=
  if truthy (prop k data) then set_data k (prop k data) e else e.

(** The ends of [connect]. *)
Definition connected_webRtc (data : val) (e : endpoint) : result endpoint :=
  role ← field "dtlsLocalRole" data;
  match get_data "dtlsParameters" e with
  | VUndef | VNull => Err undefined_access
  | dtlsParameters => Ok (set_data "dtlsParameters" (set_prop "role" role dtlsParameters) e)
  end.

Definition connected_plain (data : val) (e : endpoint) : result endpoint :=
  _ ← field "tuple" data;
  Ok (set_data "srtpParameters" (prop "srtpParameters" data)
        (keep_if_given "rtcpTuple" data (keep_if_given "tuple" data e))).

Definition connected_pipe (data : val) (e : endpoint) : result endpoint :=
  tuple ← field "tuple" data;
  Ok (set_data "tuple" tuple e).

Definition continue (k : continuation) (data : val) (e : endpoint) : result endpoint :=
  match k with
  | Kdone => Ok e
  | KrestartIce =>
      data ← destructure data;
      Ok (set_data "iceParameters" (prop "iceParameters" data) e)
  | Kconnect =>
      match e_class e with
      | WebRtcTransport => connected_webRtc data e
      | PlainTransport => connected_plain data e
      | PipeTransport => connected_pipe data e
      | DirectTransport => Ok e
      end
  end.

(** The answer to a call; a method that throws has changed nothing. *)
Definition response (n : nat) (res : result val) (e : endpoint) : endpoint :=
  match resume_call n (e_calls e) with
  | None => e
  | Some (k, calls) =>
      let e := mkEndpoint (e_transport e) (e_subscribed e) calls in
      match res with
      | Ok data => match continue k data e with Ok e' => e' | Err _ => e end
      | Err _ => e
      end
  end.

(** ** Notifications *)

Definition emits (event : string) (v : val) : list effect := [Emit event v; Observer event v].

(** The notifications that set one field of [#data] to the field of the same
    name, and tell it. *)
Definition webRtc_events : list (string * string) :=
  [("icestatechange", "iceState"); ("iceselectedtuplechange", "iceSelectedTuple");
   ("dtlsstatechange", "dtlsState"); ("sctpstatechange", "sctpState")].
Definition plain_events : list (string * string) :=
  [("tuple", "tuple"); ("rtcptuple", "rtcpTuple"); ("sctpstatechange", "sctpState")].
Definition pipe_events : list (string * string) := [("sctpstatechange", "sctpState")].

Definition state_events (cls : transport_class) : list (string * string) :=
  match cls with
  | WebRtcTransport => webRtc_events
  | PlainTransport => plain_events
  | PipeTransport => pipe_events
  | DirectTransport => []
  end.

(** [dtlsRemoteCert] is kept when DTLS is connected. *)
Definition keep_certificate (event : string) (data : val) (e : endpoint) : endpoint :=
  if String.eqb event "dtlsstatechange" && bool_decide (prop "dtlsState" data = VStr "connected")
  then set_data "dtlsRemoteCert" (prop "dtlsRemoteCert" data) e else e.

(** [handleWorkerNotifications]: the listener on the channel, when it is there. *)
Definition on_notification (event : string) (data : val) (e : endpoint) :
    result (endpoint * list effect) :=
  if negb (e_subscribed e) then Ok (e, [])
  else match jget event (state_events (e_class e)) with
       | Some key =>
           v ← field key data;
           Ok (keep_certificate event data (set_data key v e), emits event v)
       | None => if String.eqb event "trace" then Ok (e, emits "trace" data) else Ok (e, [])
       end.

(** The listener of a DirectTransport on the payload channel. *)
Definition on_payload (event : string) (payload : val) (e : endpoint) : endpoint * list effect :=
  if e_subscribed e && bool_decide (e_class e = DirectTransport) && String.eqb event "rtcp" &&
     negb (t_closed (e_transport e))
  then (e, [Emit "rtcp" payload]) else (e, []).

(** ** Closing

    What [close], [routerClosed] and [listenServerClosed] do to the transport
    itself; what they do to others is in World.v. *)
Definition close (e : endpoint) : endpoint :=
  if t_closed (e_transport e) then e
  else mkEndpoint (closed_transport (e_transport e)) false (e_calls e).

(** ** Runs *)

Inductive op : Type :=
| Dump
| GetStats
| EnableTraceEvent (types : val)
| SetBitrate (m : bitrate_method) (bitrate : val)
| Connect (params : val)
| RestartIce
| Response (n : nat) (res : result val)
| Notification (event : string) (data : val)
| Payload (event : string) (payload : val)
| Close.

(** A call or a listener that throws changes nothing. *)
Definition or_same (r : result (endpoint * list effect)) (e : endpoint) : endpoint * list effect :=
  match r with Ok x => x | Err _ => (e, []) end.

Definition apply_op (o : op) (e : endpoint) : endpoint * list effect :=
  match o with
  | Dump => dump e
  | GetStats => getStats e
  | EnableTraceEvent types => enableTraceEvent types e
  | SetBitrate m bitrate => or_same (setBitrate m bitrate e) e
  | Connect params => or_same (connect params e) e
  | RestartIce => if decide (e_class e = WebRtcTransport) then restartIce e else (e, [])
  | Response n res => (response n res e, [])
  | Notification event data => or_same (on_notification event data e) e
  | Payload event payload => on_payload event payload e
  | Close => (close e, [])
  end.

Definition step (st : endpoint * list effect) (o : op) : endpoint * list effect :=
  let '(e, es) := apply_op o st.1 in (e, st.2 ++ es).

Definition run (e : endpoint) (ops : list op) : endpoint * list effect := foldl step (e, []) ops.

(** ** Lemmas *)

Lemma get_set_data k k' v e : get_data k (set_data k' v e) = if decide (k = k') then v else get_data k e.
Proof. unfold get_data, set_data, e_data. simpl. rewrite jget_jset. by case_decide. Qed.

(** The listeners are there as long as the transport is open. *)
Definition listening (e : endpoint) : Prop := e_subscribed e = negb (t_closed (e_transport e)).

Lemma set_data_same k v e :
  e_class (set_data k v e) = e_class e /\ e_subscribed (set_data k v e) = e_subscribed e /\
  t_closed (e_transport (set_data k v e)) = t_closed (e_transport e).
Proof. done. Qed.

(** The fields that only notifications and closing set. *)
Definition followed_keys : list string := ["iceState"; "iceSelectedTuple"; "dtlsState"; "sctpState"].

(** The parts of an endpoint the properties are about. *)
Definition view (key : string) (e : endpoint) : transport_class * bool * bool * val :=
  (e_class e, e_subscribed e, t_closed (e_transport e), get_data key e).

Lemma view_set_data key k v e : key <> k -> view key (set_data k v e) = view key e.
Proof. intros Hne. unfold view. rewrite get_set_data, decide_False by done. done. Qed.

Lemma view_keep_if_given key k data e : key <> k -> view key (keep_if_given k data e) = view key e.
Proof. intros Hne. unfold keep_if_given. case_match; [by apply view_set_data|done]. Qed.

Lemma continue_view key k data e e' :
  key ∈ followed_keys -> continue k data e = Ok e' -> view key e' = view key e.
Proof.
  intros Hkey.
  assert (key <> "dtlsParameters" /\ key <> "iceParameters" /\ key <> "srtpParameters" /\
          key <> "tuple" /\ key <> "rtcpTuple") as (H1 & H2 & H3 & H4 & H5).
  { unfold followed_keys in Hkey. rewrite !elem_of_cons, elem_of_nil in Hkey.
    destruct Hkey as [-> |[-> |[-> |[-> |[]]]]]; done. }
  destruct k; simpl; unfold connected_webRtc, connected_plain, connected_pipe; intros Hc.
  - destruct (e_class e).
    + inv_result. destruct (get_data "dtlsParameters" e); try done; inv_result; by apply view_set_data.
    + inv_result. by rewrite view_set_data, !view_keep_if_given.
    + inv_result. by apply view_set_data.
    + by injection Hc as <-.
  - inv_result. by apply view_set_data.
  - by injection Hc as <-.
Qed.

Lemma response_view key n res e : key ∈ followed_keys -> view key (response n res e) = view key e.
Proof.
  intros Hkey. unfold response. destruct (resume_call n (e_calls e)) as [[k calls]|]; [|done].
  destruct res as [data|]; [|done].
  destruct (continue k data (mkEndpoint (e_transport e) (e_subscribed e) calls)) as [e'|] eqn:Hc; [|done].
  by rewrite (continue_view key _ _ _ _ Hkey Hc).
Qed.

(** What a field becomes when the transport closes. *)
Definition closing (key : string) (cls : transport_class) (v : val) : val :=
  let closed_if_any := if truthy v then VStr "closed" else v in
  match cls with
  | WebRtcTransport =>
      if String.eqb key "iceSelectedTuple" then VUndef
      else if String.eqb key "sctpState" then closed_if_any else VStr "closed"
  | PlainTransport | PipeTransport => if String.eqb key "sctpState" then closed_if_any else v
  | DirectTransport => v
  end.

Lemma close_view key e :
  key ∈ followed_keys -> t_closed (e_transport e) = false ->
  view key (close e) = (e_class e, false, true, closing key (e_class e) (get_data key e)).
Proof.
  intros Hkey Hc. unfold close. rewrite Hc. unfold view, get_data, e_data, e_class. simpl.
  unfold followed_keys in Hkey. rewrite !elem_of_cons, elem_of_nil in Hkey. f_equal.
  destruct (t_class (e_transport e)); simpl; try done; unfold closed_webRtc, closed_sctp.
  - set (d := jset "dtlsState" _ _).
    assert (jget "sctpState" d = jget "sctpState" (t_data (e_transport e))) as Hs.
    { unfold d. by rewrite !jget_jset_ne by discriminate. }
    destruct Hkey as [-> |[-> |[-> |[-> |[]]]]]; simpl; rewrite Hs;
      destruct (truthy (default VUndef (jget "sctpState" (t_data (e_transport e))))); unfold d;
      rewrite ?jget_jset_eq, ?jget_jset_ne by discriminate; try done;
      rewrite ?jget_jset_eq, ?jget_jset_ne by discriminate; done.
  - destruct (truthy _) eqn:Ht; destruct Hkey as [-> |[-> |[-> |[-> |[]]]]]; simpl;
      rewrite ?jget_jset_eq, ?jget_jset_ne, ?Ht by discriminate; done.
  - destruct (truthy _) eqn:Ht; destruct Hkey as [-> |[-> |[-> |[-> |[]]]]]; simpl;
      rewrite ?jget_jset_eq, ?jget_jset_ne, ?Ht by discriminate; done.
Qed.

(** ** Properties *)

(** What a reader of the notifications would say of a field: it is what the last
    notification about it said, until the transport closes. *)
Definition follow (cls : transport_class) (key : string) (st : bool * val) (o : op) : bool * val :=
  match o with
  | Close => if st.1 then st else (true, closing key cls st.2)
  | Notification event data =>
      if st.1 then st
      else if bool_decide (jget event (state_events cls) = Some key) then
        match data with VUndef | VNull => st | _ => (false, prop key data) end
      else st
  | _ => st
  end.

Lemma keep_certificate_view key event data e :
  key ∈ followed_keys -> view key (keep_certificate event data e) = view key e.
Proof.
  intros Hkey. unfold keep_certificate. case_match; [|done]. apply view_set_data.
  unfold followed_keys in Hkey. rewrite !elem_of_cons, elem_of_nil in Hkey.
  by destruct Hkey as [-> |[-> |[-> |[-> |[]]]]].
Qed.

Lemma apply_op_view key o e :
  key ∈ followed_keys -> listening e ->
  let st := follow (e_class e) key (t_closed (e_transport e), get_data key e) o in
  view key (apply_op o e).1 = (e_class e, negb st.1, st.1, st.2).
Proof.
  intros Hkey Hl. cbv zeta. unfold listening in Hl.
  assert (view key e = (e_class e, negb (t_closed (e_transport e)), t_closed (e_transport e), get_data key e)) as Hv
    by (unfold view; by rewrite Hl).
  destruct o; try exact Hv; cbn [follow apply_op fst snd].
  - unfold setBitrate. by destruct (e_class e) eqn:Hc.
  - unfold connect. destruct (e_class e) eqn:Hc; try (destruct (destructure params)); simpl; done.
  - by case_decide.
  - by rewrite response_view.
  - unfold on_notification. rewrite Hl, negb_involutive. destruct (t_closed (e_transport e)) eqn:Hc; [done|].
    destruct (jget event (state_events (e_class e))) as [k|] eqn:Hk.
    + destruct data as [| |b|n|s|l ps|ps]; cbn [field or_same fst mbind result_bind];
        (destruct (decide (k = key)) as [->|Hne];
         [rewrite bool_decide_eq_true_2 by done|rewrite bool_decide_eq_false_2 by congruence]);
        try exact Hv; rewrite keep_certificate_view by done;
        try (rewrite view_set_data by done; exact Hv);
        unfold view; rewrite get_set_data, decide_True by done; simpl; by rewrite Hl, Hc.
    + rewrite bool_decide_eq_false_2 by done. by destruct (String.eqb event "trace").
  - unfold on_payload. by case_match.
  - destruct (t_closed (e_transport e)) eqn:Hc; [|by rewrite close_view].
    unfold close. by rewrite Hc.
Qed.

(** C31: the states of a transport: at any time [iceState], [iceSelectedTuple],
    [dtlsState] and [sctpState] are what the last notification about them said,
    or what the transport was made with, and once it is closed they are
    'closed' (the tuple: none) for ever, whatever calls, answers and
    notifications come in which order. *)
Theorem transport_state_followed key tr ops :
  key ∈ followed_keys -> t_closed tr = false ->
  let e := (run (new_endpoint tr) ops).1 in
  (t_closed (e_transport e), get_data key e) =
    foldl (follow (t_class tr) key) (false, get_data key (new_endpoint tr)) ops.
Proof.
  intros Hkey Hopen. cbv zeta.
  assert (let e := (run (new_endpoint tr) ops).1 in
    let st := foldl (follow (t_class tr) key) (false, get_data key (new_endpoint tr)) ops in
    view key e = (t_class tr, negb st.1, st.1, st.2)) as Hv.
  { cbv zeta. unfold run. induction ops as [|o ops IH] using rev_ind.
    - unfold view. simpl. by rewrite Hopen.
    - rewrite !foldl_app. simpl. destruct (foldl step _ ops) as [e es]. unfold step. simpl in *.
      set (st := foldl (follow _ _) _ ops) in *. unfold view in IH. injection IH as H1 H2 H3 H4.
      pose proof (apply_op_view key o e Hkey) as Ha. cbv zeta in Ha. unfold listening in Ha.
      rewrite H1, H2, H3, H4 in Ha. specialize (Ha eq_refl). destruct (apply_op o e) as [e' es']. simpl in *.
      rewrite Ha. by destruct st. }
  cbv zeta in Hv. unfold view in Hv. injection Hv as _ _ -> ->. by destruct (foldl _ _ _).
Qed.

Lemma transport_state_followed_witness :
  get_data "dtlsState"
    (run (new_endpoint (mkTransport "t" WebRtcTransport 0 None false [("dtlsState", VStr "new")] [] [] [] []
            None 0 no_sctp_ids))
       [Connect (VObj []); Notification "dtlsstatechange" (VObj [("dtlsState", VStr "connected")]);
        Close; Response 0 (Ok (VObj [])); Notification "dtlsstatechange" (VObj [("dtlsState", VStr "failed")])]).1 =
    VStr "closed".
Proof.
  assert ("dtlsState" ∈ followed_keys) as Hk by (by right; right; left).
  exact (f_equal snd (transport_state_followed "dtlsState"
    (mkTransport "t" WebRtcTransport 0 None false [("dtlsState", VStr "new")] [] [] [] [] None 0 no_sctp_ids)
    [Connect (VObj []); Notification "dtlsstatechange" (VObj [("dtlsState", VStr "connected")]);
     Close; Response 0 (Ok (VObj [])); Notification "dtlsstatechange" (VObj [("dtlsState", VStr "failed")])]
    Hk eq_refl)).
Defined.
