(* ===== verification/PipeToRouter.v ===== *)
(** * Pairs of pipe transports between routers

    From Router.ts: [pipeToRouter] up to the pair of pipe transports, and
    [addPipeTransportPair].  Two routers share a pair; each has a map from the id
    of the other to a promise of the pair.  The promise creates a PipeTransport
    on both routers, connects them, and is settled; the transports then close
    each other and the entries go.  Routers are named by their ids, transports
    and promises by numbers. *)

From S2P Require Import Prelude Js RtpParameters Ortc Framing Events TransportState World TransportCalls RouterCalls TransportEvents.

(** ** The arguments of pipeToRouter *)

Inductive piped : Type := PipeProducer (id : string) | PipeDataProducer (id : string).

(** [map.has(v)] for a map whose keys are strings. *)
Definition known (has : string -> bool) (v : val) : bool :=
  match v with VStr s => has s | _ => false end.

(** [router] is the id of the given router; the predicates tell the ids in the
    maps of this router. *)
Definition check_pipe_arguments (this : string) (router : option string) (options : val)
    (is_producer is_dataProducer : string -> bool) : result (piped * string) :=
  let producerId := prop "producerId" options in
  let dataProducerId := prop "dataProducerId" options in
  throw_if (negb (truthy producerId) && negb (truthy dataProducerId))
    (TypeError "missing producerId or dataProducerId");;
  throw_if (truthy producerId && truthy dataProducerId)
    (TypeError "just producerId or dataProducerId can be given");;
  router ← from_option_or (TypeError "Router not found") router;
  throw_if (String.eqb router this) (TypeError "cannot use this Router as destination");;
  if truthy producerId then
    throw_if (negb (known is_producer producerId)) (TypeError "Producer not found");;
    Ok (PipeProducer (text producerId), router)
  else
    throw_if (negb (known is_dataProducer dataProducerId)) (TypeError "DataProducer not found");;
    Ok (PipeDataProducer (text dataProducerId), router).

(** The options of both PipeTransports, with the defaults of [pipeToRouter]. *)
Definition pair_options (options : val) : val :=
  VObj [with_default "listenIp" (VStr "127.0.0.1") options;
        with_default "enableSctp" (VBool true) options;
        with_default "numSctpStreams" default_streams options;
        with_default "enableRtx" (VBool false) options;
        with_default "enableSrtp" (VBool false) options].

(** ** State *)

(** A PipeTransport of a pair; [pt_pair] is the pair whose listeners on 'close'
    it has. *)
Record pipe_transport : Type := mkPipeTransport {
  pt_id : string;
  pt_router : string;
  pt_tuple : val;
  pt_srtpParameters : val;
  pt_closed : bool;
  pt_pair : option nat
}.

(** The promise of a pair.  While it creates, the transports that are there;
    while it connects, whether each side has its answer. *)
Inductive stage : Type :=
| Creating (local remote : option nat)
| Connecting (local remote : nat) (local_done remote_done : bool)
| Resolved (local remote : nat)
| Rejected (e : error).

(** [pa_this] is the router whose [pipeToRouter] made it, with the ids of the two
    transports; [pa_shared]: the other router has added it; the flags: an answer
    to [createPipeTransport] is due. *)
Record pair : Type := mkPair {
  pa_this : string;
  pa_router : string;
  pa_uuids : string * string;
  pa_shared : bool;
  pa_due_local : bool;
  pa_due_remote : bool;
  pa_stage : stage
}.

(** [pair_maps] holds [#mapRouterPairPipeTransportPairPromise] of every router,
    under the id of the router and the key. *)
Record pipes : Type := mkPipes {
  pair_maps : gmap (string * string) nat;
  pairs : gmap nat pair;
  pipe_transports : gmap nat pipe_transport;
  sent : list effect
}.

Definition no_pipes : pipes := mkPipes ∅ ∅ ∅ [].

Definition set_maps f (s : pipes) : pipes := mkPipes (f (pair_maps s)) (pairs s) (pipe_transports s) (sent s).
Definition set_pairs f (s : pipes) : pipes := mkPipes (pair_maps s) (f (pairs s)) (pipe_transports s) (sent s).
Definition set_pipe_transports f (s : pipes) : pipes :=
  mkPipes (pair_maps s) (pairs s) (f (pipe_transports s)) (sent s).
Definition send_all (es : list effect) (s : pipes) : pipes :=
  mkPipes (pair_maps s) (pairs s) (pipe_transports s) (sent s ++ es).

Definition with_stage (st : stage) (p : pair) : pair :=
  mkPair (pa_this p) (pa_router p) (pa_uuids p) (pa_shared p) (pa_due_local p) (pa_due_remote p) st.
Definition with_shared (p : pair) : pair :=
  mkPair (pa_this p) (pa_router p) (pa_uuids p) true (pa_due_local p) (pa_due_remote p) (pa_stage p).
Definition answered (local : bool) (p : pair) : pair :=
  mkPair (pa_this p) (pa_router p) (pa_uuids p) (pa_shared p)
    (if local then false else pa_due_local p) (if local then pa_due_remote p else false) (pa_stage p).

Definition due (local : bool) (p : pair) : bool := if local then pa_due_local p else pa_due_remote p.
Definition side (local : bool) (p : pair) : string := if local then pa_this p else pa_router p.
Definition uuid (local : bool) (p : pair) : string := if local then fst (pa_uuids p) else snd (pa_uuids p).

Definition set_stage (n : nat) (st : stage) : pipes -> pipes := set_pairs (alter (with_stage st) n).

(** ** Settling *)

(** [reject(error)], with the [catch] of [addPipeTransportPair]. *)
Definition reject (n : nat) (e : error) (s : pipes) : pipes :=
  match pairs s !! n with
  | None => s
  | Some p =>
      let s := set_stage n (Rejected e) s in
      if pa_shared p then set_maps (delete (pa_router p, pa_this p)) s else s
  end.

Definition shut (x : pipe_transport) : pipe_transport :=
  mkPipeTransport (pt_id x) (pt_router x) (pt_tuple x) (pt_srtpParameters x) true (pt_pair x).
Definition mark_closed (t : nat) : pipes -> pipes := set_pipe_transports (alter shut t).

(** [transport.close()], when the listeners of a pair have nothing left to do. *)
Definition close_silently (t : nat) (s : pipes) : pipes :=
  match pipe_transports s !! t with
  | Some x =>
      if pt_closed x then s
      else send_all [Request "router.closeTransport" (Some (pt_router x))
                       (VObj [("transportId", VStr (pt_id x))])] (mark_closed t s)
  | None => s
  end.

(** The [catch] of the promise, once the transports are there. *)
Definition abandon (n local remote : nat) (e : error) (s : pipes) : pipes :=
  reject n e (close_silently remote (close_silently local s)).

(** [resolve(...)], with the listeners of both routers. *)
Definition listen (n : nat) (x : pipe_transport) : pipe_transport :=
  mkPipeTransport (pt_id x) (pt_router x) (pt_tuple x) (pt_srtpParameters x) (pt_closed x) (Some n).
Definition resolve (n local remote : nat) (s : pipes) : pipes :=
  set_stage n (Resolved local remote)
    (set_pipe_transports (fun m => alter (listen n) remote (alter (listen n) local m)) s).

(** ** pipeToRouter *)

Definition requests (r : result (effect * creatingTransport)) : list effect :=
  match r with Ok (e, _) => [e] | Err _ => [] end.

(** [createPipeTransport] on both routers: the requests that are made, whether
    answers are due, and what has failed at once. *)
Definition create_pair (this router : string) (options : val) (uuid1 uuid2 : string) : pair * list effect :=
  let r1 := createPipeTransport this (pair_options options) uuid1 in
  let r2 := createPipeTransport router (pair_options options) uuid2 in
  let st := match r1, r2 with
            | Err e, _ | _, Err e => Rejected e
            | _, _ => Creating None None
            end in
  (mkPair this router (uuid1, uuid2) false (is_ok r1) (is_ok r2) st, requests r1 ++ requests r2).

(** [router.addPipeTransportPair(this.id, promise)]. *)
Definition addPipeTransportPair (router this : string) (n : nat) (p : pair) (s : pipes) : pipes * result nat :=
  match pair_maps s !! (router, this) with
  | Some _ => (s, Err (PlainError "given pipeTransportPairKey already exists in this Router"))
  | None =>
      let s := set_maps (insert (router, this) n) (set_pairs (insert n (with_shared p)) s) in
      (match pa_stage p with Rejected e => reject n e s | _ => s end, Ok n)
  end.

(** The number of the promise the call waits for, or the error it throws before. *)
Definition pipe_pair (this router : string) (options : val) (uuid1 uuid2 : string) (s : pipes) :
    pipes * result nat :=
  match pair_maps s !! (this, router) with
  | Some n => (s, Ok n)
  | None =>
      let n := fresh (dom (pairs s)) in
      let '(p, es) := create_pair this router options uuid1 uuid2 in
      addPipeTransportPair router this n p
        (set_maps (insert (this, router) n) (set_pairs (insert n p) (send_all es s)))
  end.

(** What the call gets from its promise: its own transport first. *)
Definition own_side (this : string) (p : pair) : option (result (nat * nat)) :=
  match pa_stage p with
  | Resolved local remote =>
      Some (Ok (if String.eqb (pa_this p) this then (local, remote) else (remote, local)))
  | Rejected e => Some (Err e)
  | _ => None
  end.

(** ** The answers *)

(** [connect] of one side with the tuple of the other. *)
Definition connect_request (x other : pipe_transport) : result effect :=
  ip ← field "localIp" (pt_tuple other);
  port ← field "localPort" (pt_tuple other);
  Ok (Request "transport.connect" (Some (pt_id x))
        (VObj [("ip", ip); ("port", port); ("srtpParameters", pt_srtpParameters other)])).

(** Both transports are there. *)
Definition connect_pair (n local remote : nat) (s : pipes) : pipes :=
  match pipe_transports s !! local, pipe_transports s !! remote with
  | Some x, Some y =>
      match connect_request x y, connect_request y x with
      | Ok e1, Ok e2 => send_all [e1; e2] (set_stage n (Connecting local remote false false) s)
      | Err e, _ => abandon n local remote e s
      | Ok e1, Err e => abandon n local remote e (send_all [e1] s)
      end
  | _, _ => s
  end.

(** The constructor of PipeTransport on the answer to [createPipeTransport]. *)
Definition made (local : bool) (p : pair) (res : result val) : result pipe_transport :=
  data ← res;
  data ← transport_data PipeTransport data;
  Ok (mkPipeTransport (uuid local p) (side local p) (prop "tuple" (VObj data))
        (prop "srtpParameters" (VObj data)) false None).

(** The answer to [createPipeTransport] on one side: data, or an error. *)
Definition created (n : nat) (local : bool) (res : result val) (s : pipes) : pipes :=
  match pairs s !! n with
  | None => s
  | Some p =>
      if due local p then
        let s := set_pairs (alter (answered local) n) s in
        match made local p res, pa_stage p with
        | Err e, Creating _ _ => reject n e s
        | Err _, _ => s
        | Ok x, st =>
            let t := fresh (dom (pipe_transports s)) in
            let s := set_pipe_transports (insert t x) s in
            match st with
            | Creating l r =>
                match (if local then (Some t, r) else (l, Some t)) with
                | (Some l, Some r) => connect_pair n l r s
                | (l, r) => set_stage n (Creating l r) s
                end
            | _ => s
            end
        end
      else s
  end.

(** The answer to [connect] on one side.  (The transport also keeps its tuple;
    nothing looks at it here again.) *)
Definition connected (n : nat) (local : bool) (res : result val) (s : pipes) : pipes :=
  match pa_stage <$> pairs s !! n with
  | Some (Connecting l r lc rc) =>
      if (if local then lc else rc) then s
      else match res with
           | Err e => abandon n l r e s
           | Ok _ =>
               let lc := lc || local in
               let rc := rc || negb local in
               if lc && rc then resolve n l r s else set_stage n (Connecting l r lc rc) s
           end
  | _ => s
  end.

Definition forget_pair (p : pair) (m : gmap (string * string) nat) : gmap (string * string) nat :=
  let m := delete (pa_this p, pa_router p) m in
  if pa_shared p then delete (pa_router p, pa_this p) m else m.

(** A transport closes, for any reason: the listeners close the other one of the
    pair and delete the entries of both routers. *)
Definition transport_closes (t : nat) (s : pipes) : pipes :=
  match pipe_transports s !! t with
  | None => s
  | Some x =>
      if pt_closed x then s
      else
        let s := mark_closed t s in
        match pt_pair x ≫= fun n => pairs s !! n with
        | Some p =>
            match pa_stage p with
            | Resolved l r =>
                set_maps (forget_pair p) (close_silently (if decide (t = l) then r else l) s)
            | _ => s
            end
        | None => s
        end
  end.

(** ** Runs *)

Inductive pipe_op : Type :=
| Pipe (this router : string) (options : val) (uuid1 uuid2 : string)
| Created (n : nat) (local : bool) (res : result val)
| Connected (n : nat) (local : bool) (res : result val)
| Closes (t : nat).

(** A call with its own router ends before the look-up. *)
Definition pipe_step (s : pipes) (o : pipe_op) : pipes :=
  match o with
  | Pipe this router options uuid1 uuid2 =>
      if String.eqb router this then s else fst (pipe_pair this router options uuid1 uuid2 s)
  | Created n local res => created n local res s
  | Connected n local res => connected n local res s
  | Closes t => transport_closes t s
  end.

Definition pipe_run (ops : list pipe_op) : pipes := foldl pipe_step no_pipes ops.

(** ** Examples: the checks of the arguments *)

Example pipe_both_given :
  check_pipe_arguments "A" (Some "B") (VObj [("producerId", VStr "p"); ("dataProducerId", VStr "d")])
    (fun _ => true) (fun _ => true) = Err (TypeError "just producerId or dataProducerId can be given").
Proof. reflexivity. Qed.

Example pipe_to_itself :
  check_pipe_arguments "A" (Some "A") (VObj [("producerId", VStr "p")]) (fun _ => true) (fun _ => true) =
  Err (TypeError "cannot use this Router as destination").
Proof. reflexivity. Qed.

Example pipe_producer :
  check_pipe_arguments "A" (Some "B") (VObj [("producerId", VStr "p")]) (String.eqb "p") (fun _ => false) =
  Ok (PipeProducer "p", "B").
Proof. reflexivity. Qed.
