(* ===== verification/PipeInv.v ===== *)
(** * The invariant of pairs of pipe transports

    What holds of every promise of a pair and of the maps of the routers in every
    run of PipeToRouter.v, and the properties that follow.  A step concerns one
    promise ([touches]), so the invariant is stated promise by promise. *)

From S2P Require Import Prelude Js RtpParameters Ortc Framing Events TransportState World TransportCalls RouterCalls TransportEvents PipeToRouter.

(** ** The invariant *)

(** The entries a pair has in the maps of its routers. *)
Definition in_maps (n : nat) (p : pair) (s : pipes) : Prop :=
  pair_maps s !! (pa_this p, pa_router p) = Some n /\
  (pa_shared p = true -> pair_maps s !! (pa_router p, pa_this p) = Some n).

Definition own_key (p : pair) (k : string * string) : Prop :=
  k = (pa_this p, pa_router p) \/ pa_shared p = true /\ k = (pa_router p, pa_this p).

Definition on_router (t : nat) (r : string) (s : pipes) : Prop :=
  exists x, pipe_transports s !! t = Some x /\ pt_router x = r.

Definition shut_in (t : nat) (s : pipes) : Prop :=
  exists x, pipe_transports s !! t = Some x /\ pt_closed x = true.

Definition stage_inv (n : nat) (p : pair) (s : pipes) : Prop :=
  match pa_stage p with
  | Creating l r =>
      in_maps n p s /\
      match l with
      | Some t => on_router t (pa_this p) s /\ pa_due_local p = false
      | None => pa_due_local p = true
      end /\
      match r with
      | Some t => on_router t (pa_router p) s /\ pa_due_remote p = false
      | None => pa_due_remote p = true
      end /\
      (l = None \/ r = None)
  | Connecting l r lc rc =>
      in_maps n p s /\ on_router l (pa_this p) s /\ on_router r (pa_router p) s /\ lc && rc = false
  | Resolved l r =>
      on_router l (pa_this p) s /\ on_router r (pa_router p) s /\
      (in_maps n p s \/ shut_in l s /\ shut_in r s)
  | Rejected _ => pair_maps s !! (pa_this p, pa_router p) = Some n
  end.

Definition no_listener (n : nat) (s : pipes) : Prop :=
  forall t x, pipe_transports s !! t = Some x -> pt_pair x <> Some n.

Definition listeners_inv (n : nat) (p : pair) (s : pipes) : Prop :=
  forall t x, pipe_transports s !! t = Some x -> pt_pair x = Some n ->
    exists l r, pa_stage p = Resolved l r /\ (t = l \/ t = r).

Definition keys_inv (n : nat) (p : pair) (s : pipes) : Prop :=
  pa_this p <> pa_router p /\ forall k, pair_maps s !! k = Some n -> own_key p k.

Definition pair_inv (n : nat) (s : pipes) : Prop :=
  match pairs s !! n with
  | None => (forall k, pair_maps s !! k <> Some n) /\ no_listener n s
  | Some p => keys_inv n p s /\ listeners_inv n p s /\ stage_inv n p s
  end.

Definition pipes_inv (s : pipes) : Prop := forall n, pair_inv n s.

(** ** Steps touch one promise *)

Record touches (n : nat) (s s' : pipes) : Prop := mkTouches {
  touches_maps : forall k m, m <> n -> pair_maps s' !! k = Some m <-> pair_maps s !! k = Some m;
  touches_pairs : forall m, m <> n -> pairs s' !! m = pairs s !! m;
  touches_kept : forall t x, pipe_transports s !! t = Some x ->
    exists x', pipe_transports s' !! t = Some x' /\ pt_router x' = pt_router x /\
               (pt_closed x = true -> pt_closed x' = true);
  touches_listeners : forall t x', pipe_transports s' !! t = Some x' ->
    pt_pair x' = None \/ pt_pair x' = Some n \/
    exists x, pipe_transports s !! t = Some x /\ pt_pair x = pt_pair x'
}.

#[export] Instance touches_refl n : Reflexive (touches n).
Proof. intros s. split; eauto 6; done. Qed.

#[export] Instance touches_trans n : Transitive (touches n).
Proof.
  intros s1 s2 s3 [M1 P1 K1 L1] [M2 P2 K2 L2]. split.
  - intros k m Hm. by rewrite M2, M1.
  - intros m Hm. by rewrite P2, P1.
  - intros t x Hx. destruct (K1 t x Hx) as (x2 & H2 & R2 & C2).
    destruct (K2 t x2 H2) as (x3 & H3 & R3 & C3).
    exists x3. split_and!; [done|congruence|auto].
  - intros t x3 H3. destruct (L2 t x3 H3) as [|[|(x2 & H2 & E2)]]; [by eauto..|].
    destruct (L1 t x2 H2) as [|[|(x1 & H1 & E1)]]; [left; congruence|right; left; congruence|].
    right; right. exists x1. split; congruence.
Qed.

Lemma on_router_touches n s s' t r : touches n s s' -> on_router t r s -> on_router t r s'.
Proof.
  intros T (x & Hx & Hr). destruct (touches_kept n s s' T t x Hx) as (x' & ? & ? & _).
  exists x'. split; congruence.
Qed.

Lemma shut_in_touches n s s' t : touches n s s' -> shut_in t s -> shut_in t s'.
Proof.
  intros T (x & Hx & Hc). destruct (touches_kept n s s' T t x Hx) as (x' & ? & _ & H).
  exists x'. eauto.
Qed.

Lemma in_maps_touches n m s s' p : touches n s s' -> m <> n -> in_maps m p s -> in_maps m p s'.
Proof. intros T Hm [H1 H2]. split; intros; apply (touches_maps n s s' T); auto. Qed.

Lemma stage_touches n m s s' p : touches n s s' -> m <> n -> stage_inv m p s -> stage_inv m p s'.
Proof.
  intros T Hm. pose proof (in_maps_touches n m s s' p T Hm) as HI.
  pose proof (fun t r => on_router_touches n s s' t r T) as HO.
  pose proof (fun t => shut_in_touches n s s' t T) as HS.
  unfold stage_inv. destruct (pa_stage p) as [l r| | |].
  - intros (? & Hl & Hr & ?). split_and!; [auto|destruct l; intuition auto|destruct r; intuition auto|done].
  - intros (? & ? & ? & ?). auto.
  - intros (? & ? & [?|[? ?]]); auto 6.
  - intros H. by apply (touches_maps n s s' T).
Qed.

Lemma pair_inv_touches n m s s' : touches n s s' -> m <> n -> pair_inv m s -> pair_inv m s'.
Proof.
  intros T Hm. unfold pair_inv. rewrite (touches_pairs n s s' T m Hm).
  assert (HL : forall t x', pipe_transports s' !! t = Some x' -> pt_pair x' = Some m ->
            exists x, pipe_transports s !! t = Some x /\ pt_pair x = Some m).
  { intros t x' Hx' E. destruct (touches_listeners n s s' T t x' Hx') as [|[|(x & ? & ?)]];
      [congruence..|]. exists x. split; congruence. }
  destruct (pairs s !! m) as [p|].
  - intros ([Hk1 Hk2] & Hl & Hst). split_and!.
    + split; [done|]. intros k Hk. apply Hk2. by apply (touches_maps n s s' T).
    + intros t x' Hx' E. destruct (HL t x' Hx' E) as (x & ? & ?). eauto.
    + by eapply stage_touches.
  - intros [Hk Hl]. split.
    + intros k. by rewrite (touches_maps n s s' T).
    + intros t x' Hx' E. destruct (HL t x' Hx' E) as (x & Hx & ?). by apply (Hl t x Hx).
Qed.

(** A step that touches [n] and leaves it in order. *)
Definition moves (n : nat) (s s' : pipes) : Prop := touches n s s' /\ pair_inv n s'.

Lemma moves_inv n s s' : pipes_inv s -> moves n s s' -> pipes_inv s'.
Proof.
  intros H [T Hn] m. destruct (decide (m = n)) as [->|]; [done|]. by eapply pair_inv_touches.
Qed.

Lemma moves_after n s s1 s2 : touches n s s1 -> moves n s1 s2 -> moves n s s2.
Proof. intros T [T' I]. split; [by etransitivity|done]. Qed.

(** With changes that touch no promise. *)
Lemma moves_quiet n s s1 s2 :
  pipes_inv s -> moves n s s1 -> (forall m, touches m s1 s2) -> moves n s s2.
Proof.
  intros H H1 T. split; [by transitivity s1; [apply H1|]|].
  apply (pair_inv_touches (S n) n s1); [done|lia|apply H1].
Qed.

(** ** The elementary changes *)

Lemma touches_send n es s : touches n s (send_all es s).
Proof. split; simpl; eauto 6; done. Qed.

Lemma touches_alter n f m s : m = n -> touches n s (set_pairs (alter f m) s).
Proof.
  intros ->. split; simpl; eauto 6; try done. intros m Hm. by rewrite lookup_alter_ne.
Qed.

Lemma touches_insert n p s : touches n s (set_pairs (insert n p) s).
Proof. split; simpl; eauto 6; try done. intros m Hm. by rewrite lookup_insert_ne. Qed.

Lemma touches_entry n k s : pair_maps s !! k = None -> touches n s (set_maps (insert k n) s).
Proof.
  intros Hk. split; simpl; eauto 6; try done. intros k' m Hm. rewrite lookup_insert_Some.
  split; [by intros [(_ & <-)|[_ ?]]|]. intros H. right. split; [congruence|done].
Qed.

Lemma touches_forget n k s :
  (forall m, pair_maps s !! k = Some m -> m = n) -> touches n s (set_maps (delete k) s).
Proof.
  intros Hk. split; simpl; eauto 6; try done. intros k' m Hm. rewrite lookup_delete_Some.
  split; [by intros [_ ?]|]. intros H. split; [|done]. intros <-. by apply Hm, Hk.
Qed.

Lemma touches_close n t s : touches n s (mark_closed t s).
Proof.
  split; simpl; eauto 6; try done.
  - intros t' x Hx. destruct (decide (t = t')) as [->|].
    + rewrite lookup_alter_eq, Hx. by exists (shut x).
    + rewrite lookup_alter_ne by done. eauto.
  - intros t' x'. rewrite lookup_alter_Some.
    intros [(-> & x & Hx & ->)|[_ Hx]]; right; right; eauto.
Qed.

Lemma touches_close_silently n t s : touches n s (close_silently t s).
Proof.
  unfold close_silently. destruct (pipe_transports s !! t) as [x|]; [|done].
  destruct (pt_closed x); [done|].
  etransitivity; [apply touches_close|apply touches_send].
Qed.

Lemma touches_new n x s :
  pt_pair x = None ->
  touches n s (set_pipe_transports (insert (fresh (dom (pipe_transports s))) x) s).
Proof.
  intros Hx. pose proof (is_fresh (dom (pipe_transports s))) as Hf.
  split; simpl; eauto 6; try done.
  - intros t y Hy. exists y. rewrite lookup_insert_ne; [done|]. intros <-.
    apply Hf, elem_of_dom. eauto.
  - intros t x'. rewrite lookup_insert_Some. intros [(_ & <-)|[_ ?]]; eauto.
Qed.

Lemma touches_listen n t s : touches n s (set_pipe_transports (alter (listen n) t) s).
Proof.
  split; simpl; eauto 6; try done.
  - intros t' x Hx. destruct (decide (t = t')) as [->|].
    + rewrite lookup_alter_eq, Hx. by exists (listen n x).
    + rewrite lookup_alter_ne by done. eauto.
  - intros t' x'. rewrite lookup_alter_Some. intros [(-> & x & Hx & ->)|[_ Hx]]; eauto.
Qed.

(** ** Pending promises *)

Record pending (n : nat) (p : pair) (s : pipes) : Prop := mkPending {
  pending_pair : pairs s !! n = Some p;
  pending_keys : keys_inv n p s;
  pending_maps : in_maps n p s;
  pending_silent : no_listener n s
}.

(** A pending promise stays so when nothing happens but to transports. *)
Lemma pending_close n p t s : pending n p s -> pending n p (close_silently t s).
Proof.
  intros [Hp Hk Hm Hl]. unfold close_silently. destruct (pipe_transports s !! t) as [x|]; [|done].
  destruct (pt_closed x); [done|]. split; try done.
  intros t' x'. simpl. rewrite lookup_alter_Some. intros [(-> & y & Hy & ->)|[_ Hx]]; simpl; eauto.
Qed.

Lemma pending_send n p es s : pending n p s -> pending n p (send_all es s).
Proof. by intros []. Qed.

Lemma pending_new n p t x s :
  pt_pair x = None -> pending n p s -> pending n p (set_pipe_transports (insert t x) s).
Proof.
  intros Hx [Hp Hk Hm Hl]. split; try done.
  intros t' x'. simpl. rewrite lookup_insert_Some. intros [(_ & <-)|[_ ?]]; [by rewrite Hx|eauto].
Qed.

Lemma pending_answered n p local s :
  pending n p s -> pending n (answered local p) (set_pairs (alter (answered local) n) s).
Proof. intros [Hp Hk Hm Hl]. split; try done. simpl. by rewrite lookup_alter_eq, Hp. Qed.

Definition is_pending (st : stage) : Prop :=
  match st with Creating _ _ | Connecting _ _ _ _ => True | _ => False end.

Lemma pending_of_inv n p s :
  pipes_inv s -> pairs s !! n = Some p -> is_pending (pa_stage p) -> pending n p s.
Proof.
  intros H Hp Hs. specialize (H n). unfold pair_inv in H. rewrite Hp in H.
  destruct H as (Hk & Hl & Hst). unfold stage_inv in Hst. split; [done|done| |].
  - destruct (pa_stage p); try done; apply Hst.
  - intros t x Hx E. destruct (Hl t x Hx E) as (l & r & E' & _). by rewrite E' in Hs.
Qed.

Lemma stage_of_inv n p s : pipes_inv s -> pairs s !! n = Some p -> stage_inv n p s.
Proof. intros H Hp. specialize (H n). unfold pair_inv in H. rewrite Hp in H. apply H. Qed.

(** ** How a pending promise goes on *)

Lemma set_stage_pair n st p s : pairs s !! n = Some p -> pairs (set_stage n st s) !! n = Some (with_stage st p).
Proof. intros Hp. simpl. by rewrite lookup_alter_eq, Hp. Qed.

(** It stays pending: its next stage is as the invariant has it. *)
Lemma go_on n p st s :
  pending n p s -> is_pending st -> stage_inv n (with_stage st p) s ->
  moves n s (set_stage n st s).
Proof.
  intros [Hp Hk Hm Hl] Hst Hi. split; [by apply touches_alter|].
  unfold pair_inv. rewrite (set_stage_pair n st p) by done. split_and!; [done| |].
  - intros t x Hx E. by destruct (Hl t x Hx).
  - unfold stage_inv in *. simpl in *. by destruct st.
Qed.

Lemma reject_inv n p e s :
  pending n p s -> moves n s (reject n e s).
Proof.
  intros [Hp [Hne Hk] [Hm1 Hm2] Hl]. unfold reject. rewrite Hp.
  assert (T : touches n s (set_stage n (Rejected e) s)) by by apply touches_alter.
  destruct (pa_shared p) eqn:Hs.
  - split.
    + etransitivity; [exact T|]. apply touches_forget. simpl. intros m. rewrite Hm2 by done. congruence.
    + unfold pair_inv. simpl. rewrite lookup_alter_eq, Hp. split_and!.
      * split; [done|]. simpl. intros k. rewrite lookup_delete_Some. intros [_ ?]. by apply Hk.
      * intros t x Hx E. by destruct (Hl t x Hx).
      * unfold stage_inv. simpl. rewrite lookup_delete_ne; [done|]. congruence.
  - split; [exact T|]. unfold pair_inv. simpl. rewrite lookup_alter_eq, Hp. split_and!; [done| |done].
    intros t x Hx E. by destruct (Hl t x Hx).
Qed.

Lemma abandon_inv n p l r e s :
  pending n p s -> moves n s (abandon n l r e s).
Proof.
  intros H. unfold abandon. apply (moves_after n s (close_silently r (close_silently l s))).
  - etransitivity; apply touches_close_silently.
  - apply (reject_inv n p). by do 2 apply pending_close.
Qed.

Lemma resolve_inv n p l r s :
  pending n p s -> on_router l (pa_this p) s -> on_router r (pa_router p) s ->
  moves n s (resolve n l r s).
Proof.
  intros [Hp Hk Hm Hl] Ol Or. unfold resolve.
  set (s1 := set_pipe_transports (alter (listen n) l) s).
  set (s2 := set_pipe_transports (alter (listen n) r) s1).
  assert (T : touches n s s2) by (etransitivity; apply touches_listen).
  change (set_pipe_transports _ s) with s2.
  split; [etransitivity; [exact T|by apply touches_alter]|].
  assert (Hp2 : pairs s2 !! n = Some p) by done.
  unfold pair_inv. rewrite (set_stage_pair n _ p) by done. split_and!; [done| |].
  - intros t x. simpl. rewrite !lookup_alter_Some.
    intros [(-> & ?)|[_ [(-> & ?)|[_ Hx]]]] E; [by eauto 6..|]. by destruct (Hl t x Hx).
  - unfold stage_inv. simpl. split_and!; [|by apply (on_router_touches n s s2)..|by left].
    by apply (on_router_touches n s s2).
Qed.

Lemma connect_pair_inv n p l r s :
  pending n p s -> on_router l (pa_this p) s -> on_router r (pa_router p) s ->
  moves n s (connect_pair n l r s).
Proof.
  intros H Ol Or. unfold connect_pair.
  destruct Ol as (x & Hx & Ex), Or as (y & Hy & Ey). rewrite Hx, Hy.
  destruct (connect_request x y) as [e1|e]; [|by apply (abandon_inv n p)].
  destruct (connect_request y x) as [e2|e].
  - destruct (go_on n p (Connecting l r false false) s) as [T I]; [done..| |].
    { unfold stage_inv. simpl. split_and!; [apply H| |  |done]; by eexists. }
    split; [etransitivity; [exact T|apply touches_send]|exact I].
  - apply (moves_after n s (send_all [e1] s)); [apply touches_send|].
    by apply (abandon_inv n p), pending_send.
Qed.

(** ** The steps *)

Lemma no_entry_no_key n s k :
  pipes_inv s -> pairs s !! n = None -> pair_maps s !! k <> Some n.
Proof. intros H Hn. specialize (H n). unfold pair_inv in H. rewrite Hn in H. apply H. Qed.

Lemma create_pair_stage this router o u1 u2 p es :
  create_pair this router o u1 u2 = (p, es) ->
  pa_this p = this /\ pa_router p = router /\ pa_shared p = false /\
  ((exists e, pa_stage p = Rejected e) \/
   pa_stage p = Creating None None /\ pa_due_local p = true /\ pa_due_remote p = true).
Proof.
  unfold create_pair. destruct (createPipeTransport this _ _) as [[]|], (createPipeTransport router _ _) as [[]|];
    intros [= <- _]; simpl; eauto 10.
Qed.

Lemma pipe_pair_moves this router o u1 u2 s :
  this <> router -> pipes_inv s ->
  moves (fresh (dom (pairs s))) s (fst (pipe_pair this router o u1 u2 s)).
Proof.
  intros Hne H. unfold pipe_pair.
  set (n := fresh (dom (pairs s))).
  destruct (pair_maps s !! (this, router)) eqn:He; [by split|].
  assert (Hn : pairs s !! n = None).
  { apply not_elem_of_dom. apply (is_fresh (dom (pairs s))). }
  pose proof (fun k => no_entry_no_key n s k H Hn) as Hnk.
  assert (Hl : no_listener n s).
  { pose proof (H n) as Hi. unfold pair_inv in Hi. rewrite Hn in Hi. apply Hi. }
  destruct (create_pair this router o u1 u2) as [p es] eqn:Hc.
  destruct (create_pair_stage this router o u1 u2 p es Hc) as (<- & <- & Hs & Hst).
  unfold addPipeTransportPair. set (s1 := set_maps _ (set_pairs _ _)).
  assert (T1 : touches n s s1).
  { etransitivity; [apply touches_send|]. etransitivity; [apply touches_insert|]. by apply touches_entry. }
  assert (Hr1 : pair_maps s1 !! (pa_router p, pa_this p) = pair_maps s !! (pa_router p, pa_this p)).
  { simpl. rewrite lookup_insert_ne; [done|congruence]. }
  destruct (pair_maps s1 !! (pa_router p, pa_this p)) eqn:Hr; cbn [fst].
  - split; [done|]. unfold pair_inv. simpl. rewrite lookup_insert_eq. split_and!.
    + split; [done|]. intros k. simpl. rewrite lookup_insert_Some. intros [[<- _]|[_ Hk]]; [by left|].
      by destruct (Hnk k).
    + intros t x Hx E. by destruct (Hl t x).
    + unfold stage_inv. destruct Hst as [[e ->]|(-> & Hd)]; simpl; [apply lookup_insert_eq|].
      split_and!; try apply Hd; [|by left].
      split; [apply lookup_insert_eq|by rewrite Hs].
  - set (s2 := set_maps _ (set_pairs _ s1)).
    assert (T2 : touches n s s2).
    { etransitivity; [exact T1|]. etransitivity; [apply touches_insert|]. by apply touches_entry. }
    assert (Hp2 : pending n (with_shared p) s2).
    { split; [simpl; apply lookup_insert_eq| | |done].
      - split; [done|]. intros k. simpl. rewrite !lookup_insert_Some.
        intros [[<- _]|[_ [[<- _]|[_ Hk]]]]; [by right|by left|]. by destruct (Hnk k).
      - split; simpl; [|intros _; apply lookup_insert_eq].
        rewrite lookup_insert_ne by congruence. apply lookup_insert_eq. }
    destruct Hst as [[e ->]|(E & Hd1 & Hd2)].
    + apply (moves_after n s s2 _ T2). by apply (reject_inv n (with_shared p)).
    + rewrite E. split; [done|]. unfold pair_inv. simpl. rewrite lookup_insert_eq.
      destruct Hp2 as [_ Hk Hm Hsil]. split_and!; [done| |].
      * intros t x Hx Ex. by destruct (Hsil t x).
      * unfold stage_inv. simpl. rewrite E. split_and!; [done..|by left].
Qed.

Lemma pair_inv_answered n p local s :
  pair_inv n s -> pairs s !! n = Some p -> (forall l r, pa_stage p <> Creating l r) ->
  pair_inv n (set_pairs (alter (answered local) n) s).
Proof.
  unfold pair_inv. simpl. intros H Hp Hs. rewrite lookup_alter_eq, Hp. rewrite Hp in H. simpl.
  destruct H as (Hk & Hl & Hst). split_and!; [done..|].
  unfold stage_inv in *. simpl. destruct (pa_stage p) as [l r| | |]; [by destruct (Hs l r)|done..].
Qed.

Lemma made_fields local p res x :
  made local p res = Ok x -> pt_router x = side local p /\ pt_pair x = None /\ pt_closed x = false.
Proof. unfold made. intros H. inv_result. done. Qed.

Lemma created_pending n p local x s l r :
  pending n p s -> pa_stage p = Creating l r -> stage_inv n p s ->
  pt_router x = side local p -> pt_pair x = None ->
  let t := fresh (dom (pipe_transports s)) in
  let s2 := set_pipe_transports (insert t x) (set_pairs (alter (answered local) n) s) in
  touches n s s2 /\ pending n (answered local p) s2 /\ on_router t (side local p) s2 /\
  (forall t' r', on_router t' r' s -> on_router t' r' s2).
Proof.
  intros Hp Hst Hi Hr Hx t s2.
  assert (T : touches n s s2).
  { etransitivity; [by apply (touches_alter n (answered local) n)|]. by apply touches_new. }
  split_and!; [done|by apply pending_new, pending_answered| |by intros; apply (on_router_touches n s s2)].
  exists x. split; [apply lookup_insert_eq|done].
Qed.

Lemma created_moves n local res s : pipes_inv s -> moves n s (created n local res s).
Proof.
  intros H. unfold created. destruct (pairs s !! n) as [p|] eqn:Hp; [|by split].
  destruct (due local p); [|by split].
  pose proof (stage_of_inv n p s H Hp) as Hi.
  set (s1 := set_pairs _ s).
  assert (T1 : touches n s s1) by by apply touches_alter.
  assert (Hother : (forall l r, pa_stage p <> Creating l r) -> moves n s s1).
  { intros Hs. split; [done|]. by apply (pair_inv_answered n p). }
  destruct (made local p res) as [x|e] eqn:Hm.
  - destruct (made_fields local p res x Hm) as (Hr & Hx & _).
    destruct (pa_stage p) as [l r| | |] eqn:Hst;
      try (by apply (moves_quiet n s s1); [|apply Hother|intros; apply touches_new]).
    assert (P0 : pending n p s) by (apply pending_of_inv; [done..|by rewrite Hst]).
    destruct (created_pending n p local x s l r P0 Hst Hi Hr Hx) as (T2 & P2 & Ot & On).
    unfold stage_inv in Hi. rewrite Hst in Hi. destruct Hi as (_ & Hl & Hr' & _).
    change (pipe_transports s1) with (pipe_transports s).
    set (t := fresh (dom (pipe_transports s))) in *. set (s2 := set_pipe_transports _ _) in *.
    assert (Hgo : forall l' r', stage_inv n (with_stage (Creating l' r') (answered local p)) s2 ->
              moves n s (set_stage n (Creating l' r') s2)).
    { intros l' r' Hi'. apply (moves_after n s s2 _ T2). by apply (go_on n (answered local p)). }
    assert (Hcon : forall l' r', on_router l' (pa_this p) s2 -> on_router r' (pa_router p) s2 ->
              moves n s (connect_pair n l' r' s2)).
    { intros l' r' Ol Or. apply (moves_after n s s2 _ T2). by apply (connect_pair_inv n (answered local p)). }
    destruct local; [destruct r as [r|]|destruct l as [l|]].
    + apply Hcon; [done|by apply On, Hr'].
    + apply Hgo. split; [apply P2|]. split_and!; [done..|by right].
    + apply Hcon; [by apply On, Hl|done].
    + apply Hgo. split; [apply P2|]. split_and!; [done..|by left].
  - destruct (pa_stage p) as [l r| | |] eqn:Hst; try by apply Hother.
    assert (P0 : pending n p s) by (apply pending_of_inv; [done..|by rewrite Hst]).
    apply (moves_after n s s1 _ T1). by apply (reject_inv n (answered local p)), pending_answered.
Qed.

Lemma connected_moves n local res s : pipes_inv s -> moves n s (connected n local res s).
Proof.
  intros H. assert (Hs : moves n s s) by by split.
  unfold connected. destruct (pairs s !! n) as [p|] eqn:Hp; [|done]. simpl.
  pose proof (stage_of_inv n p s H Hp) as Hi. unfold stage_inv in Hi.
  destruct (pa_stage p) as [|l r lc rc| |] eqn:Hst; try done.
  destruct (if local then lc else rc) eqn:Hd; [done|].
  assert (P0 : pending n p s) by (apply pending_of_inv; [done..|by rewrite Hst]).
  destruct Hi as (Hm & Ol & Or & _).
  destruct res as [v|e]; [|by apply (abandon_inv n p)].
  destruct ((lc || local) && (rc || negb local)) eqn:Hb.
  - by apply (resolve_inv n p).
  - apply (go_on n p); [done..|]. by split_and!.
Qed.

(** After a closing both transports of the pair are closed. *)
Lemma shut_in_mark t s x : pipe_transports s !! t = Some x -> shut_in t (mark_closed t s).
Proof. intros Hx. exists (shut x). simpl. by rewrite lookup_alter_eq, Hx. Qed.

Lemma shut_in_silently t s x : pipe_transports s !! t = Some x -> shut_in t (close_silently t s).
Proof.
  intros Hx. unfold close_silently. rewrite Hx. destruct (pt_closed x) eqn:Hc; [by exists x|].
  by apply (shut_in_mark t s x).
Qed.

Lemma close_silently_maps t s :
  pair_maps (close_silently t s) = pair_maps s /\ pairs (close_silently t s) = pairs s.
Proof.
  unfold close_silently. destruct (pipe_transports s !! t) as [x|]; [|done]. by destruct (pt_closed x).
Qed.

Lemma forget_pair_lookup p m k n :
  forget_pair p m !! k = Some n <-> m !! k = Some n /\ ~ own_key p k.
Proof.
  unfold forget_pair, own_key.
  destruct (pa_shared p); rewrite ?lookup_delete_Some; intuition congruence.
Qed.

(** One closes, the listener closes the other. *)
Lemma pair_shut (t l r : nat) a b s x :
  pipe_transports s !! t = Some x -> on_router l a s -> on_router r b s -> t = l \/ t = r ->
  let s' := close_silently (if decide (t = l) then r else l) (mark_closed t s) in
  shut_in l s' /\ shut_in r s'.
Proof.
  intros Hx Ol Or Ht. set (t' := if decide (t = l) then r else l). simpl.
  set (s1 := mark_closed t s).
  destruct (on_router_touches 0 s s1 l a (touches_close 0 t s) Ol) as (y & Hy & _).
  destruct (on_router_touches 0 s s1 r b (touches_close 0 t s) Or) as (z & Hz & _).
  assert (St' : shut_in t' (close_silently t' s1)).
  { unfold t'. case_decide; by eapply shut_in_silently. }
  assert (St : shut_in t (close_silently t' s1)).
  { apply (shut_in_touches 0 s1); [apply touches_close_silently|by apply (shut_in_mark t s x)]. }
  unfold t' in *. case_decide; [by subst|]. destruct Ht; [done|by subst].
Qed.

(** The promise whose listeners a closing transport calls. *)
Definition pair_of (t : nat) (s : pipes) : nat := default 0 (pipe_transports s !! t ≫= pt_pair).

Lemma transport_closes_moves t s : pipes_inv s -> moves (pair_of t s) s (transport_closes t s).
Proof.
  intros H. unfold transport_closes, pair_of.
  destruct (pipe_transports s !! t) as [x|] eqn:Hx; [simpl|by split].
  destruct (pt_closed x) eqn:Hc; [by split|].
  set (s1 := mark_closed t s).
  assert (H1 : forall n, moves n s s1).
  { intros n. apply (moves_quiet n s s); [done|by split|intros; apply touches_close]. }
  destruct (pt_pair x) as [n|] eqn:Hpx; [|done]. simpl.
  destruct (pairs s !! n) as [p|] eqn:Hp; [|done].
  destruct (pa_stage p) as [| |l r|] eqn:Hst; try done.
  pose proof (H n) as Hn. unfold pair_inv in Hn. rewrite Hp in Hn. destruct Hn as ([Hne Hk] & Hl & Hi).
  destruct (Hl t x Hx Hpx) as (l' & r' & E & Ht). rewrite Hst in E. injection E as <- <-.
  unfold stage_inv in Hi. rewrite Hst in Hi. destruct Hi as (Ol & Or & Hi).
  assert (Hm : in_maps n p s).
  { destruct Hi as [?|[(y & Hy & Cy) (z & Hz & Cz)]]; [done|]. destruct Ht as [-> | ->]; congruence. }
  set (t' := if decide (t = l) then r else l). set (s2 := close_silently t' s1).
  destruct (close_silently_maps t' s1) as [E1 E2]. fold s2 in E1, E2.
  assert (T2 : forall m, touches m s s2).
  { intros m. etransitivity; [apply touches_close|apply touches_close_silently]. }
  split.
  - etransitivity; [apply T2|]. split; simpl; eauto 6; try done. intros k m Hmn.
    rewrite forget_pair_lookup, E1. simpl. split; [by intros []|]. intros Hkm. split; [done|].
    intros [-> |[Hs ->]]; destruct Hm as [M1 M2]; [|specialize (M2 Hs)]; congruence.
  - unfold pair_inv. simpl. rewrite E2. simpl. rewrite Hp. split_and!.
    + split; [done|]. intros k. simpl. rewrite forget_pair_lookup, E1. intros [? _]. by apply Hk.
    + intros y z Hy Ey.
      destruct (touches_listeners (S n) s s2 (T2 (S n)) y z Hy) as [|[|(z' & Hz' & ?)]];
        [congruence|exfalso; simplify_eq; lia|].
      apply (Hl y z'); congruence.
    + unfold stage_inv. rewrite Hst. split_and!; [by apply (on_router_touches n s s2 _ _ (T2 n))..|]. right.
      by apply (pair_shut t l r (pa_this p) (pa_router p) s x).
Qed.

(** The promise a step is about. *)
Definition target (o : pipe_op) (s : pipes) : nat :=
  match o with
  | Pipe _ _ _ _ _ => fresh (dom (pairs s))
  | Created n _ _ | Connected n _ _ => n
  | Closes t => pair_of t s
  end.

Lemma pipe_step_moves o s : pipes_inv s -> moves (target o s) s (pipe_step s o).
Proof.
  intros H. destruct o as [this router o u1 u2|n local res|n local res|t]; cbn [pipe_step target].
  - destruct (String.eqb_spec router this) as [|Hne]; [by split|]. by apply pipe_pair_moves.
  - by apply created_moves.
  - by apply connected_moves.
  - by apply transport_closes_moves.
Qed.

Lemma pipe_step_inv o s : pipes_inv s -> pipes_inv (pipe_step s o).
Proof. intros H. by eapply moves_inv, pipe_step_moves. Qed.

Lemma no_pipes_inv : pipes_inv no_pipes.
Proof. done. Qed.

Lemma pipe_run_from ops s : pipes_inv s -> pipes_inv (foldl pipe_step s ops).
Proof. revert s. induction ops as [|o ops IH]; intros s Hs; [done|]. by apply IH, pipe_step_inv. Qed.

Lemma pipe_run_inv ops : pipes_inv (pipe_run ops).
Proof. apply pipe_run_from, no_pipes_inv. Qed.
