(* ===== verification/PipeProps.v ===== *)
(** * Properties of pairs of pipe transports

    Which promise the two routers find, that it is settled, how its transports
    close together, and what a failure leaves behind.  Runs are those of
    PipeToRouter.v, from no promise at all. *)

From S2P Require Import Prelude Js RtpParameters Ortc Framing Events TransportState World TransportCalls RouterCalls TransportEvents PipeToRouter PipeInv.

(** ** What the statements speak of *)

Definition open_transport (t : nat) (s : pipes) : bool :=
  match pipe_transports s !! t with Some x => negb (pt_closed x) | None => false end.

(** A promise that may still give transports that are open. *)
Definition live (p : pair) (s : pipes) : Prop :=
  match pa_stage p with
  | Rejected _ => False
  | Resolved l r => open_transport l s = true \/ open_transport r s = true
  | _ => True
  end.

(** The router that has the promise under the key of the other. *)
Definition party (p : pair) (this router : string) : Prop :=
  pa_this p = this /\ pa_router p = router \/
  pa_shared p = true /\ pa_router p = this /\ pa_this p = router.

(** The answers a pending promise waits for. *)
Definition outstanding (p : pair) (local : bool) : bool :=
  match pa_stage p with
  | Creating _ _ => due local p
  | Connecting _ _ lc rc => negb (if local then lc else rc)
  | _ => false
  end.

Definition answer (n : nat) (p : pair) (local : bool) (res : result val) : pipe_op :=
  match pa_stage p with
  | Connecting _ _ _ _ => Connected n local res
  | _ => Created n local res
  end.

(** The worker answers, with data or with an error. *)
Definition answering (n : nat) (s s' : pipes) : Prop :=
  exists p local res, pairs s !! n = Some p /\ outstanding p local = true /\
    s' = pipe_step s (answer n p local res).

Definition mentions (st : stage) : list nat :=
  match st with
  | Creating l r => omap id [l; r]
  | Connecting l r _ _ | Resolved l r => [l; r]
  | Rejected _ => []
  end.

(** An open transport no promise knows of. *)
Definition orphan (t : nat) (s : pipes) : Prop :=
  (exists x, pipe_transports s !! t = Some x /\ pt_closed x = false) /\
  forall n p, pairs s !! n = Some p -> t ∉ mentions (pa_stage p).

(** ** Settled promises *)

Lemma pipe_run_app ops later : pipe_run (ops ++ later) = foldl pipe_step (pipe_run ops) later.
Proof. apply foldl_app. Qed.

Lemma settled_step o s n p :
  pipes_inv s -> pairs s !! n = Some p -> ~ is_pending (pa_stage p) ->
  exists p', pairs (pipe_step s o) !! n = Some p' /\
    pa_this p' = pa_this p /\ pa_router p' = pa_router p /\ pa_stage p' = pa_stage p.
Proof.
  intros H Hp Hs. destruct (decide (n = target o s)) as [E|Hne].
  2:{ exists p. rewrite (touches_pairs _ _ _ (proj1 (pipe_step_moves o s H))) by done. done. }
  destruct o as [this router o u1 u2|m local res|m local res|t]; cbn [target pipe_step] in *; subst.
  - exfalso. apply (is_fresh (dom (pairs s))), elem_of_dom. eauto.
  - unfold created. rewrite Hp. destruct (due local p); [|by exists p].
    exists (answered local p). destruct (made local p res); destruct (pa_stage p) eqn:?; try (by destruct Hs);
      simpl; rewrite lookup_alter_eq, Hp; by split_and!.
  - unfold connected. rewrite Hp. simpl. exists p. destruct (pa_stage p) eqn:?; try (by destruct Hs); done.
  - exists p. split; [|done]. unfold transport_closes.
    destruct (pipe_transports s !! t) as [x|]; [|done]. destruct (pt_closed x); [done|].
    destruct (pt_pair x ≫= _) as [q|]; [|done]. destruct (pa_stage q); try done. simpl.
    by rewrite (proj2 (close_silently_maps _ _)).
Qed.

Lemma settled_run ops s n p :
  pipes_inv s -> pairs s !! n = Some p -> ~ is_pending (pa_stage p) ->
  exists p', pairs (foldl pipe_step s ops) !! n = Some p' /\
    pa_this p' = pa_this p /\ pa_router p' = pa_router p /\ pa_stage p' = pa_stage p.
Proof.
  revert s p. induction ops as [|o ops IH]; intros s p H Hp Hs; [by exists p|].
  destruct (settled_step o s n p H Hp Hs) as (p1 & H1 & E1 & E2 & E3).
  destruct (IH (pipe_step s o) p1) as (p2 & H2 & F1 & F2 & F3); [by apply pipe_step_inv|done|congruence|].
  exists p2. split_and!; [done|congruence..].
Qed.

(** ** How many answers a promise needs *)

Definition waits (p : pair) : nat :=
  match pa_stage p with
  | Creating l r => 2 + (if l is Some _ then 0 else 1) + (if r is Some _ then 0 else 1)
  | Connecting _ _ lc rc => (if lc then 0 else 1) + (if rc then 0 else 1)
  | _ => 0
  end.

Lemma waits_le p : waits p <= 4.
Proof. unfold waits. destruct (pa_stage p) as [[] []|? ? [] []| |]; lia. Qed.

Lemma pending_outstanding n p s :
  pipes_inv s -> pairs s !! n = Some p -> is_pending (pa_stage p) -> exists local, outstanding p local = true.
Proof.
  intros H Hp Hs. pose proof (stage_of_inv n p s H Hp) as Hi. unfold stage_inv, outstanding in *.
  destruct (pa_stage p) as [l r|l r lc rc| |]; try done.
  - destruct Hi as (_ & Hl & Hr & [-> | ->]); [by exists true|by exists false].
  - destruct Hi as (_ & _ & _ & Hc). destruct lc; [|by exists true]. destruct rc; [done|by exists false].
Qed.

Lemma set_stage_waits n st p s :
  pairs s !! n = Some p -> exists p', pairs (set_stage n st s) !! n = Some p' /\ waits p' = waits (with_stage st p).
Proof. intros Hp. exists (with_stage st p). by rewrite (set_stage_pair n st p s Hp). Qed.

Lemma reject_waits n e p s :
  pairs s !! n = Some p -> exists p', pairs (reject n e s) !! n = Some p' /\ waits p' = 0.
Proof.
  intros Hp. unfold reject. rewrite Hp. exists (with_stage (Rejected e) p). split; [|done].
  destruct (pa_shared p); simpl; by rewrite lookup_alter_eq, Hp.
Qed.

Lemma abandon_waits n l r e p s :
  pairs s !! n = Some p -> exists p', pairs (abandon n l r e s) !! n = Some p' /\ waits p' = 0.
Proof.
  intros Hp. apply (reject_waits n e p).
  by rewrite (proj2 (close_silently_maps _ _)), (proj2 (close_silently_maps _ _)).
Qed.

Lemma connect_pair_waits n l r a b p s :
  pairs s !! n = Some p -> on_router l a s -> on_router r b s ->
  exists p', pairs (connect_pair n l r s) !! n = Some p' /\ waits p' <= 2.
Proof.
  intros Hp (x & Hx & _) (y & Hy & _). unfold connect_pair. rewrite Hx, Hy.
  assert (G : forall e s', pairs s' !! n = Some p ->
    exists p', pairs (abandon n l r e s') !! n = Some p' /\ waits p' <= 2).
  { intros e s' Hs. destruct (abandon_waits n l r e p s' Hs) as (p' & ? & E).
    exists p'. split; [done|lia]. }
  destruct (connect_request x y); [|by apply G]. destruct (connect_request y x); [|by apply G].
  destruct (set_stage_waits n (Connecting l r false false) p s Hp) as (p' & ? & E).
  exists p'. split; [done|]. by rewrite E.
Qed.

Lemma created_waits n p local res s :
  pipes_inv s -> pairs s !! n = Some p -> outstanding p local = true -> (exists l r, pa_stage p = Creating l r) ->
  exists p', pairs (created n local res s) !! n = Some p' /\ waits p' < waits p.
Proof.
  intros H Hp Ho (l & r & Hst). unfold outstanding in Ho. rewrite Hst in Ho.
  assert (Hw : waits p = 2 + (if l is Some _ then 0 else 1) + (if r is Some _ then 0 else 1)) by (unfold waits; by rewrite Hst).
  pose proof (stage_of_inv n p s H Hp) as Hi.
  assert (P0 : pending n p s) by (apply pending_of_inv; [done..|by rewrite Hst]).
  unfold created. rewrite Hp, Ho, Hst. destruct (made local p res) as [x|e] eqn:Hm.
  - destruct (made_fields local p res x Hm) as (Hr & Hx & _).
    destruct (created_pending n p local x s l r P0 Hst Hi Hr Hx) as (_ & P2 & Ot & On).
    unfold stage_inv in Hi. rewrite Hst in Hi. destruct Hi as (_ & Hl & Hr' & _).
    cbv zeta in *. change (pipe_transports (set_pairs (alter (answered local) n) s)) with (pipe_transports s).
    set (t := fresh (dom (pipe_transports s))) in *. set (s2 := set_pipe_transports _ _) in *.
    destruct local; simpl in Ho.
    + destruct l as [l|]; [destruct Hl; congruence|]. destruct r as [r|].
      * destruct (connect_pair_waits n t r _ _ _ s2 (pending_pair _ _ _ P2) Ot (On _ _ (proj1 Hr'))) as (p' & ? & ?).
        exists p'. split; [done|lia].
      * destruct (set_stage_waits n (Creating (Some t) None) _ s2 (pending_pair _ _ _ P2)) as (p' & ? & E).
        exists p'. split; [done|]. rewrite E, Hw. unfold waits. simpl. lia.
    + destruct r as [r|]; [destruct Hr'; congruence|]. destruct l as [l|].
      * destruct (connect_pair_waits n l t _ _ _ s2 (pending_pair _ _ _ P2) (On _ _ (proj1 Hl)) Ot) as (p' & ? & ?).
        exists p'. split; [done|lia].
      * destruct (set_stage_waits n (Creating None (Some t)) _ s2 (pending_pair _ _ _ P2)) as (p' & ? & E).
        exists p'. split; [done|]. rewrite E, Hw. unfold waits. simpl. lia.
  - destruct (reject_waits n e _ _ (pending_pair _ _ _ (pending_answered n p local s P0))) as (p' & ? & E).
    exists p'. split; [done|lia].
Qed.

Lemma connected_waits n p local res s l r lc rc :
  pairs s !! n = Some p -> pa_stage p = Connecting l r lc rc -> outstanding p local = true ->
  exists p', pairs (connected n local res s) !! n = Some p' /\ waits p' < waits p.
Proof.
  intros Hp Hst Ho. unfold outstanding in Ho. rewrite Hst in Ho. apply negb_true_iff in Ho.
  assert (Hw : waits p = (if lc then 0 else 1) + (if rc then 0 else 1)) by (unfold waits; by rewrite Hst).
  assert (0 < waits p) by (rewrite Hw; destruct local, lc, rc; simpl in *; first [done|lia]).
  unfold connected. rewrite Hp. simpl. rewrite Hst, Ho. destruct res as [v|e].
  - destruct ((lc || local) && (rc || negb local)) eqn:Hb.
    + destruct (set_stage_waits n (Resolved l r) p
        (set_pipe_transports (fun m => alter (listen n) r (alter (listen n) l m)) s) Hp) as (p' & ? & E).
      exists p'. split; [done|]. rewrite E. unfold waits at 1. simpl. lia.
    + destruct (set_stage_waits n (Connecting l r (lc || local) (rc || negb local)) p s Hp) as (p' & ? & E).
      exists p'. split; [done|]. rewrite E, Hw. unfold waits. simpl.
      destruct local, lc, rc; simpl in *; first [done|lia].
  - destruct (abandon_waits n l r e p s Hp) as (p' & ? & E). exists p'. split; [done|lia].
Qed.

Lemma answering_waits n p s s' :
  pipes_inv s -> pairs s !! n = Some p -> answering n s s' ->
  pipes_inv s' /\ exists p', pairs s' !! n = Some p' /\ waits p' < waits p.
Proof.
  intros H Hp (q & local & res & Hq & Ho & ->). assert (q = p) as -> by congruence.
  split; [by apply pipe_step_inv|]. unfold answer. pose proof Ho as Ho'. unfold outstanding in Ho.
  destruct (pa_stage p) as [l r|l r lc rc| |] eqn:Hst; try done; simpl.
  - apply created_waits; eauto.
  - by eapply connected_waits.
Qed.

Lemma answering_nsteps n k p s s' :
  pipes_inv s -> pairs s !! n = Some p -> nsteps (answering n) k s s' ->
  pipes_inv s' /\ exists p', pairs s' !! n = Some p' /\ waits p' + k <= waits p.
Proof.
  revert s p. induction k as [|k IH]; intros s p H Hp Hk; inversion Hk as [|? ? s1 ? Ha Hk']; subst.
  - split; [done|]. exists p. split; [done|lia].
  - destruct (answering_waits n p s s1 H Hp Ha) as (H1 & p1 & Hp1 & Hw).
    destruct (IH s1 p1 H1 Hp1 Hk') as (H2 & p2 & Hp2 & Hw2). split; [done|]. exists p2. split; [done|lia].
Qed.

(** ** Transports no promise knows *)

Lemma orphan_stage t n st s : orphan t s -> t ∉ mentions st -> orphan t (set_stage n st s).
Proof.
  intros [Ho Hu] Hst. split; [done|]. intros m p. simpl. rewrite lookup_alter_Some.
  intros [(_ & q & _ & ->)|[_ ?]]; [done|eauto].
Qed.

Lemma orphan_reject t n e s : orphan t s -> orphan t (reject n e s).
Proof.
  intros H. unfold reject. destruct (pairs s !! n) as [p|]; [|done].
  assert (H1 : orphan t (set_stage n (Rejected e) s)) by (apply orphan_stage; [done|apply not_elem_of_nil]).
  by destruct (pa_shared p).
Qed.

Lemma orphan_close t u s : orphan t s -> t <> u -> orphan t (mark_closed u s).
Proof.
  intros [(x & Hx & Hc) Hu] Hne. split; [|done]. exists x. simpl. by rewrite lookup_alter_ne.
Qed.

Lemma orphan_close_silently t u s : orphan t s -> t <> u -> orphan t (close_silently u s).
Proof.
  intros H Hne. unfold close_silently. destruct (pipe_transports s !! u) as [x|]; [|done].
  destruct (pt_closed x); [done|]. by apply (orphan_close t u s).
Qed.

Lemma orphan_abandon t n l r e s : orphan t s -> t <> l -> t <> r -> orphan t (abandon n l r e s).
Proof.
  intros H Hl Hr. apply orphan_reject, orphan_close_silently; [|done]. by apply orphan_close_silently.
Qed.

Lemma orphan_listen t n u s : orphan t s -> orphan t (set_pipe_transports (alter (listen n) u) s).
Proof.
  intros [(x & Hx & Hc) Hu]. split; [|done]. simpl. destruct (decide (u = t)) as [->|].
  - exists (listen n x). by rewrite lookup_alter_eq, Hx.
  - exists x. by rewrite lookup_alter_ne.
Qed.

Lemma orphan_new t x s :
  orphan t s -> orphan t (set_pipe_transports (insert (fresh (dom (pipe_transports s))) x) s) /\
  t <> fresh (dom (pipe_transports s)).
Proof.
  intros [(y & Hy & Hc) Hu].
  assert (Hne : t <> fresh (dom (pipe_transports s))).
  { intros E. apply (is_fresh (dom (pipe_transports s))). rewrite <- E. apply elem_of_dom. eauto. }
  split; [|done]. split; [|done]. exists y. simpl. by rewrite lookup_insert_ne.
Qed.

Lemma orphan_answered t n local s : orphan t s -> orphan t (set_pairs (alter (answered local) n) s).
Proof.
  intros [Ho Hu]. split; [done|]. intros m p. simpl. rewrite lookup_alter_Some.
  intros [(<- & q & Hq & ->)|[_ ?]]; [by apply (Hu n q)|eauto].
Qed.

Lemma orphan_insert t n p s :
  orphan t s -> t ∉ mentions (pa_stage p) -> orphan t (set_pairs (insert n p) s).
Proof.
  intros [Ho Hu] Hp. split; [done|]. intros m q. simpl. rewrite lookup_insert_Some.
  intros [[_ <-]|[_ ?]]; [done|eauto].
Qed.

Lemma orphan_pipe_pair t this router o u1 u2 s :
  orphan t s -> orphan t (fst (pipe_pair this router o u1 u2 s)).
Proof.
  intros H. unfold pipe_pair. destruct (pair_maps s !! (this, router)); [done|].
  destruct (create_pair this router o u1 u2) as [p es] eqn:Hc.
  destruct (create_pair_stage this router o u1 u2 p es Hc) as (_ & _ & _ & Hst).
  assert (Hm : t ∉ mentions (pa_stage p)).
  { destruct Hst as [[e ->]|[-> _]]; apply not_elem_of_nil. }
  unfold addPipeTransportPair. set (n := fresh (dom (pairs s))).
  assert (H1 : orphan t (set_pairs (insert n p) (send_all es s))) by by apply orphan_insert.
  destruct (pair_maps _ !! _); cbn [fst]; [exact H1|].
  assert (H2 : orphan t (set_pairs (insert n (with_shared p))
    (set_pairs (insert n p) (send_all es s)))) by by apply orphan_insert.
  destruct (pa_stage p); try exact H2. apply orphan_reject, H2.
Qed.

Lemma orphan_connect_pair t n l r s : orphan t s -> t <> l -> t <> r -> orphan t (connect_pair n l r s).
Proof.
  intros H Hl Hr. unfold connect_pair.
  destruct (pipe_transports s !! l) as [x|], (pipe_transports s !! r) as [y|]; try done.
  destruct (connect_request x y); [|by apply orphan_abandon].
  destruct (connect_request y x); [|by apply orphan_abandon].
  apply (orphan_stage t n); [done|]. simpl. set_solver.
Qed.

Lemma orphan_created t n local res s : orphan t s -> orphan t (created n local res s).
Proof.
  intros H. unfold created. destruct (pairs s !! n) as [p|] eqn:Hp; [|done].
  destruct (due local p); [|done].
  assert (Hm : t ∉ mentions (pa_stage p)) by by eapply H.
  pose proof (orphan_answered t n local s H) as H1. set (s1 := set_pairs _ s) in *.
  destruct (made local p res) as [x|e].
  - destruct (orphan_new t x s1 H1) as [H2 Hne]. set (u := fresh _) in *.
    destruct (pa_stage p) as [l r| | |]; try done. simpl in Hm.
    destruct local; [destruct r as [r|]|destruct l as [l|]].
    1,3: apply orphan_connect_pair; [done|intros ->; destruct l, r; set_solver..].
    all: apply orphan_stage; [done|simpl; set_solver].
  - destruct (pa_stage p); try done. by apply orphan_reject.
Qed.

Lemma orphan_connected t n local res s : orphan t s -> orphan t (connected n local res s).
Proof.
  intros H. unfold connected. destruct (pairs s !! n) as [p|] eqn:Hp; [|done]. simpl.
  assert (Hm : t ∉ mentions (pa_stage p)) by by eapply H.
  destruct (pa_stage p) as [|l r lc rc| |]; try done. simpl in Hm.
  destruct (if local then lc else rc); [done|].
  destruct res as [v|e]; [|apply orphan_abandon; [done|set_solver..]].
  destruct (_ && _); [|by apply orphan_stage].
  unfold resolve. apply (orphan_stage t n); [|done].
  change (orphan t (set_pipe_transports (alter (listen n) r) (set_pipe_transports (alter (listen n) l) s))).
  by do 2 apply orphan_listen.
Qed.

Lemma orphan_closes t u s : orphan t s -> t <> u -> orphan t (transport_closes u s).
Proof.
  intros H Hne. unfold transport_closes. destruct (pipe_transports s !! u) as [x|]; [|done].
  destruct (pt_closed x); [done|]. pose proof (orphan_close t u s H Hne) as H1.
  destruct (pt_pair x) as [n|]; [simpl|done]. destruct (pairs s !! n) as [p|] eqn:Hp; [|done].
  assert (Hm : t ∉ mentions (pa_stage p)) by by eapply H.
  destruct (pa_stage p) as [| |l r|]; try done. simpl in Hm.
  apply (orphan_close_silently t (if decide (u = l) then r else l)) in H1; [done|].
  case_decide; set_solver.
Qed.

Lemma orphan_step t o s : orphan t s -> o <> Closes t -> orphan t (pipe_step s o).
Proof.
  intros H Hne. destruct o as [this router o u1 u2|n local res|n local res|u]; simpl.
  - destruct (String.eqb router this); [done|]. by apply orphan_pipe_pair.
  - by apply orphan_created.
  - by apply orphan_connected.
  - apply orphan_closes; [done|congruence].
Qed.

Lemma orphan_run t ops s : orphan t s -> Closes t ∉ ops -> orphan t (foldl pipe_step s ops).
Proof.
  revert s. induction ops as [|o ops IH]; intros s H Hn; [done|].
  apply not_elem_of_cons in Hn as [? ?]. apply IH; [|done]. by apply orphan_step.
Qed.

Lemma fresh_not_mentioned n p s :
  pipes_inv s -> pairs s !! n = Some p -> fresh (dom (pipe_transports s)) ∉ mentions (pa_stage p).
Proof.
  intros H Hp. pose proof (stage_of_inv n p s H Hp) as Hi. set (t := fresh _).
  assert (Hf : forall y r, on_router y r s -> t <> y).
  { intros y r (z & Hz & _) <-. apply (is_fresh (dom (pipe_transports s))), elem_of_dom. eauto. }
  unfold stage_inv in Hi. destruct (pa_stage p) as [l r|l r ? ?|l r|]; simpl.
  - destruct Hi as (_ & Hl & Hr & _).
    destruct l as [l|], r as [r|]; simpl; rewrite ?not_elem_of_cons; split_and?;
      try apply not_elem_of_nil; try (eapply Hf, Hl); eapply Hf, Hr.
  - destruct Hi as (_ & Ol & Or & _). rewrite !not_elem_of_cons.
    split_and!; [by eapply Hf..|apply not_elem_of_nil].
  - destruct Hi as (Ol & Or & _). rewrite !not_elem_of_cons.
    split_and!; [by eapply Hf..|apply not_elem_of_nil].
  - apply not_elem_of_nil.
Qed.

(** ** An example: routers A and B *)

Definition demo_answer (port : Z) : val :=
  VObj [("tuple", VObj [("localIp", VStr "127.0.0.1"); ("localPort", VNum port)]);
        ("sctpParameters", VUndef); ("sctpState", VUndef); ("rtx", VBool false);
        ("srtpParameters", VUndef)].

Definition demo_pipe : pipe_op := Pipe "A" "B" (VObj []) "u1" "u2".
Definition demo_number : nat := fresh (dom (pairs no_pipes)).

(** Both sides are created and connected. *)
Definition demo_resolved : list pipe_op :=
  [demo_pipe; Created demo_number false (Ok (demo_answer 5002)); Created demo_number true (Ok (demo_answer 5001));
   Connected demo_number true (Ok (VObj [])); Connected demo_number false (Ok (VObj []))].

(** B has no port left. *)
Definition demo_failed : list pipe_op :=
  [demo_pipe; Created demo_number false (Err (PlainError "no more available ports"))].

Definition demo_pair (ops : list pipe_op) : pair :=
  default (mkPair "" "" ("", "") false false false (Creating None None)) (pairs (pipe_run ops) !! demo_number).

Definition demo_transport (ops : list pipe_op) (t : nat) : pipe_transport :=
  default (mkPipeTransport "" "" VUndef VUndef true None) (pipe_transports (pipe_run ops) !! t).

Example demo_own_side : own_side "B" (demo_pair demo_resolved) = Some (Ok (0, 1)).
Proof. vm_compute. reflexivity. Qed.

Example demo_after_failure : snd (pipe_pair "B" "A" (VObj []) "u3" "u4" (pipe_run demo_failed)) =
  Err (PlainError "given pipeTransportPairKey already exists in this Router").
Proof. vm_compute. reflexivity. Qed.

Example demo_sent : sent (pipe_run demo_resolved) =
  sent (pipe_run [demo_pipe]) ++
  [Request "transport.connect" (Some "u1")
     (VObj [("ip", VStr "127.0.0.1"); ("port", VNum 5002); ("srtpParameters", VUndef)]);
   Request "transport.connect" (Some "u2")
     (VObj [("ip", VStr "127.0.0.1"); ("port", VNum 5001); ("srtpParameters", VUndef)])].
Proof. vm_compute. reflexivity. Qed.

(** ** The properties *)



(** C24: A promise is settled by at most four answers of the worker, whatever they
    are and in whatever order they come: when it waits for no further answer it
    is resolved or rejected. *)
Theorem pair_settles (ops : list pipe_op) (n : nat) (p : pair) (k : nat) (s' : pipes) :
  pairs (pipe_run ops) !! n = Some p -> nsteps (answering n) k (pipe_run ops) s' ->
  k <= 4 /\
  ((forall s'', ~ answering n s' s'') -> exists p', pairs s' !! n = Some p' /\ ~ is_pending (pa_stage p')).
Proof.
  intros Hp Hk. destruct (answering_nsteps n k p _ s' (pipe_run_inv ops) Hp Hk) as (H' & p' & Hp' & Hw).
  pose proof (waits_le p). split; [lia|].
  intros Hno. exists p'. split; [done|]. intros Hpend.
  destruct (pending_outstanding n p' s' H' Hp' Hpend) as (local & Ho).
  apply (Hno (pipe_step s' (answer n p' local (Ok VUndef)))). by exists p', local, (Ok VUndef).
Qed.

Lemma pair_settles_witness : 1 <= 4.
Proof.
  refine (proj1 (pair_settles [demo_pipe] demo_number (demo_pair [demo_pipe]) 1 (pipe_run demo_failed) _ _)).
  - vm_compute. reflexivity.
  - apply (nsteps_l _ 0 _ (pipe_run demo_failed)); [|apply nsteps_O].
    exists (demo_pair [demo_pipe]), false, (Err (PlainError "no more available ports")).
    split_and!; [vm_compute; reflexivity|vm_compute; reflexivity|].
    reflexivity.
Defined.

(** When a transport of a resolved pair closes, the other one closes, and
    neither router has an entry for the pair any more; all other entries stay. *)
Theorem pair_closes_together (ops : list pipe_op) (t n : nat) (x : pipe_transport) :
  let s := pipe_run ops in
  let s' := transport_closes t s in
  pipe_transports s !! t = Some x -> pt_closed x = false -> pt_pair x = Some n ->
  exists p l r, pairs s' !! n = Some p /\ pa_stage p = Resolved l r /\ (t = l \/ t = r) /\
    shut_in l s' /\ shut_in r s' /\
    forall k m, pair_maps s' !! k = Some m <-> pair_maps s !! k = Some m /\ m <> n.
Proof.
  intros s s' Hx Hc Hpx. pose proof (pipe_run_inv ops) as H. fold s in H.
  pose proof (transport_closes_moves t s H) as [T _]. unfold pair_of in T.
  rewrite Hx in T. simpl in T. rewrite Hpx in T. simpl in T.
  pose proof (H n) as Hn. unfold pair_inv in Hn.
  destruct (pairs s !! n) as [p|] eqn:Hp.
  2:{ destruct Hn as [_ Hn]. by destruct (Hn t x Hx). }
  destruct Hn as ([_ Hk] & Hl & Hi). destruct (Hl t x Hx Hpx) as (l & r & Hst & Ht).
  unfold stage_inv in Hi. rewrite Hst in Hi. destruct Hi as (Ol & Or & _).
  assert (E : s' = set_maps (forget_pair p) (close_silently (if decide (t = l) then r else l) (mark_closed t s))).
  { unfold s', transport_closes. rewrite Hx, Hc, Hpx. simpl. by rewrite Hp, Hst. }
  destruct (pair_shut t l r _ _ s x Hx Ol Or Ht) as [Sl Sr].
  exists p, l, r. split_and!; try done.
  - rewrite E. simpl. rewrite (proj2 (close_silently_maps _ _)). done.
  - by rewrite E.
  - by rewrite E.
  - intros k m. destruct (decide (m = n)) as [->|Hmn].
    + rewrite E. simpl. rewrite (proj1 (close_silently_maps _ _)), forget_pair_lookup. simpl.
      split; [|by intros []]. intros [Hkn Hno]. by destruct (Hno (Hk k Hkn)).
    + rewrite (touches_maps n s s' T k m Hmn). by intuition.
Qed.

Lemma pair_closes_together_witness :
  exists p l r, pairs (transport_closes 0 (pipe_run demo_resolved)) !! demo_number = Some p /\
    pa_stage p = Resolved l r /\ (0 = l \/ 0 = r) /\
    shut_in l (transport_closes 0 (pipe_run demo_resolved)) /\
    shut_in r (transport_closes 0 (pipe_run demo_resolved)) /\
    forall k m, pair_maps (transport_closes 0 (pipe_run demo_resolved)) !! k = Some m <->
      pair_maps (pipe_run demo_resolved) !! k = Some m /\ m <> demo_number.
Proof.
  refine (pair_closes_together demo_resolved 0 demo_number (demo_transport demo_resolved 0) _ _ _);
    vm_compute; reflexivity.
Defined.

(** A promise that is rejected stays in the map of the router that made it,
    whatever happens later: every later call on this router for the same other
    router waits for it and is rejected with the old error. *)
Theorem failed_pair_stays (ops later : list pipe_op) (n : nat) (p : pair) (e : error) o u1 u2 :
  let s := pipe_run (ops ++ later) in
  pairs (pipe_run ops) !! n = Some p -> pa_stage p = Rejected e ->
  pipe_pair (pa_this p) (pa_router p) o u1 u2 s = (s, Ok n) /\
  exists p', pairs s !! n = Some p' /\ own_side (pa_this p) p' = Some (Err e).
Proof.
  intros s Hp Hst.
  destruct (settled_run later (pipe_run ops) n p (pipe_run_inv ops) Hp) as (p' & Hp' & E1 & E2 & E3);
    [rewrite Hst; by intros []|].
  rewrite <- pipe_run_app in Hp'. fold s in Hp'. split.
  - pose proof (stage_of_inv n p' s (pipe_run_inv _) Hp') as Hi. unfold stage_inv in Hi.
    rewrite E3, Hst in Hi. unfold pipe_pair. by rewrite <- E1, <- E2, Hi.
  - exists p'. split; [done|]. unfold own_side. by rewrite E3, Hst.
Qed.

Lemma failed_pair_stays_witness :
  snd (pipe_pair "A" "B" (VObj []) "u5" "u6" (pipe_run (demo_failed ++ [demo_pipe]))) = Ok demo_number.
Proof.
  refine (f_equal snd (proj1 (failed_pair_stays demo_failed [demo_pipe] demo_number (demo_pair demo_failed)
    (PlainError "no more available ports") (VObj []) "u5" "u6" _ _))); vm_compute; reflexivity.
Defined.

(** When the creation of one transport fails, the transport that the other
    router creates is left open: nothing but a closing of its own (by its router,
    say) closes it, whatever else happens. *)
Theorem late_pipe_transport_leaks (ops later : list pipe_op) (n : nat) (p : pair) e local res x :
  let s := pipe_run ops in
  let t := fresh (dom (pipe_transports s)) in
  pairs s !! n = Some p -> pa_stage p = Rejected e -> due local p = true -> made local p res = Ok x ->
  Closes t ∉ later ->
  open_transport t (pipe_run (ops ++ Created n local res :: later)) = true.
Proof.
  intros s t Hp Hst Hd Hm Hno. rewrite pipe_run_app. fold s. cbn [foldl].
  set (s1 := pipe_step s (Created n local res)).
  destruct (made_fields local p res x Hm) as (_ & _ & Hc).
  assert (E1 : s1 = set_pipe_transports (insert t x) (set_pairs (alter (answered local) n) s)).
  { unfold s1. simpl. unfold created. by rewrite Hp, Hd, Hm, Hst. }
  assert (Ho : orphan t s1).
  { rewrite E1. split; [exists x; split; [apply lookup_insert_eq|done]|].
    intros m q. simpl. rewrite lookup_alter_Some. intros [(<- & u & Hu & ->)|[_ Hq]].
    - by apply (fresh_not_mentioned n u s (pipe_run_inv ops)).
    - by apply (fresh_not_mentioned m q s (pipe_run_inv ops)). }
  destruct (orphan_run t later s1 Ho Hno) as [(y & Hy & Cy) _].
  unfold open_transport. by rewrite Hy, Cy.
Qed.

Lemma late_pipe_transport_leaks_witness :
  open_transport (fresh (dom (pipe_transports (pipe_run demo_failed))))
    (pipe_run (demo_failed ++ [Created demo_number true (Ok (demo_answer 5001)); demo_pipe])) = true.
Proof.
  refine (late_pipe_transport_leaks demo_failed [demo_pipe] demo_number (demo_pair demo_failed)
    (PlainError "no more available ports") true (Ok (demo_answer 5001))
    (mkPipeTransport "u1" "A" (prop "tuple" (demo_answer 5001)) VUndef false None) _ _ _ _ _).
  1-4: vm_compute; reflexivity.
  by rewrite list_elem_of_singleton.
Defined.
