(* ===== verification/PipeLink.v ===== *)
(** * A piped producer

    From Router.ts: [pipeToRouter] after the pair of transports is there.  A
    Consumer of the original Producer is made on the local transport and, with
    its parameters, a Producer on the remote one; the two then follow each other
    by listeners on their observers.  The objects are those of Producer.v,
    Consumer.v, DataProducer.v and DataConsumer.v; how they are made is in
    TransportCalls.v. *)

From S2P Require Import Prelude Js RtpParameters Framing Events RequestBodies.
From S2P Require Producer Consumer DataProducer DataConsumer.

(** ** The calls *)

(** The options of [localPipeTransport.consume] and [remotePipeTransport.produce]. *)
Definition pipe_consume_options (producerId : val) : val := VObj [("producerId", producerId)].

Definition pipe_produce_options (producer : Producer.producer) (appData : val) (c : Consumer.consumer) : val :=
  VObj [("id", VStr (Producer.producerId producer)); ("kind", VStr (kind_string (Consumer.kind c)));
        ("rtpParameters", RtpParameters_val (Consumer.rtpParameters c));
        ("paused", VBool (Consumer.producerPaused c)); ("appData", appData)].

Definition pipe_consumeData_options (dataProducerId : val) : val := VObj [("dataProducerId", dataProducerId)].

Definition pipe_produceData_options (dataProducer : DataProducer.dataProducer) (appData : val)
    (c : DataConsumer.dataConsumer) : val :=
  VObj [("id", VStr (DataProducer.dataProducerId dataProducer));
        ("sctpStreamParameters", DataConsumer.sctpStreamParameters c);
        ("label", VStr (DataConsumer.label c)); ("protocol", VStr (DataConsumer.protocol c));
        ("appData", appData)].

(** ** State *)

Inductive link_stage : Type :=
| Consuming
| Producing
| Syncing (n : nat)
| Linked
| Failed (e : error).

(** [pipeConsumer] and [pipeProducer], as far as they are there; what they do is
    in [effects]. *)
Record link : Type := mkLink {
  original : Producer.producer;
  pipeConsumer : option Consumer.consumer;
  pipeProducer : option Producer.producer;
  link_stage_of : link_stage;
  effects : list effect
}.

Definition new_link (producer : Producer.producer) : link := mkLink producer None None Consuming [].

Definition with_original p (s : link) : link :=
  mkLink p (pipeConsumer s) (pipeProducer s) (link_stage_of s) (effects s).
Definition with_consumer c (s : link) : link :=
  mkLink (original s) (Some c) (pipeProducer s) (link_stage_of s) (effects s).
Definition with_producer p (s : link) : link :=
  mkLink (original s) (pipeConsumer s) (Some p) (link_stage_of s) (effects s).
Definition with_stage st (s : link) : link :=
  mkLink (original s) (pipeConsumer s) (pipeProducer s) st (effects s).
Definition log es (s : link) : link :=
  mkLink (original s) (pipeConsumer s) (pipeProducer s) (link_stage_of s) (effects s ++ es).

(** A method of one of the two, without the listeners. *)
Definition on_consumer (f : Consumer.consumer -> Consumer.consumer * list effect) (s : link) : link :=
  match pipeConsumer s with
  | Some c => let '(c, es) := f c in log es (with_consumer c s)
  | None => s
  end.
Definition on_producer (f : Producer.producer -> Producer.producer * list effect) (s : link) : link :=
  match pipeProducer s with
  | Some p => let '(p, es) := f p in log es (with_producer p s)
  | None => s
  end.

(** ** The listeners *)

(** [pipeConsumer.observer.on(...)] for one event.  When the pipe producer closes,
    the consumer is closed already. *)
Definition relay (s : link) (e : effect) : link :=
  match e with
  | Observer event _ =>
      if String.eqb event "close" then on_producer Producer.close s
      else if String.eqb event "pause" then on_producer Producer.pause s
      else if String.eqb event "resume" then on_producer Producer.resume s
      else s
  | _ => s
  end.

(** [pipeProducer.observer.on('close', ...)]. *)
Definition relay_back (s : link) (e : effect) : link :=
  match e with
  | Observer event _ => if String.eqb event "close" then on_consumer Consumer.close s else s
  | _ => s
  end.

Definition is_linked (s : link) : bool :=
  match link_stage_of s with Linked => true | _ => false end.

(** ** The steps *)

(** The [catch]. *)
Definition fail (e : error) (s : link) : link :=
  with_stage (Failed e) (on_producer Producer.close (on_consumer Consumer.close s)).

Definition consumed (res : result Consumer.consumer) (s : link) : link :=
  match link_stage_of s, res with
  | Consuming, Ok c => with_stage Producing (with_consumer c s)
  | Consuming, Err e => fail e s
  | _, _ => s
  end.

(** [pipeProducer.paused !== producer.paused], with the number of the call. *)
Definition sync (p : Producer.producer) (s : link) : link :=
  if Bool.eqb (Producer.paused p) (Producer.paused (original s)) then with_stage Linked s
  else
    with_stage (Syncing (next_call (Producer.p_calls p)))
      (on_producer (if Producer.paused (original s) then Producer.pause else Producer.resume) s).

Definition produced (res : result Producer.producer) (s : link) : link :=
  match link_stage_of s, res with
  | Producing, Ok p =>
      let s := with_producer p s in
      if Producer.closed (original s) then fail (InvalidStateError "original Producer closed") s
      else sync p s
  | Producing, Err e => fail e s
  | _, _ => s
  end.

(** Something happens to the pipe consumer. *)
Definition consumer_op (o : Consumer.op) (s : link) : link :=
  match pipeConsumer s with
  | None => s
  | Some c =>
      let '(c, es) := Consumer.apply_op o c in
      let s' := log es (with_consumer c s) in
      if is_linked s then foldl relay s' es else s'
  end.

(** Something happens to the pipe producer, perhaps the answer that
    [pipeToRouter] waits for. *)
Definition producer_op (o : Producer.op) (s : link) : link :=
  match pipeProducer s with
  | None => s
  | Some p =>
      let '(p, es) := Producer.apply_op o p in
      let s' := log es (with_producer p s) in
      match link_stage_of s, o with
      | Linked, _ => foldl relay_back s' es
      | Syncing n, Producer.Response m res =>
          if decide (n = m) then
            match res with Ok _ => with_stage Linked s' | Err e => fail e s' end
          else s'
      | _, _ => s'
      end
  end.

Inductive link_op : Type :=
| Consumed (res : result Consumer.consumer)
| Produced (res : result Producer.producer)
| OriginalOp (o : Producer.op)
| ConsumerOp (o : Consumer.op)
| ProducerOp (o : Producer.op).

Definition link_step (s : link) (o : link_op) : link :=
  match o with
  | Consumed res => consumed res s
  | Produced res => produced res s
  | OriginalOp o => with_original (fst (Producer.apply_op o (original s))) s
  | ConsumerOp o => consumer_op o s
  | ProducerOp o => producer_op o s
  end.

Definition link_run (s : link) (ops : list link_op) : link := foldl link_step s ops.

(** ** A piped data producer *)

(** There is nothing to synchronise but the closing. *)
Record data_link : Type := mkDataLink {
  data_original : DataProducer.dataProducer;
  pipeDataConsumer : option DataConsumer.dataConsumer;
  pipeDataProducer : option DataProducer.dataProducer;
  data_stage : link_stage
}.

Definition close_data_consumer (s : data_link) : data_link :=
  mkDataLink (data_original s) (fst <$> (DataConsumer.close <$> pipeDataConsumer s)) (pipeDataProducer s) (data_stage s).
Definition close_data_producer (s : data_link) : data_link :=
  mkDataLink (data_original s) (pipeDataConsumer s) (fst <$> (DataProducer.close <$> pipeDataProducer s)) (data_stage s).
Definition with_data_stage st (s : data_link) : data_link :=
  mkDataLink (data_original s) (pipeDataConsumer s) (pipeDataProducer s) st.

Definition fail_data (e : error) (s : data_link) : data_link :=
  with_data_stage (Failed e) (close_data_producer (close_data_consumer s)).

Definition data_consumed (res : result DataConsumer.dataConsumer) (s : data_link) : data_link :=
  match data_stage s, res with
  | Consuming, Ok c => mkDataLink (data_original s) (Some c) (pipeDataProducer s) Producing
  | Consuming, Err e => fail_data e s
  | _, _ => s
  end.

Definition data_produced (res : result DataProducer.dataProducer) (s : data_link) : data_link :=
  match data_stage s, res with
  | Producing, Ok p =>
      let s := mkDataLink (data_original s) (pipeDataConsumer s) (Some p) (data_stage s) in
      if DataProducer.closed (data_original s) then
        fail_data (InvalidStateError "original DataProducer closed") s
      else with_data_stage Linked s
  | Producing, Err e => fail_data e s
  | _, _ => s
  end.

(** The closing methods of the two, with the listeners once they are there. *)
Definition data_consumer_closes (f : DataConsumer.dataConsumer -> DataConsumer.dataConsumer * list effect)
    (s : data_link) : data_link :=
  match pipeDataConsumer s with
  | None => s
  | Some c =>
      let '(c, es) := f c in
      let s' := mkDataLink (data_original s) (Some c) (pipeDataProducer s) (data_stage s) in
      match data_stage s with
      | Linked => if bool_decide (Observer "close" VUndef ∈ es) then close_data_producer s' else s'
      | _ => s'
      end
  end.

Definition data_producer_closes (f : DataProducer.dataProducer -> DataProducer.dataProducer * list effect)
    (s : data_link) : data_link :=
  match pipeDataProducer s with
  | None => s
  | Some p =>
      let '(p, es) := f p in
      let s' := mkDataLink (data_original s) (pipeDataConsumer s) (Some p) (data_stage s) in
      match data_stage s with
      | Linked => if bool_decide (Observer "close" VUndef ∈ es) then close_data_consumer s' else s'
      | _ => s'
      end
  end.

(** ** What the statements speak of *)

Definition consumer_closed (s : link) : bool :=
  match pipeConsumer s with Some c => Consumer.closed c | None => true end.
Definition producer_closed (s : link) : bool :=
  match pipeProducer s with Some p => Producer.closed p | None => true end.

(** The oldest call of the pipe producer is answered. *)
Definition answer_next (s : link) : link :=
  match pipeProducer s with
  | Some p =>
      match in_flight (Producer.p_calls p) with
      | (n, _) :: _ => producer_op (Producer.Response n (Ok VUndef)) s
      | [] => s
      end
  | None => s
  end.

(** What the worker does in a run: it notifies the pipe consumer and answers the
    pipe producer in order. *)
Inductive worker_op : Type := Notifies (event : string) (data : val) | Answers.

Definition worker_step (s : link) (o : worker_op) : link :=
  match o with
  | Notifies event data => consumer_op (Consumer.Notification event data) s
  | Answers => answer_next s
  end.

Definition calls_left (s : link) : nat :=
  match pipeProducer s with Some p => length (in_flight (Producer.p_calls p)) | None => 0 end.

(** All calls are answered. *)
Definition drain (s : link) : link := Nat.iter (calls_left s) answer_next s.

(** ** Closing *)

Definition observed (event : string) (es : list effect) : bool :=
  existsb (fun e => match e with Observer ev _ => String.eqb ev event | _ => false end) es.

Lemma consumer_observed_close o c c' es :
  Consumer.apply_op o c = (c', es) ->
  Consumer.closed c' = Consumer.closed c || observed "close" es /\
  (Consumer.closed c = true -> observed "close" es = false).
Proof.
  destruct o; simpl; try (intros [= <- <-]; simpl; by rewrite ?orb_false_r).
  - unfold Consumer.close. destruct (Consumer.closed c) eqn:Hc; intros [= <- <-]; by rewrite ?Hc.
  - unfold Consumer.transportClosed. destruct (Consumer.closed c) eqn:Hc; intros [= <- <-]; by rewrite ?Hc.
  - unfold Consumer.response. destruct (resume_call n _) as [[k calls]|].
    + destruct res as [data|]; [destruct k as [[]|[]| | |]; simpl;
        [| |destruct (Consumer.producerPaused c)| | |destruct data|]|];
        intros [= <- <-]; simpl; by rewrite ?orb_false_r.
    + intros [= <- <-]. by rewrite ?orb_false_r.
  - unfold Consumer.on_notification. destruct (String.eqb event "producerclose").
    { destruct (Consumer.closed c) eqn:Hc; intros [= <- <-]; by rewrite ?Hc. }
    destruct (String.eqb event "producerpause").
    { destruct (Consumer.producerPaused c); [|destruct (Consumer.wasPaused c)];
        intros [= <- <-]; simpl; by rewrite ?orb_false_r. }
    destruct (String.eqb event "producerresume").
    { destruct (Consumer.producerPaused c); simpl;
        [destruct (Consumer.wasPaused c && negb (Consumer.paused c))|];
        intros [= <- <-]; simpl; by rewrite ?orb_false_r. }
    destruct (String.eqb event "score"); [|destruct (String.eqb event "layerschange");
      [|destruct (String.eqb event "trace")]]; intros [= <- <-]; simpl; by rewrite ?orb_false_r.
  - unfold Consumer.on_payload_notification.
    destruct (String.eqb event "rtp"); [destruct (Consumer.closed c) eqn:Hc|];
      intros [= <- <-]; simpl; by rewrite ?Hc, ?orb_false_r.
Qed.

Lemma producer_observed_close o p p' es :
  Producer.apply_op o p = (p', es) -> Producer.closed p' = Producer.closed p || observed "close" es.
Proof.
  destruct o; simpl; try (intros [= <- <-]; simpl; by rewrite ?orb_false_r).
  - unfold Producer.close. destruct (Producer.closed p) eqn:Hc; intros [= <- <-]; by rewrite ?Hc.
  - unfold Producer.transportClosed. destruct (Producer.closed p) eqn:Hc; intros [= <- <-]; by rewrite ?Hc.
  - unfold Producer.response. destruct (resume_call n _) as [[k calls]|].
    + destruct res; [destruct k as [[]|[]|]|]; intros [= <- <-]; simpl; by rewrite ?orb_false_r.
    + intros [= <- <-]. by rewrite ?orb_false_r.
  - unfold Producer.on_notification. destruct (String.eqb event "score");
      [|destruct (String.eqb event "videoorientationchange"); [|destruct (String.eqb event "trace")]];
      intros [= <- <-]; simpl; by rewrite ?orb_false_r.
Qed.


(** What the listeners do to the pipe producer: nothing but the three calls. *)
Lemma relay_fold es s p :
  pipeProducer s = Some p ->
  exists p' l, foldl relay s es = mkLink (original s) (pipeConsumer s) (Some p') (link_stage_of s) (effects s ++ l) /\
    Producer.closed p' = Producer.closed p || observed "close" es.
Proof.
  revert s p. induction es as [|e es IH]; intros s p Hp.
  - exists p, []. destruct s. simpl in *. by rewrite Hp, app_nil_r, orb_false_r.
  - assert (H1 : exists p1 l1, relay s e = mkLink (original s) (pipeConsumer s) (Some p1) (link_stage_of s) (effects s ++ l1) /\
        Producer.closed p1 = Producer.closed p || observed "close" [e]).
    { assert (Hid : exists p1 l1, s = mkLink (original s) (pipeConsumer s) (Some p1) (link_stage_of s) (effects s ++ l1) /\
        Producer.closed p1 = Producer.closed p || false).
      { exists p, []. destruct s. simpl in *. by rewrite Hp, app_nil_r, orb_false_r. }
      destruct e as [| | | | |ev arg]; try exact Hid. simpl. destruct (String.eqb ev "close") eqn:Hev.
      - unfold on_producer. rewrite Hp. unfold Producer.close.
        destruct (Producer.closed p) eqn:Hc; eexists _, _; (split; [reflexivity|by simpl; rewrite ?Hc]).
      - destruct (String.eqb ev "pause"); [|destruct (String.eqb ev "resume"); [|exact Hid]];
          unfold on_producer; rewrite Hp; eexists _, _; (split; [reflexivity|by rewrite orb_false_r]). }
    destruct H1 as (p1 & l1 & H1 & C1). cbn [foldl]. rewrite H1.
    destruct (IH (mkLink (original s) (pipeConsumer s) (Some p1) (link_stage_of s) (effects s ++ l1)) p1 eq_refl)
      as (p2 & l2 & -> & C2).
    exists p2, (l1 ++ l2). split; [simpl; by rewrite (assoc (++))|].
    rewrite C2, C1. simpl. by rewrite orb_false_r, orb_assoc.
Qed.

Lemma relay_back_fold es s c :
  pipeConsumer s = Some c ->
  exists c' l, foldl relay_back s es = mkLink (original s) (Some c') (pipeProducer s) (link_stage_of s) (effects s ++ l) /\
    Consumer.closed c' = Consumer.closed c || observed "close" es.
Proof.
  revert s c. induction es as [|e es IH]; intros s c Hp.
  - exists c, []. destruct s. simpl in *. by rewrite Hp, app_nil_r, orb_false_r.
  - assert (H1 : exists c1 l1, relay_back s e = mkLink (original s) (Some c1) (pipeProducer s) (link_stage_of s) (effects s ++ l1) /\
        Consumer.closed c1 = Consumer.closed c || observed "close" [e]).
    { assert (Hid : exists c1 l1, s = mkLink (original s) (Some c1) (pipeProducer s) (link_stage_of s) (effects s ++ l1) /\
        Consumer.closed c1 = Consumer.closed c || false).
      { exists c, []. destruct s. simpl in *. by rewrite Hp, app_nil_r, orb_false_r. }
      destruct e as [| | | | |ev arg]; try exact Hid. simpl. destruct (String.eqb ev "close"); [|exact Hid].
      unfold on_consumer. rewrite Hp. unfold Consumer.close.
      destruct (Consumer.closed c) eqn:Hc; eexists _, _; (split; [reflexivity|by simpl; rewrite ?Hc]). }
    destruct H1 as (c1 & l1 & H1 & C1). cbn [foldl]. rewrite H1.
    destruct (IH (mkLink (original s) (Some c1) (pipeProducer s) (link_stage_of s) (effects s ++ l1)) c1 eq_refl)
      as (c2 & l2 & -> & C2).
    exists c2, (l1 ++ l2). split; [simpl; by rewrite (assoc (++))|].
    rewrite C2, C1. simpl. by rewrite orb_false_r, orb_assoc.
Qed.

(** Linked, with both objects in the same state. *)
Definition in_step (s : link) : Prop :=
  exists c p, pipeConsumer s = Some c /\ pipeProducer s = Some p /\ link_stage_of s = Linked /\
    Consumer.closed c = Producer.closed p.

Lemma in_step_step o s : in_step s -> in_step (link_step s o).
Proof.
  intros (c & p & Hc & Hp & Hst & E). destruct o as [res|res|o|o|o]; simpl.
  - unfold consumed. rewrite Hst. by exists c, p.
  - unfold produced. rewrite Hst. by exists c, p.
  - by exists c, p.
  - unfold consumer_op, is_linked. rewrite Hc, Hst. destruct (Consumer.apply_op o c) as [c1 es] eqn:Ho.
    destruct (relay_fold es (log es (with_consumer c1 s)) p Hp) as (p1 & l & -> & C).
    exists c1, p1. split_and!; try done. rewrite C, (proj1 (consumer_observed_close _ _ _ _ Ho)). by rewrite E.
  - unfold producer_op. rewrite Hp, Hst. destruct (Producer.apply_op o p) as [p1 es] eqn:Ho.
    destruct (relay_back_fold es (log es (with_producer p1 s)) c Hc) as (c1 & l & -> & C).
    exists c1, p1. split_and!; try done. rewrite C, (producer_observed_close _ _ _ _ Ho). by rewrite E.
Qed.

Lemma in_step_run ops s : in_step s -> in_step (link_run s ops).
Proof. revert s. induction ops as [|o ops IH]; intros s H; [done|]. by apply IH, in_step_step. Qed.

(** ** Failure *)

Definition all_closed (s : link) : Prop := consumer_closed s = true /\ producer_closed s = true.

Lemma fail_closes e s : all_closed (fail e s).
Proof.
  unfold all_closed, fail, on_producer, on_consumer, consumer_closed, producer_closed.
  destruct s as [q [c|] [p|] st es]; simpl; unfold Consumer.close, Producer.close;
    repeat (case_match; simpl in *); simplify_eq; simpl; try done.
Qed.

(** The stages in which nothing has failed, with the objects that are there. *)
Definition link_inv (s : link) : Prop :=
  match link_stage_of s with
  | Consuming => pipeConsumer s = None /\ pipeProducer s = None
  | Producing => is_Some (pipeConsumer s) /\ pipeProducer s = None
  | Failed _ => all_closed s
  | _ => is_Some (pipeConsumer s) /\ is_Some (pipeProducer s)
  end.

Lemma link_inv_fail e s : link_inv (fail e s).
Proof. exact (fail_closes e s). Qed.

Lemma sync_stage p s :
  pipeProducer s = Some p ->
  pipeConsumer (sync p s) = pipeConsumer s /\ is_Some (pipeProducer (sync p s)) /\
  (link_stage_of (sync p s) = Linked \/ exists n, link_stage_of (sync p s) = Syncing n).
Proof.
  intros Hp. unfold sync. destruct (Bool.eqb _ _); simpl; [rewrite Hp; eauto|].
  unfold on_producer. rewrite Hp. destruct (Producer.paused (original s)); simpl; eauto.
Qed.

Lemma link_inv_consumer o s : link_inv s -> link_inv (consumer_op o s).
Proof.
  intros H. unfold consumer_op. destruct (pipeConsumer s) as [c|] eqn:Hc; [|done].
  destruct (Consumer.apply_op o c) as [c1 es] eqn:Ho. destruct (consumer_observed_close _ _ _ _ Ho) as [C _].
  unfold is_linked. unfold link_inv in H. destruct (link_stage_of s) eqn:Hst.
  - destruct H; congruence.
  - unfold link_inv. simpl. rewrite Hst. destruct H. eauto.
  - unfold link_inv. simpl. rewrite Hst. destruct H. eauto.
  - destruct H as [_ [p Hp]]. destruct (relay_fold es (log es (with_consumer c1 s)) p Hp) as (p1 & l & -> & _).
    unfold link_inv. simpl. rewrite Hst. eauto.
  - unfold link_inv, all_closed, consumer_closed, producer_closed in *. simpl. rewrite Hst.
    rewrite Hc in H. destruct H as [H1 H2]. split; [|done]. by rewrite C, H1.
Qed.

Lemma link_inv_producer o s : link_inv s -> link_inv (producer_op o s).
Proof.
  intros H. unfold producer_op. destruct (pipeProducer s) as [p|] eqn:Hp; [|done].
  destruct (Producer.apply_op o p) as [p1 es] eqn:Ho. pose proof (producer_observed_close _ _ _ _ Ho) as C.
  unfold link_inv in H. destruct (link_stage_of s) as [| |n| |e] eqn:Hst.
  - destruct H; congruence.
  - destruct H; congruence.
  - destruct H as [Hc _].
    assert (Hkeep : link_inv (log es (with_producer p1 s))) by (unfold link_inv; simpl; rewrite Hst; eauto).
    destruct o; try exact Hkeep. destruct (decide (n = n0)); [|exact Hkeep].
    destruct res; [by split|apply link_inv_fail].
  - destruct H as [[c Hc] _]. destruct (relay_back_fold es (log es (with_producer p1 s)) c Hc) as (c1 & l & -> & _).
    unfold link_inv. simpl. rewrite Hst. eauto.
  - unfold link_inv, all_closed, consumer_closed, producer_closed in *. simpl. rewrite Hst.
    rewrite Hp in H. destruct H as [H1 H2]. split; [done|]. by rewrite C, H2.
Qed.

Lemma link_inv_step o s : link_inv s -> link_inv (link_step s o).
Proof.
  intros H. destruct o as [res|res|o|o|o]; simpl.
  - unfold consumed. destruct (link_stage_of s) eqn:Hst; try done.
    destruct res; [|apply link_inv_fail]. unfold link_inv in *. rewrite Hst in H. simpl. naive_solver.
  - unfold produced. destruct (link_stage_of s) eqn:Hst; try done.
    destruct res as [p|e]; [|apply link_inv_fail].
    destruct (Producer.closed _); [apply link_inv_fail|].
    destruct (sync_stage p (with_producer p s) eq_refl) as (E1 & E2 & E3).
    unfold link_inv in *. rewrite Hst in H. rewrite E1. simpl. by destruct E3 as [->|[n ->]]; destruct H.
  - exact H.
  - by apply link_inv_consumer.
  - by apply link_inv_producer.
Qed.

Lemma link_run_inv ops producer : link_inv (link_run (new_link producer) ops).
Proof.
  assert (H : link_inv (new_link producer)) by done. revert H. generalize (new_link producer).
  induction ops as [|o ops IH]; intros s H; [done|]. by apply IH, link_inv_step.
Qed.

(** ** The pause of the two *)

(** Where the calls in flight will lead, when they are answered in order. *)
Definition heading (p : Producer.producer) : bool :=
  foldl (fun b c => match snd c with
                    | Producer.Kpause _ => true
                    | Producer.Kresume _ => false
                    | Producer.Kdone => b
                    end) (Producer.paused p) (in_flight (Producer.p_calls p)).

Definition calls_ok (p : Producer.producer) : Prop :=
  calls_wf (Producer.p_calls p) /\ NoDup (jkeys (in_flight (Producer.p_calls p))).

Lemma calls_ok_call method data k p :
  calls_ok p -> calls_ok (fst (Producer.call method data k p)).
Proof.
  intros [H1 H2]. split; [by apply await_wf|]. simpl. unfold jkeys in *. rewrite map_app. simpl.
  apply NoDup_app. split; [done|]. split; [|apply NoDup_singleton].
  intros n Hn ->%list_elem_of_singleton. unfold calls_wf, jkeys in H1.
  rewrite Forall_forall in H1. specialize (H1 _ Hn). simpl in H1. lia.
Qed.

Lemma heading_call method data k p :
  heading (fst (Producer.call method data k p)) =
    match k with Producer.Kpause _ => true | Producer.Kresume _ => false | Producer.Kdone => heading p end.
Proof. unfold heading. simpl. rewrite foldl_app. by destruct k. Qed.

Lemma jdel_head {K V} `{EqDecision K} (n : K) (v : V) l : NoDup (jkeys ((n, v) :: l)) -> jdel n ((n, v) :: l) = l.
Proof.
  unfold jkeys. cbn [map fst]. intros [Hn _]%NoDup_cons. cbn [jdel]. rewrite decide_True by done.
  induction l as [|[m w] l IH]; [done|]. cbn [jdel]. cbn [map fst] in Hn.
  apply not_elem_of_cons in Hn as [? ?]. rewrite decide_False by done. by rewrite IH.
Qed.

Lemma calls_ok_answer p n k l :
  in_flight (Producer.p_calls p) = (n, k) :: l -> calls_ok p ->
  let p' := fst (Producer.response n (Ok VUndef) p) in
  heading p' = heading p /\ in_flight (Producer.p_calls p') = l /\ calls_ok p'.
Proof.
  intros Hf [H1 H2]. unfold Producer.response, resume_call. rewrite Hf.
  cbn [jget]. rewrite decide_True by done. rewrite Hf in H2. rewrite (jdel_head n k l H2).
  unfold heading. rewrite Hf.
  assert (Hok : calls_wf (mkCalls (next_call (Producer.p_calls p)) l) /\ NoDup (jkeys l)).
  { unfold calls_wf in *. rewrite Hf in H1. unfold jkeys in *. cbn [map fst] in *.
    apply Forall_cons in H1 as [_ ?]. by apply NoDup_cons in H2 as [_ ?]. }
  destruct k; simpl; by split_and!.
Qed.

(** The pipe producer is on its way to the state of the original. *)
Definition following (s : link) (c : Consumer.consumer) (p : Producer.producer) : Prop :=
  pipeConsumer s = Some c /\ pipeProducer s = Some p /\ link_stage_of s = Linked /\
  Consumer.paused c = false /\ calls_ok p /\ heading p = Consumer.producerPaused c.

Lemma answer_next_follows s c p :
  following s c p -> in_flight (Producer.p_calls p) <> [] ->
  exists p', following (answer_next s) c p' /\
    S (length (in_flight (Producer.p_calls p'))) = length (in_flight (Producer.p_calls p)).
Proof.
  intros (Hc & Hp & Hst & Hpa & Hok & Hh) Hne. unfold answer_next. rewrite Hp.
  destruct (in_flight (Producer.p_calls p)) as [|[n k] l] eqn:Hf; [done|].
  destruct (calls_ok_answer p n k l Hf Hok) as (Hh' & Hl & Hok').
  unfold producer_op. rewrite Hp, Hst. simpl Producer.apply_op.
  unfold Producer.response, resume_call in *. rewrite Hf in *.
  cbn [jget] in *. rewrite decide_True in * by done.
  set (p1 := Producer.with_calls _ p) in *.
  exists (fst (Producer.continue k p1)). split; [|simpl in Hl; by rewrite Hl].
  unfold following. rewrite <- Hh, <- Hh'. clear Hh Hh'.
  destruct k as [[]|[]|]; simpl in *; by split_and!.
Qed.

Lemma notifies_follows ev data s c p :
  following s c p ->
  exists c' p', following (consumer_op (Consumer.Notification ev data) s) c' p'.
Proof.
  intros (Hc & Hp & Hst & Hpa & Hok & Hh). unfold consumer_op, is_linked. rewrite Hc, Hst.
  simpl Consumer.apply_op. unfold Consumer.on_notification.
  destruct (String.eqb ev "producerclose").
  { destruct (Consumer.closed c); simpl; [by exists c, p|].
    unfold on_producer. simpl. rewrite Hp. unfold Producer.close.
    destruct (Producer.closed p); eexists _, _; by split_and!. }
  destruct (String.eqb ev "producerpause").
  { destruct (Consumer.producerPaused c) eqn:Hpp; [simpl; exists c, p; split_and!; first [done|congruence]|].
    unfold Consumer.wasPaused. rewrite Hpa, Hpp. simpl. unfold on_producer. simpl. rewrite Hp.
    eexists _, (fst (Producer.pause p)). split_and!; try done; [by apply calls_ok_call|].
    unfold Producer.pause. by rewrite heading_call. }
  destruct (String.eqb ev "producerresume").
  { destruct (Consumer.producerPaused c) eqn:Hpp; [simpl|simpl; exists c, p; split_and!; first [done|congruence]].
    unfold Consumer.wasPaused. rewrite Hpa, Hpp. simpl. unfold on_producer. simpl. rewrite Hp.
    eexists _, (fst (Producer.resume p)). split_and!; try done; [by apply calls_ok_call|].
    unfold Producer.resume. by rewrite heading_call. }
  destruct (String.eqb ev "score"); [|destruct (String.eqb ev "layerschange");
    [|destruct (String.eqb ev "trace")]]; simpl; eexists _, p; by split_and!.
Qed.

Lemma worker_run_follows ops s c p :
  following s c p -> exists c' p', following (foldl worker_step s ops) c' p'.
Proof.
  revert s c p. induction ops as [|o ops IH]; intros s c p H; [by exists c, p|].
  destruct o as [ev data|]; cbn [foldl worker_step].
  - destruct (notifies_follows ev data s c p H) as (c' & p' & H'). by eapply IH.
  - destruct (decide (in_flight (Producer.p_calls p) = [])) as [E|Hne].
    + apply (IH _ c p). unfold answer_next. pose proof H as (_ & -> & _). by rewrite E.
    + destruct (answer_next_follows s c p H Hne) as (p' & H' & _). by eapply IH.
Qed.

Lemma drain_follows k s c p :
  following s c p -> length (in_flight (Producer.p_calls p)) = k ->
  exists p', following (Nat.iter k answer_next s) c p' /\ in_flight (Producer.p_calls p') = [].
Proof.
  revert s p. induction k as [|k IH]; intros s p H Hk.
  - exists p. split; [done|]. by apply nil_length_inv.
  - destruct (answer_next_follows s c p H) as (p' & H' & Hl); [by intros E; rewrite E in Hk|].
    rewrite Nat.iter_succ_r. apply (IH _ p' H'). lia.
Qed.

(** ** Closings that are missed *)

Definition is_closing (o : link_op) : bool :=
  match o with ProducerOp (Producer.Close | Producer.TransportClosed) => true | _ => false end.

(** Linked, the consumer closed and the producer open. *)
Definition adrift (s : link) : Prop :=
  exists c p, pipeConsumer s = Some c /\ pipeProducer s = Some p /\ link_stage_of s = Linked /\
    Consumer.closed c = true /\ Producer.closed p = false.


Lemma adrift_step o s : adrift s -> is_closing o = false -> adrift (link_step s o).
Proof.
  intros (c & p & Hc & Hp & Hst & Cc & Cp) Hno. destruct o as [res|res|o|o|o]; simpl.
  - unfold consumed. rewrite Hst. by exists c, p.
  - unfold produced. rewrite Hst. by exists c, p.
  - by exists c, p.
  - unfold consumer_op, is_linked. rewrite Hc, Hst. destruct (Consumer.apply_op o c) as [c1 es] eqn:Ho.
    destruct (consumer_observed_close _ _ _ _ Ho) as [C1 C2]. rewrite (C2 Cc), Cc in C1.
    destruct (relay_fold es (log es (with_consumer c1 s)) p Hp) as (p1 & l & -> & C).
    exists c1, p1. split_and!; try done. by rewrite C, (C2 Cc), Cp.
  - unfold producer_op. rewrite Hp, Hst. destruct (Producer.apply_op o p) as [p1 es] eqn:Ho.
    assert (Cp1 : Producer.closed p1 = false).
    { destruct o; try done; simpl in Ho; try (by injection Ho as <- _).
      - unfold Producer.response in Ho. destruct (resume_call n _) as [[k calls]|];
          [destruct res; [destruct k|]|]; by injection Ho as <- _.
      - unfold Producer.on_notification in Ho. repeat (case_match; simplify_eq; try done). }
    destruct (relay_back_fold es (log es (with_producer p1 s)) c Hc) as (c1 & l & -> & C).
    exists c1, p1. split_and!; try done. by rewrite C, Cc.
Qed.

Lemma adrift_run ops s : adrift s -> forallb (fun o => negb (is_closing o)) ops = true -> adrift (link_run s ops).
Proof.
  revert s. induction ops as [|o ops IH]; intros s H Hno; [done|]. simpl in Hno.
  apply andb_true_iff in Hno as [?%negb_true_iff ?]. apply IH; [|done]. by apply adrift_step.
Qed.

(** ** An example *)

Definition demo_parameters : RtpParameters := mkRtpParameters None [] [] [] (mkRtcpParameters None true None).
Definition demo_original : Producer.producer :=
  Producer.new_producer "p" "t" Kvideo "simple" demo_parameters demo_parameters false.
Definition demo_consumer : Consumer.consumer :=
  Consumer.new_consumer "c" "u1" "p" Kvideo "pipe" demo_parameters false false VUndef VUndef.
Definition demo_piped : Producer.producer :=
  Producer.new_producer "p" "u2" Kvideo "simple" demo_parameters demo_parameters false.

(** Made without further ado. *)
Definition demo_linked : link := link_run (new_link demo_original) [Consumed (Ok demo_consumer); Produced (Ok demo_piped)].

(** The original is paused before the pipe producer is there. *)
Definition demo_syncing : link :=
  link_run (new_link demo_original)
    [Consumed (Ok demo_consumer); OriginalOp Producer.Pause; OriginalOp (Producer.Response 0 (Ok VUndef));
     Produced (Ok demo_piped)].

Definition demo_closed_early : list link_op :=
  [Consumed (Ok demo_consumer); OriginalOp Producer.Close; Produced (Ok demo_piped)].

Example demo_failure_requests : effects (link_run (new_link demo_original) demo_closed_early) =
  [Unsubscribe "c"; Request "transport.closeConsumer" (Some "u1") (VObj [("consumerId", VStr "c")]);
   Emit "@close" VUndef; Observer "close" VUndef;
   Unsubscribe "p"; Request "transport.closeProducer" (Some "u2") (VObj [("producerId", VStr "p")]);
   Emit "@close" VUndef; Observer "close" VUndef].
Proof. vm_compute. reflexivity. Qed.

(** ** The data link *)

Lemma data_link_closes s c p :
  pipeDataConsumer s = Some c -> pipeDataProducer s = Some p -> data_stage s = Linked ->
  let closed s := match pipeDataConsumer s, pipeDataProducer s with
                  | Some c, Some p => DataConsumer.closed c && DataProducer.closed p
                  | _, _ => false
                  end in
  (DataConsumer.closed c = false ->
   closed (data_consumer_closes DataConsumer.close s) = true /\
   closed (data_consumer_closes DataConsumer.transportClosed s) = true) /\
  (DataProducer.closed p = false ->
   closed (data_producer_closes DataProducer.close s) = true /\
   closed (data_producer_closes DataProducer.transportClosed s) = true).
Proof.
  intros Hc Hp Hst closed.
  split; intros H; unfold data_consumer_closes, data_producer_closes, DataConsumer.close, DataConsumer.transportClosed,
    DataProducer.close, DataProducer.transportClosed; rewrite ?Hc, ?Hp, ?H, ?Hst;
    rewrite !bool_decide_eq_true_2 by (rewrite !elem_of_cons; eauto 10);
    unfold closed, close_data_producer, close_data_consumer; simpl; rewrite ?Hc, ?Hp; simpl;
    unfold DataProducer.close, DataConsumer.close.
  - destruct (DataProducer.closed p) eqn:E; simpl; by rewrite ?E.
  - destruct (DataConsumer.closed c) eqn:E; simpl; by rewrite ?E.
Qed.

(** ** The properties *)

(** C34: When [pipeToRouter] fails after the pair of transports, whatever it has
    made is closed and stays closed. *)
Theorem failed_link_closes (producer : Producer.producer) (ops : list link_op) (e : error) :
  let s := link_run (new_link producer) ops in
  link_stage_of s = Failed e -> consumer_closed s = true /\ producer_closed s = true.
Proof. intros s Hst. pose proof (link_run_inv ops producer) as H. unfold link_inv in H. fold s in H. by rewrite Hst in H. Qed.

Lemma failed_link_closes_witness :
  consumer_closed (link_run (new_link demo_original) demo_closed_early) = true /\
  producer_closed (link_run (new_link demo_original) demo_closed_early) = true.
Proof.
  refine (failed_link_closes demo_original demo_closed_early (InvalidStateError "original Producer closed") _).
  vm_compute. reflexivity.
Defined.





(** When the original producer is closed while [pipeToRouter] waits for the
    pause of the pipe producer to be set, the pipe consumer closes, the link is
    made nevertheless, and the pipe producer stays open until it is closed by
    itself or with its transport. *)
Theorem close_missed_while_syncing (s : link) (c : Consumer.consumer) (p : Producer.producer) (n : nat)
    (data : val) (ops : list link_op) :
  pipeConsumer s = Some c -> pipeProducer s = Some p -> link_stage_of s = Syncing n ->
  Producer.closed p = false -> forallb (fun o => negb (is_closing o)) ops = true ->
  let s' := link_run s (ConsumerOp (Consumer.Notification "producerclose" VUndef) ::
                        ProducerOp (Producer.Response n (Ok data)) :: ops) in
  link_stage_of s' = Linked /\ consumer_closed s' = true /\ producer_closed s' = false.
Proof.
  intros Hc Hp Hst Cp Hno s'.
  set (s1 := consumer_op (Consumer.Notification "producerclose" VUndef) s).
  assert (H1 : exists c1, pipeConsumer s1 = Some c1 /\ Consumer.closed c1 = true /\
            pipeProducer s1 = Some p /\ link_stage_of s1 = Syncing n).
  { unfold s1, consumer_op, is_linked. rewrite Hc, Hst. simpl.
    destruct (Consumer.on_notification "producerclose" VUndef c) as [c1 es] eqn:Ho.
    exists c1. split_and!; try done. simpl in Ho. unfold Consumer.on_notification in Ho. simpl in Ho.
    destruct (Consumer.closed c) eqn:Cc; by injection Ho as <- _. }
  destruct H1 as (c1 & Hc1 & Cc1 & Hp1 & Hst1).
  set (s2 := producer_op (Producer.Response n (Ok data)) s1).
  assert (H2 : adrift s2).
  { unfold s2, producer_op. rewrite Hp1, Hst1. simpl Producer.apply_op.
    destruct (Producer.response n (Ok data) p) as [p2 es] eqn:Ho. rewrite decide_True by done.
    exists c1, p2. split_and!; try done. unfold Producer.response in Ho.
    destruct (resume_call n _) as [[k calls]|]; [destruct k|]; by injection Ho as <- _. }
  destruct (adrift_run ops s2 H2 Hno) as (c3 & p3 & Hc3 & Hp3 & Hst3 & Cc3 & Cp3).
  assert (E : s' = link_run s2 ops) by done. rewrite E. unfold consumer_closed, producer_closed.
  by rewrite Hc3, Hp3.
Qed.

Lemma close_missed_while_syncing_witness :
  let s' := link_run demo_syncing
    [ConsumerOp (Consumer.Notification "producerclose" VUndef); ProducerOp (Producer.Response 0 (Ok VUndef));
     OriginalOp Producer.Close] in
  link_stage_of s' = Linked /\ consumer_closed s' = true /\ producer_closed s' = false.
Proof.
  refine (close_missed_while_syncing demo_syncing demo_consumer
    (fst (Producer.pause demo_piped)) 0 VUndef [OriginalOp Producer.Close] _ _ _ _ _); vm_compute; reflexivity.
Defined.
