(* ===== verification/CallsSpec.v ===== *)
(** * What the creating methods of a transport do before their requests

    They change nothing of the transport but the CNAME, the counter of MIDs and
    the SCTP streams; [produce] throws exactly when one of its checks does;
    producers get the CNAME of their transport; data consumers reserve a stream. *)

From S2P Require Import Prelude Js RtpParameters Validate Ortc OrtcConsumer RequestBodies Framing Events TransportState World TransportCalls RouterCalls.
From S2P Require Producer Consumer DataProducer DataConsumer.

(** ** Running the statements of a method *)

Section running.
Context {A B : Type}.

Lemma lift_bind (m : result A) (f : A -> M B) tr :
  (lift m ≫= f) tr = match m with Ok a => f a tr | Err e => (tr, Err e) end.
Proof. by destruct m. Qed.

Lemma throw_when_bind b e (f : unit -> M B) tr :
  (throw_when b e ≫= f) tr = if b then (tr, Err e) else f tt tr.
Proof. by destruct b. Qed.

Lemma this_bind (f : transport -> M B) tr : (this ≫= f) tr = f tr tr.
Proof. done. Qed.

Lemma update_bind g (f : unit -> M B) tr : (update g ≫= f) tr = f tt (g tr).
Proof. done. Qed.

Lemma ret_bind (a : A) (f : A -> M B) tr : ((mret a : M A) ≫= f) tr = f a tr.
Proof. done. Qed.

Lemma bind_step (m : M A) (f : A -> M B) tr tr' r :
  m tr = (tr', r) -> (m ≫= f) tr = match r with Ok a => f a tr' | Err e => (tr', Err e) end.
Proof. intros H. unfold mbind, M_bind. by rewrite H. Qed.
End running.

Create Rewrite HintDb calls.
#[export] Hint Rewrite @lift_bind @throw_when_bind @this_bind @update_bind @ret_bind : calls.

(** Takes a run apart at its checks. *)
Ltac step_call H :=
  repeat (rewrite ?lift_bind, ?throw_when_bind, ?this_bind, ?update_bind, ?ret_bind in H; cbv beta zeta in H;
          match type of H with
          | (let '(_, _) := ?x in _) _ = _ => destruct x
          | (if ?b then _ else _) = _ => destruct b eqn:?
          | match ?m with Ok _ => _ | Err _ => _ end = _ => destruct m eqn:?
          end).

(** ** What may change *)

Definition state_only (tr tr' : transport) : Prop :=
  tr' = with_state (t_cname tr') (t_nextMid tr') (t_sctp tr') tr.

Lemma state_only_refl tr : state_only tr tr.
Proof. by destruct tr. Qed.

Lemma state_only_trans tr1 tr2 tr3 : state_only tr1 tr2 -> state_only tr2 tr3 -> state_only tr1 tr3.
Proof. unfold state_only. intros -> ->. done. Qed.

Definition keeps_rest {A} (m : M A) : Prop := forall tr, state_only tr (m tr).1.

Lemma keeps_ret {A} (a : A) : keeps_rest (mret a).
Proof. intros tr. apply state_only_refl. Qed.
Lemma keeps_lift {A} (m : result A) : keeps_rest (lift m).
Proof. intros tr. apply state_only_refl. Qed.
Lemma keeps_this : keeps_rest this.
Proof. intros tr. apply state_only_refl. Qed.
Lemma keeps_cname c : keeps_rest (update (with_cname c)).
Proof. by intros tr. Qed.
Lemma keeps_nextMid n : keeps_rest (update (with_nextMid n)).
Proof. by intros tr. Qed.
Lemma keeps_sctp f : keeps_rest (update (update_t_sctp f)).
Proof. by intros tr. Qed.
Lemma keeps_bind {A B} (m : M A) (f : A -> M B) :
  keeps_rest m -> (forall a, keeps_rest (f a)) -> keeps_rest (m ≫= f).
Proof.
  intros Hm Hf tr. unfold mbind, M_bind. specialize (Hm tr). destruct (m tr) as [tr1 [a|e]]; [|done].
  eapply state_only_trans; [exact Hm|]. apply Hf.
Qed.

Create HintDb calls.
#[export] Hint Resolve keeps_ret keeps_lift keeps_this keeps_cname keeps_nextMid keeps_sctp keeps_bind : calls.

Ltac keeps_tac :=
  repeat match goal with
  | |- keeps_rest (_ ≫= _) => apply keeps_bind; [|intros ?]
  | |- keeps_rest (let '(_, _) := ?x in _) => destruct x
  | |- keeps_rest (match ?x with _ => _ end) => destruct x
  | |- keeps_rest (throw_when _ _) => apply keeps_lift
  | |- _ => progress cbv beta zeta
  | |- _ => solve [auto with calls]
  end.

Lemma override_cname_keeps uuid p : keeps_rest (override_cname uuid p).
Proof. unfold override_cname. keeps_tac. Qed.
#[export] Hint Resolve override_cname_keeps : calls.

Lemma produce_keeps `{H264} router options uuid1 uuid2 rnd : keeps_rest (produce router options uuid1 uuid2 rnd).
Proof. unfold produce. keeps_tac. Qed.

Lemma choose_mid_keeps mid p : keeps_rest (choose_mid mid p).
Proof. unfold choose_mid. keeps_tac. Qed.
#[export] Hint Resolve choose_mid_keeps : calls.

Lemma consume_keeps `{H264} router options uuid rnd1 rnd2 : keeps_rest (consume router options uuid rnd1 rnd2).
Proof. unfold consume, pipe_consume, transport_consume. keeps_tac. Qed.

Lemma produceData_keeps options uuid : keeps_rest (produceData options uuid).
Proof. unfold produceData. keeps_tac. Qed.

Lemma reserve_keeps : keeps_rest reserve.
Proof. unfold reserve. keeps_tac. Qed.
#[export] Hint Resolve reserve_keeps : calls.

Lemma consumer_stream_keeps options sctp : keeps_rest (consumer_stream options sctp).
Proof. unfold consumer_stream. keeps_tac. Qed.
#[export] Hint Resolve consumer_stream_keeps : calls.

Lemma consumeData_keeps router options uuid : keeps_rest (consumeData router options uuid).
Proof. unfold consumeData. keeps_tac. Qed.

(** ** produce *)

(** The CNAME a transport that is not a PipeTransport has once it has asked for a
    producer with the parameters [p]. *)
Definition chosen_cname (uuid : string) (p : RtpParameters) (tr : transport) : option string :=
  match truthy_string (t_cname tr), truthy_string (rtcp_cname (rp_rtcp p)) with
  | Some _, _ => t_cname tr
  | None, Some cname => Some cname
  | None, None => Some (String.substring 0 8 uuid)
  end.

(** The parameters after the CNAME is overridden. *)
Definition named (uuid : string) (p : RtpParameters) (tr : transport) : RtpParameters :=
  if decide (t_class tr = PipeTransport) then p else set_cname (chosen_cname uuid p tr) p.

Lemma override_cname_eq uuid p tr :
  override_cname uuid p tr =
    (if decide (t_class tr = PipeTransport) then tr else with_cname (chosen_cname uuid p tr) tr,
     Ok (named uuid p tr)).
Proof.
  unfold override_cname, named, chosen_cname. rewrite this_bind.
  destruct tr as [id cls r s cl d ps cs dps dcs cname mid sctp]. simpl.
  destruct cls; try (rewrite !decide_False by done;
    destruct (truthy_string cname), (truthy_string (rtcp_cname (rp_rtcp p))); done).
  by rewrite !decide_True.
Qed.

Lemma truthy_string_eq o s : truthy_string o = Some s -> o = Some s /\ s <> "".
Proof.
  destruct o as [s'|]; simpl; [|done]. destruct (String.eqb_spec s' ""); [done|]. by intros [= ->].
Qed.

Lemma truthy_string_Some s : s <> "" -> truthy_string (Some s) = Some s.
Proof. simpl. by destruct (String.eqb_spec s ""). Qed.

(** [None] or a CNAME that is not empty. *)
Definition cname_ok (c : option string) : Prop := c <> Some "".

Lemma chosen_cname_ok uuid p tr :
  uuid <> "" -> exists c, chosen_cname uuid p tr = Some c /\ c <> "" /\
    (forall c', t_cname tr = Some c' -> cname_ok (t_cname tr) -> c = c').
Proof.
  intros Hu. unfold chosen_cname. destruct (truthy_string (t_cname tr)) as [c|] eqn:Hc.
  - apply truthy_string_eq in Hc as [Hc Hne]. exists c. rewrite Hc. split_and!; try done. by intros c' [= ->].
  - assert (forall c', t_cname tr = Some c' -> cname_ok (t_cname tr) -> False) as Hno.
    { intros c' Hc' Hok. rewrite Hc' in Hc, Hok. rewrite truthy_string_Some in Hc; [done|]. by intros ->. }
    destruct (truthy_string (rtcp_cname (rp_rtcp p))) as [c|] eqn:Hp.
    + apply truthy_string_eq in Hp as [_ Hne]. exists c. split_and!; try done.
      intros c' H1 H2. by destruct (Hno c').
    + eexists. split_and!; [done| |intros c' H1 H2; by destruct (Hno c')].
      destruct uuid; [done|]. by destruct uuid.
Qed.

(** The first check of a list that fails. *)
Fixpoint first_error (checks : list (option error)) : option error :=
  match checks with
  | [] => None
  | Some e :: _ => Some e
  | None :: checks => first_error checks
  end.

Definition refused_if (b : bool) (e : error) : option error := if b then Some e else None.
Definition error_of {A} (m : result A) : option error := match m with Ok _ => None | Err e => Some e end.

(** [produce] as a list of checks: there is none after the mapping. *)
Definition produce_refusal `{H264} (router : router_access) (options : val) (uuid : string) (rnd : Z)
    (tr : transport) : option error :=
  let id := prop "id" options in
  let rtpParameters := validateRtpParameters (prop "rtpParameters" options) in
  first_error
    [error_of (destructure options);
     refused_if (truthy id && has_id id (t_producers tr))
       (TypeError ("a Producer with same id " +:+ in_quotes (text id) +:+ " already exists"));
     refused_if (bool_decide (as_kind (prop "kind" options) = None))
       (TypeError ("invalid kind " +:+ in_quotes (js_string (prop "kind" options))));
     refused_if (bad_appData (prop "appData" options)) appData_error;
     error_of rtpParameters;
     match rtpParameters with
     | Ok v => RtpParameters_view v ≫= fun p =>
                 error_of (getProducerRtpParametersMapping (named uuid (with_encoding p) tr)
                             (getRouterRtpCapabilities router) rnd)
     | Err _ => None
     end].

Lemma destructure_Ok options v : destructure options = Ok v -> v = options.
Proof. by destruct options; intros [= <-]. Qed.

Lemma produce_refusal_spec `{H264} router options uuid1 uuid2 rnd tr :
  caps_allocated (getRouterRtpCapabilities router) ->
  error_of (produce router options uuid1 uuid2 rnd tr).2 = produce_refusal router options uuid1 rnd tr.
Proof.
  intros Hcaps. unfold produce, produce_refusal. rewrite lift_bind.
  destruct (destructure options) as [v|e] eqn:Hd; [|done]. apply destructure_Ok in Hd as ->.
  cbv beta zeta. rewrite this_bind, throw_when_bind.
  destruct (truthy _ && has_id _ _); [done|]. rewrite lift_bind. cbn [error_of first_error refused_if].
  destruct (as_kind (prop "kind" options)) as [kind|] eqn:Hk; [|done].
  rewrite bool_decide_eq_false_2 by done. cbn [from_option_or refused_if].
  rewrite throw_when_bind. destruct (bad_appData _); [done|]. rewrite lift_bind. cbn [refused_if].
  destruct (validateRtpParameters _) as [v|e] eqn:Hv; [|done]. cbn [error_of].
  destruct (RtpParameters_view_wf v (validateRtpParameters_wf _ _ Hv)) as [p Hp]. rewrite Hp.
  rewrite lift_bind. cbn [from_option_or].
  erewrite bind_step by apply override_cname_eq. cbv beta iota.
  set (tr1 := if decide _ then _ else _). rewrite lift_bind.
  change (Some p ≫= ?f) with (f p). cbv beta.
  destruct (getProducerRtpParametersMapping _ _ _) as [[p' mapping]|e] eqn:Hm; [|done]. cbn [error_of].
  cbv beta iota. rewrite lift_bind.
  destruct (getConsumableRtpParameters_Ok kind _ _ _ _ _ Hcaps Hm) as (c & bs & -> & _). done.
Qed.

(** A request of [produce], and what is kept for the time of the answer. *)
Lemma produce_Ok `{H264} router options uuid1 uuid2 rnd tr tr' e c :
  produce router options uuid1 uuid2 rnd tr = (tr', Ok (e, c)) ->
  exists v p mapping,
    validateRtpParameters (prop "rtpParameters" options) = Ok v /\ RtpParameters_view v = Some p /\
    as_kind (prop "kind" options) = Some (pr_kind c) /\
    pr_producerId c = (if truthy (prop "id" options) then text (prop "id" options) else uuid2) /\
    (truthy (prop "id" options) = true -> has_id (prop "id" options) (t_producers tr) = false) /\
    tr' = (if decide (t_class tr = PipeTransport) then tr
           else with_cname (chosen_cname uuid1 (with_encoding p) tr) tr) /\
    getProducerRtpParametersMapping (named uuid1 (with_encoding p) tr) (getRouterRtpCapabilities router) rnd =
      Ok (pr_rtpParameters c, mapping) /\
    getConsumableRtpParameters (pr_kind c) (pr_rtpParameters c) (getRouterRtpCapabilities router) mapping =
      Ok (pr_consumableRtpParameters c) /\
    pr_paused c = by_default (VBool false) (prop "paused" options) /\
    e = Request "transport.produce" (Some (t_id tr))
          (VObj [("producerId", VStr (pr_producerId c)); ("kind", VStr (kind_string (pr_kind c)));
                 ("rtpParameters", RtpParameters_val (pr_rtpParameters c));
                 ("rtpMapping", RtpMapping_val mapping);
                 ("keyFrameRequestDelay", prop "keyFrameRequestDelay" options);
                 ("paused", pr_paused c)]).
Proof.
  unfold produce. intros H'. rewrite lift_bind in H'.
  destruct (destructure options) as [v|e'] eqn:Hd; [|done]. apply destructure_Ok in Hd as ->.
  cbv beta zeta in H'. rewrite this_bind, throw_when_bind in H'.
  destruct (truthy (prop "id" options) && has_id _ _) eqn:Hid; [done|]. rewrite lift_bind in H'.
  destruct (as_kind (prop "kind" options)) as [kind|] eqn:Hk; [|done]. cbn [from_option_or] in H'.
  rewrite throw_when_bind in H'. destruct (bad_appData _); [done|]. rewrite lift_bind in H'.
  destruct (validateRtpParameters _) as [v|e'] eqn:Hv; [|done]. rewrite lift_bind in H'.
  destruct (RtpParameters_view v) as [p|] eqn:Hp; [|done]. cbn [from_option_or] in H'.
  erewrite bind_step in H' by apply override_cname_eq. cbv beta iota in H'.
  rewrite lift_bind in H'.
  destruct (getProducerRtpParametersMapping _ _ _) as [[p' mapping]|e'] eqn:Hm; [|done].
  cbv beta iota in H'. rewrite lift_bind in H'.
  destruct (getConsumableRtpParameters _ _ _ _) as [q|e'] eqn:Hq; [|done].
  rewrite this_bind in H'. injection H' as <- <- <-. exists v, p, mapping. simpl. split_and!; try done.
  - intros Ht. by rewrite Ht in Hid.
  - unfold transport_request. by destruct (decide _).
Qed.

(** Producers have the CNAME of their transport. *)
Lemma produce_cname `{H264} router options uuid1 uuid2 rnd tr tr' e c :
  produce router options uuid1 uuid2 rnd tr = (tr', Ok (e, c)) -> t_class tr <> PipeTransport ->
  rtcp_cname (rp_rtcp (pr_rtpParameters c)) = t_cname tr' /\
  rtcp_cname (rp_rtcp (pr_consumableRtpParameters c)) = t_cname tr'.
Proof.
  intros (v & p & mapping & _ & _ & _ & _ & _ & Htr & Hm & Hq & _)%produce_Ok Hcls.
  rewrite decide_False in Htr by done. subst tr'.
  pose proof Hm as (_ & _ & Hr & _)%getProducerRtpParametersMapping_inv. rewrite Hr.
  unfold named. rewrite decide_False by done. split; [done|].
  unfold getConsumableRtpParameters in Hq. inv_result. rewrite <-Hq. simpl. rewrite Hr. unfold named.
  by rewrite decide_False.
Qed.

(** Also a call that throws leaves a CNAME that is settled alone. *)
Lemma produce_cname_kept `{H264} router options uuid1 uuid2 rnd tr :
  let tr' := (produce router options uuid1 uuid2 rnd tr).1 in
  t_nextMid tr' = t_nextMid tr /\ t_sctp tr' = t_sctp tr /\
  (uuid1 <> "" -> cname_ok (t_cname tr) ->
   cname_ok (t_cname tr') /\ (is_Some (t_cname tr) -> t_cname tr' = t_cname tr)).
Proof.
  cbv zeta. unfold produce. rewrite lift_bind. destruct (destructure options) as [v|e]; [|done].
  cbv beta zeta. rewrite this_bind, throw_when_bind. destruct (_ && _); [done|]. rewrite lift_bind.
  destruct (from_option_or _ _) as [kind|e]; [|done]. rewrite throw_when_bind.
  destruct (bad_appData _); [done|]. rewrite lift_bind.
  destruct (validateRtpParameters _) as [v'|e]; [|done]. rewrite lift_bind.
  destruct (from_option_or not_parameters _) as [p|e]; [|done].
  erewrite bind_step by apply override_cname_eq. cbv beta iota.
  set (tr1 := if decide _ then _ else _). rewrite lift_bind.
  match goal with |- context [?x.1] => assert (x.1 = tr1) as -> end.
  { destruct (getProducerRtpParametersMapping _ _ _) as [[p' mapping]|e]; [|done]. cbv beta iota.
    rewrite lift_bind. by destruct (getConsumableRtpParameters _ _ _ _). }
  subst tr1. destruct (decide _); [done|]. simpl. split; [done|]. split; [done|]. intros Hu Hok.
  destruct (chosen_cname_ok uuid1 (with_encoding p) tr Hu) as (c & -> & Hne & Hc).
  split; [by intros [= ->]|]. intros [c' Hc']. by rewrite Hc', (Hc c').
Qed.

(** ** consume *)

(** Arguments that pass the checks of [consume] that come before the negotiation. *)
Definition consume_options_ok (options : val) : Prop :=
  is_obj options = true /\ bad_id (prop "producerId" options) = false /\
  bad_appData (prop "appData" options) = false /\
  (truthy (prop "mid" options) = true -> is_type "string" (prop "mid" options) = true).

Lemma destructure_obj options : is_obj options = true -> destructure options = Ok options.
Proof. by destruct options. Qed.

Lemma bad_id_text v : bad_id v = false -> exists s, v = VStr s /\ text v = s.
Proof. unfold bad_id. destruct v as [| |[]|n|s|l ps|ps]; simpl; rewrite ?orb_true_r; try done. eauto. Qed.

Lemma choose_mid_Ok mid p tr : exists tr' p', choose_mid mid p tr = (tr', Ok p').
Proof.
  unfold choose_mid. destruct (truthy mid); [by do 2 eexists|]. rewrite this_bind.
  destruct (next_mid _) as [s n]. by do 2 eexists.
Qed.

(** With the same capabilities as [canConsume]. *)
Lemma transport_consume_total `{H264} router options uuid rnd1 rnd2 tr :
  consume_options_ok options ->
  router_canConsume router (text (prop "producerId" options)) (prop "rtpCapabilities" options) = true ->
  exists tr' e c, transport_consume router options uuid rnd1 rnd2 tr = (tr', Ok (e, c)).
Proof.
  intros (Ho & Hid & Happ & Hmid) Hcan. unfold router_canConsume in Hcan.
  destruct (getProducerById router _) as [producer|] eqn:Hp; [|done].
  destruct (canConsume _ _) as [[]|] eqn:Hc; [|done..].
  assert (exists v', validateRtpCapabilities (prop "rtpCapabilities" options) = Ok v') as [v' Hv].
  { unfold canConsume in Hc. inv_result. by eexists. }
  unfold transport_consume. rewrite lift_bind, destructure_obj by done. cbv beta iota zeta.
  rewrite throw_when_bind, Hid. rewrite throw_when_bind, Happ. rewrite throw_when_bind.
  assert (truthy (prop "mid" options) && negb (is_type "string" (prop "mid" options)) = false) as ->.
  { destruct (truthy (prop "mid" options)); [|done]. by rewrite Hmid. }
  rewrite lift_bind, Hv. rewrite lift_bind, Hp. cbn [from_option_or].
  set (enableRtx := match prop "enableRtx" options with VUndef => _ | _ => _ end).
  destruct (canConsume_promise _ _ v' (truthy (prop "pipe" options)) enableRtx rnd1 rnd2 Hc Hv) as [p Hcp].
  rewrite lift_bind, Hcp. destruct (truthy (prop "pipe" options)).
  - by do 3 eexists.
  - destruct (choose_mid_Ok (prop "mid" options) p tr) as (tr1 & p1 & Hm).
    erewrite bind_step by exact Hm. by do 3 eexists.
Qed.

Lemma pipe_consume_total router options uuid rnd1 rnd2 tr :
  consume_options_ok options -> is_Some (getProducerById router (text (prop "producerId" options))) ->
  exists e c, pipe_consume router options uuid rnd1 rnd2 tr = (tr, Ok (e, c)).
Proof.
  intros (Ho & Hid & Happ & _) [p Hp]. unfold pipe_consume.
  rewrite lift_bind, destructure_obj by done. rewrite throw_when_bind, Hid, throw_when_bind, Happ.
  cbv zeta. rewrite lift_bind, Hp. by do 2 eexists.
Qed.

(** The MID of a request. *)
Definition mid_of (mid : val) (tr : transport) : string :=
  if truthy mid then text mid else (next_mid (t_nextMid tr)).1.

Lemma choose_mid_eq mid p tr :
  choose_mid mid p tr =
    (if truthy mid then tr else with_nextMid (next_mid (t_nextMid tr)).2 tr, Ok (set_mid (mid_of mid tr) p)).
Proof.
  unfold choose_mid, mid_of. destruct (truthy mid); [done|]. rewrite this_bind.
  by destruct (next_mid (t_nextMid tr)) as [s n].
Qed.

(** A request of [consume], and what is kept for the time of the answer. *)
Lemma transport_consume_Ok `{H264} router options uuid rnd1 rnd2 tr tr' e c :
  transport_consume router options uuid rnd1 rnd2 tr = (tr', Ok (e, c)) ->
  exists producer caps enableRtx p,
    let pipe := truthy (prop "pipe" options) in
    prop "producerId" options = VStr (co_producerId c) /\
    getProducerById router (co_producerId c) = Some producer /\
    validateRtpCapabilities (prop "rtpCapabilities" options) = Ok caps /\
    getConsumerRtpParameters (Producer.consumableRtpParameters producer) caps pipe enableRtx rnd1 rnd2 = Ok p /\
    co_consumerId c = uuid /\ co_kind c = Producer.kind producer /\
    co_rtpParameters c = (if pipe then p else set_mid (mid_of (prop "mid" options) tr) p) /\
    tr' = (if pipe || truthy (prop "mid" options) then tr
           else with_nextMid (next_mid (t_nextMid tr)).2 tr) /\
    co_type c = (if pipe then "pipe" else Producer.type producer) /\
    e = Request "transport.consume" (Some (t_id tr))
          (VObj [("consumerId", VStr uuid); ("producerId", VStr (co_producerId c));
                 ("kind", VStr (kind_string (co_kind c)));
                 ("rtpParameters", RtpParameters_val (co_rtpParameters c)); ("type", VStr (co_type c));
                 ("consumableRtpEncodings",
                    encodings_val (rp_encodings (Producer.consumableRtpParameters producer)));
                 ("paused", by_default (VBool false) (prop "paused" options));
                 ("preferredLayers", prop "preferredLayers" options);
                 ("ignoreDtx", by_default (VBool false) (prop "ignoreDtx" options))]).
Proof.
  unfold transport_consume. intros H'. rewrite lift_bind in H'.
  destruct (destructure options) as [v|e'] eqn:Hd; [|done]. apply destructure_Ok in Hd as ->.
  cbv beta zeta in H'. rewrite throw_when_bind in H'.
  destruct (bad_id _) eqn:Hid; [done|]. apply bad_id_text in Hid as (s & Hs & Ht). rewrite Hs in *.
  rewrite throw_when_bind in H'. destruct (bad_appData _); [done|]. rewrite throw_when_bind in H'.
  destruct (_ && _); [done|]. rewrite lift_bind in H'.
  destruct (validateRtpCapabilities _) as [caps|e'] eqn:Hv; [|done]. rewrite lift_bind in H'. cbn [text] in H'.
  destruct (getProducerById router s) as [producer|] eqn:Hp; [|done]. cbn [from_option_or] in H'.
  set (enableRtx := match prop "enableRtx" options with VUndef => _ | _ => _ end) in H'.
  rewrite lift_bind in H'.
  destruct (getConsumerRtpParameters _ _ _ _ _ _) as [p|e'] eqn:Hg; [|done].
  exists producer, caps, enableRtx, p. cbv zeta.
  destruct (truthy (prop "pipe" options)) eqn:Hpipe.
  - rewrite ret_bind, this_bind in H'. injection H' as <- <- <-. simpl. by split_and!.
  - erewrite bind_step in H' by apply choose_mid_eq. cbv beta iota in H'. rewrite this_bind in H'.
    injection H' as <- <- <-. simpl. split_and!; try done. by destruct (truthy (prop "mid" options)).
Qed.

(** [consume] changes the counter of MIDs only. *)
Lemma consume_state `{H264} router options uuid rnd1 rnd2 tr :
  let tr' := (consume router options uuid rnd1 rnd2 tr).1 in
  t_cname tr' = t_cname tr /\ t_sctp tr' = t_sctp tr.
Proof.
  cbv zeta. unfold consume. rewrite this_bind.
  assert (forall r o, t_cname (pipe_consume r o uuid rnd1 rnd2 tr).1 = t_cname tr /\
    t_sctp (pipe_consume r o uuid rnd1 rnd2 tr).1 = t_sctp tr) as Hpipe.
  { intros r o. unfold pipe_consume. rewrite lift_bind. destruct (destructure o); [|done].
    rewrite throw_when_bind. destruct (bad_id _); [done|]. rewrite throw_when_bind.
    destruct (bad_appData _); [done|]. cbv zeta. rewrite lift_bind. by destruct (from_option_or _ _). }
  assert (forall r o, t_cname (transport_consume r o uuid rnd1 rnd2 tr).1 = t_cname tr /\
    t_sctp (transport_consume r o uuid rnd1 rnd2 tr).1 = t_sctp tr) as Htr.
  { intros r o. unfold transport_consume. rewrite lift_bind. destruct (destructure o); [|done].
    cbv zeta. rewrite throw_when_bind. destruct (bad_id _); [done|]. rewrite throw_when_bind.
    destruct (bad_appData _); [done|]. rewrite throw_when_bind. destruct (_ && _); [done|].
    rewrite lift_bind. destruct (validateRtpCapabilities _); [|done]. rewrite lift_bind.
    destruct (from_option_or _ _); [|done]. rewrite lift_bind. destruct (getConsumerRtpParameters _ _ _ _ _ _); [|done].
    destruct (truthy (prop "pipe" _)); [done|]. erewrite bind_step by apply choose_mid_eq.
    by destruct (truthy (prop "mid" _)). }
  by destruct (t_class tr).
Qed.

(** ** produceData and consumeData *)

Lemma produceData_state options uuid tr : (produceData options uuid tr).1 = tr.
Proof.
  unfold produceData. rewrite lift_bind. destruct (destructure _); [|done]. cbv zeta. rewrite this_bind, throw_when_bind.
  destruct (_ && _); [done|]. rewrite throw_when_bind. destruct (bad_appData _); [done|].
  unfold mbind, M_bind. simpl. destruct (t_class tr); [..|done];
    by destruct (validateSctpStreamParameters (prop "sctpStreamParameters" _)).
Qed.

(** A stream that is reserved was free, and is the only change. *)
Lemma reserve_stream_Ok MIS s i s' :
  reserve_stream MIS s = Ok (i, s') ->
  ~ in_use s i /\ (forall j, in_use s' j <-> in_use s j \/ j = i) /\
  (forall n, MIS = Some n -> sctpStreamIds s = None -> (Z.of_nat i < n)%Z).
Proof.
  unfold reserve_stream, getNextSctpStreamId. intros H. destruct MIS as [n|]; [|done].
  destruct (match sctpStreamIds s with Some used => Ok used | None => _ end) as [used|] eqn:Hu; [|done].
  cbn in H. destruct (scan_streams used (nextSctpStreamId s) 0 (length used)) as [k|] eqn:Hs; [|done].
  cbn in H. injection H as <- <-. apply scan_streams_Some in Hs as (d & _ & _ & Hfree & _).
  assert (forall j, used !! j = Some true <-> in_use s j) as Huse.
  { intros j. unfold in_use. destruct (sctpStreamIds s) as [used'|].
    - injection Hu as ->. split; [by eexists|]. by intros (u & [= <-] & ?).
    - destruct (Z.ltb n 0); [done|]. injection Hu as <-. split.
      + intros Hj. apply list_elem_of_lookup_2, list_elem_of_In in Hj. by apply repeat_spec in Hj.
      + by intros (? & ? & _). }
  pose proof (lookup_lt_Some _ _ _ Hfree) as Hlt. split_and!.
  - rewrite <-Huse. congruence.
  - intros j. unfold in_use. simpl. split.
    + intros (u & [= <-] & Hj). destruct (decide (j = k)) as [->|Hne]; [by right|].
      rewrite list_lookup_insert_ne in Hj by congruence. left. by apply Huse.
    + intros [Hj| ->]; eexists; (split; [done|]); [|by rewrite list_lookup_insert_eq].
      destruct (decide (j = k)) as [->|Hne]; [by rewrite list_lookup_insert_eq|].
      rewrite list_lookup_insert_ne by congruence. by apply Huse.
  - intros n' [= <-] Hn. rewrite Hn in Hu. destruct (Z.ltb n 0); [done|]. injection Hu as <-.
    rewrite repeat_length in Hlt. lia.
Qed.

(** What a computation has done to the streams: nothing, or it has reserved one. *)
Definition streams_step {A} (stream : A -> option nat) (tr tr' : transport) (r : result A) : Prop :=
  t_cname tr' = t_cname tr /\ t_nextMid tr' = t_nextMid tr /\
  ((t_sctp tr' = t_sctp tr /\ forall a, r = Ok a -> stream a = None) \/
   exists i, reserve_stream (transport_MIS tr) (t_sctp tr) = Ok (i, t_sctp tr') /\
     forall a, r = Ok a -> stream a = Some i).

Lemma streams_none {A} (stream : A -> option nat) tr e : streams_step stream tr tr (Err e).
Proof. split_and!; try done. by left. Qed.

Lemma consumer_stream_state options sctp tr :
  streams_step (fun a => Some a.2) tr (consumer_stream options sctp tr).1 (consumer_stream options sctp tr).2.
Proof.
  unfold consumer_stream. rewrite lift_bind. destruct (assign_given _ _ _) as [v|]; [|apply streams_none].
  rewrite lift_bind. destruct (assign_given _ _ _) as [v1|]; [|apply streams_none].
  rewrite lift_bind. destruct (assign_given _ _ _) as [v2|]; [|apply streams_none].
  destruct (reserve_stream (transport_MIS tr) (t_sctp tr)) as [[i s]|e] eqn:Hr.
  - assert (reserve tr = (update_t_sctp (fun _ => s) tr, Ok i)) as Hres.
    { unfold reserve. rewrite this_bind, lift_bind, Hr. done. }
    erewrite bind_step by exact Hres. cbv beta iota. rewrite lift_bind.
    destruct (assign _ _ _) as [v3|]; (split_and!; [done|done|]); right; exists i; (split; [exact Hr|]);
      [by intros [] [= <- <-]|done].
  - assert (reserve tr = (tr, Err e)) as Hres.
    { unfold reserve. by rewrite this_bind, lift_bind, Hr. }
    erewrite bind_step by exact Hres. apply streams_none.
Qed.

Lemma consumeData_state router options uuid tr :
  streams_step (fun a => cd_streamId a.2) tr (consumeData router options uuid tr).1
    (consumeData router options uuid tr).2.
Proof.
  unfold consumeData. rewrite lift_bind. destruct (destructure options) as [v|e]; [|apply streams_none].
  rewrite throw_when_bind. destruct (bad_id _); [apply streams_none|]. rewrite throw_when_bind.
  destruct (bad_appData _); [apply streams_none|]. cbv beta zeta. rewrite lift_bind.
  destruct (from_option_or _ _) as [dp|e]; [|apply streams_none]. rewrite this_bind.
  set (stream := consumer_stream v (DataProducer.sctpStreamParameters dp)).
  assert (streams_step (fun a => Some a.2) tr (stream tr).1 (stream tr).2) as Hs by apply consumer_stream_state.
  destruct (stream tr) as [tr1 [[v1 i]|e]] eqn:Hst; simpl in Hs; destruct Hs as (H1 & H2 & Hs);
    destruct (t_class tr); unfold mbind, M_bind; rewrite ?Hst; simpl;
    try (by split_and!; try done; left; split; [done|]; intros [] [= <- <-]);
    (split_and!; [done|done|]); (destruct Hs as [[H3 H4]|(k & H3 & H4)]; [left|right; exists k]);
    (split; [done|]); intros [e0 c0] He; inversion He; subst; exact (H4 _ eq_refl).
Qed.

(** ** The MIDs of a sequence of calls *)

(** A call that throws leaves the transport as it was. *)
Lemma transport_consume_Err `{H264} router options uuid rnd1 rnd2 tr tr' e :
  transport_consume router options uuid rnd1 rnd2 tr = (tr', Err e) -> tr' = tr.
Proof.
  unfold transport_consume. rewrite lift_bind. destruct (destructure options) as [o|]; [|by intros [= <- _]].
  cbv zeta. rewrite throw_when_bind. destruct (bad_id _); [by intros [= <- _]|].
  rewrite throw_when_bind. destruct (bad_appData _); [by intros [= <- _]|].
  rewrite throw_when_bind. destruct (_ && _); [by intros [= <- _]|].
  rewrite lift_bind. destruct (validateRtpCapabilities _); [|by intros [= <- _]].
  rewrite lift_bind. destruct (from_option_or _ _); [|by intros [= <- _]].
  rewrite lift_bind. destruct (getConsumerRtpParameters _ _ _ _ _ _); [|by intros [= <- _]].
  destruct (truthy (prop "pipe" o)); [done|]. erewrite bind_step by apply choose_mid_eq. done.
Qed.

Lemma pipe_consume_state router options uuid rnd1 rnd2 tr :
  (pipe_consume router options uuid rnd1 rnd2 tr).1 = tr.
Proof.
  unfold pipe_consume. rewrite lift_bind. destruct (destructure options); [|done].
  rewrite throw_when_bind. destruct (bad_id _); [done|]. rewrite throw_when_bind.
  destruct (bad_appData _); [done|]. cbv zeta. rewrite lift_bind. by destruct (from_option_or _ _).
Qed.

(** A call of [consume]: what the router gives, the argument, the random id and
    the random numbers. *)
Definition consume_call : Type := router_access * val * string * Z * Z.

(** The MID of a consumer when the transport chooses it. *)
Definition chosen_mid (options : val) (tr : transport) (r : result (effect * consuming)) : option string :=
  match r with
  | Ok (_, c) =>
      if bool_decide (t_class tr = PipeTransport) || truthy (prop "pipe" options) || truthy (prop "mid" options)
      then None else rp_mid (co_rtpParameters c)
  | Err _ => None
  end.

(** The MIDs the transport chooses in a sequence of calls. *)
Fixpoint chosen_mids `{H264} (calls : list consume_call) (tr : transport) : list string :=
  match calls with
  | [] => []
  | (router, options, uuid, rnd1, rnd2) :: calls =>
      let '(tr', r) := consume router options uuid rnd1 rnd2 tr in
      match chosen_mid options tr r with
      | Some mid => mid :: chosen_mids calls tr'
      | None => chosen_mids calls tr'
      end
  end.

Lemma consume_chosen_mid `{H264} router options uuid rnd1 rnd2 tr :
  let '(tr', r) := consume router options uuid rnd1 rnd2 tr in
  match chosen_mid options tr r with
  | Some mid => (mid, t_nextMid tr') = next_mid (t_nextMid tr)
  | None => t_nextMid tr' = t_nextMid tr
  end.
Proof.
  unfold consume. rewrite this_bind.
  destruct (decide (t_class tr = PipeTransport)) as [Hcls|Hcls].
  - rewrite Hcls. pose proof (pipe_consume_state router options uuid rnd1 rnd2 tr) as Hp.
    destruct (pipe_consume _ _ _ _ _ _) as [tr' r]. simpl in Hp. subst tr'. unfold chosen_mid.
    rewrite Hcls. by destruct r as [[e c]|].
  - assert (match t_class tr with PipeTransport => pipe_consume router options uuid rnd1 rnd2
            | _ => transport_consume router options uuid rnd1 rnd2 end tr =
            transport_consume router options uuid rnd1 rnd2 tr) as -> by (by destruct (t_class tr)).
    destruct (transport_consume _ _ _ _ _ _) as [tr' r] eqn:Hc. unfold chosen_mid.
    rewrite bool_decide_eq_false_2 by done. destruct r as [[e c]|e].
    + apply transport_consume_Ok in Hc as (producer & caps & rtx & p & _ & _ & _ & _ & _ & _ & Hp & Htr & _).
      destruct (truthy (prop "pipe" options)); simpl in *; [by subst tr'|]. rewrite Hp. unfold mid_of.
      destruct (truthy (prop "mid" options)); by subst tr'.
    + by apply transport_consume_Err in Hc as ->.
Qed.

Lemma chosen_mids_eq `{H264} calls tr :
  exists k, k <= length calls /\ chosen_mids calls tr = mids k (t_nextMid tr).
Proof.
  revert tr. induction calls as [|[[[[router options] uuid] rnd1] rnd2] calls IH]; intros tr; [by exists 0|].
  simpl. pose proof (consume_chosen_mid router options uuid rnd1 rnd2 tr) as Hc.
  destruct (consume _ _ _ _ _ _) as [tr' r]. destruct (IH tr') as (k & Hk & ->).
  destruct (chosen_mid options tr r) as [mid|].
  - exists (S k). split; [simpl; lia|]. cbn [mids]. by rewrite <-Hc.
  - exists k. split; [lia|]. by rewrite Hc.
Qed.

(** C29: the MIDs a transport chooses for its consumers: in any sequence of at
    most 100000000 calls of [consume] (some throwing, some with a MID of their
    own, on routers that change between them) they are distinct, and they fit
    into the 8 bytes the header extension has for them, across the restart of
    the counter. *)
Theorem chosen_mids_distinct `{H264} calls tr :
  (0 <= t_nextMid tr < 100000000)%Z -> (Z.of_nat (length calls) <= 100000000)%Z ->
  NoDup (chosen_mids calls tr) /\
  Forall (fun mid => 1 <= String.length mid <= 8) (chosen_mids calls tr).
Proof.
  intros Hn Hlen. destruct (chosen_mids_eq calls tr) as (k & Hk & ->). apply mids_NoDup; lia.
Qed.

(** ** An example *)

Definition example_access : router_access :=
  mkRouterAccess example_router
    (fun id => if String.eqb id "producer" then
                 Some (Producer.new_producer "producer" "transport" Kvideo "simulcast" example_consumable
                         example_consumable false)
               else None)
    (fun _ => None).

Definition example_transport (nextMid : Z) : transport :=
  mkTransport "transport" WebRtcTransport 0 None false [] [] [] [] [] None nextMid no_sctp_ids.

Definition example_consume (mid : val) : consume_call :=
  (example_access, VObj [("producerId", VStr "producer"); ("rtpCapabilities", example_both); ("mid", mid)],
   "consumer", 500%Z, 600%Z).

(** The second call has a MID of its own, the third an unknown producer. *)
Definition example_calls : list consume_call :=
  [example_consume VUndef; example_consume (VStr "mine");
   (example_access, VObj [("producerId", VStr "nobody"); ("rtpCapabilities", example_both)], "c", 1%Z, 2%Z);
   example_consume VUndef].

Lemma chosen_mids_distinct_witness :
  NoDup (@chosen_mids example_h264 example_calls (example_transport 99999999)) /\
  @chosen_mids example_h264 example_calls (example_transport 99999999) = ["99999999"; "0"].
Proof.
  split; [|vm_compute; reflexivity].
  assert (0 <= t_nextMid (example_transport 99999999) < 100000000)%Z as H1 by (simpl; lia).
  assert (Z.of_nat (length example_calls) <= 100000000)%Z as H2 by (simpl; lia).
  exact (proj1 (@chosen_mids_distinct example_h264 example_calls (example_transport 99999999) H1 H2)).
Defined.
