(* ===== verification/PipeOffer.v ===== *)
(** * Piping a producer to a router with the same media codecs

    The calls of [pipeToRouter] in a row: a Producer is made on a transport of
    one router, a Consumer of it on a PipeTransport of that router, and with its
    parameters a Producer on the PipeTransport of another router.  With the same
    capabilities in both, the last call is accepted, and the piped Producer
    offers what the original one offers. *)

From S2P Require Import Prelude Js RtpParameters Validate Ortc OrtcConsumer RequestBodies Revalidate Rematch PipeNegotiation Framing Events TransportState World TransportCalls PipeLink CallsSpec.
From S2P Require Producer Consumer.

Lemma pipe_consume_Ok router options uuid rnd1 rnd2 tr tr' e c :
  pipe_consume router options uuid rnd1 rnd2 tr = (tr', Ok (e, c)) ->
  exists producer, getProducerById router (text (prop "producerId" options)) = Some producer /\
    co_kind c = Producer.kind producer /\
    co_rtpParameters c = getPipeConsumerRtpParameters (Producer.consumableRtpParameters producer)
      (truthy (default VUndef (jget "rtx" (t_data tr)))) rnd1 rnd2.
Proof.
  unfold pipe_consume. rewrite lift_bind. destruct (destructure options) as [v|] eqn:Hd; [|discriminate].
  apply destructure_Ok in Hd as ->. rewrite throw_when_bind. destruct (bad_id _); [done|].
  rewrite throw_when_bind. destruct (bad_appData _); [done|]. cbv zeta. rewrite lift_bind.
  destruct (getProducerById router _) as [producer|] eqn:Hp; [|done]. cbn [from_option_or].
  rewrite this_bind. intros [= <- <- <-]. by exists producer.
Qed.

Lemma with_encoding_codecs p : rp_codecs (with_encoding p) = rp_codecs p.
Proof. unfold with_encoding. by destruct (rp_encodings p). Qed.

Lemma named_codecs uuid p tr : rp_codecs (named uuid p tr) = rp_codecs p.
Proof. unfold named. by case_decide. Qed.

Lemma named_encodings uuid p tr : rp_encodings (named uuid p tr) = rp_encodings p.
Proof. unfold named. by case_decide. Qed.

Lemma with_encoding_id p : rp_encodings p <> [] -> with_encoding p = p.
Proof. unfold with_encoding. by destruct (rp_encodings p). Qed.

(** The consumable parameters of a producer have an encoding. *)
Lemma consumable_encodings_ne `{H264} kind caps uuid p tr rnd p' mapping c :
  getProducerRtpParametersMapping (named uuid (with_encoding p) tr) caps rnd = Ok (p', mapping) ->
  getConsumableRtpParameters kind p' caps mapping = Ok c -> rp_encodings c <> [].
Proof.
  intros Hmap Hc. unfold getConsumableRtpParameters in Hc.
  apply bind_Ok in Hc as (bs & _ & Hc). cbv zeta in Hc.
  apply getProducerRtpParametersMapping_inv in Hmap as (_ & He & _ & _ & Hm).
  rewrite Hm, He, consumable_encodings_Ok, Ok_bind in Hc. injection Hc as <-. cbn [rp_encodings].
  rewrite named_encodings. unfold with_encoding. destruct (rp_encodings p) as [|enc encs] eqn:Hp; [done|]. by rewrite Hp.
Qed.

(** [produce] on a PipeTransport with the options of [pipeToRouter], check by
    check. *)
Lemma produce_with_options `{H264} router producer appData consumer uuid1 uuid2 rnd tr kind v q mapping c :
  t_class tr = PipeTransport -> jget (Producer.producerId producer) (t_producers tr) = None ->
  Producer.producerId producer <> "" -> bad_appData appData = false -> Consumer.kind consumer = kind ->
  validateRtpParameters (RtpParameters_val (Consumer.rtpParameters consumer)) = Ok v ->
  RtpParameters_view v = Some q -> rp_encodings q <> [] ->
  getProducerRtpParametersMapping q (getRouterRtpCapabilities router) rnd = Ok (q, mapping) ->
  getConsumableRtpParameters kind q (getRouterRtpCapabilities router) mapping = Ok c ->
  exists e piped,
    produce router (pipe_produce_options producer appData consumer) uuid1 uuid2 rnd tr = (tr, Ok (e, piped)) /\
    pr_producerId piped = Producer.producerId producer /\ pr_kind piped = kind /\
    pr_paused piped = VBool (Consumer.producerPaused consumer) /\ pr_consumableRtpParameters piped = c.
Proof.
  intros Hcls Hfresh Hid Happ Hk Hv Hview Hne Hmap Hc.
  unfold produce, pipe_produce_options. rewrite lift_bind. cbn [destructure]. cbv beta iota zeta.
  set (o := VObj _).
  assert (prop "id" o = VStr (Producer.producerId producer)) as Pid by done.
  assert (prop "kind" o = VStr (kind_string (Consumer.kind consumer))) as Pk by done.
  assert (prop "rtpParameters" o = RtpParameters_val (Consumer.rtpParameters consumer)) as Pr by done.
  assert (prop "paused" o = VBool (Consumer.producerPaused consumer)) as Pp by done.
  assert (prop "appData" o = appData) as Pa by done. clearbody o.
  rewrite this_bind, throw_when_bind, Pid. cbn [has_id]. unfold jhas. rewrite Hfresh.
  rewrite (bool_decide_eq_false_2 (is_Some None)) by (by intros []). rewrite andb_false_r, lift_bind, Pk.
  assert (as_kind (VStr (kind_string (Consumer.kind consumer))) = Some kind) as -> by (rewrite Hk; by destruct kind).
  cbn [from_option_or]. rewrite throw_when_bind, Pa, Happ, lift_bind, Pr, Hv, lift_bind, Hview.
  cbn [from_option_or]. rewrite with_encoding_id by done.
  erewrite bind_step by apply override_cname_eq. cbv beta iota. rewrite decide_True by done.
  unfold named. rewrite decide_True by done. rewrite lift_bind, Hmap. cbv beta iota.
  rewrite lift_bind, Hc. cbv beta iota zeta. rewrite this_bind. do 2 eexists. split; [reflexivity|].
  cbn [pr_producerId pr_kind pr_paused pr_consumableRtpParameters truthy]. rewrite Pp.
  split; [|split; [reflexivity|split; [reflexivity|reflexivity]]].
  destruct (String.eqb_spec (Producer.producerId producer) "") as [He|_]; [exact (False_ind _ (Hid He))|reflexivity].
Qed.

Section offer.
Context `{H264} `{!H264_laws}.

(** C10: [pipeToRouter] does not fail for the parameters: when the two routers have
    the same media codecs, [produce] on the remote PipeTransport accepts the
    parameters of the Consumer made on the local one, whatever the producer, as
    long as its codecs have distinct payload types.  The piped Producer has the
    id, the kind and the pause state given, and consumable parameters like those
    of the original Producer: the same codecs with the same payload types, header
    extensions and CNAME, and the same encodings in the same order but for the
    SSRCs, so that a consumer gets the same in both routers. *)
Theorem piped_producer_accepted (router1 router2 : router_access) (mediaCodecs : val)
    options uuid1 uuid2 rnd tr1 tr1' e1 made (producer : Producer.producer)
    uuid base1 base2 trL trL' eL consuming (consumer : Consumer.consumer)
    (appData : val) (uuid3 uuid4 : string) (rnd' : Z) (trR : transport) :
  generateRouterRtpCapabilities mediaCodecs = Ok (getRouterRtpCapabilities router1) ->
  getRouterRtpCapabilities router2 = getRouterRtpCapabilities router1 ->
  (* the original Producer *)
  produce router1 options uuid1 uuid2 rnd tr1 = (tr1', Ok (e1, made)) ->
  NoDup (map cp_payloadType (rp_codecs (pr_rtpParameters made))) ->
  Producer.producerId producer <> "" ->
  getProducerById router1 (Producer.producerId producer) = Some producer ->
  Producer.kind producer = pr_kind made ->
  Producer.consumableRtpParameters producer = pr_consumableRtpParameters made ->
  (* the Consumer on the local PipeTransport *)
  t_class trL = PipeTransport ->
  consume router1 (pipe_consume_options (VStr (Producer.producerId producer))) uuid base1 base2 trL =
    (trL', Ok (eL, consuming)) ->
  Consumer.kind consumer = co_kind consuming -> Consumer.rtpParameters consumer = co_rtpParameters consuming ->
  (* the remote PipeTransport *)
  t_class trR = PipeTransport -> jget (Producer.producerId producer) (t_producers trR) = None ->
  bad_appData appData = false ->
  exists e2 piped,
    produce router2 (pipe_produce_options producer appData consumer) uuid3 uuid4 rnd' trR = (trR, Ok (e2, piped)) /\
    pr_producerId piped = Producer.producerId producer /\ pr_kind piped = Producer.kind producer /\
    pr_paused piped = VBool (Consumer.producerPaused consumer) /\
    pr_consumableRtpParameters piped = piped_consumable rnd' (Producer.consumableRtpParameters producer).
Proof.
  intros Hgen Hcaps2 Hprod Hnd Hid Hfound Hkind Hcons HtL Hconsume Hck Hcp HtR Hfresh Happ.
  apply produce_Ok in Hprod as (v & p & mapping & Hv & Hp & Hkd & _ & _ & _ & Hmap & Hc & _).
  pose proof (generated_router_caps _ _ Hgen) as Hrc.
  unfold consume in Hconsume. rewrite this_bind, HtL in Hconsume.
  apply pipe_consume_Ok in Hconsume as (producer' & Hfound' & Hck' & Hcp').
  cbn [pipe_consume_options prop own_props jget text] in Hfound'.
  assert (producer' = producer) as -> by (change (getProducerById router1 (Producer.producerId producer) = Some producer') in Hfound'; congruence).
  set (enableRtx := truthy (default VUndef (jget "rtx" (t_data trL)))) in Hcp'.
  rewrite Hcons in Hcp'. set (c := pr_consumableRtpParameters made) in *.
  assert (payload_type_decides (getRouterRtpCapabilities router1) (rp_codecs (named uuid1 (with_encoding p) tr1))) as Hd.
  { apply NoDup_payload_type_decides. pose proof Hmap as (Hs & _)%getProducerRtpParametersMapping_inv.
    replace (map cp_payloadType (rp_codecs (named uuid1 (with_encoding p) tr1)))
      with (map cp_payloadType (rp_codecs (pr_rtpParameters made))); [done|].
    clear -Hs. induction Hs as [|a b l k Hab _ IH]; simpl; [done|]. f_equal; [apply Hab|done]. }
  assert (Forall good_codec (rp_codecs (named uuid1 (with_encoding p) tr1))) as Hgood.
  { rewrite named_codecs, with_encoding_codecs. apply validateRtpParameters_wf in Hv.
    by apply (validated_good _ _ Hv Hp). }
  pose proof (pipe_parameters_good _ _ _ _ _ _ _ enableRtx base1 base2 Hrc Hd Hgood Hmap Hc) as Hq.
  destruct (parameters_revalidated _ Hq) as (v' & Hv' & Hview').
  destruct (pipe_negotiation _ _ _ _ _ _ _ enableRtx base1 base2 rnd' _ Hrc Hd Hmap Hc eq_refl)
    as (mapping' & Hmap' & Hc').
  pose proof (consumable_encodings_ne _ _ _ _ _ _ _ _ _ Hmap Hc) as Hne.
  set (q := default_dtxs (getPipeConsumerRtpParameters c enableRtx base1 base2)) in *.
  assert (rp_encodings q <> []) as Hqne.
  { unfold q. cbn [default_dtxs rp_encodings getPipeConsumerRtpParameters]. by destruct (rp_encodings c). }
  destruct (produce_with_options router2 producer appData consumer uuid3 uuid4 rnd' trR (pr_kind made) v' q mapping'
    (piped_consumable rnd' c)) as (e2 & piped & Hrun & Hpid & Hpk & Hpp & Hpc);
    rewrite ?Hcaps2, ?Hcp, ?Hcp'; try done; [congruence|].
  exists e2, piped. split_and!; [done|done|congruence|done|congruence].
Qed.
End offer.

(** ** An example: VP8 with RTX and H264, piped with and without RTX *)

Definition piped_options : val :=
  VObj [("kind", VStr "video");
        ("rtpParameters",
          VObj [("codecs", VArr [
                  VObj [("mimeType", VStr "video/vp8"); ("payloadType", VNum 96); ("clockRate", VNum 90000)];
                  VObj [("mimeType", VStr "video/rtx"); ("payloadType", VNum 97); ("clockRate", VNum 90000);
                        ("parameters", VObj [("apt", VNum 96)])];
                  VObj [("mimeType", VStr "video/H264"); ("payloadType", VNum 98); ("clockRate", VNum 90000);
                        ("parameters", VObj [("packetization-mode", VNum 1); ("profile-level-id", VStr "42e01f")])]] []);
                ("encodings", VArr [VObj [("ssrc", VNum 1111); ("dtx", VBool true)]; VObj [("ssrc", VNum 2222)]] []);
                ("rtcp", VObj [("cname", VStr "cname")])])].

Definition piped_transport (cls : transport_class) (rtx : bool) : transport :=
  mkTransport "transport" cls 0 None false [("rtx", VBool rtx)] [] [] [] [] None 0 no_sctp_ids.

Definition piped_made : effect * producing :=
  Eval vm_compute in
    match (@produce profile_h264 (mkRouterAccess example_router (fun _ => None) (fun _ => None)) piped_options
             "uuid1" "producer" 300000000 (piped_transport WebRtcTransport false)).2 with
    | Ok x => x
    | Err _ => (Unsubscribe "", mkProducing "" Kaudio example_producer example_producer VUndef)
    end.

Definition piped_producer : Producer.producer :=
  Producer.new_producer "producer" "transport" Kvideo "simulcast" (pr_rtpParameters piped_made.2)
    (pr_consumableRtpParameters piped_made.2) false.

Definition piped_access : router_access :=
  mkRouterAccess example_router (fun id => if String.eqb id "producer" then Some piped_producer else None) (fun _ => None).

Definition piped_consuming (rtx : bool) : effect * consuming :=
  match (@consume profile_h264 piped_access (pipe_consume_options (VStr "producer")) "consumer" 5000 6000
           (piped_transport PipeTransport rtx)).2 with
  | Ok x => x
  | Err _ => (Unsubscribe "", mkConsuming "" "" Kaudio example_producer "")
  end.

Definition piped_consumer (rtx : bool) : Consumer.consumer :=
  Consumer.new_consumer "consumer" "transport" "producer" Kvideo "pipe"
    (co_rtpParameters (piped_consuming rtx).2) false false VUndef VUndef.

Lemma piped_producer_accepted_witness :
  exists e2 piped,
    @produce profile_h264 (mkRouterAccess example_router (fun _ => None) (fun _ => None))
      (pipe_produce_options piped_producer VUndef (piped_consumer true)) "uuid3" "uuid4" 400000000
      (piped_transport PipeTransport true) = (piped_transport PipeTransport true, Ok (e2, piped)) /\
    pr_producerId piped = "producer" /\
    map cp_payloadType (rp_codecs (pr_consumableRtpParameters piped)) = [101; 102; 103; 104]%Z.
Proof.
  destruct (@piped_producer_accepted profile_h264 profile_laws piped_access
    (mkRouterAccess example_router (fun _ => None) (fun _ => None)) example_mediaCodecs
    piped_options "uuid1" "producer" 300000000%Z (piped_transport WebRtcTransport false)
    (with_cname (Some "cname") (piped_transport WebRtcTransport false)) piped_made.1 piped_made.2 piped_producer
    "consumer" 5000%Z 6000%Z (piped_transport PipeTransport true) (piped_transport PipeTransport true)
    (piped_consuming true).1 (piped_consuming true).2 (piped_consumer true) VUndef "uuid3" "uuid4" 400000000%Z
    (piped_transport PipeTransport true)) as (e2 & piped & Hp & Hid & _ & _ & Hc);
    try (lazymatch goal with |- _ = _ => vm_compute; reflexivity end).
  - apply (bool_decide_eq_true_1 _). vm_compute. reflexivity.
  - discriminate.
  - exists e2, piped. split_and!; [exact Hp|exact Hid|]. rewrite Hc. vm_compute. reflexivity.
Defined.
