(* ===== verification/WorldSpec.v ===== *)
(** * What the closing methods of World.v do

    For every closing method the resulting maps of objects, computed from the
    ones before: the effects only append to the log and drop subscriptions, and
    the listeners only remove entries from maps. *)

From S2P Require Import Prelude Js RtpParameters Framing Events TransportState World.
From S2P Require Producer Consumer DataProducer DataConsumer RtpObserver.

(** ** Children *)

Definition mark_closed (c : child) : child :=
  match c with
  | CProducer p => CProducer (Producer.with_closed true p)
  | CConsumer c => CConsumer (Consumer.with_closed true c)
  | CDataProducer p => CDataProducer (DataProducer.with_closed true p)
  | CDataConsumer c => CDataConsumer (DataConsumer.with_closed true c)
  end.

Definition close_node (n : child_node) : child_node := with_child (mark_closed (n_child n)) n.

Definition node_open (n : child_node) : Prop := child_closed (n_child n) = false.

Lemma mark_closed_id c : child_closed c = true -> mark_closed c = c.
Proof.
  destruct c as [[]|[]|[]|[]]; simpl; intros ->; done.
Qed.

Lemma close_node_id n : child_closed (n_child n) = true -> close_node n = n.
Proof. destruct n as [c t s]. unfold close_node, with_child. simpl. intros H. by rewrite mark_closed_id. Qed.

Lemma close_node_closed n : child_closed (n_child (close_node n)) = true.
Proof. by destruct n as [[] t s]. Qed.
Lemma close_node_kind n : kind_of (n_child (close_node n)) = kind_of (n_child n).
Proof. by destruct n as [[] t s]. Qed.
Lemma close_node_child_id n : child_id (n_child (close_node n)) = child_id (n_child n).
Proof. by destruct n as [[] t s]. Qed.
Lemma close_node_transport n : n_transport (close_node n) = n_transport n.
Proof. by destruct n. Qed.
Lemma close_node_idem n : close_node (close_node n) = close_node n.
Proof. apply close_node_id, close_node_closed. Qed.

Lemma child_transportClosed_eq c :
  child_transportClosed c =
    if child_closed c then (c, [])
    else (mark_closed c, [Unsubscribe (child_id c); Emit "transportclose" VUndef; Observer "close" VUndef]).
Proof.
  destruct c as [p|c|p|c]; simpl.
  - unfold Producer.transportClosed. by destruct (Producer.closed p).
  - unfold Consumer.transportClosed. by destruct (Consumer.closed c).
  - unfold DataProducer.transportClosed. by destruct (DataProducer.closed p).
  - unfold DataConsumer.transportClosed. by destruct (DataConsumer.closed c).
Qed.

(** What [close] requests of the worker. *)
Definition close_request (c : child) : effect :=
  match c with
  | CProducer p => Request "transport.closeProducer" (Some (Producer.transportId p))
                     (VObj [("producerId", VStr (Producer.producerId p))])
  | CConsumer c => Request "transport.closeConsumer" (Some (Consumer.transportId c))
                     (VObj [("consumerId", VStr (Consumer.consumerId c))])
  | CDataProducer p => Request "transport.closeDataProducer" (Some (DataProducer.transportId p))
                         (VObj [("dataProducerId", VStr (DataProducer.dataProducerId p))])
  | CDataConsumer c => Request "transport.closeDataConsumer" (Some (DataConsumer.transportId c))
                         (VObj [("dataConsumerId", VStr (DataConsumer.dataConsumerId c))])
  end.

Lemma child_close_eq c :
  child_close c =
    if child_closed c then (c, [])
    else (mark_closed c, [Unsubscribe (child_id c); close_request c; Emit "@close" VUndef;
                          Observer "close" VUndef]).
Proof.
  destruct c as [p|c|p|c]; simpl.
  - unfold Producer.close. by destruct (Producer.closed p).
  - unfold Consumer.close. by destruct (Consumer.closed c).
  - unfold DataProducer.close. by destruct (DataProducer.closed p).
  - unfold DataConsumer.close. by destruct (DataConsumer.closed c).
Qed.

(** Everything but the children, the subscriptions and the log. *)
Record same_rest (w w' : world) : Prop := mkSameRest {
  sr_transports : transports w' = transports w;
  sr_routers : routers w' = routers w;
  sr_servers : servers w' = servers w;
  sr_workers : workers w' = workers w;
  sr_observers : observers w' = observers w
}.

Lemma same_rest_refl w : same_rest w w.
Proof. done. Qed.

Lemma same_rest_trans w1 w2 w3 : same_rest w1 w2 -> same_rest w2 w3 -> same_rest w1 w3.
Proof. intros [] []. split; congruence. Qed.

Lemma on_child_event_other l ev w n :
  children w !! l = Some n -> removing_event (kind_of (n_child n)) ev = false ->
  on_child_event l ev w = w.
Proof. intros Hl He. unfold on_child_event. by rewrite Hl, He. Qed.

(** [transportClosed] touches the child only. *)
Lemma apply_transportClosed_spec l w :
  let w' := apply_child child_transportClosed l w in
  children w' = alter close_node l (children w) /\ same_rest w w'.
Proof.
  unfold apply_child. destruct (children w !! l) as [n|] eqn:Hl.
  - rewrite child_transportClosed_eq. destruct (child_closed (n_child n)) eqn:Hc.
    + simpl. split; [|done]. rewrite alter_id; [|intros x; rewrite Hl; intros [= ->]; by apply close_node_id].
      rewrite insert_id; [done|]. rewrite Hl. by destruct n.
    + cbn [foldl run_effect].
      rewrite (on_child_event_other _ _ _ (with_child (mark_closed (n_child n)) n));
        [|apply lookup_insert_eq|by destruct (n_child n)].
      split; [|done]. simpl. apply map_eq. intros l'. destruct (decide (l' = l)) as [->|].
      * by rewrite lookup_insert_eq, lookup_alter_eq, Hl.
      * by rewrite lookup_insert_ne, lookup_alter_ne by congruence.
  - split; [|done]. by rewrite alter_id' by done.
Qed.

(** A child is closed by itself or by its producer: the entries of its
    transport and, for producers, of its router go. *)
Definition remove_child (n : child_node) (t : transport) : transport :=
  update_t_sctp (fun s => match n_streamId n with Some i => mark_stream false i s | None => s end)
    (update_t_map (kind_of (n_child n)) (jdel (child_id (n_child n))) t).

Definition removed_child (l : loc) (n : child_node) (w w' : world) : Prop :=
  children w' = alter close_node l (children w) /\
  transports w' = alter (remove_child n) (n_transport n) (transports w) /\
  (routers w' = routers w \/
   exists tr, transports w !! n_transport n = Some tr /\
     routers w' = alter (update_r_map (kind_of (n_child n)) (jdel (child_id (n_child n))))
                    (t_router tr) (routers w)) /\
  servers w' = servers w /\ workers w' = workers w /\ observers w' = observers w.

Definition core_eq (w w' : world) : Prop := children w' = children w /\ same_rest w w'.

Lemma core_eq_refl w : core_eq w w.
Proof. done. Qed.

Lemma core_eq_trans w1 w2 w3 : core_eq w1 w2 -> core_eq w2 w3 -> core_eq w1 w3.
Proof. intros [H1 []] [H2 []]. split; [congruence|]. split; congruence. Qed.

(** Effects that remove nothing from a map. *)
Definition quiet (k : child_kind) (es : list effect) : Prop :=
  Forall (fun e => match e with Emit ev _ => removing_event k ev = false | _ => True end) es.

Lemma run_quiet l wk w n es :
  children w !! l = Some n -> quiet (kind_of (n_child n)) es ->
  core_eq w (foldl (run_effect l wk) w es).
Proof.
  intros Hl Hq. revert w Hl. induction Hq as [|e es He _ IH]; intros w Hl; [done|]. cbn [foldl].
  assert (core_eq w (run_effect l wk w e)) as Hw.
  { destruct e; try done. simpl. by rewrite (on_child_event_other _ _ _ n). }
  eapply core_eq_trans; [exact Hw|]. apply IH. destruct Hw as [-> _]. done.
Qed.

(** The event on which the listeners remove the child. *)
Lemma run_removing l wk w n ev arg :
  children w !! l = Some n -> removing_event (kind_of (n_child n)) ev = true ->
  let w' := run_effect l wk w (Emit ev arg) in
  children w' = children w /\
  transports w' = alter (remove_child n) (n_transport n) (transports w) /\
  (routers w' = routers w \/
   exists tr, transports w !! n_transport n = Some tr /\
     routers w' = alter (update_r_map (kind_of (n_child n)) (jdel (child_id (n_child n))))
                    (t_router tr) (routers w)) /\
  servers w' = servers w /\ workers w' = workers w /\ observers w' = observers w.
Proof.
  intros Hl He. cbn [run_effect]. unfold on_child_event. simpl. rewrite Hl, He.
  unfold tell_router_closed. simpl. fold (remove_child n).
  destruct (close_event _); [|by split_and!; try done; left].
  rewrite lookup_alter_eq. destruct (transports w !! n_transport n) as [tr|] eqn:Ht; simpl.
  - split_and!; try done. right. by exists tr.
  - split_and!; try done. by left.
Qed.

Lemma apply_removing f l w n es ev arg es' :
  children w !! l = Some n -> f (n_child n) = (mark_closed (n_child n), es ++ Emit ev arg :: es') ->
  quiet (kind_of (n_child n)) es -> removing_event (kind_of (n_child n)) ev = true ->
  quiet (kind_of (n_child n)) es' ->
  removed_child l n w (apply_child f l w).
Proof.
  intros Hl Hf Hes Hev Hes'. unfold apply_child. rewrite Hl, Hf, foldl_app. cbn [foldl].
  set (wk := transport_worker _ _).
  set (w0 := set_children (insert l (with_child (mark_closed (n_child n)) n)) w).
  assert (children w0 !! l = Some (close_node n)) as Hl0 by apply lookup_insert_eq.
  assert (children w0 = alter close_node l (children w)) as Hc0.
  { simpl. apply map_eq. intros l'. destruct (decide (l' = l)) as [->|].
    - by rewrite lookup_insert_eq, lookup_alter_eq, Hl.
    - by rewrite lookup_insert_ne, lookup_alter_ne by congruence. }
  rewrite <-(close_node_kind n) in Hes, Hev, Hes'.
  destruct (run_quiet l wk w0 _ es Hl0 Hes) as [Hc1 Hr1].
  set (w1 := foldl (run_effect l wk) w0 es) in *.
  assert (children w1 !! l = Some (close_node n)) as Hl1 by (by rewrite Hc1).
  destruct (run_removing l wk w1 _ ev arg Hl1 Hev) as (Hc2 & Ht2 & Hr2 & Hs2 & Hw2 & Ho2).
  set (w2 := run_effect l wk w1 (Emit ev arg)) in *.
  assert (children w2 !! l = Some (close_node n)) as Hl2 by (by rewrite Hc2).
  destruct (run_quiet l wk w2 _ es' Hl2 Hes') as [Hc3 Hr3].
  destruct Hr1 as [Rt1 Rr1 Rs1 Rw1 Ro1], Hr3 as [Rt3 Rr3 Rs3 Rw3 Ro3].
  rewrite close_node_transport in *.
  assert (remove_child (close_node n) = remove_child n) as Hrm.
  { unfold remove_child. by rewrite close_node_kind, close_node_child_id. }
  rewrite close_node_kind, close_node_child_id, Hrm, Rt1, Rr1 in *. unfold removed_child.
  assert (core_rest : same_rest w w0) by done. destruct core_rest as [Ct Cr Cs Cw Co].
  rewrite Ct, Cr in *. split_and!; try congruence.
  rewrite Rr3. exact Hr2.
Qed.

Lemma close_child_spec l w :
  core_eq w (close_child l w) /\
    (forall n, children w !! l = Some n -> child_closed (n_child n) = true) \/
  exists n, children w !! l = Some n /\ node_open n /\ removed_child l n w (close_child l w).
Proof.
  unfold close_child. destruct (children w !! l) as [n|] eqn:Hl.
  - destruct (child_closed (n_child n)) eqn:Hc.
    + left. split; [|intros ?; by intros [= <-]].
      unfold apply_child. rewrite Hl, child_close_eq, Hc. simpl. split; [|done]. simpl.
      rewrite insert_id; [done|]. rewrite Hl. by destruct n.
    + right. exists n. split; [done|]. split; [done|].
      apply (apply_removing _ _ _ _ [Unsubscribe (child_id (n_child n)); close_request (n_child n)]
               "@close" VUndef [Observer "close" VUndef]); [done| | |done|].
      * by rewrite child_close_eq, Hc.
      * repeat constructor. by destruct (n_child n).
      * repeat constructor.
  - left. split; [|done]. unfold apply_child. by rewrite Hl.
Qed.

Lemma producerclose_spec l w :
  core_eq w (apply_child child_producerclose l w) \/
  exists n, children w !! l = Some n /\ node_open n /\
    removed_child l n w (apply_child child_producerclose l w).
Proof.
  destruct (children w !! l) as [n|] eqn:Hl; [|left; unfold apply_child; by rewrite Hl].
  assert (child_producerclose (n_child n) = (n_child n, []) \/
    child_closed (n_child n) = false /\ exists ev ev',
      child_producerclose (n_child n) = (mark_closed (n_child n),
        [Unsubscribe (child_id (n_child n))] ++ Emit ev VUndef :: [Emit ev' VUndef; Observer "close" VUndef]) /\
      removing_event (kind_of (n_child n)) ev = true /\ removing_event (kind_of (n_child n)) ev' = false)
    as [Hf|(Hc & ev & ev' & Hf & He & He')].
  { destruct (n_child n) as [p|c|p|c]; simpl; [by left| |by left|].
    - unfold Consumer.on_notification. simpl. destruct (Consumer.closed c); [by left|]. right.
      split; [done|]. by eexists _, _.
    - unfold DataConsumer.on_notification. simpl. destruct (DataConsumer.closed c); [by left|]. right.
      split; [done|]. by eexists _, _. }
  - left. unfold apply_child. rewrite Hl, Hf. simpl. split; [|done]. simpl.
    rewrite insert_id; [done|]. rewrite Hl. by destruct n.
  - right. exists n. split; [done|]. split; [done|].
    eapply apply_removing; [done|exact Hf|by repeat constructor|done|by repeat constructor].
Qed.

(** ** Transports *)

(** A router that keeps everything but entries of the maps of producers and
    data producers whose ids are [dead]. *)
Record shrinks (dead : child_kind -> string -> Prop) (ro ro' : router) : Prop := mkShrinks {
  sh_id : r_id ro' = r_id ro;
  sh_worker : r_worker ro' = r_worker ro;
  sh_closed : r_closed ro' = r_closed ro;
  sh_transports : r_transports ro' = r_transports ro;
  sh_rtpObservers : r_rtpObservers ro' = r_rtpObservers ro;
  sh_entries : forall k id l, (id, l) ∈ r_map k ro' -> (id, l) ∈ r_map k ro;
  sh_keeps : forall k id, ~ dead k id -> jget id (r_map k ro') = jget id (r_map k ro)
}.

Lemma shrinks_refl dead ro : shrinks dead ro ro.
Proof. by split. Qed.

Lemma shrinks_trans (dead dead' : child_kind -> string -> Prop) ro1 ro2 ro3 :
  shrinks dead ro1 ro2 -> shrinks dead' ro2 ro3 ->
  shrinks (fun k id => dead k id \/ dead' k id) ro1 ro3.
Proof.
  intros [] []. split; try congruence.
  - intros k id l Hin. by apply sh_entries0, sh_entries1.
  - intros k id Hd. rewrite sh_keeps1, sh_keeps0; [done|..]; intros ?; apply Hd; auto.
Qed.

Lemma shrinks_mono (dead dead' : child_kind -> string -> Prop) ro ro' :
  (forall k id, dead k id -> dead' k id) -> shrinks dead ro ro' -> shrinks dead' ro ro'.
Proof. intros Hd []. split; try done. intros k id Hn. apply sh_keeps0. intros ?. by apply Hn, Hd. Qed.

Definition routers_shrink (dead : loc -> child_kind -> string -> Prop) (m m' : gmap loc router) : Prop :=
  forall r, match m !! r, m' !! r with
            | Some ro, Some ro' => shrinks (dead r) ro ro'
            | None, None => True
            | _, _ => False
            end.

Lemma routers_shrink_refl dead m : routers_shrink dead m m.
Proof. intros r. destruct (m !! r); [apply shrinks_refl|done]. Qed.

Lemma routers_shrink_trans (dead dead' : loc -> child_kind -> string -> Prop) m1 m2 m3 :
  routers_shrink dead m1 m2 -> routers_shrink dead' m2 m3 ->
  routers_shrink (fun r k id => dead r k id \/ dead' r k id) m1 m3.
Proof.
  intros H1 H2 r. specialize (H1 r). specialize (H2 r).
  destruct (m1 !! r), (m2 !! r), (m3 !! r); try done. by eapply shrinks_trans.
Qed.

Lemma routers_shrink_mono (dead dead' : loc -> child_kind -> string -> Prop) m m' :
  (forall r k id, dead r k id -> dead' r k id) -> routers_shrink dead m m' -> routers_shrink dead' m m'.
Proof.
  intros Hd H r. specialize (H r). destruct (m !! r), (m' !! r); try done.
  eapply shrinks_mono; [|exact H]. apply Hd.
Qed.

Lemma update_r_map_shrinks k id ro :
  shrinks (fun k' id' => k' = k /\ id' = id) ro (update_r_map k (jdel id) ro).
Proof.
  split; try done.
  - intros k' id' l. destruct k'; simpl; try done; case_decide; try done; rewrite elem_of_jdel; tauto.
  - intros k' id' Hd. destruct k'; simpl in *; try done; case_decide as Hk; try done;
      (rewrite jget_jdel_ne; [done|]; intros ->; by apply Hd).
Qed.

Lemma tell_router_closed_spec t k id w :
  let w' := tell_router_closed t k id w in
  children w' = children w /\ transports w' = transports w /\ servers w' = servers w /\
  workers w' = workers w /\ observers w' = observers w /\
  routers_shrink (fun r k' id' => k' = k /\ id' = id /\
                    exists tr, transports w !! t = Some tr /\ t_router tr = r)
    (routers w) (routers w').
Proof.
  unfold tell_router_closed. destruct (close_event k); [|by split_and!; try done; apply routers_shrink_refl].
  destruct (transports w !! t) as [tr|] eqn:Ht; [|by split_and!; try done; apply routers_shrink_refl].
  split_and!; try done. simpl. intros r. destruct (decide (r = t_router tr)) as [->|Hr].
  - rewrite lookup_alter_eq. destruct (routers w !! t_router tr); simpl; [|done].
    eapply shrinks_mono; [|apply update_r_map_shrinks]. intros k' id' [-> ->]. split_and!; try done. by exists tr.
  - rewrite lookup_alter_ne by congruence. destruct (routers w !! r); [apply shrinks_refl|done].
Qed.

(** Closing a list of children. *)
Definition dead_of (t : loc) (ls : list loc) (w : world) (r : loc) (k : child_kind) (id : string) : Prop :=
  exists l n tr, l ∈ ls /\ children w !! l = Some n /\ child_id (n_child n) = id /\
    transports w !! t = Some tr /\ t_router tr = r.

Lemma close_one_spec tell t k w l :
  let w' := close_one tell t k w l in
  children w' = alter close_node l (children w) /\ transports w' = transports w /\
  servers w' = servers w /\ workers w' = workers w /\ observers w' = observers w /\
  (tell = false -> routers w' = routers w) /\
  routers_shrink (fun r k' id => k' = k /\ dead_of t [l] w r k id) (routers w) (routers w').
Proof.
  unfold close_one. destruct (apply_transportClosed_spec l w) as [Hc [Ht Hr Hs Hw Ho]].
  set (w1 := apply_child _ _ _) in *. destruct tell.
  - destruct (children w1 !! l) as [n|] eqn:Hl.
    + destruct (tell_router_closed_spec t k (child_id (n_child n)) w1) as (Hc2 & Ht2 & Hs2 & Hw2 & Ho2 & Hr2).
      split_and!; try congruence. rewrite Hr in Hr2.
      eapply routers_shrink_mono; [|exact Hr2]. intros r k' id (-> & -> & tr & Htr & <-).
      split; [done|]. rewrite Hc in Hl. rewrite lookup_alter_eq in Hl.
      apply fmap_Some in Hl as (n0 & Hn0 & ->). rewrite Ht in Htr. rewrite close_node_child_id.
      exists l, n0, tr. split_and!; try done. by left.
    + split_and!; try congruence. rewrite Hr. apply routers_shrink_refl.
  - split_and!; try congruence. rewrite Hr. apply routers_shrink_refl.
Qed.

Lemma close_list_spec tell t k ls w :
  let w' := foldl (close_one tell t k) w ls in
  (forall l, children w' !! l = (fun n => if decide (l ∈ ls) then close_node n else n) <$> children w !! l) /\
  transports w' = transports w /\
  servers w' = servers w /\ workers w' = workers w /\ observers w' = observers w /\
  (tell = false -> routers w' = routers w) /\
  routers_shrink (fun r k' id => k' = k /\ dead_of t ls w r k id) (routers w) (routers w').
Proof.
  revert w. induction ls as [|l ls IH]; intros w; cbn [foldl].
  { split_and!; try done; [|apply routers_shrink_refl].
    intros l. by destruct (children w !! l). }
  destruct (close_one_spec tell t k w l) as (Hc1 & Ht1 & Hs1 & Hw1 & Ho1 & Hr1 & Hd1).
  destruct (IH (close_one tell t k w l)) as (Hc2 & Ht2 & Hs2 & Hw2 & Ho2 & Hr2 & Hd2).
  set (w1 := close_one tell t k w l) in *. set (w2 := foldl _ w1 ls) in *.
  split_and!; try congruence.
  - intros l'. rewrite Hc2, Hc1. destruct (decide (l' = l)) as [->|Hne].
    + rewrite lookup_alter_eq. destruct (children w !! l) as [n|]; simpl; [|done].
      rewrite (decide_True (P := l ∈ l :: ls)) by by left. case_decide; [by rewrite close_node_idem|done].
    + rewrite lookup_alter_ne by congruence. destruct (children w !! l'); simpl; [|done].
      destruct (decide (l' ∈ ls)); [rewrite decide_True; [done|by right]|].
      rewrite decide_False; [done|]. rewrite elem_of_cons. tauto.
  - intros Htell. rewrite Hr2, Hr1; done.
  - eapply routers_shrink_mono; [|exact (routers_shrink_trans _ _ _ _ _ Hd1 Hd2)].
    intros r k' id [(-> & l0 & n & tr & Hin & Hn & Hid & Htr & Hro)|(-> & l0 & n & tr & Hin & Hn & Hid & Htr & Hro)];
      (split; [done|]).
    + exists l0, n, tr. split_and!; try done. apply list_elem_of_singleton in Hin as ->. by left.
    + rewrite Hc1 in Hn. rewrite Ht1 in Htr. destruct (decide (l0 = l)) as [->|Hne].
      * rewrite lookup_alter_eq in Hn. apply fmap_Some in Hn as (n0 & Hn0 & ->).
        rewrite close_node_child_id in Hid. exists l, n0, tr. split_and!; try done. by left.
      * rewrite lookup_alter_ne in Hn by congruence. exists l0, n, tr. split_and!; try done. by right.
Qed.

Definition all_children (tr : transport) : list loc :=
  jvals (t_producers tr) ++ jvals (t_consumers tr) ++ jvals (t_dataProducers tr) ++
  jvals (t_dataConsumers tr).

Definition emptied (tr : transport) : transport :=
  mkTransport (t_id tr) (t_class tr) (t_router tr) (t_server tr) (t_closed tr) (t_data tr)
    [] [] [] [] (t_cname tr) (t_nextMid tr) (t_sctp tr).

(** The ids of the children of [tr] in its map for [k], in the router of [tr]. *)
Definition dead_ids (tr : transport) (w : world) (r : loc) (k : child_kind) (id : string) : Prop :=
  t_router tr = r /\
  exists l n, l ∈ jvals (t_map k tr) /\ children w !! l = Some n /\ child_id (n_child n) = id.

(** The children in [ls] are closed, [tr'] replaces [tr] at [t]. *)
Record closes (tell : bool) (t : loc) (tr tr' : transport) (ls : list loc) (w w' : world) : Prop := mkCloses {
  cl_children : forall l, children w' !! l =
    (fun n => if decide (l ∈ ls) then close_node n else n) <$> children w !! l;
  cl_transports : transports w' = <[t := tr']> (transports w);
  cl_servers : servers w' = servers w;
  cl_workers : workers w' = workers w;
  cl_observers : observers w' = observers w;
  cl_silent : tell = false -> routers w' = routers w;
  cl_routers : routers_shrink (dead_ids tr w) (routers w) (routers w')
}.

Lemma close_kind_spec tell t w k tr tr0 :
  transports w !! t = Some tr -> t_map k tr = t_map k tr0 -> t_router tr = t_router tr0 ->
  closes tell t tr0 (update_t_map k (fun _ => []) tr) (jvals (t_map k tr)) w (close_kind tell t w k).
Proof.
  intros Ht Hk Hr. unfold close_kind. rewrite Ht.
  destruct (close_list_spec tell t k (jvals (t_map k tr)) w) as (Hc & Htr & Hs & Hw & Ho & Hsil & Hd).
  set (w1 := foldl _ w _) in *. split; try done.
  - simpl. rewrite Htr. apply map_eq. intros t'. destruct (decide (t' = t)) as [->|].
    + by rewrite lookup_alter_eq, lookup_insert_eq, Ht.
    + by rewrite lookup_alter_ne, lookup_insert_ne by congruence.
  - simpl. eapply routers_shrink_mono; [|exact Hd].
    intros r k' id (-> & l & n & tr1 & Hl & Hn & Hid & Ht1 & Hro). rewrite Ht in Ht1.
    injection Ht1 as <-. split; [congruence|]. rewrite <-Hk. by exists l, n.
Qed.

Lemma closes_trans tell t tr tr1 tr2 ls1 ls2 w w1 w2 :
  closes tell t tr tr1 ls1 w w1 -> closes tell t tr tr2 ls2 w1 w2 ->
  closes tell t tr tr2 (ls1 ++ ls2) w w2.
Proof.
  intros [C1 T1 S1 W1 O1 Si1 R1] [C2 T2 S2 W2 O2 Si2 R2]. split; try congruence.
  - intros l. rewrite C2, C1. destruct (children w !! l) as [n|]; simpl; [|done]. f_equal.
    destruct (decide (l ∈ ls1)) as [H1|H1], (decide (l ∈ ls2)) as [H2|H2].
    + rewrite decide_True; [by rewrite close_node_idem|]. apply elem_of_app. by left.
    + rewrite decide_True; [done|]. apply elem_of_app. by left.
    + rewrite decide_True; [done|]. apply elem_of_app. by right.
    + rewrite decide_False; [done|]. rewrite elem_of_app. tauto.
  - rewrite T2, T1. apply insert_insert_eq.
  - intros Ht. rewrite Si2, Si1; done.
  - eapply routers_shrink_mono; [|exact (routers_shrink_trans _ _ _ _ _ R1 R2)].
    intros r k id [H|(Hr & l & n & Hl & Hn & Hid)]; [done|]. split; [done|].
    rewrite C1 in Hn. apply fmap_Some in Hn as (n0 & Hn0 & ->). exists l, n0. split; [done|].
    split; [done|]. destruct (decide (l ∈ ls1)); [|done]. by rewrite close_node_child_id in Hid.
Qed.

Lemma t_map_update k k' f tr :
  t_map k (update_t_map k' f tr) = if decide (k' = k) then f (t_map k tr) else t_map k tr.
Proof. by destruct k, k'. Qed.

Lemma close_children_spec tell t w tr :
  transports w !! t = Some tr ->
  closes tell t tr (emptied tr) (all_children tr) w (close_children tell t w).
Proof.
  intros Ht. unfold close_children. cbn [foldl].
  pose proof (close_kind_spec tell t w KProducer tr tr Ht eq_refl eq_refl) as H1.
  set (w1 := close_kind tell t w KProducer) in *. set (tr1 := update_t_map KProducer _ tr) in *.
  assert (transports w1 !! t = Some tr1) as Ht1 by (rewrite (cl_transports _ _ _ _ _ _ _ H1); apply lookup_insert_eq).
  pose proof (close_kind_spec tell t w1 KConsumer tr1 tr Ht1 eq_refl eq_refl) as H2.
  set (w2 := close_kind tell t w1 KConsumer) in *. set (tr2 := update_t_map KConsumer _ tr1) in *.
  assert (transports w2 !! t = Some tr2) as Ht2 by (rewrite (cl_transports _ _ _ _ _ _ _ H2); apply lookup_insert_eq).
  pose proof (close_kind_spec tell t w2 KDataProducer tr2 tr Ht2 eq_refl eq_refl) as H3.
  set (w3 := close_kind tell t w2 KDataProducer) in *. set (tr3 := update_t_map KDataProducer _ tr2) in *.
  assert (transports w3 !! t = Some tr3) as Ht3 by (rewrite (cl_transports _ _ _ _ _ _ _ H3); apply lookup_insert_eq).
  pose proof (close_kind_spec tell t w3 KDataConsumer tr3 tr Ht3 eq_refl eq_refl) as H4.
  exact (closes_trans _ _ _ _ _ _ _ _ _ _ H1
    (closes_trans _ _ _ _ _ _ _ _ _ _ H2 (closes_trans _ _ _ _ _ _ _ _ _ _ H3 H4))).
Qed.

Lemma elem_of_all_children l tr : l ∈ all_children tr <-> exists k, l ∈ jvals (t_map k tr).
Proof.
  unfold all_children. rewrite !elem_of_app. split.
  - intros [H|[H|[H|H]]]; [exists KProducer|exists KConsumer|exists KDataProducer|exists KDataConsumer]; done.
  - intros [[] H]; auto.
Qed.

(** The three closing methods of an open transport. *)
Definition shut (tr : transport) : transport := emptied (closed_transport tr).

Lemma mark_transport_closed_closes tell t tr w w' ls tr' :
  transports w !! t = Some tr ->
  closes tell t (closed_transport tr) tr' ls (mark_transport_closed t tr w) w' ->
  closes tell t tr tr' ls w w'.
Proof.
  intros Ht [C T S W O Si R]. simpl in *. split; try done.
  - rewrite T. apply insert_insert_eq.
Qed.

Lemma routerClosed_spec t w tr :
  transports w !! t = Some tr -> t_closed tr = false ->
  closes false t tr (shut tr) (all_children tr) w (transport_routerClosed t w).
Proof.
  intros Ht Hc. unfold transport_routerClosed. rewrite Ht, Hc.
  apply (mark_transport_closed_closes _ _ _ _ _ _ _ Ht).
  pose proof (close_children_spec false t (mark_transport_closed t tr w) (closed_transport tr)
    (lookup_insert_eq _ _ _)) as [C T S W O Si R].
  by split.
Qed.

(** A transport closed by itself or by its WebRtcServer: the router forgets it,
    and so does the server in the first case. *)
Definition server_forgets (tr : transport) (m m' : gmap loc webRtcServer) : Prop :=
  m' = m \/ exists s, t_server tr = Some s /\ m' = alter (update_s_transports (jdel (t_id tr))) s m.

Record closes_transport (t : loc) (tr : transport) (w w' : world) : Prop := mkClosesTransport {
  ct_children : forall l, children w' !! l =
    (fun n => if decide (l ∈ all_children tr) then close_node n else n) <$> children w !! l;
  ct_transports : transports w' = <[t := shut tr]> (transports w);
  ct_servers : server_forgets tr (servers w) (servers w');
  ct_workers : workers w' = workers w;
  ct_observers : observers w' = observers w;
  ct_routers : exists m, routers_shrink (dead_ids tr w) (routers w) m /\
    routers w' = alter (update_r_transports (jdel (t_id tr))) (t_router tr) m
}.

Lemma emit_transport_close_spec t tr w :
  let w' := emit_transport_close t tr w in
  children w' = children w /\ transports w' = transports w /\ workers w' = workers w /\
  observers w' = observers w /\ server_forgets tr (servers w) (servers w') /\
  routers w' = alter (update_r_transports (jdel (t_id tr))) (t_router tr) (routers w).
Proof.
  unfold emit_transport_close, server_forgets. destruct (t_server tr) as [s|].
  - split_and!; try done. right. by exists s.
  - split_and!; try done. by left.
Qed.

Lemma transport_close_spec t w tr :
  transports w !! t = Some tr -> t_closed tr = false ->
  closes_transport t tr w (transport_close t w).
Proof.
  intros Ht Hc. unfold transport_close. rewrite Ht, Hc.
  set (w0 := record_effect _ _ (mark_transport_closed t tr w)).
  pose proof (close_children_spec true t w0 (closed_transport tr) (lookup_insert_eq _ _ _)) as H0.
  assert (closes true t tr (shut tr) (all_children tr) w (close_children true t w0)) as [C T S W O _ R].
  { apply (mark_transport_closed_closes _ _ _ _ _ _ _ Ht). destruct H0. by split. }
  set (w1 := close_children true t w0) in *.
  destruct (emit_transport_close_spec t tr w1) as (C2 & T2 & W2 & O2 & S2 & R2).
  split.
  - intros l. cbn [children record_effect]. by rewrite C2.
  - cbn [transports record_effect]. by rewrite T2.
  - cbn [servers record_effect]. by rewrite <-S.
  - cbn [workers record_effect]. by rewrite W2.
  - cbn [observers record_effect]. by rewrite O2.
  - exists (routers w1). split; [done|]. cbn [routers record_effect]. done.
Qed.

Lemma listenServerClosed_spec t w tr :
  transports w !! t = Some tr -> t_closed tr = false ->
  closes_transport t tr w (transport_listenServerClosed t w).
Proof.
  intros Ht Hc. unfold transport_listenServerClosed. rewrite Ht, Hc.
  set (w0 := mark_transport_closed t tr w).
  pose proof (close_children_spec false t w0 (closed_transport tr) (lookup_insert_eq _ _ _)) as H0.
  assert (closes false t tr (shut tr) (all_children tr) w (close_children false t w0)) as [C T S W O Si R].
  { apply (mark_transport_closed_closes _ _ _ _ _ _ _ Ht). destruct H0. by split. }
  set (w1 := close_children false t w0) in *. split; try done.
  - left. done.
  - exists (routers w1). split; [done|]. done.
Qed.

Lemma listenServerClosed_servers t w tr :
  transports w !! t = Some tr -> t_closed tr = false ->
  servers (transport_listenServerClosed t w) = servers w.
Proof.
  intros Ht Hc. unfold transport_listenServerClosed. rewrite Ht, Hc. simpl.
  by rewrite (cl_servers _ _ _ _ _ _ _
    (close_children_spec false t (mark_transport_closed t tr w) _ (lookup_insert_eq _ _ _))).
Qed.

(** A transport that is closed already, or does not exist. *)
Definition closed_or_gone (t : loc) (w : world) : Prop :=
  forall tr, transports w !! t = Some tr -> t_closed tr = true.

Lemma routerClosed_noop t w : closed_or_gone t w -> transport_routerClosed t w = w.
Proof.
  intros H. unfold transport_routerClosed. destruct (transports w !! t) eqn:Ht; [|done].
  by rewrite (H _ Ht).
Qed.
Lemma transport_close_noop t w : closed_or_gone t w -> transport_close t w = w.
Proof.
  intros H. unfold transport_close. destruct (transports w !! t) eqn:Ht; [|done].
  by rewrite (H _ Ht).
Qed.
Lemma listenServerClosed_noop t w : closed_or_gone t w -> transport_listenServerClosed t w = w.
Proof.
  intros H. unfold transport_listenServerClosed. destruct (transports w !! t) eqn:Ht; [|done].
  by rewrite (H _ Ht).
Qed.

(** ** RtpObservers *)

Definition closed_observer (o : RtpObserver.rtpObserver * loc) : RtpObserver.rtpObserver * loc :=
  (RtpObserver.with_closed true o.1, o.2).

Definition observer_open (o : RtpObserver.rtpObserver * loc) : bool := negb (RtpObserver.closed o.1).
Definition observer_id (o : RtpObserver.rtpObserver * loc) : string := RtpObserver.rtpObserverId o.1.

Lemma observer_close_spec l w o :
  observers w !! l = Some o -> observer_open o = true ->
  let w' := observer_close l w in
  children w' = children w /\ transports w' = transports w /\ servers w' = servers w /\
  workers w' = workers w /\ observers w' = <[l := closed_observer o]> (observers w) /\
  routers w' = alter (update_r_rtpObservers (jdel (observer_id o))) o.2 (routers w).
Proof.
  destruct o as [o r]. unfold observer_open, observer_close, apply_observer. simpl. intros -> Ho.
  unfold RtpObserver.close. by destruct (RtpObserver.closed o).
Qed.

Lemma observer_routerClosed_spec l w o :
  observers w !! l = Some o -> observer_open o = true ->
  let w' := observer_routerClosed l w in
  children w' = children w /\ transports w' = transports w /\ servers w' = servers w /\
  workers w' = workers w /\ observers w' = <[l := closed_observer o]> (observers w) /\
  routers w' = routers w.
Proof.
  destruct o as [o r]. unfold observer_open, observer_routerClosed, apply_observer. simpl. intros -> Ho.
  unfold RtpObserver.routerClosed. by destruct (RtpObserver.closed o).
Qed.

(** An observer that is closed already, or does not exist. *)
Lemma observer_noop f l w :
  (forall o, RtpObserver.closed o = true -> f o = (o, [])) ->
  (forall o, observers w !! l = Some o -> observer_open o = false) ->
  core_eq w (apply_observer f l w).
Proof.
  intros Hf Hc. unfold apply_observer. destruct (observers w !! l) as [[o r]|] eqn:Hl; [|done].
  specialize (Hc _ eq_refl). unfold observer_open in Hc. simpl in Hc. rewrite Hf by by destruct (RtpObserver.closed o).
  simpl. split; [done|]. split; try done. simpl. by rewrite insert_id.
Qed.
