(* ===== verification/WorldInv.v ===== *)
(** * The registration invariants of World.v

    Every map of an object holds exactly the open objects that belong to it.
    The invariants come in layers, one per map; a closing method preserves a
    layer by what WorldSpec.v says of the parts of the store the layer is about. *)

From S2P Require Import Prelude Js RtpParameters Framing Events TransportState World WorldSpec Registry.
From S2P Require Producer Consumer DataProducer DataConsumer RtpObserver.

(** ** Layer 1: children and their transports *)

Record child_inv (cs : gmap loc child_node) (ts : gmap loc transport) : Prop := mkChildInv {
  ci_registered : forall l n, cs !! l = Some n -> node_open n ->
    exists tr, ts !! n_transport n = Some tr /\ (child_id (n_child n), l) ∈ t_map (kind_of (n_child n)) tr;
  ci_entry : forall t tr k id l, ts !! t = Some tr -> (id, l) ∈ t_map k tr ->
    exists n, cs !! l = Some n /\ n_transport n = t /\ kind_of (n_child n) = k /\
      child_id (n_child n) = id /\ node_open n;
  ci_keys : forall t tr k, ts !! t = Some tr -> NoDup (jkeys (t_map k tr));
  ci_closed : forall t tr k, ts !! t = Some tr -> t_closed tr = true -> t_map k tr = []
}.

Lemma elem_of_jvals_all l tr k id : (id, l) ∈ t_map k tr -> l ∈ all_children tr.
Proof. intros H. apply elem_of_all_children. exists k. apply elem_of_jvals. by exists id. Qed.

Lemma owned_transport cs ts t tr l :
  child_inv cs ts -> ts !! t = Some tr -> l ∈ all_children tr ->
  exists n, cs !! l = Some n /\ n_transport n = t /\ node_open n.
Proof.
  intros Hi Ht Hl. apply elem_of_all_children in Hl as [k Hl]. apply elem_of_jvals in Hl as [id Hl].
  destruct (ci_entry _ _ Hi _ _ _ _ _ Ht Hl) as (n & ? & ? & _ & _ & ?). by exists n.
Qed.

Lemma closed_transport_children cs ts l n :
  child_inv cs ts -> cs !! l = Some n ->
  (forall tr, ts !! n_transport n = Some tr -> t_closed tr = true) -> child_closed (n_child n) = true.
Proof.
  intros Hi Hl Ht. destruct (child_closed (n_child n)) eqn:Hc; [done|].
  destruct (ci_registered _ _ Hi _ _ Hl Hc) as (tr & Htr & Hin).
  rewrite (ci_closed _ _ Hi _ _ _ Htr (Ht _ Htr)) in Hin. by apply elem_of_nil in Hin.
Qed.

(** The maps hold the open children. *)
Lemma child_inv_exact cs ts t tr k id l :
  child_inv cs ts -> ts !! t = Some tr ->
  (id, l) ∈ t_map k tr <->
  exists n, cs !! l = Some n /\ node_open n /\ n_transport n = t /\ kind_of (n_child n) = k /\
    child_id (n_child n) = id.
Proof.
  intros Hi Ht. split.
  - intros Hin. destruct (ci_entry _ _ Hi _ _ _ _ _ Ht Hin) as (n & ? & ? & ? & ? & ?). by exists n.
  - intros (n & Hn & Ho & Hnt & <- & <-). destruct (ci_registered _ _ Hi _ _ Hn Ho) as (tr' & Ht' & Hin).
    congruence.
Qed.

(** Closing the children a transport has in its maps closes all its children. *)
Lemma all_children_exact cs ts t tr :
  child_inv cs ts -> ts !! t = Some tr ->
  forall l, (fun n => if decide (l ∈ all_children tr) then close_node n else n) <$> cs !! l =
            (fun n => if decide (n_transport n = t) then close_node n else n) <$> cs !! l.
Proof.
  intros Hi Ht l. destruct (cs !! l) as [n|] eqn:Hl; simpl; [|done]. f_equal.
  destruct (decide (l ∈ all_children tr)) as [Hin|Hin].
  - destruct (owned_transport _ _ _ _ _ Hi Ht Hin) as (n' & Hn' & Htr & _).
    rewrite Hl in Hn'. injection Hn' as <-. by rewrite decide_True.
  - case_decide as Htr; [|done]. symmetry. apply close_node_id.
    destruct (child_closed (n_child n)) eqn:Hc; [done|]. exfalso.
    destruct (ci_registered _ _ Hi _ _ Hl Hc) as (tr' & Htr' & Hreg).
    rewrite Htr, Ht in Htr'. injection Htr' as <-. apply Hin. by eapply elem_of_jvals_all.
Qed.

(** A transport is shut and its children are closed. *)
Lemma child_inv_shut cs ts cs' t tr :
  child_inv cs ts -> ts !! t = Some tr ->
  (forall l, cs' !! l = (fun n => if decide (n_transport n = t) then close_node n else n) <$> cs !! l) ->
  child_inv cs' (<[t := shut tr]> ts).
Proof.
  intros Hi Ht Hcs. split.
  - intros l n Hl Hopen. rewrite Hcs in Hl. apply fmap_Some in Hl as (n0 & Hl & ->).
    case_decide as Hn.
    { unfold node_open in Hopen. by rewrite close_node_closed in Hopen. }
    destruct (ci_registered _ _ Hi _ _ Hl Hopen) as (tr0 & Ht0 & Hin). exists tr0.
    by rewrite lookup_insert_ne by congruence.
  - intros t' tr' k id l Ht' Hin. destruct (decide (t' = t)) as [->|Hne].
    + rewrite lookup_insert_eq in Ht'. injection Ht' as <-. by destruct k; apply elem_of_nil in Hin.
    + rewrite lookup_insert_ne in Ht' by congruence.
      destruct (ci_entry _ _ Hi _ _ _ _ _ Ht' Hin) as (n & Hl & Hn & Hk & Hid & Hopen).
      exists n. rewrite Hcs, Hl. simpl. by rewrite decide_False by congruence.
  - intros t' tr' k Ht'. destruct (decide (t' = t)) as [->|Hne].
    + rewrite lookup_insert_eq in Ht'. injection Ht' as <-. destruct k; constructor.
    + rewrite lookup_insert_ne in Ht' by congruence. by eapply ci_keys.
  - intros t' tr' k Ht' Hc. destruct (decide (t' = t)) as [->|Hne].
    + rewrite lookup_insert_eq in Ht'. injection Ht' as <-. by destruct k.
    + rewrite lookup_insert_ne in Ht' by congruence. by eapply ci_closed.
Qed.

(** A child is removed by the listeners of its transport. *)
Lemma t_map_remove_child k n tr :
  t_map k (remove_child n tr) =
    if decide (kind_of (n_child n) = k) then jdel (child_id (n_child n)) (t_map k tr) else t_map k tr.
Proof. unfold remove_child. destruct k; simpl; by destruct (kind_of (n_child n)). Qed.

Lemma child_inv_remove cs ts l n :
  child_inv cs ts -> cs !! l = Some n -> node_open n ->
  child_inv (alter close_node l cs) (alter (remove_child n) (n_transport n) ts).
Proof.
  intros Hi Hl Hopen.
  destruct (ci_registered _ _ Hi _ _ Hl Hopen) as (tr & Ht & Hreg).
  assert (forall t tr', alter (remove_child n) (n_transport n) ts !! t = Some tr' ->
    exists tr0, ts !! t = Some tr0 /\ tr' = if decide (t = n_transport n) then remove_child n tr0 else tr0)
    as Hts.
  { intros t tr' H. destruct (decide (t = n_transport n)) as [->|Hne].
    - rewrite lookup_alter_eq, Ht in H. injection H as <-. by exists tr.
    - rewrite lookup_alter_ne in H by congruence. by exists tr'. }
  split.
  - intros l' n' Hl' Hopen'. destruct (decide (l' = l)) as [->|Hne].
    { rewrite lookup_alter_eq, Hl in Hl'. injection Hl' as <-. unfold node_open in Hopen'.
      by rewrite close_node_closed in Hopen'. }
    rewrite lookup_alter_ne in Hl' by congruence.
    destruct (ci_registered _ _ Hi _ _ Hl' Hopen') as (tr' & Ht' & Hin').
    destruct (decide (n_transport n' = n_transport n)) as [Heq|Hneq].
    + rewrite Heq, Ht in Ht'. injection Ht' as <-. exists (remove_child n tr).
      rewrite Heq, lookup_alter_eq, Ht. split; [done|]. rewrite t_map_remove_child.
      case_decide as Hk; [|done]. apply elem_of_jdel. split; [done|]. intros Hid. apply Hne.
      rewrite <-Hk, Hid in Hin'.
      apply (elem_of_jget _ _ _ (ci_keys _ _ Hi _ _ _ Ht)) in Hin', Hreg. congruence.
    + exists tr'. by rewrite lookup_alter_ne by congruence.
  - intros t tr' k id l' Ht' Hin. destruct (Hts _ _ Ht') as (tr0 & Ht0 & ->).
    assert ((id, l') ∈ t_map k tr0 /\ l' <> l) as [Hin0 Hne].
    { case_decide as Heq.
      - subst t. rewrite Ht in Ht0. injection Ht0 as <-. rewrite t_map_remove_child in Hin.
        case_decide as Hk.
        + apply elem_of_jdel in Hin as [Hin Hid]. split; [done|]. intros ->. apply Hid.
          destruct (ci_entry _ _ Hi _ _ _ _ _ Ht Hin) as (n' & Hn' & _ & _ & Hid' & _). congruence.
        + split; [done|]. intros ->.
          destruct (ci_entry _ _ Hi _ _ _ _ _ Ht Hin) as (n' & Hn' & _ & Hk' & _). congruence.
      - split; [done|]. intros ->.
        destruct (ci_entry _ _ Hi _ _ _ _ _ Ht0 Hin) as (n' & Hn' & Htr & _). congruence. }
    destruct (ci_entry _ _ Hi _ _ _ _ _ Ht0 Hin0) as (n' & Hn' & Hrest).
    exists n'. by rewrite lookup_alter_ne by congruence.
  - intros t tr' k Ht'. destruct (Hts _ _ Ht') as (tr0 & Ht0 & ->). case_decide.
    + rewrite t_map_remove_child. case_decide; [apply NoDup_jdel|]; by eapply ci_keys.
    + by eapply ci_keys.
  - intros t tr' k Ht' Hc. destruct (Hts _ _ Ht') as (tr0 & Ht0 & ->).
    assert (t_map k tr0 = []) as Hnil.
    { eapply ci_closed; [done|exact Ht0|]. by case_decide. }
    case_decide; [|done]. rewrite t_map_remove_child, Hnil. by case_decide.
Qed.

(** A child is added. *)
Lemma child_inv_add cs ts l t tr n :
  child_inv cs ts -> cs !! l = None -> ts !! t = Some tr -> t_closed tr = false ->
  node_open n -> n_transport n = t ->
  child_id (n_child n) ∉ jkeys (t_map (kind_of (n_child n)) tr) ->
  child_inv (<[l := n]> cs)
    (alter (update_t_map (kind_of (n_child n)) (jset (child_id (n_child n)) l)) t ts).
Proof.
  intros Hi Hl Ht Hc Hopen Hnt Hfresh. apply jget_None in Hfresh.
  set (tr1 := update_t_map (kind_of (n_child n)) (jset (child_id (n_child n)) l) tr).
  assert (forall t' tr', alter (update_t_map (kind_of (n_child n)) (jset (child_id (n_child n)) l)) t ts !! t' = Some tr' ->
    exists tr0, ts !! t' = Some tr0 /\ tr' = if decide (t' = t) then tr1 else tr0) as Hts.
  { intros t' tr' H. destruct (decide (t' = t)) as [->|Hne].
    - rewrite lookup_alter_eq, Ht in H. injection H as <-. by exists tr.
    - rewrite lookup_alter_ne in H by congruence. by exists tr'. }
  assert (forall k id l', (id, l') ∈ t_map k tr1 <->
    (id, l') ∈ t_map k tr \/ k = kind_of (n_child n) /\ id = child_id (n_child n) /\ l' = l) as Hmap.
  { intros k id l'. unfold tr1. rewrite t_map_update. case_decide as Hk.
    - subst k. rewrite jset_fresh by done. rewrite elem_of_app, list_elem_of_singleton. split.
      + intros [?|[= -> ->]]; auto.
      + intros [?|(_ & -> & ->)]; auto.
    - split; [auto|]. intros [?|(-> & _)]; done. }
  split.
  - intros l' n' Hl' Hopen'. destruct (decide (l' = l)) as [->|Hne].
    + rewrite lookup_insert_eq in Hl'. injection Hl' as <-. exists tr1. rewrite Hnt, lookup_alter_eq, Ht.
      split; [done|]. apply Hmap. auto.
    + rewrite lookup_insert_ne in Hl' by congruence.
      destruct (ci_registered _ _ Hi _ _ Hl' Hopen') as (tr' & Ht' & Hin').
      destruct (decide (n_transport n' = t)) as [Heq|Hneq].
      * rewrite Heq, Ht in Ht'. injection Ht' as <-. exists tr1. rewrite Heq, lookup_alter_eq, Ht.
        split; [done|]. apply Hmap. auto.
      * exists tr'. by rewrite lookup_alter_ne by congruence.
  - intros t' tr' k id l' Ht' Hin. destruct (Hts _ _ Ht') as (tr0 & Ht0 & ->).
    case_decide as Heq.
    + subst t'. rewrite Ht in Ht0. injection Ht0 as <-. apply Hmap in Hin as [Hin|(-> & -> & ->)].
      * destruct (ci_entry _ _ Hi _ _ _ _ _ Ht Hin) as (n' & Hn' & Hrest). exists n'.
        rewrite lookup_insert_ne by congruence. done.
      * exists n. rewrite lookup_insert_eq. done.
    + destruct (ci_entry _ _ Hi _ _ _ _ _ Ht0 Hin) as (n' & Hn' & Hrest). exists n'.
      rewrite lookup_insert_ne by congruence. done.
  - intros t' tr' k Ht'. destruct (Hts _ _ Ht') as (tr0 & Ht0 & ->). case_decide; [|by eapply ci_keys].
    unfold tr1. rewrite t_map_update. case_decide; [apply NoDup_jset|]; by eapply ci_keys.
  - intros t' tr' k Ht' Hc'. destruct (Hts _ _ Ht') as (tr0 & Ht0 & ->). case_decide as Heq.
    + subst tr1. simpl in Hc'. congruence.
    + by eapply ci_closed.
Qed.

(** ** Layer 2: the registries above the children *)

#[export] Instance transports_of_router : Registry transport router := {
  reg_parent tr := Some (t_router tr);
  reg_open tr := negb (t_closed tr);
  reg_closed := r_closed;
  reg_entries ro := jvals (r_transports ro)
}.

#[export] Instance observers_of_router : Registry (RtpObserver.rtpObserver * loc) router := {
  reg_parent o := Some o.2;
  reg_open := observer_open;
  reg_closed := r_closed;
  reg_entries ro := jvals (r_rtpObservers ro)
}.

#[export] Instance routers_of_worker : Registry router worker := {
  reg_parent ro := Some (r_worker ro);
  reg_open ro := negb (r_closed ro);
  reg_closed := w_closed;
  reg_entries := w_routers
}.

#[export] Instance servers_of_worker : Registry webRtcServer worker := {
  reg_parent sv := Some (s_worker sv);
  reg_open sv := negb (s_closed sv);
  reg_closed := w_closed;
  reg_entries := w_servers
}.

(** A WebRtcServer may keep transports that are closed. *)
#[export] Instance transports_of_server : Registry transport webRtcServer := {
  reg_parent := t_server;
  reg_open tr := negb (t_closed tr);
  reg_closed := s_closed;
  reg_entries sv := jvals (s_transports sv)
}.

(** ** Layer 3: what never changes *)

Record static_inv (w : world) : Prop := mkStaticInv {
  st_router : forall t tr, transports w !! t = Some tr -> exists ro, routers w !! t_router tr = Some ro;
  st_server : forall t tr s, transports w !! t = Some tr -> t_server tr = Some s ->
    exists sv, servers w !! s = Some sv /\
      forall ro, routers w !! t_router tr = Some ro -> r_worker ro = s_worker sv;
  st_transport_ids : distinct_ids t_id (transports w);
  st_observer_ids : distinct_ids observer_id (observers w);
  st_transports : forall r ro, routers w !! r = Some ro -> filed t_id (transports w) (r_transports ro);
  st_observers : forall r ro, routers w !! r = Some ro -> filed observer_id (observers w) (r_rtpObservers ro);
  st_handled : forall s sv, servers w !! s = Some sv -> filed t_id (transports w) (s_transports sv)
}.

(** ** Layer 4: producers are found in the maps of their router *)

Definition listed (k : child_kind) : Prop := k = KProducer \/ k = KDataProducer.

Record lookup_inv (cs : gmap loc child_node) (ts : gmap loc transport) (rs : gmap loc router) : Prop :=
  mkLookupInv {
  lk_found : forall l n tr, cs !! l = Some n -> node_open n -> listed (kind_of (n_child n)) ->
    ts !! n_transport n = Some tr ->
    exists ro, rs !! t_router tr = Some ro /\ jget (child_id (n_child n)) (r_map (kind_of (n_child n)) ro) = Some l;
  lk_entry : forall r ro k id l, rs !! r = Some ro -> (id, l) ∈ r_map k ro ->
    exists n tr, cs !! l = Some n /\ kind_of (n_child n) = k /\ child_id (n_child n) = id /\
      ts !! n_transport n = Some tr /\ t_router tr = r
}.

(** All layers; [L] and [C] are the objects that may be in a set although they
    are closed, and closed with a set that is not empty, while something closes. *)
Record Inv (L C : obj -> Prop) (w : world) : Prop := mkInv {
  inv_children : child_inv (children w) (transports w);
  inv_transports : registered (fun t => L (Otransport t)) (fun r => C (Orouter r)) (transports w) (routers w);
  inv_observers : registered (fun l => L (Oobserver l)) (fun r => C (Orouter r)) (observers w) (routers w);
  inv_routers : registered (fun r => L (Orouter r)) (fun k => C (Oworker k)) (routers w) (workers w);
  inv_servers : registered (fun s => L (Oserver s)) (fun k => C (Oworker k)) (servers w) (workers w);
  inv_handled : registered (fun _ => True) (fun s => C (Oserver s)) (transports w) (servers w);
  inv_static : static_inv w;
  inv_lookup : lookup_inv (children w) (transports w) (routers w)
}.

(** No exceptions: between two steps. *)
Definition none (o : obj) : Prop := False.
Definition consistent : world -> Prop := Inv none none.

Lemma Inv_mono (L L' C C' : obj -> Prop) w :
  (forall o, L o -> L' o) -> (forall o, C o -> C' o) -> Inv L C w -> Inv L' C' w.
Proof.
  intros HL HC [I1 I2 I3 I4 I5 I6 I7 I8].
  split; try done; (eapply registered_mono; [| |eassumption]; naive_solver).
Qed.

(** Subscriptions and log do not matter. *)
Lemma Inv_core L C w w' : core_eq w w' -> Inv L C w -> Inv L C w'.
Proof.
  intros [Hc [Ht Hr Hs Hw Ho]] [I1 I2 I3 I4 I5 I6 [] I8].
  split; rewrite ?Hc, ?Ht, ?Hr, ?Hs, ?Hw, ?Ho; try done.
  split; rewrite ?Hc, ?Ht, ?Hr, ?Hs, ?Hw, ?Ho; done.
Qed.
