(* ===== verification/Closing.v ===== *)
(** * The closing methods keep the registries

    A relation for what a closing method may do to the store ([ends]), and for
    every closing method that it keeps the invariant of WorldInv.v and that it
    ends its object and what is below. *)

From S2P Require Import Prelude Js RtpParameters Framing Events TransportState World WorldSpec Registry WorldInv.
From S2P Require Producer Consumer DataProducer DataConsumer RtpObserver.

(** ** What closing methods do *)

Definition obj_closed (x : obj) (w : world) : bool :=
  match x with
  | Ochild l => match children w !! l with Some n => child_closed (n_child n) | None => false end
  | Oobserver l => match observers w !! l with Some o => negb (observer_open o) | None => false end
  | Otransport t => match transports w !! t with Some tr => t_closed tr | None => false end
  | Orouter r => match routers w !! r with Some ro => r_closed ro | None => false end
  | Oserver s => match servers w !! s with Some sv => s_closed sv | None => false end
  | Oworker k => match workers w !! k with Some wk => w_closed wk | None => false end
  end.

Lemma alike_refl w : alike w w.
Proof. split; try done. exists []. by rewrite app_nil_r. Qed.

Lemma alike_trans w1 w2 w3 : alike w1 w2 -> alike w2 w3 -> alike w1 w3.
Proof.
  intros [A1 A2 A3 A4 A5 A6 A7 (es & Hl & Hq)] [B1 B2 B3 B4 B5 B6 B7 (es' & Hl' & Hq')].
  split; try congruence. exists (es ++ es'). rewrite Hl', Hl, app_assoc. split; [done|]. by apply Forall_app.
Qed.

#[export] Instance alike_preorder : PreOrder alike.
Proof. split; [exact alike_refl|exact alike_trans]. Qed.

Lemma record_alike o e w : quiet_effect e = true -> alike w (record_effect o e w).
Proof. intros He. split; try done. exists [(o, e)]. split; [done|]. by constructor. Qed.

(** Details do not tell whether an object is closed. *)
Lemma alike_closed x w w' : alike w w' -> obj_closed x w' = obj_closed x w.
Proof.
  intros [Hc Ho Ht Hr Hs Hw _ _]. destruct x as [l|l|t|r|s|k]; simpl; rewrite ?Hr, ?Hs, ?Hw; try done.
  - specialize (Hc l). destruct (children w' !! l), (children w !! l); try done. by injection Hc.
  - specialize (Ho l). destruct (observers w' !! l), (observers w !! l); try done. injection Ho as _ Hcl _.
    unfold observer_open. by rewrite Hcl.
  - specialize (Ht t). destruct (transports w' !! t), (transports w !! t); try done. by injection Ht.
Qed.

Definition c_static (n : child_node) : child_kind * string * loc :=
  (kind_of (n_child n), child_id (n_child n), n_transport n).
Definition t_static (tr : transport) : string * loc * option loc := (t_id tr, t_router tr, t_server tr).
Definition o_static (o : RtpObserver.rtpObserver * loc) : string * loc := (observer_id o, o.2).

(** A router after objects of it have closed: the entries are some of those before. *)
Record r_le (ro ro' : router) : Prop := mkRLe {
  rle_worker : r_worker ro' = r_worker ro;
  rle_transports : forall e, e ∈ r_transports ro' -> e ∈ r_transports ro;
  rle_observers : forall e, e ∈ r_rtpObservers ro' -> e ∈ r_rtpObservers ro;
  rle_map : forall k e, e ∈ r_map k ro' -> e ∈ r_map k ro
}.

Record s_le (sv sv' : webRtcServer) : Prop := mkSLe {
  sle_worker : s_worker sv' = s_worker sv;
  sle_transports : forall e, e ∈ s_transports sv' -> e ∈ s_transports sv
}.

#[export] Instance r_le_preorder : PreOrder r_le.
Proof. split; [intros ro; by split|]. intros ro1 ro2 ro3 [] []. split; [congruence|auto..]. Qed.
#[export] Instance s_le_preorder : PreOrder s_le.
Proof. split; [intros sv; by split|]. intros sv1 sv2 sv3 [] []. split; [congruence|auto]. Qed.

(** Objects in [T] may close; the others stay as they were. *)
Record ends (T : obj -> Prop) (w w' : world) : Prop := mkEnds {
  en_children : forall l, c_static <$> children w' !! l = c_static <$> children w !! l;
  en_transports : forall t, t_static <$> transports w' !! t = t_static <$> transports w !! t;
  en_observers : forall l, o_static <$> observers w' !! l = o_static <$> observers w !! l;
  en_routers : forall r, option_Forall2 r_le (routers w !! r) (routers w' !! r);
  en_servers : forall s, option_Forall2 s_le (servers w !! s) (servers w' !! s);
  en_closed : forall x, obj_closed x w' = obj_closed x w \/ T x /\ obj_closed x w' = true
}.

Lemma ends_refl T w : ends T w w.
Proof. by split; try done; auto. Qed.

Lemma ends_trans T w1 w2 w3 : ends T w1 w2 -> ends T w2 w3 -> ends T w1 w3.
Proof.
  intros [] []. split; try congruence.
  - intros r. by transitivity (routers w2 !! r).
  - intros s. by transitivity (servers w2 !! s).
  - intros x. destruct (en_closed1 x) as [Hx|?]; [rewrite Hx|by right]. auto.
Qed.

Lemma ends_mono (T T' : obj -> Prop) w w' : (forall x, T x -> T' x) -> ends T w w' -> ends T' w w'.
Proof. intros HT []. split; try done. intros x. destruct (en_closed0 x) as [?|[? ?]]; auto. Qed.

Lemma ends_core T w1 w2 w2' : core_eq w2 w2' -> ends T w1 w2 -> ends T w1 w2'.
Proof.
  intros [Hc [Ht Hr Hs Hw Ho]] []. split; rewrite ?Hc, ?Ht, ?Hr, ?Hs, ?Ho; try done.
  intros x. specialize (en_closed0 x).
  destruct x; simpl in *; by rewrite ?Hc, ?Ht, ?Hr, ?Hs, ?Ho, ?Hw.
Qed.

(** Only a closed object stays closed. *)
Lemma ends_closed T w w' x : ends T w w' -> obj_closed x w = true -> obj_closed x w' = true.
Proof. intros [] Hx. destruct (en_closed0 x) as [->|[_ ?]]; done. Qed.

(** The objects of the store afterwards are those before. *)
Lemma ends_child T w w' l n' :
  ends T w w' -> children w' !! l = Some n' ->
  exists n, children w !! l = Some n /\ c_static n' = c_static n /\ (node_open n' -> node_open n).
Proof.
  intros He Hl. pose proof (en_children _ _ _ He l) as Hs. rewrite Hl in Hs. symmetry in Hs.
  apply fmap_Some in Hs as (n & Hn & Heq). exists n. split_and!; [done..|]. unfold node_open. intros Ho.
  destruct (en_closed _ _ _ He (Ochild l)) as [Hc|[_ Hc]]; simpl in Hc; rewrite Hl, ?Hn in Hc; congruence.
Qed.

Lemma ends_transport T w w' t tr' :
  ends T w w' -> transports w' !! t = Some tr' ->
  exists tr, transports w !! t = Some tr /\ t_static tr' = t_static tr.
Proof.
  intros He Ht. pose proof (en_transports _ _ _ He t) as Hs. rewrite Ht in Hs. symmetry in Hs.
  apply fmap_Some in Hs as (tr & Htr & Heq). by exists tr.
Qed.

Lemma ends_router T w w' r ro' :
  ends T w w' -> routers w' !! r = Some ro' -> exists ro, routers w !! r = Some ro /\ r_le ro ro'.
Proof.
  intros He Hr. pose proof (en_routers _ _ _ He r) as Hs. rewrite Hr in Hs. inversion Hs. by eexists.
Qed.

Lemma ends_router_fwd T w w' r ro :
  ends T w w' -> routers w !! r = Some ro -> exists ro', routers w' !! r = Some ro' /\ r_le ro ro'.
Proof.
  intros He Hr. pose proof (en_routers _ _ _ He r) as Hs. rewrite Hr in Hs. inversion Hs. by eexists.
Qed.

Lemma ends_server T w w' s sv' :
  ends T w w' -> servers w' !! s = Some sv' -> exists sv, servers w !! s = Some sv /\ s_le sv sv'.
Proof.
  intros He Hr. pose proof (en_servers _ _ _ He s) as Hs. rewrite Hr in Hs. inversion Hs. by eexists.
Qed.

Lemma ends_server_fwd T w w' s sv :
  ends T w w' -> servers w !! s = Some sv -> exists sv', servers w' !! s = Some sv' /\ s_le sv sv'.
Proof.
  intros He Hr. pose proof (en_servers _ _ _ He s) as Hs. rewrite Hr in Hs. inversion Hs. by eexists.
Qed.

Lemma static_ends T w w' : ends T w w' -> static_inv w -> static_inv w'.
Proof.
  intros He [H1 H2 H3 H4 H5 H6 H7].
  assert (forall t, t_id <$> transports w' !! t = t_id <$> transports w !! t) as Hid.
  { intros t. pose proof (en_transports _ _ _ He t) as Hs.
    destruct (transports w' !! t), (transports w !! t); simpl in *; try done. by injection Hs as -> _ _. }
  assert (forall l, observer_id <$> observers w' !! l = observer_id <$> observers w !! l) as Hoid.
  { intros l. pose proof (en_observers _ _ _ He l) as Hs.
    destruct (observers w' !! l), (observers w !! l); simpl in *; try done. by injection Hs as -> _. }
  split.
  - intros t tr' Ht. destruct (ends_transport _ _ _ _ _ He Ht) as (tr & Htr & [= _ -> _]).
    destruct (H1 _ _ Htr) as (ro & Hro). destruct (ends_router_fwd _ _ _ _ _ He Hro) as (ro' & ? & _).
    by exists ro'.
  - intros t tr' s Ht Hs. destruct (ends_transport _ _ _ _ _ He Ht) as (tr & Htr & [= _ Hr Hsv]).
    destruct (H2 _ _ s Htr ltac:(congruence)) as (sv & Hs0 & Hw).
    pose proof (en_servers _ _ _ He s) as Hle. rewrite Hs0 in Hle. inversion Hle as [? sv' Hsle Hx Hy|].
    exists sv'. split; [done|]. intros ro' Hro'.
    destruct (ends_router _ _ _ _ _ He Hro') as (ro & Hro & Hrle).
    rewrite (rle_worker _ _ Hrle), (sle_worker _ _ Hsle). apply Hw. congruence.
  - by eapply distinct_ids_ext.
  - by eapply distinct_ids_ext.
  - intros r ro' Hr. destruct (ends_router _ _ _ _ _ He Hr) as (ro & Hro & Hle).
    apply (filed_ext t_id (transports w)); [done|]. intros id l Hin.
    by eapply H5, (rle_transports _ _ Hle).
  - intros r ro' Hr. destruct (ends_router _ _ _ _ _ He Hr) as (ro & Hro & Hle).
    apply (filed_ext observer_id (observers w)); [done|]. intros id l Hin.
    by eapply H6, (rle_observers _ _ Hle).
  - intros s sv' Hs. destruct (ends_server _ _ _ _ _ He Hs) as (sv & Hsv & Hle).
    apply (filed_ext t_id (transports w)); [done|]. intros id l Hin.
    by eapply H7, (sle_transports _ _ Hle).
Qed.

(** Producers are still found if the router keeps the entries of open ones. *)
Lemma lookup_ends T w w' :
  ends T w w' -> lookup_inv (children w) (transports w) (routers w) ->
  (forall l n tr ro ro' k id, children w' !! l = Some n -> node_open n -> listed k ->
     kind_of (n_child n) = k -> child_id (n_child n) = id -> transports w' !! n_transport n = Some tr ->
     routers w !! t_router tr = Some ro -> routers w' !! t_router tr = Some ro' ->
     jget id (r_map k ro) = Some l -> jget id (r_map k ro') = Some l) ->
  lookup_inv (children w') (transports w') (routers w').
Proof.
  intros He [H1 H2] Hk. split.
  - intros l n' tr' Hl Ho Hli Ht. destruct (ends_child _ _ _ _ _ He Hl) as (n & Hn & [= Hki Hid Hnt] & Hop).
    destruct (ends_transport _ _ _ _ _ He Ht) as (tr & Htr & [= _ Hro _]).
    destruct (H1 l n tr Hn (Hop Ho) ltac:(congruence) ltac:(congruence)) as (ro & Hr & Hg).
    rewrite <-Hro in Hr. destruct (ends_router_fwd _ _ _ _ _ He Hr) as (ro' & Hr' & _).
    exists ro'. split; [done|]. eapply Hk; try done. congruence.
  - intros r ro' k id l Hr Hin. destruct (ends_router _ _ _ _ _ He Hr) as (ro & Hro & Hle).
    destruct (H2 _ _ _ _ _ Hro (rle_map _ _ Hle _ _ Hin)) as (n & tr & Hn & Hki & Hid & Ht & Hrr).
    pose proof (en_children _ _ _ He l) as Hs. rewrite Hn in Hs. apply fmap_Some in Hs as (n' & Hn' & [= ? ? ?]).
    pose proof (en_transports _ _ _ He (n_transport n)) as Hs. rewrite Ht in Hs.
    apply fmap_Some in Hs as (tr' & Htr' & [= ? ? ?]). exists n', tr'. split_and!; congruence.
Qed.

(** ** A transport is shut *)

Definition r_le_open (ro ro' : router) : Prop := r_le ro ro' /\ r_closed ro' = r_closed ro.
Definition s_le_open (sv sv' : webRtcServer) : Prop := s_le sv sv' /\ s_closed sv' = s_closed sv.

#[export] Instance r_le_open_preorder : PreOrder r_le_open.
Proof. split; [by split|]. intros ro1 ro2 ro3 [] []. split; [by transitivity ro2|congruence]. Qed.
#[export] Instance s_le_open_refl : Reflexive s_le_open.
Proof. by split. Qed.

(** What lies below a transport. *)
Definition covers_transport (T : obj -> Prop) (t : loc) (w : world) : Prop :=
  T (Otransport t) /\ forall l n, children w !! l = Some n -> n_transport n = t -> T (Ochild l).

Lemma close_node_static n : c_static (close_node n) = c_static n.
Proof. unfold c_static. by rewrite close_node_kind, close_node_child_id, close_node_transport. Qed.

(** Transport [t] is shut with its children; routers and servers lose entries. *)
Record shuts (t : loc) (tr : transport) (w w' : world) : Prop := mkShuts {
  su_children : forall l, children w' !! l =
    (fun n => if decide (n_transport n = t) then close_node n else n) <$> children w !! l;
  su_transports : transports w' = <[t := shut tr]> (transports w);
  su_observers : observers w' = observers w;
  su_workers : workers w' = workers w;
  su_routers : forall r, option_Forall2 r_le_open (routers w !! r) (routers w' !! r);
  su_servers : forall s, option_Forall2 s_le_open (servers w !! s) (servers w' !! s);
  su_keeps : forall r ro ro' k id, routers w !! r = Some ro -> routers w' !! r = Some ro' ->
    ~ dead_ids tr w r k id -> jget id (r_map k ro') = jget id (r_map k ro)
}.

Lemma option_Forall2_impl {A} (R R' : A -> A -> Prop) x y :
  (forall a b, R a b -> R' a b) -> option_Forall2 R x y -> option_Forall2 R' x y.
Proof. intros HR []; constructor. auto. Qed.

Lemma shuts_ends T t tr w w' :
  shuts t tr w w' -> transports w !! t = Some tr -> covers_transport T t w -> ends T w w'.
Proof.
  intros [C Ht Ho Hw Hr Hs _] Htr [HT HTc]. split.
  - intros l. rewrite C. destruct (children w !! l); simpl; [|done]. case_decide; by rewrite ?close_node_static.
  - intros t'. rewrite Ht. destruct (decide (t' = t)) as [->|].
    + by rewrite lookup_insert_eq, Htr.
    + by rewrite lookup_insert_ne by congruence.
  - intros l. by rewrite Ho.
  - intros r. eapply option_Forall2_impl; [|apply Hr]. by intros ? ? [].
  - intros s. eapply option_Forall2_impl; [|apply Hs]. by intros ? ? [].
  - intros x. destruct x as [l|l|t'|r|s|k]; simpl; rewrite ?Ho, ?Hw; auto.
    + rewrite C. destruct (children w !! l) as [n|] eqn:Hl; simpl; [|by left].
      case_decide as Hn; [right|by left]. split; [by eapply HTc|apply close_node_closed].
    + rewrite Ht. destruct (decide (t' = t)) as [->|].
      * rewrite lookup_insert_eq. by right.
      * rewrite lookup_insert_ne by congruence. by left.
    + destruct (Hr r) as [? ? [_ ?]|]; by left.
    + destruct (Hs s) as [? ? [_ ?]|]; by left.
Qed.

Lemma shrinks_le dead ro ro' : shrinks dead ro ro' -> r_le_open ro ro'.
Proof.
  intros [Hid Hw Hc Ht Ho He Hk]. split; [|done]. split; [done|by rewrite Ht|by rewrite Ho|].
  intros k [id l]. apply He.
Qed.

Lemma routers_shrink_le dead m m' r : routers_shrink dead m m' -> option_Forall2 r_le_open (m !! r) (m' !! r).
Proof.
  intros H. specialize (H r). destruct (m !! r), (m' !! r); try done; constructor. by eapply shrinks_le.
Qed.

Lemma alter_Forall2 {V} (R : V -> V -> Prop) `{!Reflexive R} f i (m : gmap loc V) j :
  (forall x, R x (f x)) -> option_Forall2 R (m !! j) (alter f i m !! j).
Proof.
  intros Hf. destruct (decide (j = i)) as [->|Hne].
  - rewrite lookup_alter_eq. destruct (m !! i); constructor. apply Hf.
  - by rewrite lookup_alter_ne by congruence.
Qed.

Lemma jdel_transports_le id ro : r_le_open ro (update_r_transports (jdel id) ro).
Proof.
  split; [|done]. split; try done. intros [id' t]. simpl. rewrite elem_of_jdel. tauto.
Qed.

Lemma routerClosed_shuts t tr w :
  child_inv (children w) (transports w) -> transports w !! t = Some tr -> t_closed tr = false ->
  shuts t tr w (transport_routerClosed t w).
Proof.
  intros Hi Ht Hc. destruct (routerClosed_spec _ _ _ Ht Hc) as [C T S W O Si R].
  split; rewrite ?T, ?S, ?W, ?O, ?Si by done; try done.
  - intros l. rewrite C. by apply (all_children_exact _ (transports w)).
  - congruence.
Qed.

Lemma closes_transport_shuts t tr w w' :
  child_inv (children w) (transports w) -> transports w !! t = Some tr ->
  closes_transport t tr w w' -> shuts t tr w w'.
Proof.
  intros Hi Ht [C T S W O (m & Hm & R)]. split; try done.
  - intros l. rewrite C. by apply (all_children_exact _ (transports w)).
  - intros r. rewrite R. transitivity (m !! r).
    + by eapply routers_shrink_le.
    + apply alter_Forall2; [apply _|]. apply jdel_transports_le.
  - intros s. destruct S as [->|(s' & _ & ->)]; [done|]. apply alter_Forall2; [apply _|].
    intros sv. split; [|done]. split; [done|]. intros [id t']. simpl. rewrite elem_of_jdel. tauto.
  - intros r ro ro' k id Hr Hr' Hd. rewrite R in Hr'. apply alter_inv in Hr' as (ro1 & Hr1 & ->).
    pose proof (Hm r) as Hs. rewrite Hr, Hr1 in Hs. rewrite <-(sh_keeps _ _ _ Hs _ _ Hd).
    case_decide; [|done]. by destruct k.
Qed.

(** What remains to be found after transport [t] is shut. *)
Lemma shuts_lookup L C t tr w w' :
  Inv L C w -> transports w !! t = Some tr -> shuts t tr w w' ->
  lookup_inv (children w') (transports w') (routers w').
Proof.
  intros Hi Ht Hs. eapply (lookup_ends (fun _ => True)); [by eapply shuts_ends|by apply Hi|].
  intros l n' tr' ro ro' k id Hl Ho Hli Hki Hid Htr Hr Hr' Hg.
  rewrite (su_keeps _ _ _ _ Hs _ _ _ _ _ Hr Hr'); [done|]. intros (Hro & l1 & n1 & Hl1 & Hn1 & Hid1).
  (* the child with this id is the one that is closed *)
  destruct (ends_child (fun _ => True) w w' l n') as (n & Hn & [= Hki' Hid' Hnt] & Hop);
    [by eapply shuts_ends|done|].
  apply elem_of_jvals in Hl1 as [id1 Hl1].
  destruct (ci_entry _ _ (inv_children _ _ _ Hi) _ _ _ _ _ Ht Hl1) as (n2 & Hn2 & Htn2 & Hk2 & Hid2 & Ho2).
  assert (n2 = n1) as -> by congruence.
  destruct (lk_found _ _ _ (inv_lookup _ _ _ Hi) l1 n1 tr Hn1 Ho2) as (ro2 & Hr2 & Hg2); [by rewrite Hk2|by rewrite Htn2|].
  rewrite Hro, Hr in Hr2. injection Hr2 as <-. rewrite Hk2, Hid1, Hg in Hg2. injection Hg2 as <-.
  rewrite (su_children _ _ _ _ Hs), Hn1 in Hl. simpl in Hl. injection Hl as <-.
  rewrite decide_True in Ho by done. unfold node_open in Ho. by rewrite close_node_closed in Ho.
Qed.

(** *** Parts the registries do not depend on *)

Lemma fmap_lookup_back {A B} (g : A -> B) (m m' : gmap loc A) i x' :
  g <$> m' !! i = g <$> m !! i -> m' !! i = Some x' -> exists x, m !! i = Some x /\ g x' = g x.
Proof. intros H Hi. rewrite Hi in H. symmetry in H. apply fmap_Some in H as (x & ? & ?). by exists x. Qed.

Lemma lookup_alter_fmap {A B} (g : A -> B) f i (m : gmap loc A) j :
  (forall x, g (f x) = g x) -> g <$> alter f i m !! j = g <$> m !! j.
Proof.
  intros H. destruct (decide (j = i)) as [->|Hne].
  - rewrite lookup_alter_eq. destruct (m !! i); simpl; by rewrite ?H.
  - by rewrite lookup_alter_ne by congruence.
Qed.

Lemma fmap_Forall2 {V W} (g : V -> W) (R : V -> V -> Prop) (x y : option V) :
  (forall a b, R a b -> g b = g a) -> option_Forall2 R x y -> g <$> y = g <$> x.
Proof. intros HR []; simpl; [|done]. f_equal. auto. Qed.

(** Routers that lose entries of the maps of producers and data producers. *)
Definition r_rest (ro : router) : list (string * loc) * list (string * loc) * loc * bool :=
  (r_transports ro, r_rtpObservers ro, r_worker ro, r_closed ro).

Lemma shrink_rest dead m m' r : routers_shrink dead m m' -> r_rest <$> m' !! r = r_rest <$> m !! r.
Proof.
  intros H. specialize (H r). destruct (m !! r), (m' !! r); try done. simpl. destruct H. unfold r_rest.
  congruence.
Qed.

Lemma registered_transports_rest L C ts rs rs' :
  (forall r, (fun ro => (r_transports ro, r_closed ro)) <$> rs' !! r =
             (fun ro => (r_transports ro, r_closed ro)) <$> rs !! r) ->
  registered (A := transport) L C ts rs -> registered L C ts rs'.
Proof.
  intros Hr. apply registered_ext; [done|]. intros r. specialize (Hr r).
  destruct (rs' !! r), (rs !! r); simpl in *; try done. injection Hr as ? ?.
  unfold parent_view. simpl. congruence.
Qed.

Lemma registered_observers_rest L C os rs rs' :
  (forall r, (fun ro => (r_rtpObservers ro, r_closed ro)) <$> rs' !! r =
             (fun ro => (r_rtpObservers ro, r_closed ro)) <$> rs !! r) ->
  registered (A := RtpObserver.rtpObserver * loc) L C os rs -> registered L C os rs'.
Proof.
  intros Hr. apply registered_ext; [done|]. intros r. specialize (Hr r).
  destruct (rs' !! r), (rs !! r); simpl in *; try done. injection Hr as ? ?.
  unfold parent_view. simpl. congruence.
Qed.

Lemma registered_routers_rest L C rs rs' ws :
  (forall r, (fun ro => (r_worker ro, r_closed ro)) <$> rs' !! r =
             (fun ro => (r_worker ro, r_closed ro)) <$> rs !! r) ->
  registered (B := worker) L C rs ws -> registered L C rs' ws.
Proof.
  intros Hr. apply registered_ext; [|done]. intros r. specialize (Hr r).
  destruct (rs' !! r), (rs !! r); simpl in *; try done. injection Hr as ? ?.
  unfold child_view. simpl. congruence.
Qed.

Lemma registered_servers_rest L C ss ss' ws :
  (forall s, (fun sv => (s_worker sv, s_closed sv)) <$> ss' !! s =
             (fun sv => (s_worker sv, s_closed sv)) <$> ss !! s) ->
  registered (B := worker) L C ss ws -> registered L C ss' ws.
Proof.
  intros Hr. apply registered_ext; [|done]. intros r. specialize (Hr r).
  destruct (ss' !! r), (ss !! r); simpl in *; try done. injection Hr as ? ?.
  unfold child_view. simpl. congruence.
Qed.

Lemma rest_part {V W X} (g : V -> W) (h : W -> X) (m m' : gmap loc V) :
  (forall i, g <$> m' !! i = g <$> m !! i) ->
  forall i, (fun v => h (g v)) <$> m' !! i = (fun v => h (g v)) <$> m !! i.
Proof.
  intros H i. specialize (H i). destruct (m' !! i), (m !! i); simpl in *; try done. by injection H as ->.
Qed.

(** *** The closing methods of a transport *)

Lemma shut_lookup_transport t tr w w' : shuts t tr w w' -> transports w' !! t = Some (shut tr).
Proof. intros Hs. rewrite (su_transports _ _ _ _ Hs). apply lookup_insert_eq. Qed.

Lemma routerClosed_keeps L C t w :
  Inv L C w -> L (Otransport t) -> Inv L C (transport_routerClosed t w).
Proof.
  intros Hi HL. destruct (transports w !! t) as [tr|] eqn:Ht.
  2:{ rewrite routerClosed_noop; [done|]. intros ?. by rewrite Ht. }
  destruct (t_closed tr) eqn:Hc.
  { rewrite routerClosed_noop; [done|]. intros ?. rewrite Ht. by intros [= <-]. }
  pose proof (routerClosed_shuts _ _ _ (inv_children _ _ _ Hi) Ht Hc) as Hs.
  destruct (routerClosed_spec _ _ _ Ht Hc) as [_ T S W O Si _]. specialize (Si eq_refl).
  pose proof (shuts_lookup _ _ _ _ _ _ Hi Ht Hs) as Hlk.
  pose proof (static_ends _ _ _ (shuts_ends (fun _ => True) _ _ _ _ Hs Ht (conj I (fun _ _ _ _ => I)))
    (inv_static _ _ _ Hi)) as Hst.
  destruct Hi as [I1 I2 I3 I4 I5 I6 _ _]. split; try done; rewrite ?T, ?S, ?W, ?O, ?Si; try done.
  - by eapply child_inv_shut, su_children.
  - by eapply registered_close.
  - by eapply registered_close.
Qed.

Lemma closes_transport_keeps L C t tr w w' :
  Inv L C w -> transports w !! t = Some tr -> closes_transport t tr w w' -> Inv L C w'.
Proof.
  intros Hi Ht Hct. pose proof (closes_transport_shuts _ _ _ _ (inv_children _ _ _ Hi) Ht Hct) as Hs.
  pose proof (shuts_lookup _ _ _ _ _ _ Hi Ht Hs) as Hlk.
  pose proof (static_ends _ _ _ (shuts_ends (fun _ => True) _ _ _ _ Hs Ht (conj I (fun _ _ _ _ => I)))
    (inv_static _ _ _ Hi)) as Hst.
  destruct Hct as [_ T S W O (m & Hm & R)].
  assert (forall r, r_rest <$> m !! r = r_rest <$> routers w !! r) as Hm'
    by (intros r; by eapply shrink_rest).
  destruct Hi as [I1 I2 I3 I4 I5 I6 I7 _]. split; try done; rewrite ?T, ?W, ?O, ?R.
  - by eapply child_inv_shut, su_children.
  - eapply registered_close_leave; [eapply registered_transports_rest; [|exact I2];
      exact (rest_part r_rest (fun x => (x.1.1.1, x.2)) _ _ Hm')|done|done|done|done| |done].
    intros ro Hro l'. simpl. apply (elem_of_jvals_jdel t_id (transports w) _ t tr); [|by apply I7|done].
    specialize (Hm' (t_router tr)). rewrite Hro in Hm'. symmetry in Hm'.
    apply fmap_Some in Hm' as (ro0 & Hro0 & [= -> _ _ _]). by eapply (st_transports _ I7).
  - eapply registered_observers_rest; [|exact I3]. intros r. rewrite lookup_alter_fmap by done.
    exact (rest_part r_rest (fun x => (x.1.1.2, x.2)) _ _ Hm' r).
  - eapply registered_routers_rest; [|exact I4]. intros r. rewrite lookup_alter_fmap by done.
    exact (rest_part r_rest (fun x => (x.1.2, x.2)) _ _ Hm' r).
  - eapply registered_servers_rest; [|exact I5]. intros s.
    destruct S as [->|(s' & _ & ->)]; [done|]. by apply lookup_alter_fmap.
  - pose proof (registered_close _ _ _ _ t tr (shut tr) I6 Ht I eq_refl eq_refl) as Hcl.
    destruct S as [->|(s' & Hsv & ->)]; [done|].
    eapply (registered_leave _ _ _ _ t (shut tr)); [done|apply lookup_insert_eq|done| |done].
    intros sv Hs' l'. simpl. apply (elem_of_jvals_jdel t_id (transports w) _ t tr); [|by apply I7|done].
    by eapply (st_handled _ I7).
Qed.

(** ** Changes of one object *)

Lemma alter_is_insert {V} (f : V -> V) i (m : gmap loc V) x :
  m !! i = Some x -> alter f i m = <[i := f x]> m.
Proof.
  intros Hx. apply map_eq. intros j. destruct (decide (j = i)) as [->|].
  - by rewrite lookup_alter_eq, lookup_insert_eq, Hx.
  - by rewrite lookup_alter_ne, lookup_insert_ne by congruence.
Qed.

Lemma ends_alter_router T f r w :
  (forall ro, r_le ro (f ro)) ->
  (forall ro, r_closed (f ro) = r_closed ro \/ T (Orouter r) /\ r_closed (f ro) = true) ->
  ends T w (set_routers (alter f r) w).
Proof.
  intros Hle Hc. split; try done.
  - intros r'. by apply alter_Forall2; [apply _|].
  - intros x. destruct x as [l|l|t|r'|s|k]; try by left. simpl. destruct (decide (r' = r)) as [->|].
    + rewrite lookup_alter_eq. destruct (routers w !! r); simpl; auto.
    + rewrite lookup_alter_ne by congruence. by left.
Qed.

Lemma ends_alter_server T f s w :
  (forall sv, s_le sv (f sv)) ->
  (forall sv, s_closed (f sv) = s_closed sv \/ T (Oserver s) /\ s_closed (f sv) = true) ->
  ends T w (set_servers (alter f s) w).
Proof.
  intros Hle Hc. split; try done.
  - intros s'. by apply alter_Forall2; [apply _|].
  - intros x. destruct x as [l|l|t|r'|s'|k]; try by left. simpl. destruct (decide (s' = s)) as [->|].
    + rewrite lookup_alter_eq. destruct (servers w !! s); simpl; auto.
    + rewrite lookup_alter_ne by congruence. by left.
Qed.

Lemma ends_alter_worker T f k w :
  (forall wk, w_closed (f wk) = w_closed wk \/ T (Oworker k) /\ w_closed (f wk) = true) ->
  ends T w (set_workers (alter f k) w).
Proof.
  intros Hc. split; try done.
  intros x. destruct x as [l|l|t|r'|s'|k']; try by left. simpl. destruct (decide (k' = k)) as [->|].
  - rewrite lookup_alter_eq. destruct (workers w !! k); simpl; auto.
  - rewrite lookup_alter_ne by congruence. by left.
Qed.

Lemma ends_observer T f l o w w' :
  observers w !! l = Some o -> T (Oobserver l) -> (forall ro, r_le_open ro (f ro)) ->
  children w' = children w -> transports w' = transports w -> servers w' = servers w ->
  workers w' = workers w -> observers w' = <[l := closed_observer o]> (observers w) ->
  routers w' = alter f o.2 (routers w) -> ends T w w'.
Proof.
  intros Hl HT Hf Hc Ht Hs Hw Ho Hr. split; rewrite ?Hc, ?Ht, ?Hs, ?Hr; try done.
  - intros l'. rewrite Ho. destruct (decide (l' = l)) as [->|].
    + by rewrite lookup_insert_eq, Hl.
    + by rewrite lookup_insert_ne by congruence.
  - intros r. apply alter_Forall2; [apply _|]. intros ro. apply Hf.
  - intros x. destruct x as [l'|l'|t|r|s|k]; simpl; rewrite ?Hc, ?Ht, ?Hs, ?Hw, ?Hr; auto.
    + rewrite Ho. destruct (decide (l' = l)) as [->|].
      * rewrite lookup_insert_eq. by right.
      * rewrite lookup_insert_ne by congruence. by left.
    + left. destruct (alter_Forall2 r_le_open f o.2 (routers w) r Hf) as [? ? [_ ?]|]; done.
Qed.

(** A router changes in a way that keeps the registries it is in. *)
Lemma alter_router_keeps L C f r w :
  Inv L C w -> (forall ro, r_le ro (f ro)) -> (forall ro, r_closed ro = true -> r_closed (f ro) = true) ->
  registered (fun t => L (Otransport t)) (fun r => C (Orouter r)) (transports w) (alter f r (routers w)) ->
  registered (fun l => L (Oobserver l)) (fun r => C (Orouter r)) (observers w) (alter f r (routers w)) ->
  registered (fun r => L (Orouter r)) (fun k => C (Oworker k)) (alter f r (routers w)) (workers w) ->
  (forall ro k, r_map k (f ro) = r_map k ro) \/
  (forall l n tr, children w !! l = Some n -> node_open n -> transports w !! n_transport n = Some tr ->
     t_router tr <> r) ->
  Inv L C (set_routers (alter f r) w).
Proof.
  intros [I1 I2 I3 I4 I5 I6 I7 I8] Hle Hcl H2 H3 H4 Hmap.
  assert (ends (fun _ => True) w (set_routers (alter f r) w)) as He.
  { apply ends_alter_router; [done|]. intros ro. destruct (r_closed ro) eqn:Hc; [rewrite Hcl by done; by left|].
    destruct (r_closed (f ro)); auto. }
  split; try done.
  - by eapply static_ends.
  - eapply lookup_ends; [done..|]. intros l n tr ro ro' k id Hl Ho Hli Hk Hid Ht Hr Hr' Hg.
    simpl in Hr'. apply alter_inv in Hr' as (ro0 & Hro0 & ->). rewrite Hr in Hro0. injection Hro0 as <-.
    case_decide as Hd; [|done]. destruct Hmap as [Hmap|Hmap]; [by rewrite Hmap|].
    exfalso. by eapply Hmap.
Qed.
