(* ===== verification/Cascade.v ===== *)
(** * Cascades of closing

    Closing an RtpObserver, a router, a WebRtcServer and a worker: the loops
    over the objects below, with the invariant of WorldInv.v kept throughout. *)

From S2P Require Import Prelude Js RtpParameters Framing Events TransportState World WorldSpec Registry WorldInv Closing.
From S2P Require Producer Consumer DataProducer DataConsumer RtpObserver.

(** ** What is below *)

Definition covers_router (T : obj -> Prop) (r : loc) (w : world) : Prop :=
  T (Orouter r) /\
  (forall t tr, transports w !! t = Some tr -> t_router tr = r -> covers_transport T t w) /\
  (forall l o, observers w !! l = Some o -> o.2 = r -> T (Oobserver l)).

Definition covers_server (T : obj -> Prop) (s : loc) (w : world) : Prop :=
  T (Oserver s) /\
  (forall t tr, transports w !! t = Some tr -> t_server tr = Some s -> covers_transport T t w).

Definition covers_worker (T : obj -> Prop) (k : loc) (w : world) : Prop :=
  T (Oworker k) /\
  (forall r ro, routers w !! r = Some ro -> r_worker ro = k -> covers_router T r w) /\
  (forall s sv, servers w !! s = Some sv -> s_worker sv = k -> T (Oserver s)).

Lemma ends_covers_transport T w w' t :
  ends T w w' -> covers_transport T t w -> covers_transport T t w'.
Proof.
  intros He [HT Hc]. split; [done|]. intros l n' Hl Hn.
  destruct (ends_child _ _ _ _ _ He Hl) as (n & Hl0 & [= _ _ Heq] & _). eapply Hc; [done|congruence].
Qed.

Lemma ends_covers_router T w w' r : ends T w w' -> covers_router T r w -> covers_router T r w'.
Proof.
  intros He (HT & Ht & Ho). split_and!; [done| |].
  - intros t tr' Htr Hr. destruct (ends_transport _ _ _ _ _ He Htr) as (tr & Htr0 & [= _ Heq _]).
    eapply ends_covers_transport; [done|]. eapply Ht; [done|congruence].
  - intros l o' Hl Hr. pose proof (en_observers _ _ _ He l) as Hs. rewrite Hl in Hs. symmetry in Hs.
    apply fmap_Some in Hs as (o & Hlo & [= _ Heq]). eapply Ho; [done|congruence].
Qed.

(** ** Loops *)

Lemma for_each_keeps {A} (f : A -> world -> world) (P : world -> Prop) T (Q : A -> world -> Prop) ls :
  (forall x w, x ∈ ls -> P w -> P (f x w) /\ ends T w (f x w) /\ Q x (f x w)) ->
  (forall x w w', ends T w w' -> Q x w -> Q x w') ->
  forall w, P w ->
  P (for_each f ls w) /\ ends T w (for_each f ls w) /\ forall x, x ∈ ls -> Q x (for_each f ls w).
Proof.
  intros Hf HQ. induction ls as [|x ls IH]; intros w Hw.
  { split_and!; [done|apply ends_refl|]. by intros x ?%elem_of_nil. }
  destruct (Hf x w ltac:(by left) Hw) as (HP & He & Hx).
  destruct (IH ltac:(intros; apply Hf; [by right|done]) _ HP) as (HP' & He' & Hall).
  change (for_each f (x :: ls) w) with (for_each f ls (f x w)). split_and!; [done|by eapply ends_trans|].
  intros y [->|Hy]%elem_of_cons; [by eapply HQ|by apply Hall].
Qed.

(** Whether an object is closed or does not exist any more. *)
Lemma closed_stays T x w w' : ends T w w' -> obj_closed x w = true -> obj_closed x w' = true.
Proof. apply ends_closed. Qed.

(** When everything in the set of an owner is closed in the end, so is every
    object that belongs to it. *)
Lemma all_closed `{Registry A B} (get : world -> gmap loc A) (mk : loc -> obj) (L C : loc -> Prop) T ps p b w w' :
  (forall l v, obj_closed (mk l) v = match get v !! l with Some a => negb (reg_open a) | None => false end) ->
  (forall l, reg_parent <$> get w' !! l = reg_parent <$> get w !! l) ->
  registered L C (get w) ps -> ps !! p = Some b -> ends T w w' ->
  (forall l, l ∈ reg_entries b -> obj_closed (mk l) w' = true) ->
  forall l a, get w' !! l = Some a -> reg_parent a = Some p -> reg_open a = false.
Proof.
  intros Hcl Hpar Hr Hb He Hall l a' Hl Hp. destruct (reg_open a') eqn:Ho'; [|done]. exfalso.
  pose proof (Hpar l) as Hs. rewrite Hl in Hs. symmetry in Hs. apply fmap_Some in Hs as (a & Ha & Heq).
  pose proof (ends_closed _ _ _ (mk l) He) as Hc. rewrite !Hcl, Ha, Hl, Ho' in Hc.
  destruct (reg_open a) eqn:Ho; [|by specialize (Hc eq_refl)].
  destruct (rg_has _ _ _ _ Hr l a p Ha Ho ltac:(congruence)) as (b' & Hb' & Hin).
  rewrite Hb in Hb'. injection Hb' as <-. specialize (Hall _ Hin). by rewrite Hcl, Hl, Ho' in Hall.
Qed.

Lemma ends_parent_transport T w w' t :
  ends T w w' -> reg_parent (B := router) <$> transports w' !! t = reg_parent (B := router) <$> transports w !! t.
Proof. intros He. exact (rest_part t_static (fun x => Some x.1.2) _ _ (en_transports _ _ _ He) t). Qed.

Lemma ends_server_transport T w w' t :
  ends T w w' -> t_server <$> transports w' !! t = t_server <$> transports w !! t.
Proof. intros He. exact (rest_part t_static snd _ _ (en_transports _ _ _ He) t). Qed.

Lemma ends_parent_observer T w w' l :
  ends T w w' -> reg_parent (B := router) <$> observers w' !! l = reg_parent (B := router) <$> observers w !! l.
Proof. intros He. exact (rest_part o_static (fun x => Some x.2) _ _ (en_observers _ _ _ He) l). Qed.

Lemma ends_parent_router T w w' r :
  ends T w w' -> reg_parent (B := worker) <$> routers w' !! r = reg_parent (B := worker) <$> routers w !! r.
Proof. intros He. eapply fmap_Forall2; [|apply He]. intros ro ro' Hle. simpl. by rewrite (rle_worker _ _ Hle). Qed.

Lemma ends_parent_server T w w' s :
  ends T w w' -> reg_parent (B := worker) <$> servers w' !! s = reg_parent (B := worker) <$> servers w !! s.
Proof. intros He. eapply fmap_Forall2; [|apply He]. intros sv sv' Hle. simpl. by rewrite (sle_worker _ _ Hle). Qed.

(** ** Transports of a router *)

Lemma routerClosed_ends T t w :
  child_inv (children w) (transports w) -> covers_transport T t w ->
  ends T w (transport_routerClosed t w) /\ routers (transport_routerClosed t w) = routers w /\
  servers (transport_routerClosed t w) = servers w /\ workers (transport_routerClosed t w) = workers w /\
  observers (transport_routerClosed t w) = observers w /\
  (is_Some (transports w !! t) -> obj_closed (Otransport t) (transport_routerClosed t w) = true).
Proof.
  intros Hi Hc. destruct (transports w !! t) as [tr|] eqn:Ht.
  2:{ rewrite routerClosed_noop by (intros ?; by rewrite Ht). split_and!; try done; apply ends_refl. }
  destruct (t_closed tr) eqn:Hcl.
  { rewrite routerClosed_noop by (intros ?; rewrite Ht; by intros [= <-]).
    split_and!; try done; [apply ends_refl|]. intros _. simpl. by rewrite Ht. }
  pose proof (routerClosed_shuts _ _ _ Hi Ht Hcl) as Hs.
  destruct (routerClosed_spec _ _ _ Ht Hcl) as [_ _ S W O Si _].
  split_and!; try done; [by eapply shuts_ends|by apply Si|]. intros _. simpl.
  by rewrite (shut_lookup_transport _ _ _ _ Hs).
Qed.

Lemma routerClosed_loop L C T ls w :
  Inv L C w -> (forall t, t ∈ ls -> L (Otransport t) /\ covers_transport T t w /\ is_Some (transports w !! t)) ->
  let w' := for_each transport_routerClosed ls w in
  Inv L C w' /\ ends T w w' /\ routers w' = routers w /\ servers w' = servers w /\ workers w' = workers w /\
  observers w' = observers w /\ forall t, t ∈ ls -> obj_closed (Otransport t) w' = true.
Proof.
  intros Hi Hls.
  destruct (for_each_keeps transport_routerClosed
    (fun w' => Inv L C w' /\ ends T w w' /\ routers w' = routers w /\ servers w' = servers w /\
               workers w' = workers w /\ observers w' = observers w) T
    (fun t w' => obj_closed (Otransport t) w' = true) ls) with (w := w) as ((? & ? & ? & ? & ? & ?) & _ & ?).
  - intros t w1 Hin (Hi1 & He1 & Hr1 & Hs1 & Hw1 & Ho1). destruct (Hls _ Hin) as (HL & Hc & [tr Htr]).
    pose proof (ends_covers_transport _ _ _ _ He1 Hc) as Hc1.
    destruct (routerClosed_ends T t w1 (inv_children _ _ _ Hi1) Hc1) as (He2 & Hr2 & Hs2 & Hw2 & Ho2 & Hcl).
    split_and!; try congruence; [by apply routerClosed_keeps|by eapply ends_trans|].
    apply Hcl. pose proof (en_transports _ _ _ He1 t) as Hs. rewrite Htr in Hs.
    apply fmap_Some in Hs as (tr' & ? & _). by exists tr'.
  - intros x w1 w2. apply closed_stays.
  - split_and!; try done. apply ends_refl.
  - done.
Qed.

(** ** RtpObservers *)

Lemma observer_routerClosed_keeps L C T l w :
  Inv L C w -> L (Oobserver l) -> T (Oobserver l) ->
  let w' := observer_routerClosed l w in
  Inv L C w' /\ ends T w w' /\ children w' = children w /\ transports w' = transports w /\
  routers w' = routers w /\ servers w' = servers w /\ workers w' = workers w /\
  (is_Some (observers w !! l) -> obj_closed (Oobserver l) w' = true).
Proof.
  intros Hi HL HT.
  assert (core_eq w (observer_routerClosed l w) /\
          (is_Some (observers w !! l) -> obj_closed (Oobserver l) (observer_routerClosed l w) = true) \/
          exists o, observers w !! l = Some o /\ observer_open o = true) as [[Hn Hcl]|(o & Hl & Ho)].
  { destruct (observers w !! l) as [o|] eqn:Hl; [destruct (observer_open o) eqn:Ho|].
    - right. by exists o.
    - left. assert (core_eq w (observer_routerClosed l w)) as Hn.
      { apply observer_noop; [|intros ?; rewrite Hl; by intros [= <-]].
        intros o' Hc'. unfold RtpObserver.routerClosed. by rewrite Hc'. }
      split; [done|]. intros _. destruct Hn as [_ [_ _ _ _ Hos]]. simpl. by rewrite Hos, Hl, Ho.
    - left. split; [|by intros []]. apply observer_noop; [|intros ?; by rewrite Hl].
      intros o' Hc'. unfold RtpObserver.routerClosed. by rewrite Hc'. }
  - pose proof Hn as [Hc [Ht Hr Hs Hw _]]. split_and!; try done; [by eapply Inv_core|].
    eapply ends_core; [done|apply ends_refl].
  - destruct (observer_routerClosed_spec _ _ _ Hl Ho) as (Hc & Ht & Hs & Hw & Hos & Hr).
    assert (ends T w (observer_routerClosed l w)) as He.
    { apply (ends_observer T id l o); try done. by rewrite Hr, alter_id. }
    split_and!; try done; [|intros _; simpl; by rewrite Hos, lookup_insert_eq].
    destruct Hi as [I1 I2 I3 I4 I5 I6 I7 I8].
    split; try (rewrite ?Hc, ?Ht, ?Hs, ?Hw, ?Hr; done).
    + rewrite Hr, Hos. by eapply registered_close.
    + by eapply static_ends.
Qed.

Lemma observer_loop L C T ls w :
  Inv L C w -> (forall l, l ∈ ls -> L (Oobserver l) /\ T (Oobserver l) /\ is_Some (observers w !! l)) ->
  let w' := for_each observer_routerClosed ls w in
  Inv L C w' /\ ends T w w' /\ children w' = children w /\ transports w' = transports w /\
  routers w' = routers w /\ servers w' = servers w /\ workers w' = workers w /\
  forall l, l ∈ ls -> obj_closed (Oobserver l) w' = true.
Proof.
  intros Hi Hls.
  destruct (for_each_keeps observer_routerClosed
    (fun w' => Inv L C w' /\ ends T w w' /\ children w' = children w /\ transports w' = transports w /\
               routers w' = routers w /\ servers w' = servers w /\ workers w' = workers w) T
    (fun l w' => obj_closed (Oobserver l) w' = true) ls) with (w := w) as ((? & ? & ? & ? & ? & ? & ?) & _ & ?).
  - intros l w1 Hin (Hi1 & He1 & Hc1 & Ht1 & Hr1 & Hs1 & Hw1). destruct (Hls _ Hin) as (HL & HT & [o Ho]).
    destruct (observer_routerClosed_keeps L C T l w1 Hi1 HL HT) as (Hi2 & He2 & Hc2 & Ht2 & Hr2 & Hs2 & Hw2 & Hcl).
    split_and!; try congruence; [by eapply ends_trans|].
    apply Hcl. pose proof (en_observers _ _ _ He1 l) as Hs. rewrite Ho in Hs.
    apply fmap_Some in Hs as (o' & ? & _). by exists o'.
  - intros x w1 w2. apply closed_stays.
  - split_and!; try done. apply ends_refl.
  - done.
Qed.

(** ** Routers *)

Definition emptied_router (ro : router) : router :=
  mkRouter (r_id ro) (r_worker ro) (r_closed ro) (r_rtpCapabilities ro) [] [] [] [].

Definition below_router (r : loc) (w : world) (x : obj) : Prop :=
  match x with
  | Otransport t => exists tr, transports w !! t = Some tr /\ t_router tr = r
  | Oobserver l => exists o, observers w !! l = Some o /\ o.2 = r
  | _ => False
  end.

Lemma router_transports_closed L C T r ro w w' :
  Inv L C w -> routers w !! r = Some ro -> ends T w w' ->
  (forall t, t ∈ jvals (r_transports ro) -> obj_closed (Otransport t) w' = true) ->
  forall t tr, transports w' !! t = Some tr -> t_router tr = r -> t_closed tr = true.
Proof.
  intros Hi Hr He Hall t tr Ht Hro. apply negb_false_iff.
  refine (all_closed (B := router) transports Otransport _ _ T _ _ _ _ _ _ _ (inv_transports _ _ _ Hi) Hr He Hall t tr Ht _).
  - intros t' v. simpl. destruct (transports v !! t'); [|done]. by rewrite negb_involutive.
  - intros t'. by eapply ends_parent_transport.
  - by rewrite <-Hro.
Qed.

Lemma router_observers_closed L C T r ro w w' :
  Inv L C w -> routers w !! r = Some ro -> ends T w w' ->
  (forall l, l ∈ jvals (r_rtpObservers ro) -> obj_closed (Oobserver l) w' = true) ->
  forall l o, observers w' !! l = Some o -> o.2 = r -> observer_open o = false.
Proof.
  intros Hi Hr He Hall l o Hl Hro.
  refine (all_closed (B := router) observers Oobserver _ _ T _ _ _ _ _ _ _ (inv_observers _ _ _ Hi) Hr He Hall l o Hl _).
  - done.
  - intros l'. by eapply ends_parent_observer.
  - by rewrite <-Hro.
Qed.

(** The maps of a router are cleared, when its transports are closed. *)
Lemma clear_transports_keeps L C r w :
  Inv L C w -> (forall t tr, transports w !! t = Some tr -> t_router tr = r -> t_closed tr = true) ->
  Inv L C (set_routers (alter (update_r_transports (fun _ => [])) r) w).
Proof.
  intros Hi Hcl. apply alter_router_keeps; try done.
  - intros ro. split; try done. by intros e ?%elem_of_nil.
  - apply registered_clear; [apply Hi| |done]. intros t tr Ht [= Hr]. simpl. by rewrite (Hcl _ _ Ht Hr).
  - eapply registered_observers_rest; [|apply Hi]. intros r'. by apply lookup_alter_fmap.
  - eapply registered_routers_rest; [|apply Hi]. intros r'. by apply lookup_alter_fmap.
  - by left.
Qed.

Lemma clear_map_keeps L C k r w :
  Inv L C w -> (forall t tr, transports w !! t = Some tr -> t_router tr = r -> t_closed tr = true) ->
  Inv L C (set_routers (alter (update_r_map k (fun _ => [])) r) w).
Proof.
  intros Hi Hcl. apply alter_router_keeps; try done.
  - intros ro. split; try done. intros [] e; simpl; try done; case_decide; try done; by intros ?%elem_of_nil.
  - eapply registered_transports_rest; [|apply Hi]. intros r'. by apply lookup_alter_fmap.
  - eapply registered_observers_rest; [|apply Hi]. intros r'. by apply lookup_alter_fmap.
  - eapply registered_routers_rest; [|apply Hi]. intros r'. by apply lookup_alter_fmap.
  - right. intros l n tr Hl Ho Ht Hr. unfold node_open in Ho.
    rewrite (closed_transport_children _ _ _ _ (inv_children _ _ _ Hi) Hl) in Ho; [done|].
    intros tr'. rewrite Ht. intros [= <-]. by eapply Hcl.
Qed.

Lemma clear_observers_keeps L C r w :
  Inv L C w -> (forall l o, observers w !! l = Some o -> o.2 = r -> observer_open o = false) ->
  Inv L C (set_routers (alter (update_r_rtpObservers (fun _ => [])) r) w).
Proof.
  intros Hi Hcl. apply alter_router_keeps; try done.
  - intros ro. split; try done. by intros e ?%elem_of_nil.
  - eapply registered_transports_rest; [|apply Hi]. intros r'. by apply lookup_alter_fmap.
  - apply registered_clear; [apply Hi| |done]. intros l o Hl [= Hr]. simpl. by rewrite (Hcl _ _ Hl Hr).
  - eapply registered_routers_rest; [|apply Hi]. intros r'. by apply lookup_alter_fmap.
  - by left.
Qed.

Lemma ends_clear T r w f :
  (forall ro, r_le_open ro (f ro)) -> ends T w (set_routers (alter f r) w).
Proof. intros Hf. apply ends_alter_router; intros ro; destruct (Hf ro); auto. Qed.

Lemma jvals_some L C r ro w t :
  Inv L C w -> routers w !! r = Some ro -> t ∈ jvals (r_transports ro) ->
  exists tr, transports w !! t = Some tr /\ t_router tr = r.
Proof.
  intros Hi Hr Hin. destruct (rg_in _ _ _ _ (inv_transports _ _ _ Hi) _ _ _ Hr Hin) as (tr & Ht & Hp & _).
  injection Hp as Hp. by exists tr.
Qed.

Lemma jvals_some_observer L C r ro w l :
  Inv L C w -> routers w !! r = Some ro -> l ∈ jvals (r_rtpObservers ro) ->
  exists o, observers w !! l = Some o /\ o.2 = r.
Proof.
  intros Hi Hr Hin. destruct (rg_in _ _ _ _ (inv_observers _ _ _ Hi) _ _ _ Hr Hin) as (o & Hl & Hp & _).
  injection Hp as Hp. by exists o.
Qed.

Lemma below_router_ends T r w w' x : ends T w w' -> below_router r w x <-> below_router r w' x.
Proof.
  intros He. destruct x as [l|l|t|r'|s|k]; simpl; try done.
  - pose proof (en_observers _ _ _ He l) as Hs.
    destruct (observers w' !! l) as [o'|], (observers w !! l) as [o|]; simpl in Hs; try done.
    injection Hs as _ Hs. split; intros (? & [= <-] & ?); eexists; split; try done; congruence.
  - pose proof (en_transports _ _ _ He t) as Hs.
    destruct (transports w' !! t) as [o'|], (transports w !! t) as [o|]; simpl in Hs; try done.
    injection Hs as _ Hs _. split; intros (? & [= <-] & ?); eexists; split; try done; congruence.
Qed.

Lemma close_router_objects_keeps L C T r ro w :
  Inv L C w -> routers w !! r = Some ro -> covers_router T r w -> (forall x, below_router r w x -> L x) ->
  let w' := close_router_objects r w in
  Inv L C w' /\ ends T w w' /\ servers w' = servers w /\ workers w' = workers w /\
  routers w' = <[r := emptied_router ro]> (routers w).
Proof.
  intros Hi Hr (HT & HTt & HTo) HL. unfold close_router_objects. rewrite Hr.
  destruct (routerClosed_loop L C T (jvals (r_transports ro)) w Hi) as (Hi1 & He1 & Hr1 & Hs1 & Hw1 & Ho1 & Hcl1).
  { intros t Hin. destruct (jvals_some _ _ _ _ _ _ Hi Hr Hin) as (tr & Ht & Htr).
    split_and!; [|by eapply HTt|by exists tr]. apply HL. by exists tr. }
  pose proof (router_transports_closed _ _ _ _ _ _ _ Hi Hr He1 Hcl1) as Hall1.
  cbv zeta. set (w1 := for_each transport_routerClosed _ w) in *.
  pose proof (clear_transports_keeps _ _ r _ Hi1 Hall1) as Hi2.
  set (w2 := set_routers (alter (update_r_transports _) r) w1) in *.
  pose proof (clear_map_keeps _ _ KProducer r _ Hi2 Hall1) as Hi3.
  set (w3 := set_routers (alter (update_r_map KProducer _) r) w2) in *.
  assert (ends T w w3) as He3.
  { eapply ends_trans; [exact He1|]. eapply ends_trans; [|apply (ends_clear T r w2)];
      [apply (ends_clear T r w1)|]; intros x; (split; [|done]); split; try done.
    - by intros e ?%elem_of_nil.
    - intros [] e; simpl; try done. by intros ?%elem_of_nil. }
  destruct (observer_loop L C T (jvals (r_rtpObservers ro)) w3 Hi3) as (Hi4 & He4 & _ & Ht4 & Hr4 & Hs4 & Hw4 & Hcl4).
  { intros l Hin. destruct (jvals_some_observer _ _ _ _ _ _ Hi Hr Hin) as (o & Hl & Hlr).
    assert (observers w3 !! l = Some o) as Hl3 by (cbn; by rewrite Ho1).
    split_and!; [|by eapply HTo|by exists o]. apply HL. by exists o. }
  set (w4 := for_each observer_routerClosed _ w3) in *.
  assert (forall l o, observers w4 !! l = Some o -> o.2 = r -> observer_open o = false) as Hall4.
  { intros l o. eapply (router_observers_closed L C T r _ w w4 Hi Hr); [by eapply ends_trans|done]. }
  pose proof (clear_observers_keeps _ _ r _ Hi4 Hall4) as Hi5.
  set (w5 := set_routers (alter (update_r_rtpObservers _) r) w4) in *.
  assert (forall t tr, transports w5 !! t = Some tr -> t_router tr = r -> t_closed tr = true) as Hall5
    by (cbn; rewrite Ht4; done).
  pose proof (clear_map_keeps _ _ KDataProducer r _ Hi5 Hall5) as Hi6.
  split_and!.
  - done.
  - eapply ends_trans; [exact He3|]. eapply ends_trans; [exact He4|].
    eapply ends_trans; [apply (ends_clear T r w4)|apply (ends_clear T r w5)];
      intros x; (split; [|done]); split; try done.
    + by intros e ?%elem_of_nil.
    + intros [] e; simpl; try done. by intros ?%elem_of_nil.
  - cbn. rewrite Hs4. cbn. done.
  - cbn. rewrite Hw4. cbn. done.
  - cbn. rewrite Hr4. cbn. rewrite Hr1, (alter_is_insert _ _ _ _ Hr).
    do 3 rewrite (alter_is_insert _ _ _ _ (lookup_insert_eq _ _ _)). by rewrite !insert_insert_eq.
Qed.

(** Nothing below an emptied router is excepted any more. *)
Lemma router_emptied L C r ro w :
  Inv (fun x => L x \/ below_router r w x) (fun x => C x \/ x = Orouter r) w ->
  routers w !! r = Some (emptied_router ro) -> Inv L C w.
Proof.
  intros Hi Hr.
  assert (forall p b l, routers w !! p = Some b -> l ∈ jvals (r_transports b) ->
    L (Otransport l) \/ below_router r w (Otransport l) -> L (Otransport l)) as Ht.
  { intros p b l Hp Hin [?|(tr & Htr & Heq)]; [done|]. exfalso.
    destruct (jvals_some _ _ _ _ _ _ Hi Hp Hin) as (tr' & Htr' & Hp').
    assert (p = r) as -> by congruence. rewrite Hr in Hp. injection Hp as <-. by apply elem_of_nil in Hin. }
  assert (forall p b l, routers w !! p = Some b -> l ∈ jvals (r_rtpObservers b) ->
    L (Oobserver l) \/ below_router r w (Oobserver l) -> L (Oobserver l)) as Ho.
  { intros p b l Hp Hin [?|(o & Hl & Heq)]; [done|]. exfalso.
    destruct (jvals_some_observer _ _ _ _ _ _ Hi Hp Hin) as (o' & Hl' & Hp').
    assert (p = r) as -> by congruence. rewrite Hr in Hp. injection Hp as <-. by apply elem_of_nil in Hin. }
  destruct Hi as [I1 I2 I3 I4 I5 I6 I7 I8]. split; try done.
  - eapply registered_tighten; [exact Ht| |exact I2].
    intros p b Hp _ [?|[= ->]]; [by left|right]. rewrite Hr in Hp. by injection Hp as <-.
  - eapply registered_tighten; [exact Ho| |exact I3].
    intros p b Hp _ [?|[= ->]]; [by left|right]. rewrite Hr in Hp. by injection Hp as <-.
  - eapply registered_mono; [| |exact I4]; [by intros l [?|[]]|by intros p [?|[=]]].
  - eapply registered_mono; [| |exact I5]; [by intros l [?|[]]|by intros p [?|[=]]].
  - eapply registered_mono; [| |exact I6]; [done|by intros p [?|[=]]].
Qed.

(** A router is marked, its objects are closed. *)
Lemma router_shut_keeps L C T r ro w w1 :
  Inv L C w -> routers w !! r = Some ro -> r_closed ro = false -> L (Orouter r) -> covers_router T r w ->
  core_eq (set_routers (alter closed_router r) w) w1 ->
  let w' := close_router_objects r w1 in
  Inv L C w' /\ ends T w w' /\ servers w' = servers w /\ workers w' = workers w /\
  obj_closed (Orouter r) w' = true.
Proof.
  intros Hi Hr Hc HL HT Hcore.
  set (L1 := fun x => L x \/ below_router r w x). set (C1 := fun x => C x \/ x = Orouter r).
  assert (Inv L1 C1 w) as Hi0 by (eapply Inv_mono; [| |exact Hi]; intros x ?; by left).
  assert (forall x, r_le x (closed_router x)) as Hle by done.
  assert (Inv L1 C1 (set_routers (alter closed_router r) w)) as Hi1.
  { apply alter_router_keeps; try done.
    - apply registered_mark; [apply Hi0|by right|done].
    - apply registered_mark; [apply Hi0|by right|done].
    - rewrite (alter_is_insert _ _ _ _ Hr). eapply registered_close; [apply Hi0|done|by left|done|done].
    - by left. }
  assert (ends T w (set_routers (alter closed_router r) w)) as He1.
  { apply ends_alter_router; [done|]. intros x. right. split; [apply HT|done]. }
  apply (Inv_core _ _ _ w1) in Hi1; [|done]. apply (ends_core _ _ _ w1) in He1; [|done].
  assert (routers w1 !! r = Some (closed_router ro)) as Hr1.
  { destruct Hcore as [_ [_ Hrr _ _ _]]. rewrite Hrr. cbn. by rewrite lookup_alter_eq, Hr. }
  destruct (close_router_objects_keeps L1 C1 T r _ w1 Hi1 Hr1) as (Hi2 & He2 & Hs2 & Hw2 & Hr2);
    [by eapply ends_covers_router| |].
  { intros x Hx. right. by eapply below_router_ends. }
  pose proof (ends_trans _ _ _ _ He1 He2) as He.
  destruct Hcore as [_ [_ _ Hcs Hcw _]]. cbn in Hcs, Hcw.
  split_and!; [|done|congruence|congruence|].
  - eapply router_emptied; [|rewrite Hr2; apply lookup_insert_eq].
    eapply Inv_mono; [| |exact Hi2]; [|done]. intros x [?|?]; [by left|right]. by apply (below_router_ends T r w _ x He).
  - simpl. by rewrite Hr2, lookup_insert_eq.
Qed.

Lemma alter_worker_keeps L C f k w :
  Inv L C w -> 
  registered (fun r => L (Orouter r)) (fun k => C (Oworker k)) (routers w) (alter f k (workers w)) ->
  registered (fun s => L (Oserver s)) (fun k => C (Oworker k)) (servers w) (alter f k (workers w)) ->
  Inv L C (set_workers (alter f k) w).
Proof. intros [I1 I2 I3 I4 I5 I6 [] I8] H4 H5. by split. Qed.

Lemma alter_server_keeps L C f s w :
  Inv L C w -> (forall sv, s_le sv (f sv)) ->
  registered (fun _ => True) (fun s => C (Oserver s)) (transports w) (alter f s (servers w)) ->
  registered (fun s => L (Oserver s)) (fun k => C (Oworker k)) (alter f s (servers w)) (workers w) ->
  Inv L C (set_servers (alter f s) w).
Proof.
  intros [I1 I2 I3 I4 I5 I6 I7 I8] Hle H5 H6. split; try done.
  destruct I7 as [S1 S2 S3 S4 S5 S6 S7]. split; try done.
  - intros t tr s' Ht Hs. destruct (S2 _ _ _ Ht Hs) as (sv & Hsv & Hw).
    eexists. split; [by eapply alter_lookup|]. intros ro Hro. rewrite (Hw _ Hro).
    case_decide; [|done]. by rewrite (sle_worker _ _ (Hle sv)).
  - intros s' sv' Hs'. apply alter_inv in Hs' as (sv & Hsv & ->). specialize (S7 _ _ Hsv).
    case_decide; [|done]. intros id l Hin. apply S7. by apply (sle_transports _ _ (Hle sv)).
Qed.

(** A closed router leaves its worker. *)
Lemma leave_worker_router L C r ro w :
  Inv (fun x => L x \/ x = Orouter r) C w -> routers w !! r = Some ro -> r_closed ro = true ->
  Inv L C (set_workers (alter (update_w_routers (filter (fun l => l <> r))) (r_worker ro)) w).
Proof.
  intros Hi Hr Hc. assert (Inv (fun x => L x \/ x = Orouter r) C
    (set_workers (alter (update_w_routers (filter (fun l => l <> r))) (r_worker ro)) w)) as Hi'.
  { apply alter_worker_keeps; [done| |].
    - eapply registered_leave; [apply Hi|exact Hr|by simpl; rewrite Hc| |done].
      intros wk Hwk l'. simpl. rewrite list_elem_of_filter. tauto.
    - eapply registered_ext; [done| |apply Hi]. intros p. by apply lookup_alter_fmap. }
  destruct Hi' as [I1 I2 I3 I4 I5 I6 I7 I8]. split; try done.
  - eapply registered_mono; [| |exact I2]; [by intros ? [?|?]|done].
  - eapply registered_mono; [| |exact I3]; [by intros ? [?|?]|done].
  - eapply registered_tighten; [| |exact I4]; [|by auto].
    intros p b l Hp Hin [?|[= ->]]; [done|]. exfalso.
    destruct (rg_in _ _ _ _ I4 _ _ _ Hp Hin) as (ro' & Hro' & [= Hpp] & _). cbn in Hro'.
    rewrite Hr in Hro'. injection Hro' as <-. apply alter_inv in Hp as (b0 & Hb0 & ->).
    rewrite decide_True in Hin by done. simpl in Hin. apply list_elem_of_filter in Hin as [? _]. done.
  - eapply registered_mono; [| |exact I5]; [by intros ? [?|?]|done].
Qed.

Lemma leave_worker_server L C s sv w :
  Inv (fun x => L x \/ x = Oserver s) C w -> servers w !! s = Some sv -> s_closed sv = true ->
  Inv L C (set_workers (alter (update_w_servers (filter (fun l => l <> s))) (s_worker sv)) w).
Proof.
  intros Hi Hr Hc. assert (Inv (fun x => L x \/ x = Oserver s) C
    (set_workers (alter (update_w_servers (filter (fun l => l <> s))) (s_worker sv)) w)) as Hi'.
  { apply alter_worker_keeps; [done| |].
    - eapply registered_ext; [done| |apply Hi]. intros p. by apply lookup_alter_fmap.
    - eapply registered_leave; [apply Hi|exact Hr|by simpl; rewrite Hc| |done].
      intros wk Hwk l'. simpl. rewrite list_elem_of_filter. tauto. }
  destruct Hi' as [I1 I2 I3 I4 I5 I6 I7 I8]. split; try done.
  - eapply registered_mono; [| |exact I2]; [by intros ? [?|?]|done].
  - eapply registered_mono; [| |exact I3]; [by intros ? [?|?]|done].
  - eapply registered_mono; [| |exact I4]; [by intros ? [?|?]|done].
  - eapply registered_tighten; [| |exact I5]; [|by auto].
    intros p b l Hp Hin [?|[= ->]]; [done|]. exfalso.
    destruct (rg_in _ _ _ _ I5 _ _ _ Hp Hin) as (sv' & Hsv' & [= Hpp] & _). cbn in Hsv'.
    rewrite Hr in Hsv'. injection Hsv' as <-. apply alter_inv in Hp as (b0 & Hb0 & ->).
    rewrite decide_True in Hin by done. simpl in Hin. apply list_elem_of_filter in Hin as [? _]. done.
Qed.

Lemma router_workerClosed_keeps L C T r w :
  Inv L C w -> L (Orouter r) -> covers_router T r w ->
  let w' := router_workerClosed r w in
  Inv L C w' /\ ends T w w' /\ servers w' = servers w /\ workers w' = workers w /\
  (is_Some (routers w !! r) -> obj_closed (Orouter r) w' = true).
Proof.
  intros Hi HL HT. unfold router_workerClosed. destruct (routers w !! r) as [ro|] eqn:Hr.
  2:{ split_and!; try done. apply ends_refl. }
  destruct (r_closed ro) eqn:Hc.
  { split_and!; try done; [apply ends_refl|]. intros _. simpl. by rewrite Hr. }
  destruct (router_shut_keeps L C T r ro w _ Hi Hr Hc HL HT (core_eq_refl _)) as (Hi1 & He1 & Hs1 & Hw1 & Hcl).
  cbv zeta. set (w1 := close_router_objects r _) in *.
  assert (core_eq w1 (record_effect (Orouter r) (Observer "close" VUndef)
    (record_effect (Orouter r) (Emit "workerclose" VUndef) w1))) as Hcore by done.
  split_and!; try done; [by eapply Inv_core|by eapply ends_core].
Qed.

Lemma router_close_keeps L C T r w :
  Inv L C w -> covers_router T r w ->
  let w' := router_close r w in
  Inv L C w' /\ ends T w w' /\ (is_Some (routers w !! r) -> obj_closed (Orouter r) w' = true).
Proof.
  intros Hi HT. unfold router_close. destruct (routers w !! r) as [ro|] eqn:Hr.
  2:{ split_and!; try done. apply ends_refl. }
  destruct (r_closed ro) eqn:Hc.
  { split_and!; try done; [apply ends_refl|]. intros _. simpl. by rewrite Hr. }
  cbv zeta. set (w0 := record_effect _ _ (set_routers _ w)).
  destruct (router_shut_keeps (fun x => L x \/ x = Orouter r) C T r ro w w0) as (Hi1 & He1 & Hs1 & Hw1 & Hcl);
    [eapply Inv_mono; [| |exact Hi]; auto|done|done|by right|done|done|].
  set (w1 := close_router_objects r w0) in *.
  destruct (ends_router_fwd _ _ _ _ _ He1 Hr) as (ro' & Hr1 & Hle).
  assert (r_closed ro' = true) as Hc1 by (simpl in Hcl; by rewrite Hr1 in Hcl).
  assert (core_eq w1 (record_effect (Orouter r) (Emit "@close" VUndef) w1)) as Hcore by done.
  set (w2 := record_effect (Orouter r) (Emit "@close" VUndef) w1) in *.
  apply (Inv_core _ _ _ _ Hcore) in Hi1. apply (ends_core _ _ _ _ Hcore) in He1.
  rewrite <-(rle_worker _ _ Hle).
  pose proof (leave_worker_router L C r ro' w2 Hi1 Hr1 Hc1) as Hi2.
  set (w3 := set_workers _ w2) in *.
  assert (core_eq w3 (record_effect (Orouter r) (Observer "close" VUndef) w3)) as Hcore2 by done.
  split_and!; [by eapply Inv_core| |done].
  eapply ends_core; [done|]. eapply ends_trans; [exact He1|]. apply ends_alter_worker. by left.
Qed.

(** ** Transports *)

Lemma closes_transport_all L C T t tr w w' :
  Inv L C w -> transports w !! t = Some tr -> closes_transport t tr w w' -> covers_transport T t w ->
  Inv L C w' /\ ends T w w' /\ obj_closed (Otransport t) w' = true.
Proof.
  intros Hi Ht Hct HT. pose proof (closes_transport_shuts _ _ _ _ (inv_children _ _ _ Hi) Ht Hct) as Hs.
  split_and!; [by eapply closes_transport_keeps|by eapply shuts_ends|].
  simpl. by rewrite (shut_lookup_transport _ _ _ _ Hs).
Qed.

Lemma transport_close_keeps L C T t w :
  Inv L C w -> covers_transport T t w ->
  let w' := transport_close t w in
  Inv L C w' /\ ends T w w' /\ (is_Some (transports w !! t) -> obj_closed (Otransport t) w' = true).
Proof.
  intros Hi HT. destruct (transports w !! t) as [tr|] eqn:Ht.
  2:{ rewrite transport_close_noop by (intros ?; by rewrite Ht). split_and!; try done. apply ends_refl. }
  destruct (t_closed tr) eqn:Hc.
  { rewrite transport_close_noop by (intros ?; rewrite Ht; by intros [= <-]).
    split_and!; try done; [apply ends_refl|]. intros _. simpl. by rewrite Ht. }
  edestruct closes_transport_all as (? & ? & ?); [done|done|by apply transport_close_spec|done|].
  by split_and!.
Qed.

Lemma listenServerClosed_keeps L C T t w :
  Inv L C w -> covers_transport T t w ->
  let w' := transport_listenServerClosed t w in
  Inv L C w' /\ ends T w w' /\ (is_Some (transports w !! t) -> obj_closed (Otransport t) w' = true) /\
  servers w' = servers w /\ workers w' = workers w.
Proof.
  intros Hi HT. destruct (transports w !! t) as [tr|] eqn:Ht.
  2:{ rewrite listenServerClosed_noop by (intros ?; by rewrite Ht). split_and!; try done. apply ends_refl. }
  destruct (t_closed tr) eqn:Hc.
  { rewrite listenServerClosed_noop by (intros ?; rewrite Ht; by intros [= <-]).
    split_and!; try done; [apply ends_refl|]. intros _. simpl. by rewrite Ht. }
  pose proof (listenServerClosed_spec _ _ _ Ht Hc) as Hct.
  edestruct closes_transport_all as (? & ? & ?); [done|done|exact Hct|done|].
  split_and!; [done..|by eapply listenServerClosed_servers|apply Hct].
Qed.

(** ** WebRtcServers *)

Lemma unhandle_keeps L C T s t w :
  Inv L C w -> covers_transport T t w ->
  let w' := unhandle s t w in
  Inv L C w' /\ ends T w w' /\ (is_Some (transports w !! t) -> obj_closed (Otransport t) w' = true) /\
  servers w' = servers w /\ workers w' = workers w.
Proof.
  intros Hi HT. unfold unhandle.
  destruct (listenServerClosed_keeps L C T t w Hi HT) as (Hi1 & He1 & Hc1 & Hs1 & Hw1).
  cbv zeta. set (w1 := transport_listenServerClosed t w) in *.
  destruct (transports w1 !! t) as [tr|]; [|by split_and!].
  assert (core_eq w1 (record_effect (Oserver s) (Observer "webrtctransportunhandled" (VStr (t_id tr))) w1))
    as Hcore by done.
  split_and!; try done; [by eapply Inv_core|by eapply ends_core].
Qed.

Lemma unhandle_loop L C T s ls w :
  Inv L C w -> (forall t, t ∈ ls -> covers_transport T t w /\ is_Some (transports w !! t)) ->
  let w' := for_each (unhandle s) ls w in
  Inv L C w' /\ ends T w w' /\ servers w' = servers w /\ workers w' = workers w /\
  forall t, t ∈ ls -> obj_closed (Otransport t) w' = true.
Proof.
  intros Hi Hls.
  destruct (for_each_keeps (unhandle s)
    (fun w' => Inv L C w' /\ ends T w w' /\ servers w' = servers w /\ workers w' = workers w) T
    (fun t w' => obj_closed (Otransport t) w' = true) ls) with (w := w) as ((? & ? & ? & ?) & _ & ?).
  - intros t w1 Hin (Hi1 & He1 & Hs1 & Hw1). destruct (Hls _ Hin) as (Hc & [tr Htr]).
    pose proof (ends_covers_transport _ _ _ _ He1 Hc) as Hc1.
    destruct (unhandle_keeps L C T s t w1 Hi1 Hc1) as (Hi2 & He2 & Hcl & Hs2 & Hw2).
    split_and!; try congruence; [by eapply ends_trans|].
    apply Hcl. pose proof (en_transports _ _ _ He1 t) as Hs. rewrite Htr in Hs.
    apply fmap_Some in Hs as (tr' & ? & _). by exists tr'.
  - intros x w1 w2. apply closed_stays.
  - split_and!; try done. apply ends_refl.
  - done.
Qed.

Lemma server_transports_closed L C T s sv w w' :
  Inv L C w -> servers w !! s = Some sv -> ends T w w' ->
  (forall t, t ∈ jvals (s_transports sv) -> obj_closed (Otransport t) w' = true) ->
  forall t tr, transports w' !! t = Some tr -> t_server tr = Some s -> t_closed tr = true.
Proof.
  intros Hi Hs He Hall t tr Ht Hts. apply negb_false_iff.
  refine (all_closed (B := webRtcServer) transports Otransport _ _ T _ _ _ _ _ _ _ (inv_handled _ _ _ Hi) Hs He Hall t tr Ht Hts).
  - intros t' v. simpl. destruct (transports v !! t'); [|done]. by rewrite negb_involutive.
  - intros t'. by eapply ends_server_transport.
Qed.

Lemma clear_handled_keeps L C s w :
  Inv L C w -> (forall t tr, transports w !! t = Some tr -> t_server tr = Some s -> t_closed tr = true) ->
  Inv L C (set_servers (alter (update_s_transports (fun _ => [])) s) w).
Proof.
  intros Hi Hcl. apply alter_server_keeps; try done.
  - intros sv. split; try done. by intros e ?%elem_of_nil.
  - apply registered_clear; [apply Hi| |done]. intros t tr Ht Hr. simpl in *. by rewrite (Hcl _ _ Ht Hr).
  - eapply registered_servers_rest; [|apply Hi]. intros s'. by apply lookup_alter_fmap.
Qed.

(** The beginning of both closing methods. *)
Lemma mark_server_keeps L C s sv w :
  Inv L C w -> servers w !! s = Some sv -> L (Oserver s) -> C (Oserver s) ->
  Inv L C (set_servers (alter closed_server s) w).
Proof.
  intros Hi Hs HL HC. apply alter_server_keeps; try done.
  - by apply registered_mark; [apply Hi|..].
  - rewrite (alter_is_insert _ _ _ _ Hs). by eapply registered_close; [apply Hi|..].
Qed.

(** The end: the set is empty. *)
Lemma server_emptied L C s sv w :
  Inv L (fun x => C x \/ x = Oserver s) w -> servers w !! s = Some sv -> s_transports sv = [] -> Inv L C w.
Proof.
  intros [I1 I2 I3 I4 I5 I6 I7 I8] Hs Hnil. split; try done.
  - eapply registered_mono; [| |exact I2]; [done|by intros p [?|[=]]].
  - eapply registered_mono; [| |exact I3]; [done|by intros p [?|[=]]].
  - eapply registered_mono; [| |exact I4]; [done|by intros p [?|[=]]].
  - eapply registered_mono; [| |exact I5]; [done|by intros p [?|[=]]].
  - eapply registered_tighten; [by auto| |exact I6]. intros p b Hp _ [?|[= ->]]; [by left|right].
    rewrite Hs in Hp. injection Hp as <-. simpl. by rewrite Hnil.
Qed.

Lemma server_close_keeps L C T s w :
  Inv L C w -> covers_server T s w ->
  let w' := server_close s w in
  Inv L C w' /\ ends T w w' /\ (is_Some (servers w !! s) -> obj_closed (Oserver s) w' = true).
Proof.
  intros Hi [HT HTt]. unfold server_close. destruct (servers w !! s) as [sv|] eqn:Hs.
  2:{ split_and!; try done. apply ends_refl. }
  destruct (s_closed sv) eqn:Hc.
  { split_and!; try done; [apply ends_refl|]. intros _. simpl. by rewrite Hs. }
  cbv zeta. set (L1 := fun x => L x \/ x = Oserver s). set (C1 := fun x => C x \/ x = Oserver s).
  assert (Inv L1 C1 (set_servers (alter closed_server s) w)) as Hi0.
  { eapply mark_server_keeps; [|exact Hs|by right|by right].
    eapply Inv_mono; [| |exact Hi]; intros x ?; by left. }
  assert (ends T w (set_servers (alter closed_server s) w)) as He0.
  { apply ends_alter_server; [done|]. intros x. right. split; [done|done]. }
  set (w0 := record_effect (Oserver s) (Request _ _ _) _).
  assert (core_eq (set_servers (alter closed_server s) w) w0) as Hcore by done.
  apply (Inv_core _ _ _ _ Hcore) in Hi0. apply (ends_core _ _ _ _ Hcore) in He0.
  assert (servers w0 !! s = Some (closed_server sv)) as Hs0 by (cbn; by rewrite lookup_alter_eq, Hs).
  destruct (unhandle_loop L1 C1 T s (jvals (s_transports sv)) w0 Hi0) as (Hi1 & He1 & Hs1 & Hw1 & Hcl1).
  { intros t Hin. destruct (rg_in _ _ _ _ (inv_handled _ _ _ Hi0) s _ t Hs0 Hin) as (tr & Ht & Hp & _).
    split; [|by exists tr]. by eapply HTt. }
  set (w1 := for_each (unhandle s) _ w0) in *.
  pose proof (server_transports_closed L1 C1 T s _ w0 w1 Hi0 Hs0 He1 Hcl1) as Hall.
  pose proof (clear_handled_keeps L1 C1 s w1 Hi1 Hall) as Hi2.
  assert (ends T w (set_servers (alter (update_s_transports (fun _ => [])) s) w1)) as He2.
  { eapply ends_trans; [exact He0|]. eapply ends_trans; [exact He1|].
    apply ends_alter_server; [|by left]. intros x. split; [done|]. by intros e ?%elem_of_nil. }
  set (w2 := set_servers _ w1) in *.
  assert (servers w2 !! s = Some (update_s_transports (fun _ => []) (closed_server sv))) as Hs2
    by (cbn; by rewrite Hs1, lookup_alter_eq, Hs0).
  clear Hi1. pose proof (server_emptied L1 C s _ _ Hi2 Hs2 eq_refl) as Hi3. clear Hi2. rename Hi3 into Hi2.
  assert (core_eq w2 (record_effect (Oserver s) (Emit "@close" VUndef) w2)) as Hcore2 by done.
  apply (Inv_core _ _ _ _ Hcore2) in Hi2. apply (ends_core _ _ _ _ Hcore2) in He2.
  set (w3 := record_effect _ _ w2) in *.
  pose proof (leave_worker_server L C s _ w3 Hi2 Hs2 eq_refl) as Hi4. cbn in Hi4.
  split_and!.
  - eapply Inv_core; [|exact Hi4]. done.
  - eapply ends_core; [|eapply ends_trans; [exact He2|];
      apply (ends_alter_worker T (update_w_servers (filter (fun l => l <> s))) (s_worker sv)); by left]. done.
  - intros _. cbn. by rewrite Hs1, lookup_alter_eq, Hs0.
Qed.

Lemma server_workerClosed_keeps L C T s w :
  Inv L C w -> L (Oserver s) -> T (Oserver s) ->
  (forall t tr, transports w !! t = Some tr -> t_server tr = Some s -> t_closed tr = true) ->
  let w' := server_workerClosed s w in
  Inv L C w' /\ ends T w w' /\ transports w' = transports w /\ routers w' = routers w /\
  workers w' = workers w /\ (is_Some (servers w !! s) -> obj_closed (Oserver s) w' = true).
Proof.
  intros Hi HL HT Hcl. unfold server_workerClosed. destruct (servers w !! s) as [sv|] eqn:Hs.
  2:{ split_and!; try done. apply ends_refl. }
  destruct (s_closed sv) eqn:Hc.
  { split_and!; try done; [apply ends_refl|]. intros _. simpl. by rewrite Hs. }
  cbv zeta. set (C1 := fun x => C x \/ x = Oserver s).
  assert (Inv L C1 (set_servers (alter closed_server s) w)) as Hi0.
  { eapply mark_server_keeps; [|exact Hs|done|by right].
    eapply Inv_mono; [| |exact Hi]; [done|]. intros x ?; by left. }
  set (w0 := set_servers (alter closed_server s) w) in *.
  pose proof (clear_handled_keeps L C1 s w0 Hi0 Hcl) as Hi1.
  set (w1 := set_servers _ w0) in *.
  assert (servers w1 !! s = Some (update_s_transports (fun _ => []) (closed_server sv))) as Hs1
    by (cbn; by rewrite !lookup_alter_eq, Hs).
  pose proof (server_emptied L C s _ _ Hi1 Hs1 eq_refl) as Hi2.
  split_and!; try done.
  - eapply Inv_core; [|exact Hi2]. done.
  - eapply ends_core; [|eapply ends_trans; [apply (ends_alter_server T closed_server s w)|
      apply (ends_alter_server T (update_s_transports (fun _ => [])) s w0)]]; [done|done| | |].
    + intros x. by right.
    + intros x. split; [done|]. by intros e ?%elem_of_nil.
    + intros x. by left.
  - intros _. simpl. by rewrite !lookup_alter_eq, Hs.
Qed.

(** ** Workers *)

Lemma router_loop L C T ls w :
  Inv L C w ->
  (forall r, r ∈ ls -> L (Orouter r) /\ covers_router T r w /\ is_Some (routers w !! r)) ->
  let w' := for_each router_workerClosed ls w in
  Inv L C w' /\ ends T w w' /\ servers w' = servers w /\ workers w' = workers w /\
  forall r, r ∈ ls -> obj_closed (Orouter r) w' = true.
Proof.
  intros Hi Hls.
  destruct (for_each_keeps router_workerClosed
    (fun w' => Inv L C w' /\ ends T w w' /\ servers w' = servers w /\ workers w' = workers w) T
    (fun r w' => obj_closed (Orouter r) w' = true) ls) with (w := w) as ((? & ? & ? & ?) & _ & ?).
  - intros r w1 Hin (Hi1 & He1 & Hs1 & Hw1). destruct (Hls _ Hin) as (HL & Hc & [ro Hro]).
    pose proof (ends_covers_router _ _ _ _ He1 Hc) as Hc1.
    destruct (router_workerClosed_keeps L C T r w1 Hi1 HL Hc1) as (Hi2 & He2 & Hs2 & Hw2 & Hcl).
    split_and!; try congruence; [by eapply ends_trans|].
    destruct (ends_router_fwd _ _ _ _ _ He1 Hro) as (ro' & ? & _). apply Hcl. by exists ro'.
  - intros x w1 w2. apply closed_stays.
  - split_and!; try done. apply ends_refl.
  - done.
Qed.

Lemma server_loop L C T ls w :
  Inv L C w ->
  (forall s, s ∈ ls -> L (Oserver s) /\ T (Oserver s) /\ is_Some (servers w !! s) /\
     forall t tr, transports w !! t = Some tr -> t_server tr = Some s -> t_closed tr = true) ->
  let w' := for_each server_workerClosed ls w in
  Inv L C w' /\ ends T w w' /\ routers w' = routers w /\ workers w' = workers w /\
  forall s, s ∈ ls -> obj_closed (Oserver s) w' = true.
Proof.
  intros Hi Hls.
  destruct (for_each_keeps server_workerClosed
    (fun w' => Inv L C w' /\ ends T w w' /\ transports w' = transports w /\ routers w' = routers w /\
               workers w' = workers w) T
    (fun s w' => obj_closed (Oserver s) w' = true) ls) with (w := w) as ((? & ? & ? & ? & ?) & _ & ?).
  - intros s w1 Hin (Hi1 & He1 & Ht1 & Hr1 & Hw1). destruct (Hls _ Hin) as (HL & HT & [sv Hsv] & Hall).
    destruct (server_workerClosed_keeps L C T s w1 Hi1 HL HT) as (Hi2 & He2 & Ht2 & Hr2 & Hw2 & Hcl);
      [by rewrite Ht1|].
    split_and!; try congruence; [by eapply ends_trans|].
    destruct (ends_server_fwd _ _ _ _ _ He1 Hsv) as (sv' & ? & _). apply Hcl. by exists sv'.
  - intros x w1 w2. apply closed_stays.
  - split_and!; try done. apply ends_refl.
  - done.
Qed.

(** The routers and WebRtcServers of a worker. *)
Definition below_worker (k : loc) (w : world) (x : obj) : Prop :=
  match x with
  | Orouter r => exists ro, routers w !! r = Some ro /\ r_worker ro = k
  | Oserver s => exists sv, servers w !! s = Some sv /\ s_worker sv = k
  | _ => False
  end.

Lemma below_worker_ends T k w w' x : ends T w w' -> below_worker k w x <-> below_worker k w' x.
Proof.
  intros He. destruct x as [l|l|t|r|s|k']; simpl; try done.
  - split.
    + intros (ro & Hro & Hk). destruct (ends_router_fwd _ _ _ _ _ He Hro) as (ro' & ? & Hle).
      exists ro'. split; [done|]. by rewrite (rle_worker _ _ Hle).
    + intros (ro & Hro & Hk). destruct (ends_router _ _ _ _ _ He Hro) as (ro' & ? & Hle).
      exists ro'. split; [done|]. by rewrite <-(rle_worker _ _ Hle).
  - split.
    + intros (sv & Hsv & Hk). destruct (ends_server_fwd _ _ _ _ _ He Hsv) as (sv' & ? & Hle).
      exists sv'. split; [done|]. by rewrite (sle_worker _ _ Hle).
    + intros (sv & Hsv & Hk). destruct (ends_server _ _ _ _ _ He Hsv) as (sv' & ? & Hle).
      exists sv'. split; [done|]. by rewrite <-(sle_worker _ _ Hle).
Qed.

Lemma worker_routers_closed L C T k wk w w' :
  Inv L C w -> workers w !! k = Some wk -> ends T w w' ->
  (forall r, r ∈ w_routers wk -> obj_closed (Orouter r) w' = true) ->
  forall r ro, routers w' !! r = Some ro -> r_worker ro = k -> r_closed ro = true.
Proof.
  intros Hi Hk He Hall r ro Hr Hrk. apply negb_false_iff.
  refine (all_closed (B := worker) routers Orouter _ _ T _ _ _ _ _ _ _ (inv_routers _ _ _ Hi) Hk He Hall r ro Hr _).
  - intros r' v. simpl. destruct (routers v !! r'); [|done]. by rewrite negb_involutive.
  - intros r'. by eapply ends_parent_router.
  - by rewrite <-Hrk.
Qed.

Lemma worker_servers_closed L C T k wk w w' :
  Inv L C w -> workers w !! k = Some wk -> ends T w w' ->
  (forall s, s ∈ w_servers wk -> obj_closed (Oserver s) w' = true) ->
  forall s sv, servers w' !! s = Some sv -> s_worker sv = k -> s_closed sv = true.
Proof.
  intros Hi Hk He Hall s sv Hs Hsk. apply negb_false_iff.
  refine (all_closed (B := worker) servers Oserver _ _ T _ _ _ _ _ _ _ (inv_servers _ _ _ Hi) Hk He Hall s sv Hs _).
  - intros s' v. simpl. destruct (servers v !! s'); [|done]. by rewrite negb_involutive.
  - intros s'. by eapply ends_parent_server.
  - by rewrite <-Hsk.
Qed.

(** The transports of a WebRtcServer are closed when the routers of the worker are. *)
Lemma routers_closed_transports L C k w s sv :
  Inv L C w -> (forall r, ~ C (Orouter r)) ->
  (forall r ro, routers w !! r = Some ro -> r_worker ro = k -> r_closed ro = true) ->
  servers w !! s = Some sv -> s_worker sv = k ->
  forall t tr, transports w !! t = Some tr -> t_server tr = Some s -> t_closed tr = true.
Proof.
  intros Hi HC Hall Hs Hk t tr Ht Hts. destruct (t_closed tr) eqn:Hc; [done|]. exfalso.
  destruct (st_router _ (inv_static _ _ _ Hi) _ _ Ht) as (ro & Hro).
  destruct (st_server _ (inv_static _ _ _ Hi) _ _ _ Ht Hts) as (sv' & Hs' & Hw).
  rewrite Hs in Hs'. injection Hs' as <-. specialize (Hw _ Hro).
  assert (r_closed ro = false) as Hopen.
  { eapply (registered_child_open _ _ _ _ _ _ _ _ (inv_transports _ _ _ Hi) Ht); [by simpl; rewrite Hc|done|done|].
    apply HC. }
  rewrite (Hall _ _ Hro) in Hopen; [done|congruence].
Qed.

Lemma clear_routers_keeps L C k w :
  Inv L C w -> (forall r ro, routers w !! r = Some ro -> r_worker ro = k -> r_closed ro = true) ->
  Inv L C (set_workers (alter (update_w_routers (fun _ => [])) k) w).
Proof.
  intros Hi Hall. apply alter_worker_keeps; [done| |].
  - apply registered_clear; [apply Hi| |done]. intros r ro Hr [= Hk]. simpl. by rewrite (Hall _ _ Hr Hk).
  - eapply registered_ext; [done| |apply Hi]. intros p. by apply lookup_alter_fmap.
Qed.

Lemma clear_servers_keeps L C k w :
  Inv L C w -> (forall s sv, servers w !! s = Some sv -> s_worker sv = k -> s_closed sv = true) ->
  Inv L C (set_workers (alter (update_w_servers (fun _ => [])) k) w).
Proof.
  intros Hi Hall. apply alter_worker_keeps; [done| |].
  - eapply registered_ext; [done| |apply Hi]. intros p. by apply lookup_alter_fmap.
  - apply registered_clear; [apply Hi| |done]. intros s sv Hs [= Hk]. simpl. by rewrite (Hall _ _ Hs Hk).
Qed.

(** Nothing of a worker with empty sets is excepted any more. *)
Lemma worker_emptied k wk w :
  Inv (below_worker k w) (fun x => x = Oworker k) w -> workers w !! k = Some wk ->
  w_routers wk = [] -> w_servers wk = [] -> consistent w.
Proof.
  intros [I1 I2 I3 I4 I5 I6 I7 I8] Hk Hr Hs. split; try done.
  - eapply registered_mono; [| |exact I2]; by intros.
  - eapply registered_mono; [| |exact I3]; by intros.
  - eapply registered_tighten; [| |exact I4].
    + intros p b r Hp Hin (ro & Hro & Hrk). destruct (rg_in _ _ _ _ I4 _ _ _ Hp Hin) as (ro' & Hro' & [= Hpp] & _).
      assert (p = k) as -> by congruence. rewrite Hk in Hp. injection Hp as <-. simpl in Hin.
      rewrite Hr in Hin. by apply elem_of_nil in Hin.
    + intros p b Hp _ [= ->]. right. rewrite Hk in Hp. by injection Hp as <-.
  - eapply registered_tighten; [| |exact I5].
    + intros p b s Hp Hin (sv & Hsv & Hrk). destruct (rg_in _ _ _ _ I5 _ _ _ Hp Hin) as (sv' & Hsv' & [= Hpp] & _).
      assert (p = k) as -> by congruence. rewrite Hk in Hp. injection Hp as <-. simpl in Hin.
      rewrite Hs in Hin. by apply elem_of_nil in Hin.
    + intros p b Hp _ [= ->]. right. rewrite Hk in Hp. by injection Hp as <-.
  - eapply registered_mono; [| |exact I6]; by intros.
Qed.

Lemma close_worker_objects_keeps T k wk w :
  let L := below_worker k w in let C := fun x => x = Oworker k in
  Inv L C w -> workers w !! k = Some wk -> covers_worker T k w ->
  let w' := close_worker_objects k w in
  consistent w' /\ ends T w w' /\ workers w' = <[k := update_w_servers (fun _ => []) (update_w_routers (fun _ => []) wk)]> (workers w).
Proof.
  intros L C Hi Hk (HT & HTr & HTs). unfold close_worker_objects. rewrite Hk.
  destruct (router_loop L C T (w_routers wk) w Hi) as (Hi1 & He1 & Hs1 & Hw1 & Hcl1).
  { intros r Hin. destruct (rg_in _ _ _ _ (inv_routers _ _ _ Hi) _ _ _ Hk Hin) as (ro & Hro & [= Hrk] & _).
    split_and!; [by exists ro|by eapply HTr|by exists ro]. }
  pose proof (worker_routers_closed _ _ _ _ _ _ _ Hi Hk He1 Hcl1) as Hall1.
  cbv zeta. set (w1 := for_each router_workerClosed _ w) in *.
  pose proof (clear_routers_keeps _ _ k w1 Hi1 Hall1) as Hi2.
  set (w2 := set_workers _ w1) in *.
  assert (ends T w w2) as He2 by (eapply ends_trans; [exact He1|]; apply ends_alter_worker; by left).
  assert (workers w2 !! k = Some (update_w_routers (fun _ => []) wk)) as Hk2
    by (cbn; by rewrite lookup_alter_eq, Hw1, Hk).
  destruct (server_loop L C T (w_servers wk) w2 Hi2) as (Hi3 & He3 & Hr3 & Hw3 & Hcl3).
  { intros s Hin. destruct (rg_in _ _ _ _ (inv_servers _ _ _ Hi2) k _ s Hk2 Hin) as (sv & Hsv & [= Hsk] & _).
    assert (servers w !! s = Some sv) as Hsv0 by (cbn in Hsv; by rewrite Hs1 in Hsv).
    split_and!; [by exists sv|by eapply HTs|by exists sv|].
    by apply (routers_closed_transports L C k w2 s sv). }
  set (w3 := for_each server_workerClosed _ w2) in *.
  pose proof (worker_servers_closed _ _ _ _ _ w2 w3 Hi2 Hk2 He3 Hcl3) as Hall3.
  pose proof (clear_servers_keeps _ _ k w3 Hi3 Hall3) as Hi4.
  set (w4 := set_workers _ w3) in *.
  assert (ends T w w4) as He4.
  { eapply ends_trans; [exact He2|]. eapply ends_trans; [exact He3|]. apply ends_alter_worker. by left. }
  assert (workers w4 = <[k := update_w_servers (fun _ => []) (update_w_routers (fun _ => []) wk)]> (workers w)) as Hw4.
  { cbn. rewrite Hw3. cbn. rewrite Hw1, (alter_is_insert _ _ _ _ Hk).
    rewrite (alter_is_insert _ _ _ _ (lookup_insert_eq _ _ _)). by rewrite insert_insert_eq. }
  split_and!; [|done|done].
  eapply worker_emptied; [|by rewrite Hw4, lookup_insert_eq|done|done].
  eapply Inv_mono; [| |exact Hi4]; [|done]. intros x. by apply (below_worker_ends T k w w4 x He4).
Qed.

(** [close] and [workerDied]: [f] marks the worker. *)
Lemma worker_shut_keeps T k wk f w :
  consistent w -> workers w !! k = Some wk -> covers_worker T k w ->
  (forall x, w_routers (f x) = w_routers x) -> (forall x, w_servers (f x) = w_servers x) ->
  (forall x, w_closed (f x) = true) ->
  let w' := close_worker_objects k (set_workers (alter f k) w) in
  consistent w' /\ ends T w w' /\ obj_closed (Oworker k) w' = true.
Proof.
  intros Hi Hk HT Hfr Hfs Hfc. set (w0 := set_workers (alter f k) w).
  assert (Inv (below_worker k w0) (fun x => x = Oworker k) w0) as Hi0.
  { assert (Inv (below_worker k w0) (fun x => x = Oworker k) w) as Hi'
      by (eapply Inv_mono; [| |exact Hi]; by intros x []).
    apply alter_worker_keeps; [done| |]; by apply registered_mark; [apply Hi'|..]. }
  assert (ends T w w0) as He0.
  { apply ends_alter_worker. intros x. right. split; [apply HT|done]. }
  assert (workers w0 !! k = Some (f wk)) as Hk0 by (cbn; by rewrite lookup_alter_eq, Hk).
  destruct (close_worker_objects_keeps T k _ w0 Hi0 Hk0) as (Hi1 & He1 & Hw1); [by destruct HT|].
  split_and!; [done|by eapply ends_trans|]. simpl. rewrite Hw1, lookup_insert_eq. apply Hfc.
Qed.

Lemma worker_close_keeps T k w :
  consistent w -> covers_worker T k w ->
  let w' := worker_close k w in
  consistent w' /\ ends T w w' /\ (is_Some (workers w !! k) -> obj_closed (Oworker k) w' = true).
Proof.
  intros Hi HT. unfold worker_close. destruct (workers w !! k) as [wk|] eqn:Hk.
  2:{ split_and!; try done. apply ends_refl. }
  destruct (w_closed wk) eqn:Hc.
  { split_and!; try done; [apply ends_refl|]. intros _. simpl. by rewrite Hk. }
  destruct (worker_shut_keeps T k wk (closed_worker false) w) as (Hi1 & He1 & Hc1); [done..|].
  split_and!; [by eapply Inv_core; [|exact Hi1]|by eapply ends_core; [|exact He1]|done].
Qed.

Lemma worker_died_keeps T message k w :
  consistent w -> covers_worker T k w ->
  let w' := worker_died message k w in
  consistent w' /\ ends T w w' /\ (is_Some (workers w !! k) -> obj_closed (Oworker k) w' = true).
Proof.
  intros Hi HT. unfold worker_died. destruct (workers w !! k) as [wk|] eqn:Hk.
  2:{ split_and!; try done. apply ends_refl. }
  destruct (w_closed wk) eqn:Hc.
  { split_and!; try done; [apply ends_refl|]. intros _. simpl. by rewrite Hk. }
  destruct (worker_shut_keeps T k wk (closed_worker true) w) as (Hi1 & He1 & Hc1); [done..|].
  split_and!; [by eapply Inv_core; [|exact Hi1]|by eapply ends_core; [|exact He1]|done].
Qed.
