(* ===== verification/ClosingLog.v ===== *)
(** * What closing reports

    Every object of the API has an observer that emits 'close' when the object
    closes.  The report is made at the end of a closing method, after the objects
    below are closed, and the closing methods call each other: this file counts
    the reports in the log of World.v.  [due] is what is left to report of an
    object, and every operation is shown to leave nothing due. *)

From S2P Require Import Prelude Js RtpParameters Framing Events TransportState World WorldSpec Closing.
From S2P Require Producer Consumer DataProducer DataConsumer RtpObserver.

#[local] Open Scope Z_scope.

(** ** Reports *)

Definition is_report (e : effect) : bool :=
  match e with Observer ev _ => String.eqb ev "close" | _ => false end.

Definition count_reports (es : list effect) : nat := length (List.filter is_report es).

(** How often the observer of an object has reported that it is closed. *)
Definition reports (x : obj) (w : world) : nat :=
  length (List.filter (fun p => bool_decide (p.1 = x) && is_report p.2) (log w)).

Definition due (x : obj) (w : world) : Z := Z.b2z (obj_closed x w) - Z.of_nat (reports x w).

(** From [w] to [w'] the object [o], if any, has closed and not yet reported it;
    of other objects nothing is left to report. *)
Definition owes (o : option obj) (w w' : world) : Prop :=
  forall x, due x w' = due x w + Z.b2z (bool_decide (o = Some x)).

Lemma owes_refl w : owes None w w.
Proof. intros x. simpl. lia. Qed.

Lemma owes_then o w w1 w2 : owes None w1 w2 -> owes o w w1 -> owes o w w2.
Proof. intros H2 H1 x. rewrite H2, H1. simpl. lia. Qed.

Lemma owes_frame o w w1 w2 :
  (forall x, obj_closed x w2 = obj_closed x w1) -> log w2 = log w1 -> owes o w w1 -> owes o w w2.
Proof. intros Hc Hl. apply owes_then. intros x. unfold due, reports. rewrite Hc, Hl. simpl. lia. Qed.

Lemma due_record x o e w :
  due x (record_effect o e w) = due x w - Z.b2z (bool_decide (o = x) && is_report e).
Proof.
  unfold due, reports. replace (obj_closed x (record_effect o e w)) with (obj_closed x w) by by destruct x.
  cbn [record_effect log]. rewrite List.filter_app, length_app. cbn [List.filter fst snd].
  destruct (bool_decide (o = x) && is_report e); cbn [length Z.b2z]; lia.
Qed.

Lemma owes_record o o' e w w' : is_report e = false -> owes o w w' -> owes o w (record_effect o' e w').
Proof.
  intros He. apply owes_then. intros x. rewrite due_record, He, andb_false_r. simpl. lia.
Qed.

(** The report is made. *)
Lemma owes_report o a w w' : owes (Some o) w w' -> owes None w (record_effect o (Observer "close" a) w').
Proof.
  intros H x. rewrite due_record, H. cbn [is_report]. rewrite andb_true_r.
  destruct (decide (o = x)) as [->|]; [rewrite !bool_decide_eq_true_2 by done|
    rewrite (bool_decide_eq_false_2 (Some o = Some x)) by congruence; rewrite (bool_decide_eq_false_2 (o = x)) by done];
    simpl; lia.
Qed.

(** ** Updates that close nothing *)

Lemma alter_flag {A} (get : A -> bool) (f : A -> A) l k (m : gmap loc A) :
  (forall a, get (f a) = get a) ->
  match alter f l m !! k with Some a => get a | None => false end =
  match m !! k with Some a => get a | None => false end.
Proof.
  intros Hf. destruct (decide (k = l)) as [->|]; [|by rewrite lookup_alter_ne by congruence].
  rewrite lookup_alter_eq. destruct (m !! l); simpl; [apply Hf|done].
Qed.

Lemma insert_flag {A} (get : A -> bool) a l k (m : gmap loc A) :
  get a = match m !! l with Some a => get a | None => false end ->
  match <[l := a]> m !! k with Some a => get a | None => false end =
  match m !! k with Some a => get a | None => false end.
Proof.
  intros Ha. destruct (decide (k = l)) as [->|]; [by rewrite lookup_insert_eq|by rewrite lookup_insert_ne by congruence].
Qed.

Lemma owes_routers f r o w w' :
  (forall ro, r_closed (f ro) = r_closed ro) -> owes o w w' -> owes o w (set_routers (alter f r) w').
Proof. intros Hf. apply owes_frame; [|done]. intros []; try done. by apply (alter_flag r_closed). Qed.
Lemma owes_transports f t o w w' :
  (forall tr, t_closed (f tr) = t_closed tr) -> owes o w w' -> owes o w (set_transports (alter f t) w').
Proof. intros Hf. apply owes_frame; [|done]. intros []; try done. by apply (alter_flag t_closed). Qed.
Lemma owes_servers f s o w w' :
  (forall sv, s_closed (f sv) = s_closed sv) -> owes o w w' -> owes o w (set_servers (alter f s) w').
Proof. intros Hf. apply owes_frame; [|done]. intros []; try done. by apply (alter_flag s_closed). Qed.
Lemma owes_workers f k o w w' :
  (forall wk, w_closed (f wk) = w_closed wk) -> owes o w w' -> owes o w (set_workers (alter f k) w').
Proof. intros Hf. apply owes_frame; [|done]. intros []; try done. by apply (alter_flag w_closed). Qed.
Lemma owes_unsubscribe k id o w w' : owes o w w' -> owes o w (unsubscribe k id w').
Proof. by apply owes_frame; [intros []|]. Qed.
Lemma owes_subscribe k id y o w w' : owes o w w' -> owes o w (subscribe k id y w').
Proof. by apply owes_frame; [intros []|]. Qed.

Lemma owes_foldl {A} (g : world -> A -> world) l o w w' :
  (forall w x, owes None w (g w x)) -> owes o w w' -> owes o w (foldl g w' l).
Proof.
  intros Hg. revert w'. induction l as [|x l IH]; intros w' H; simpl; [done|].
  apply IH. by eapply owes_then.
Qed.
Lemma owes_for_each {A} (f : A -> world -> world) l o w w' :
  (forall x w, owes None w (f x w)) -> owes o w w' -> owes o w (for_each f l w').
Proof. intros Hf. apply owes_foldl. auto. Qed.

Create HintDb owes.
#[export] Hint Resolve owes_refl owes_record owes_routers owes_transports owes_servers owes_workers
  owes_unsubscribe owes_subscribe owes_for_each owes_report : owes.

(** ** Children *)

Lemma on_child_event_owes l ev o w w' : owes o w w' -> owes o w (on_child_event l ev w').
Proof.
  intros H. unfold on_child_event. destruct (children w' !! l) as [n|]; [|done].
  destruct (removing_event _ _); [|done]. cbv zeta. unfold tell_router_closed.
  destruct (close_event _); [case_match|]; eauto with owes.
Qed.

Lemma count_reports_app es es' : count_reports (es ++ es') = (count_reports es + count_reports es')%nat.
Proof. unfold count_reports. by rewrite List.filter_app, length_app. Qed.

Lemma due_balanced w w' x : owes None w w' -> due x w' = due x w.
Proof. intros H. rewrite H. simpl. lia. Qed.

(** The reports among effects are recorded for the object that has them. *)
Lemma foldl_effects_due (g : world -> effect -> world) o es :
  (forall w e, is_report e = false -> owes None w (g w e)) ->
  (forall w e, is_report e = true -> g w e = record_effect o e w) ->
  forall w x, due x (foldl g w es) = due x w - Z.b2z (bool_decide (o = x)) * Z.of_nat (count_reports es).
Proof.
  intros Hno Hyes. induction es as [|e es IH]; intros w x; cbn [foldl]; [unfold count_reports; simpl; lia|].
  rewrite IH. change (e :: es) with ([e] ++ es). rewrite count_reports_app, Nat2Z.inj_add.
  destruct (is_report e) eqn:He.
  - rewrite Hyes by done. rewrite due_record, He, andb_true_r.
    replace (count_reports [e]) with 1%nat by (unfold count_reports; simpl; by rewrite He). lia.
  - rewrite (due_balanced _ _ _ (Hno _ _ He)).
    replace (count_reports [e]) with 0%nat by (unfold count_reports; simpl; by rewrite He). lia.
Qed.

(** An object whose method reports exactly when it closes the object. *)
Definition reports_closing {A} (isClosed : A -> bool) (f : A -> A * list effect) : Prop :=
  forall a, Z.b2z (isClosed (f a).1) = Z.b2z (isClosed a) + Z.of_nat (count_reports (f a).2).

Lemma apply_child_owes f l w : reports_closing child_closed f -> owes None w (apply_child f l w).
Proof.
  intros Hf x. unfold apply_child. destruct (children w !! l) as [n|] eqn:Hl; [|apply owes_refl].
  specialize (Hf (n_child n)). destruct (f (n_child n)) as [c es]. cbn [fst snd] in Hf.
  rewrite (foldl_effects_due _ (Ochild l)).
  - unfold due, reports. cbn [log set_children].
    destruct (decide (Ochild l = x)) as [<-|Hx].
    + rewrite !bool_decide_eq_true_2 by done. cbn [obj_closed set_children children with_child n_child].
      rewrite lookup_insert_eq, Hl. cbn [with_child n_child]. rewrite Hf.
      rewrite (bool_decide_eq_false_2 (None = Some (Ochild l))) by done. cbn [Z.b2z]. lia.
    + rewrite (bool_decide_eq_false_2 (Ochild l = x)) by done. rewrite bool_decide_eq_false_2 by done.
      replace (obj_closed x _) with (obj_closed x w); [simpl; lia|].
      destruct x as [l'| | | | |]; try done. simpl. by rewrite lookup_insert_ne by congruence.
  - intros w1 [] He; simpl; eauto using on_child_event_owes with owes.
  - by intros w1 [].
Qed.

Lemma child_close_reports : reports_closing child_closed child_close.
Proof.
  intros [p|c|p|c]; simpl; unfold Producer.close, Consumer.close, DataProducer.close, DataConsumer.close;
    [destruct (Producer.closed p) eqn:Hc|destruct (Consumer.closed c) eqn:Hc|
     destruct (DataProducer.closed p) eqn:Hc|destruct (DataConsumer.closed c) eqn:Hc]; simpl; by rewrite ?Hc.
Qed.

Lemma child_transportClosed_reports : reports_closing child_closed child_transportClosed.
Proof.
  intros [p|c|p|c]; simpl; unfold Producer.transportClosed, Consumer.transportClosed,
    DataProducer.transportClosed, DataConsumer.transportClosed;
    [destruct (Producer.closed p) eqn:Hc|destruct (Consumer.closed c) eqn:Hc|
     destruct (DataProducer.closed p) eqn:Hc|destruct (DataConsumer.closed c) eqn:Hc]; simpl; by rewrite ?Hc.
Qed.

Lemma child_producerclose_reports : reports_closing child_closed child_producerclose.
Proof.
  intros [p|c|p|c]; simpl; try (unfold count_reports; simpl; lia).
  - unfold Consumer.on_notification. simpl. destruct (Consumer.closed c) eqn:Hc; simpl; by rewrite ?Hc.
  - unfold DataConsumer.on_notification. simpl. destruct (DataConsumer.closed c) eqn:Hc; simpl; by rewrite ?Hc.
Qed.

Lemma owes_apply_child f l o w w' :
  reports_closing child_closed f -> owes o w w' -> owes o w (apply_child f l w').
Proof. intros Hf. by apply owes_then, apply_child_owes. Qed.
#[export] Hint Resolve owes_apply_child child_close_reports child_transportClosed_reports
  child_producerclose_reports : owes.

(** ** Transports *)

Lemma tell_router_closed_owes t k id o w w' : owes o w w' -> owes o w (tell_router_closed t k id w').
Proof. intros H. unfold tell_router_closed. destruct (close_event k), (transports w' !! t); eauto with owes. Qed.

Lemma close_children_owes tell t o w w' : owes o w w' -> owes o w (close_children tell t w').
Proof.
  apply owes_foldl. intros w1 k. unfold close_kind. destruct (transports w1 !! t) as [tr|]; [|apply owes_refl].
  apply owes_transports; [done|]. apply owes_foldl; [|apply owes_refl].
  intros w2 l. unfold close_one. cbv zeta. destruct tell; [case_match|];
    eauto using tell_router_closed_owes with owes.
Qed.

Lemma emit_transport_close_owes t tr o w w' : owes o w w' -> owes o w (emit_transport_close t tr w').
Proof. intros H. unfold emit_transport_close. cbv zeta. destruct (t_server tr); eauto 10 with owes. Qed.

(** An object is marked as closed. *)
Lemma owes_mark x w w' :
  obj_closed x w = false -> obj_closed x w' = true ->
  (forall y, x <> y -> obj_closed y w' = obj_closed y w) -> log w' = log w -> owes (Some x) w w'.
Proof.
  intros Hx Hx' Hy Hl y. unfold due, reports. rewrite Hl. destruct (decide (x = y)) as [<-|].
  - rewrite Hx, Hx', bool_decide_eq_true_2 by done. simpl. lia.
  - rewrite Hy, bool_decide_eq_false_2 by congruence. simpl. lia.
Qed.

Lemma mark_transport_closed_owes t tr w :
  transports w !! t = Some tr -> t_closed tr = false ->
  owes (Some (Otransport t)) w (mark_transport_closed t tr w).
Proof.
  intros Ht Hc. apply owes_unsubscribe, owes_mark; simpl; [by rewrite Ht|by rewrite lookup_insert_eq| |done].
  intros [] Hne; try done. simpl. by rewrite lookup_insert_ne by congruence.
Qed.
#[export] Hint Resolve tell_router_closed_owes close_children_owes emit_transport_close_owes
  mark_transport_closed_owes : owes.

Lemma transport_close_owes t o w w' : owes o w w' -> owes o w (transport_close t w').
Proof.
  apply owes_then. unfold transport_close. destruct (transports w' !! t) as [tr|] eqn:Ht; [|apply owes_refl].
  destruct (t_closed tr) eqn:Hc; [apply owes_refl|]. cbv zeta. eauto 10 with owes.
Qed.
Lemma transport_routerClosed_owes t o w w' : owes o w w' -> owes o w (transport_routerClosed t w').
Proof.
  apply owes_then. unfold transport_routerClosed. destruct (transports w' !! t) as [tr|] eqn:Ht; [|apply owes_refl].
  destruct (t_closed tr) eqn:Hc; [apply owes_refl|]. cbv zeta. eauto 10 with owes.
Qed.
Lemma transport_listenServerClosed_owes t o w w' : owes o w w' -> owes o w (transport_listenServerClosed t w').
Proof.
  apply owes_then. unfold transport_listenServerClosed.
  destruct (transports w' !! t) as [tr|] eqn:Ht; [|apply owes_refl].
  destruct (t_closed tr) eqn:Hc; [apply owes_refl|]. cbv zeta. eauto 10 with owes.
Qed.

(** ** RtpObservers *)

Lemma obj_closed_observer l w :
  obj_closed (Oobserver l) w = match observers w !! l with Some o => RtpObserver.closed o.1 | None => false end.
Proof. simpl. destruct (observers w !! l); [|done]. apply negb_involutive. Qed.

Lemma apply_observer_owes f l o w w' :
  reports_closing RtpObserver.closed f -> owes o w w' -> owes o w (apply_observer f l w').
Proof.
  intros Hf. apply owes_then. clear w. rename w' into w. intros x. unfold apply_observer.
  destruct (observers w !! l) as [[ob r]|] eqn:Hl; [|apply owes_refl].
  specialize (Hf ob). destruct (f ob) as [ob' es]. cbn [fst snd] in Hf.
  rewrite (foldl_effects_due _ (Oobserver l)).
  - unfold due, reports. cbn [log set_observers].
    rewrite (bool_decide_eq_false_2 (None = Some x)) by done.
    destruct (decide (Oobserver l = x)) as [<-|Hx].
    + rewrite bool_decide_eq_true_2 by done. rewrite !obj_closed_observer. cbn [set_observers observers].
      rewrite lookup_insert_eq, Hl. cbn [fst]. rewrite Hf. cbn [Z.b2z]. lia.
    + rewrite bool_decide_eq_false_2 by done.
      replace (obj_closed x _) with (obj_closed x w); [simpl; lia|].
      destruct x as [|l'| | | |]; try done. simpl. by rewrite lookup_insert_ne by congruence.
  - intros w1 [] He; simpl; [..|destruct (String.eqb _ _)|]; eauto with owes.
  - by intros w1 [].
Qed.

Lemma observer_close_reports : reports_closing RtpObserver.closed RtpObserver.close.
Proof. intros ob. unfold RtpObserver.close. destruct (RtpObserver.closed ob) eqn:Hc; simpl; by rewrite ?Hc. Qed.
Lemma observer_routerClosed_reports : reports_closing RtpObserver.closed RtpObserver.routerClosed.
Proof. intros ob. unfold RtpObserver.routerClosed. destruct (RtpObserver.closed ob) eqn:Hc; simpl; by rewrite ?Hc. Qed.
#[export] Hint Resolve transport_close_owes transport_routerClosed_owes transport_listenServerClosed_owes
  apply_observer_owes observer_close_reports observer_routerClosed_reports : owes.

(** ** Routers, WebRtcServers and workers *)

(** The last update of a closing method, by its form. *)
Ltac owes_step :=
  lazymatch goal with
  | |- owes None _ (record_effect _ (Observer "close" _) _) => apply owes_report
  | |- owes _ _ (record_effect _ _ _) => apply owes_record; [done|]
  | |- owes _ _ (set_routers (alter closed_router _) _) => fail
  | |- owes _ _ (set_servers (alter closed_server _) _) => fail
  | |- owes _ _ (set_workers (alter (closed_worker _) _) _) => fail
  | |- owes _ _ (set_routers (alter _ _) _) => apply owes_routers; [done|]
  | |- owes _ _ (set_servers (alter _ _) _) => apply owes_servers; [done|]
  | |- owes _ _ (set_workers (alter _ _) _) => apply owes_workers; [done|]
  | |- owes _ _ (for_each _ _ _) => apply owes_for_each; [auto with owes|]
  end.
Ltac owes_steps := repeat owes_step; eauto 6 with owes.

Lemma close_router_objects_owes r o w w' : owes o w w' -> owes o w (close_router_objects r w').
Proof.
  intros H. unfold close_router_objects. destruct (routers w' !! r); [|done]. cbv zeta.
  repeat (apply owes_routers; [done|]). apply owes_for_each; [unfold observer_routerClosed; auto with owes|].
  repeat (apply owes_routers; [done|]). apply owes_for_each; auto with owes.
Qed.
#[export] Hint Resolve close_router_objects_owes : owes.

(** An object is marked as closed by an update of it. *)
Ltac owes_mark_tac H :=
  apply owes_mark; simpl; rewrite ?lookup_alter_eq, ?H; try done;
  intros [] ?; try done; simpl; by rewrite lookup_alter_ne by congruence.

Lemma router_mark_owes r ro w :
  routers w !! r = Some ro -> r_closed ro = false ->
  owes (Some (Orouter r)) w (set_routers (alter closed_router r) w).
Proof. intros Hr Hc. owes_mark_tac Hr. Qed.
Lemma server_mark_owes s sv w :
  servers w !! s = Some sv -> s_closed sv = false ->
  owes (Some (Oserver s)) w (set_servers (alter closed_server s) w).
Proof. intros Hs Hc. owes_mark_tac Hs. Qed.
Lemma worker_mark_owes died k wk w :
  workers w !! k = Some wk -> w_closed wk = false ->
  owes (Some (Oworker k)) w (set_workers (alter (closed_worker died) k) w).
Proof. intros Hk Hc. owes_mark_tac Hk. Qed.
#[export] Hint Resolve router_mark_owes server_mark_owes worker_mark_owes : owes.

Lemma router_close_owes r o w w' : owes o w w' -> owes o w (router_close r w').
Proof.
  apply owes_then. unfold router_close. destruct (routers w' !! r) as [ro|] eqn:Hr; [|apply owes_refl].
  destruct (r_closed ro) eqn:Hc; [apply owes_refl|]. cbv zeta. owes_steps.
Qed.
Lemma router_workerClosed_owes r o w w' : owes o w w' -> owes o w (router_workerClosed r w').
Proof.
  apply owes_then. unfold router_workerClosed. destruct (routers w' !! r) as [ro|] eqn:Hr; [|apply owes_refl].
  destruct (r_closed ro) eqn:Hc; [apply owes_refl|]. cbv zeta. owes_steps.
Qed.

Lemma unhandle_owes s t o w w' : owes o w w' -> owes o w (unhandle s t w').
Proof. intros H. unfold unhandle. cbv zeta. destruct (transports _ !! t); eauto with owes. Qed.
#[export] Hint Resolve router_close_owes router_workerClosed_owes unhandle_owes : owes.

Lemma server_close_owes s o w w' : owes o w w' -> owes o w (server_close s w').
Proof.
  apply owes_then. unfold server_close. destruct (servers w' !! s) as [sv|] eqn:Hs; [|apply owes_refl].
  destruct (s_closed sv) eqn:Hc; [apply owes_refl|]. cbv zeta. owes_steps.
Qed.
Lemma server_workerClosed_owes s o w w' : owes o w w' -> owes o w (server_workerClosed s w').
Proof.
  apply owes_then. unfold server_workerClosed. destruct (servers w' !! s) as [sv|] eqn:Hs; [|apply owes_refl].
  destruct (s_closed sv) eqn:Hc; [apply owes_refl|]. cbv zeta. owes_steps.
Qed.
#[export] Hint Resolve server_close_owes server_workerClosed_owes : owes.

Lemma close_worker_objects_owes k o w w' : owes o w w' -> owes o w (close_worker_objects k w').
Proof.
  intros H. unfold close_worker_objects. destruct (workers w' !! k); [|done]. cbv zeta. owes_steps.
Qed.
#[export] Hint Resolve close_worker_objects_owes : owes.

Lemma worker_close_owes k o w w' : owes o w w' -> owes o w (worker_close k w').
Proof.
  apply owes_then. unfold worker_close. destruct (workers w' !! k) as [wk|] eqn:Hk; [|apply owes_refl].
  destruct (w_closed wk) eqn:Hc; [apply owes_refl|]. cbv zeta. owes_steps.
Qed.
Lemma worker_died_owes m k o w w' : owes o w w' -> owes o w (worker_died m k w').
Proof.
  apply owes_then. unfold worker_died. destruct (workers w' !! k) as [wk|] eqn:Hk; [|apply owes_refl].
  destruct (w_closed wk) eqn:Hc; [apply owes_refl|]. cbv zeta. owes_steps.
Qed.
#[export] Hint Resolve worker_close_owes worker_died_owes : owes.

(** ** Objects are made open *)

Lemma owes_insert_routers l a o w w' :
  r_closed a = match routers w' !! l with Some ro => r_closed ro | None => false end ->
  owes o w w' -> owes o w (set_routers (insert l a) w').
Proof. intros Ha. apply owes_frame; [|done]. intros []; try done. by apply insert_flag. Qed.
Lemma owes_insert_servers l a o w w' :
  s_closed a = match servers w' !! l with Some sv => s_closed sv | None => false end ->
  owes o w w' -> owes o w (set_servers (insert l a) w').
Proof. intros Ha. apply owes_frame; [|done]. intros []; try done. by apply insert_flag. Qed.
Lemma owes_insert_workers l a o w w' :
  w_closed a = match workers w' !! l with Some wk => w_closed wk | None => false end ->
  owes o w w' -> owes o w (set_workers (insert l a) w').
Proof. intros Ha. apply owes_frame; [|done]. intros []; try done. by apply insert_flag. Qed.
Lemma owes_insert_transports l a o w w' :
  t_closed a = match transports w' !! l with Some tr => t_closed tr | None => false end ->
  owes o w w' -> owes o w (set_transports (insert l a) w').
Proof. intros Ha. apply owes_frame; [|done]. intros []; try done. by apply insert_flag. Qed.
Lemma owes_insert_children l a o w w' :
  child_closed (n_child a) = match children w' !! l with Some n => child_closed (n_child n) | None => false end ->
  owes o w w' -> owes o w (set_children (insert l a) w').
Proof.
  intros Ha. apply owes_frame; [|done]. intros []; try done.
  by apply (insert_flag (fun n => child_closed (n_child n))).
Qed.
Lemma owes_insert_observers l a o w w' :
  RtpObserver.closed a.1 = match observers w' !! l with Some ob => RtpObserver.closed ob.1 | None => false end ->
  owes o w w' -> owes o w (set_observers (insert l a) w').
Proof.
  intros Ha. apply owes_frame; [|done]. intros []; try done. rewrite !obj_closed_observer.
  by apply (insert_flag (fun ob => RtpObserver.closed ob.1)).
Qed.

Lemma tell_router_new_owes t k id l o w w' : owes o w w' -> owes o w (tell_router_new t k id l w').
Proof. intros H. unfold tell_router_new. destruct (new_event k), (transports w' !! t); eauto with owes. Qed.

Lemma add_child_owes l t c streamId w :
  children w !! l = None -> child_closed c = false -> owes None w (add_child l t c streamId w).
Proof.
  intros Hl Hc. unfold add_child. cbv zeta. apply owes_record; [by destruct c|].
  apply tell_router_new_owes, owes_transports; [done|].
  apply owes_insert_children; [simpl; case_decide; simpl; by rewrite Hl|].
  case_decide; auto with owes.
Qed.

Lemma quiet_not_report e : quiet_effect e = true -> is_report e = false.
Proof. destruct e; simpl; try done. by intros H%negb_true_iff. Qed.

Lemma alike_owes w w' : alike w w' -> owes None w w'.
Proof.
  intros Ha x. unfold due. rewrite (alike_closed x _ _ Ha). simpl.
  destruct (al_log _ _ Ha) as (es & Hl & Hq). unfold reports. rewrite Hl, List.filter_app, length_app.
  replace (List.filter _ es) with (@nil (obj * effect)); [simpl; lia|].
  clear -Hq. induction Hq as [|e es He _ IH]; [done|]. simpl. by rewrite (quiet_not_report _ He), andb_false_r.
Qed.

Lemma step_owes w w' : step w w' -> owes None w w'.
Proof.
  destruct 1 as [k w Hk|l k id caps w wk Hl Hk Hc|l k id w wk Hl Hk Hc|l r cls server id data w ro Hl Hr Hc Hs Hf
    |l r cls id w ro Hl Hr Hc Hf|l t c streamId w tr Hl Hc Ht Hct Hf|t cname nextMid s w|w w' Ha
    |l w|l w|t w|l w|r w|s w|k w|message k w].
  - apply owes_insert_workers; [by rewrite Hk|apply owes_refl].
  - apply owes_record; [done|]. apply owes_workers; [done|].
    apply owes_insert_routers; [by rewrite Hl|apply owes_refl].
  - apply owes_record; [done|]. apply owes_workers; [done|].
    apply owes_insert_servers; [by rewrite Hl|apply owes_refl].
  - unfold createTransport_done, handleWebRtcTransport. cbv zeta.
    destruct server as [s|]; [apply owes_record; [done|]; apply owes_servers; [done|]|];
      (apply owes_record; [done|]); (apply owes_routers; [done|]);
      (apply owes_insert_transports; [simpl; by rewrite Hl|apply owes_subscribe, owes_refl]).
  - apply owes_record; [done|]. apply owes_routers; [done|].
    apply owes_insert_observers; [by simpl; rewrite Hl|apply owes_subscribe, owes_refl].
  - by apply add_child_owes.
  - by apply owes_transports; [|apply owes_refl].
  - by apply alike_owes.
  - unfold close_child. auto with owes.
  - auto with owes.
  - auto with owes.
  - apply apply_observer_owes; auto with owes.
  - auto with owes.
  - auto with owes.
  - auto with owes.
  - auto with owes.
Qed.

Lemma reachable_due w x : reachable w -> due x w = 0.
Proof.
  induction 1 as [|w w' Hr IH Hs]; [by destruct x|]. rewrite (due_balanced w); [done|by apply step_owes].
Qed.
