(* ===== verification/Lifecycle.v ===== *)
(** * The life cycle of the objects

    Every step of the system of World.v keeps the invariant of WorldInv.v, and
    what follows for the objects: what is open is registered and has open
    owners, what is registered is open, closing an object closes what is below
    it and nothing else, and producers are found by their router. *)

From S2P Require Import Prelude Js RtpParameters Framing Events TransportState World WorldSpec Registry WorldInv Closing Cascade.
From S2P Require Producer Consumer DataProducer DataConsumer RtpObserver.

(** ** Children and RtpObservers close *)

Lemma removed_child_ends (T : obj -> Prop) l n w w' :
  children w !! l = Some n -> removed_child l n w w' -> T (Ochild l) -> ends T w w'.
Proof.
  intros Hl (Hc & Ht & Hr & Hs & Hw & Ho) HT.
  assert (forall r, option_Forall2 r_le_open (routers w !! r) (routers w' !! r)) as Hle.
  { intros r. destruct Hr as [->|(tr & _ & ->)]; [done|]. apply alter_Forall2; [apply _|].
    intros ro. apply (shrinks_le _ _ _ (update_r_map_shrinks _ _ _)). }
  split; rewrite ?Hs, ?Ho; try done.
  - intros l'. rewrite Hc. apply lookup_alter_fmap, close_node_static.
  - intros t. rewrite Ht. by apply lookup_alter_fmap.
  - intros r. eapply option_Forall2_impl; [|apply Hle]. by intros ? ? [].
  - intros x. destruct x as [l'|l'|t|r|s|k]; simpl; rewrite ?Hs, ?Ho, ?Hw; auto.
    + rewrite Hc. destruct (decide (l' = l)) as [->|].
      * rewrite lookup_alter_eq, Hl. right. split; [done|]. exact (close_node_closed n).
      * rewrite lookup_alter_ne by congruence. by left.
    + left. rewrite Ht. destruct (decide (t = n_transport n)) as [->|].
      * rewrite lookup_alter_eq. by destruct (transports w !! n_transport n).
      * by rewrite lookup_alter_ne by congruence.
    + left. by destruct (Hle r) as [? ? [_ ?]|].
Qed.

Lemma removed_child_keeps L C l n w w' :
  Inv L C w -> children w !! l = Some n -> node_open n -> removed_child l n w w' -> Inv L C w'.
Proof.
  intros Hi Hl Ho Hrm. pose proof (removed_child_ends (fun _ => True) _ _ _ _ Hl Hrm I) as He.
  assert (lookup_inv (children w') (transports w') (routers w')) as Hlk.
  { eapply lookup_ends; [exact He|by apply Hi|].
    destruct Hrm as (Hc & Ht & Hr & _).
    intros l' n' tr' ro ro' k id Hl' Ho' Hli Hk Hid Htr' Hro Hro' Hg.
    destruct Hr as [Hr|(tr & Htr & Hr)]; [congruence|].
    rewrite Hr in Hro'. apply alter_inv in Hro' as (ro0 & Hro0 & ->). rewrite Hro in Hro0. injection Hro0 as <-.
    case_decide as Heq; [|done].
    assert (l' <> l) as Hne.
    { intros ->. rewrite Hc, lookup_alter_eq, Hl in Hl'. injection Hl' as <-. unfold node_open in Ho'.
      by rewrite close_node_closed in Ho'. }
    destruct (decide (k = kind_of (n_child n) /\ id = child_id (n_child n))) as [[Hkn Hidn]|Hdiff].
    - exfalso. destruct (lk_found _ _ _ (inv_lookup _ _ _ Hi) l n tr Hl Ho) as (ro1 & Hro1 & Hg1); [by rewrite <-Hkn|done|].
      rewrite <-Heq, Hro in Hro1. injection Hro1 as <-. congruence.
    - rewrite (sh_keeps _ _ _ (update_r_map_shrinks (kind_of (n_child n)) (child_id (n_child n)) ro)); [done|].
      naive_solver. }
  pose proof (static_ends _ _ _ He (inv_static _ _ _ Hi)) as Hst.
  destruct Hi as [I1 I2 I3 I4 I5 I6 _ _]. destruct Hrm as (Hc & Ht & Hr & Hs & Hw & Hob).
  assert (forall r, r_rest <$> routers w' !! r = r_rest <$> routers w !! r) as Hrest.
  { intros r. destruct Hr as [->|(tr & _ & ->)]; [done|]. apply lookup_alter_fmap. by intros x. }
  split; try done; rewrite ?Hs, ?Hw, ?Hob; try done.
  - rewrite Hc, Ht. by apply child_inv_remove.
  - eapply registered_transports_rest; [exact (rest_part r_rest (fun x => (x.1.1.1, x.2)) _ _ Hrest)|].
    eapply registered_ext; [|done|exact I2]. intros t. rewrite Ht. by apply lookup_alter_fmap.
  - eapply registered_observers_rest; [exact (rest_part r_rest (fun x => (x.1.1.2, x.2)) _ _ Hrest)|done].
  - eapply registered_routers_rest; [exact (rest_part r_rest (fun x => (x.1.2, x.2)) _ _ Hrest)|done].
  - eapply registered_ext; [|done|exact I6]. intros t. rewrite Ht. by apply lookup_alter_fmap.
Qed.

Lemma close_child_keeps L C (T : obj -> Prop) l w :
  Inv L C w -> T (Ochild l) ->
  let w' := close_child l w in
  Inv L C w' /\ ends T w w' /\ (is_Some (children w !! l) -> obj_closed (Ochild l) w' = true).
Proof.
  intros Hi HT. cbv zeta. destruct (close_child_spec l w) as [[Hcore Hcl]|(n & Hl & Ho & Hrm)].
  - split_and!; [by eapply Inv_core|eapply ends_core; [done|apply ends_refl]|].
    intros [n Hl]. destruct Hcore as [Hc _]. simpl. by rewrite Hc, Hl, (Hcl _ Hl).
  - split_and!; [by eapply removed_child_keeps|by eapply removed_child_ends|].
    intros _. destruct Hrm as [Hc _]. simpl. rewrite Hc, lookup_alter_eq, Hl. exact (close_node_closed n).
Qed.

Lemma producerclose_keeps L C l w : Inv L C w -> Inv L C (apply_child child_producerclose l w).
Proof.
  intros Hi. destruct (producerclose_spec l w) as [Hcore|(n & Hl & Ho & Hrm)];
    [by eapply Inv_core|by eapply removed_child_keeps].
Qed.

Lemma observer_close_keeps L C (T : obj -> Prop) l w :
  Inv L C w -> T (Oobserver l) ->
  let w' := observer_close l w in
  Inv L C w' /\ ends T w w' /\ (is_Some (observers w !! l) -> obj_closed (Oobserver l) w' = true).
Proof.
  intros Hi HT. cbv zeta.
  assert (forall o, RtpObserver.closed o = true -> RtpObserver.close o = (o, [])) as Hf.
  { intros o Hc. unfold RtpObserver.close. by rewrite Hc. }
  destruct (observers w !! l) as [o|] eqn:Hl; [destruct (observer_open o) eqn:Ho|].
  - destruct (observer_close_spec _ _ _ Hl Ho) as (Hc & Ht & Hs & Hw & Hos & Hr).
    assert (forall ro, r_le_open ro (update_r_rtpObservers (jdel (observer_id o)) ro)) as Hle.
    { intros ro. split; [|done]. split; try done. intros [id l']. simpl. rewrite elem_of_jdel. tauto. }
    pose proof (ends_observer T _ _ _ _ _ Hl HT Hle Hc Ht Hs Hw Hos Hr) as He.
    split_and!; [|done|intros _; simpl; by rewrite Hos, lookup_insert_eq].
    pose proof (static_ends _ _ _ He (inv_static _ _ _ Hi)) as Hst.
    pose proof (inv_lookup _ _ _ Hi) as Hlk.
    destruct Hi as [I1 I2 I3 I4 I5 I6 I7 _]. split; try done; rewrite ?Hc, ?Ht, ?Hs, ?Hw, ?Hr, ?Hos; try done.
    + eapply registered_transports_rest; [|exact I2]. intros r. by apply lookup_alter_fmap.
    + eapply registered_close_leave; [exact I3|done..| |done].
      intros ro Hro l'. simpl. apply (elem_of_jvals_jdel observer_id (observers w) _ l o); [|apply I7|done].
      by eapply st_observers.
    + eapply registered_routers_rest; [|exact I4]. intros r. by apply lookup_alter_fmap.
    + rewrite <-Hc, <-Ht, <-Hr. eapply lookup_ends; [exact He|exact Hlk|].
      intros l1 n tr ro ro' k id _ _ _ _ _ _ Hro Hro' Hg. rewrite Hr in Hro'.
      apply alter_inv in Hro' as (ro0 & Hro0 & ->). rewrite Hro in Hro0. injection Hro0 as <-. by case_decide.
  - assert (core_eq w (observer_close l w)) as Hcore
      by (apply observer_noop; [done|]; intros ?; rewrite Hl; by intros [= <-]).
    split_and!; [by eapply Inv_core|eapply ends_core; [done|apply ends_refl]|].
    intros _. destruct Hcore as [_ [_ _ _ _ Hos]]. simpl. by rewrite Hos, Hl, Ho.
  - assert (core_eq w (observer_close l w)) as Hcore by (apply observer_noop; [done|]; intros ?; by rewrite Hl).
    split_and!; [by eapply Inv_core|eapply ends_core; [done|apply ends_refl]|by intros []].
Qed.

(** ** Objects are made *)

Lemma insert_inv {V} i (x : V) (m : gmap nat V) j y :
  <[i := x]> m !! j = Some y -> j = i /\ y = x \/ j <> i /\ m !! j = Some y.
Proof.
  destruct (decide (j = i)) as [->|]; [rewrite lookup_insert_eq|rewrite lookup_insert_ne by congruence];
    [intros [= <-]|]; auto.
Qed.

Lemma insert_fresh {V} i (x : V) (m : gmap nat V) j y :
  m !! i = None -> m !! j = Some y -> <[i := x]> m !! j = Some y.
Proof. intros Hi Hj. by rewrite lookup_insert_ne by congruence. Qed.

Lemma elem_of_snoc {A} (x y : A) l : y ∈ l ++ [x] <-> y ∈ l \/ y = x.
Proof. by rewrite elem_of_app, list_elem_of_singleton. Qed.

Lemma new_worker_keeps k w :
  consistent w -> workers w !! k = None ->
  consistent (set_workers (insert k (mkWorker false false false [] [])) w).
Proof.
  intros [I1 I2 I3 I4 I5 I6 [] I8] Hk. split; try done; by apply registered_owner.
Qed.

Lemma new_router_keeps l k id caps w wk :
  consistent w -> routers w !! l = None -> workers w !! k = Some wk -> w_closed wk = false ->
  consistent (createRouter_done l k id caps w).
Proof.
  intros [I1 I2 I3 I4 I5 I6 I7 I8] Hl Hk Hc. split; try done.
  - by apply registered_owner.
  - by apply registered_owner.
  - eapply registered_enter; try done. intros l'. apply elem_of_snoc.
  - eapply registered_ext; [done| |exact I5]. intros p. by apply lookup_alter_fmap.
  - destruct I7 as [S1 S2 S3 S4 S5 S6 S7]. split; try done.
    + intros t tr Ht. destruct (S1 _ _ Ht) as (ro & Hro). exists ro. by apply insert_fresh.
    + intros t tr s Ht Hs. destruct (S2 _ _ _ Ht Hs) as (sv & Hsv & Hw). exists sv. split; [done|].
      intros ro [[Heq _]|[_ Hro]]%insert_inv; [|by apply Hw].
      destruct (S1 _ _ Ht) as (ro' & Hro'). congruence.
    + intros r ro [[_ ->]|[_ Hro]]%insert_inv; [apply filed_nil|by eapply S5].
    + intros r ro [[_ ->]|[_ Hro]]%insert_inv; [apply filed_nil|by eapply S6].
  - destruct I8 as [H1 H2]. split.
    + intros l' n tr Hl' Ho Hli Ht. destruct (H1 _ _ _ Hl' Ho Hli Ht) as (ro & Hro & Hg).
      exists ro. split; [by apply insert_fresh|done].
    + intros r ro k' id' l' [[_ ->]|[_ Hro]]%insert_inv Hin; [by destruct k'; apply elem_of_nil in Hin|by eapply H2].
Qed.

Lemma new_server_keeps l k id w wk :
  consistent w -> servers w !! l = None -> workers w !! k = Some wk -> w_closed wk = false ->
  consistent (createWebRtcServer_done l k id w).
Proof.
  intros [I1 I2 I3 I4 I5 I6 I7 I8] Hl Hk Hc. split; try done.
  - eapply registered_ext; [done| |exact I4]. intros p. by apply lookup_alter_fmap.
  - eapply registered_enter; try done. intros l'. apply elem_of_snoc.
  - by apply registered_owner.
  - destruct I7 as [S1 S2 S3 S4 S5 S6 S7]. split; try done.
    + intros t tr s Ht Hs. destruct (S2 _ _ _ Ht Hs) as (sv & Hsv & Hw). exists sv.
      split; [by apply insert_fresh|done].
    + intros s sv [[_ ->]|[_ Hsv]]%insert_inv; [apply filed_nil|by eapply S7].
Qed.

Lemma child_inv_new_transport cs ts t tr :
  child_inv cs ts -> ts !! t = None -> (forall k, t_map k tr = []) -> child_inv cs (<[t := tr]> ts).
Proof.
  intros [H1 H2 H3 H4] Ht Hk. split.
  - intros l n Hl Ho. destruct (H1 _ _ Hl Ho) as (tr' & ? & ?). exists tr'. split; [by apply insert_fresh|done].
  - intros t' tr' k id l [[_ ->]|[_ Ht']]%insert_inv Hin; [|by eapply H2].
    rewrite Hk in Hin. by apply elem_of_nil in Hin.
  - intros t' tr' k [[_ ->]|[_ Ht']]%insert_inv; [rewrite Hk; constructor|by eapply H3].
  - intros t' tr' k [[_ ->]|[_ Ht']]%insert_inv Hc; [by rewrite Hk|by eapply H4].
Qed.

(** The static part after a new transport, [ss] being the WebRtcServers then. *)
Lemma static_new_transport w w' l tr ro :
  static_inv w -> transports w !! l = None -> routers w !! t_router tr = Some ro ->
  (forall t' tr', transports w !! t' = Some tr' -> t_id tr' <> t_id tr) ->
  transports w' = <[l := tr]> (transports w) ->
  routers w' = alter (update_r_transports (jset (t_id tr) l)) (t_router tr) (routers w) ->
  observers w' = observers w ->
  match t_server tr with
  | None => servers w' = servers w
  | Some s => servers w' = alter (update_s_transports (jset (t_id tr) l)) s (servers w) /\
              exists sv, servers w !! s = Some sv /\ s_worker sv = r_worker ro
  end ->
  static_inv w'.
Proof.
  intros [S1 S2 S3 S4 S5 S6 S7] Hl Hro Hid Ht Hr Ho Hs.
  assert (forall s sv, servers w !! s = Some sv -> exists sv', servers w' !! s = Some sv' /\ s_worker sv' = s_worker sv) as Hss.
  { intros s sv Hsv. destruct (t_server tr) as [s0|]; [destruct Hs as [-> _]|rewrite Hs; by exists sv].
    eexists. split; [by eapply alter_lookup|]. by case_decide. }
  split; rewrite ?Ht, ?Hr, ?Ho; try done.
  - intros t tr' [[_ ->]|[_ Ht']]%insert_inv.
    + eexists. by eapply alter_lookup.
    + destruct (S1 _ _ Ht') as (ro' & ?). eexists. by eapply alter_lookup.
  - intros t tr' s Ht' Hts.
    assert (exists sv, servers w !! s = Some sv /\ forall ro, routers w !! t_router tr' = Some ro -> r_worker ro = s_worker sv)
      as (sv & Hsv & Hw).
    { apply insert_inv in Ht' as [[_ ->]|[_ Ht']]; [|by eapply S2].
      rewrite Hts in Hs. destruct Hs as (_ & sv & Hsv & Hw). exists sv. split; [done|]. intros ro'. congruence. }
    destruct (Hss _ _ Hsv) as (sv' & Hsv' & Hw'). exists sv'. split; [done|].
    intros ro' Hro'. apply alter_inv in Hro' as (ro0 & Hro0 & ->). specialize (Hw _ Hro0). case_decide; simpl; congruence.
  - by apply distinct_ids_insert.
  - intros r ro' Hr'. apply alter_inv in Hr' as (ro0 & Hro0 & ->). case_decide.
    + by apply filed_insert; [eapply S5|..].
    + by apply filed_new; [|eapply S5].
  - intros r ro' Hr'. apply alter_inv in Hr' as (ro0 & Hro0 & ->). specialize (S6 _ _ Hro0). by case_decide.
  - intros s sv Hsv. destruct (t_server tr) as [s0|]; [destruct Hs as [Hs _]|]; rewrite Hs in Hsv.
    + apply alter_inv in Hsv as (sv0 & Hsv0 & ->). case_decide.
      * by apply filed_insert; [eapply S7|..].
      * by apply filed_new; [|eapply S7].
    + by apply filed_new; [|eapply S7].
Qed.

Lemma new_transport_keeps l r cls server id data w ro :
  consistent w -> transports w !! l = None -> routers w !! r = Some ro -> r_closed ro = false ->
  usable_server server (r_worker ro) w -> fresh_transport_id id w ->
  consistent (createTransport_done l r cls server id data w).
Proof.
  intros Hi Hl Hr Hc Hsv Hid.
  set (tr := mkTransport id cls r server false data [] [] [] [] None 0 no_sctp_ids).
  set (w' := createTransport_done l r cls server id data w).
  assert (children w' = children w /\ observers w' = observers w /\ workers w' = workers w /\
          transports w' = <[l := tr]> (transports w) /\
          routers w' = alter (update_r_transports (jset id l)) r (routers w)) as (Ec & Eo & Ew & Et & Er)
    by (by destruct server).
  assert (match server with
          | None => servers w' = servers w
          | Some s => servers w' = alter (update_s_transports (jset id l)) s (servers w)
          end) as Es by (by destruct server).
  destruct Hi as [I1 I2 I3 I4 I5 I6 I7 I8].
  assert (static_inv w') as Hst.
  { eapply (static_new_transport w w' l tr ro); try done. simpl.
    destruct server as [s|]; [|done]. destruct Hsv as (sv & ? & _ & ?). split; [done|]. by exists sv. }
  split; try done; rewrite ?Ec, ?Eo, ?Ew, ?Et, ?Er.
  - apply child_inv_new_transport; [done..|]. by intros [].
  - eapply registered_enter; try done. intros l'. simpl.
    by apply (elem_of_jvals_jset t_id (transports w)); [eapply st_transports|].
  - eapply registered_observers_rest; [|exact I3]. intros r'. by apply lookup_alter_fmap.
  - eapply registered_routers_rest; [|exact I4]. intros r'. by apply lookup_alter_fmap.
  - eapply registered_servers_rest; [|exact I5]. intros s'.
    destruct server as [s|]; rewrite Es; [by apply lookup_alter_fmap|done].
  - destruct server as [s|]; rewrite Es; [|by apply registered_orphan].
    destruct Hsv as (sv & Hs & Hsc & _).
    eapply registered_enter; try done. intros l'. simpl.
    by apply (elem_of_jvals_jset t_id (transports w)); [eapply st_handled|].
  - destruct I8 as [H1 H2]. split.
    + intros l' n tr' Hl' Ho Hli Ht'.
      destruct (ci_registered _ _ I1 _ _ Hl' Ho) as (tr0 & Htr0 & _).
      apply insert_inv in Ht' as [[Heq _]|[_ Ht']]; [congruence|].
      destruct (H1 _ _ _ Hl' Ho Hli Ht') as (ro' & Hro' & Hg).
      eexists. split; [by eapply alter_lookup|]. by case_decide.
    + intros r' ro' k' id' l' Hr' Hin. apply alter_inv in Hr' as (ro0 & Hro0 & ->).
      assert ((id', l') ∈ r_map k' ro0) as Hin0 by (by case_decide).
      destruct (H2 _ _ _ _ _ Hro0 Hin0) as (n & tr' & ? & ? & ? & ? & ?). exists n, tr'.
      split_and!; try done. by apply insert_fresh.
Qed.

Lemma new_observer_keeps l r cls id w ro :
  consistent w -> observers w !! l = None -> routers w !! r = Some ro -> r_closed ro = false ->
  fresh_observer_id id w -> consistent (createRtpObserver_done l r cls id w).
Proof.
  intros [I1 I2 I3 I4 I5 I6 I7 I8] Hl Hr Hc Hid. split; try done.
  - eapply registered_transports_rest; [|exact I2]. intros r'. by apply lookup_alter_fmap.
  - eapply registered_enter; try done. intros l'. simpl.
    apply (elem_of_jvals_jset observer_id (observers w)); [by eapply st_observers|exact Hid].
  - eapply registered_routers_rest; [|exact I4]. intros r'. by apply lookup_alter_fmap.
  - destruct I7 as [S1 S2 S3 S4 S5 S6 S7]. split; try done; cbn.
    + intros t tr Ht. destruct (S1 _ _ Ht) as (ro' & ?). eexists. by eapply alter_lookup.
    + intros t tr s Ht Hs. destruct (S2 _ _ _ Ht Hs) as (sv & Hsv & Hw). exists sv. split; [done|].
      intros ro' Hro'. apply alter_inv in Hro' as (ro0 & Hro0 & ->). specialize (Hw _ Hro0). by case_decide.
    + by apply distinct_ids_insert.
    + intros r' ro' Hr'. apply alter_inv in Hr' as (ro0 & Hro0 & ->). specialize (S5 _ _ Hro0). by case_decide.
    + intros r' ro' Hr'. apply alter_inv in Hr' as (ro0 & Hro0 & ->). case_decide.
      * by apply (filed_insert observer_id); [eapply S6|..].
      * by apply filed_new; [|eapply S6].
  - destruct I8 as [H1 H2]. split.
    + intros l' n tr' Hl' Ho Hli Ht'. destruct (H1 _ _ _ Hl' Ho Hli Ht') as (ro' & Hro' & Hg).
      eexists. split; [by eapply alter_lookup|]. by case_decide.
    + intros r' ro' k' id' l' Hr' Hin. apply alter_inv in Hr' as (ro0 & Hro0 & ->).
      eapply H2; [done|]. by case_decide.
Qed.

(** The static part depends on these parts of the routers only. *)
Definition r_owned (ro : router) : list (string * loc) * list (string * loc) * loc :=
  (r_transports ro, r_rtpObservers ro, r_worker ro).

Lemma static_same w w' :
  static_inv w -> (forall t, t_static <$> transports w' !! t = t_static <$> transports w !! t) ->
  (forall r, r_owned <$> routers w' !! r = r_owned <$> routers w !! r) ->
  (forall l, o_static <$> observers w' !! l = o_static <$> observers w !! l) -> servers w' = servers w ->
  static_inv w'.
Proof.
  intros [S1 S2 S3 S4 S5 S6 S7] Ht Hr Ho Hs.
  assert (forall t tr', transports w' !! t = Some tr' ->
    exists tr, transports w !! t = Some tr /\ t_static tr' = t_static tr) as Ht'.
  { intros t tr' H. specialize (Ht t). rewrite H in Ht. symmetry in Ht. apply fmap_Some in Ht as (tr & ? & ?). by exists tr. }
  assert (forall r ro', routers w' !! r = Some ro' ->
    exists ro, routers w !! r = Some ro /\ r_owned ro' = r_owned ro) as Hr'.
  { intros r ro' H. specialize (Hr r). rewrite H in Hr. symmetry in Hr. apply fmap_Some in Hr as (ro & ? & ?). by exists ro. }
  assert (forall l, t_id <$> transports w' !! l = t_id <$> transports w !! l) as Hid.
  { exact (rest_part t_static (fun x => x.1.1) _ _ Ht). }
  assert (forall l, observer_id <$> observers w' !! l = observer_id <$> observers w !! l) as Hoid.
  { exact (rest_part o_static (fun x => x.1) _ _ Ho). }
  split; rewrite ?Hs; try done.
  - intros t tr' Htr. destruct (Ht' _ _ Htr) as (tr & Htr0 & [= _ -> _]). destruct (S1 _ _ Htr0) as (ro & Hro).
    specialize (Hr (t_router tr)). rewrite Hro in Hr. apply fmap_Some in Hr as (ro' & ? & _). by exists ro'.
  - intros t tr' s Htr Hts. destruct (Ht' _ _ Htr) as (tr & Htr0 & [= _ Hrr Hss]).
    destruct (S2 t tr s Htr0 ltac:(congruence)) as (sv & ? & Hw). exists sv. split; [done|].
    intros ro' Hro'. destruct (Hr' _ _ Hro') as (ro & Hro & [= _ _ ->]). apply Hw. congruence.
  - by eapply distinct_ids_ext.
  - by eapply distinct_ids_ext.
  - intros r ro' Hro'. destruct (Hr' _ _ Hro') as (ro & Hro & [= -> _ _]). eapply filed_ext; [done|]. by eapply S5.
  - intros r ro' Hro'. destruct (Hr' _ _ Hro') as (ro & Hro & [= _ -> _]). eapply filed_ext; [done|]. by eapply S6.
  - intros s sv Hsv. eapply filed_ext; [done|]. by eapply S7.
Qed.

(** What [add_child] does to the store. *)
Lemma add_child_spec l t c streamId w tr :
  transports w !! t = Some tr ->
  let w' := add_child l t c streamId w in
  children w' = <[l := mkChildNode c t streamId]> (children w) /\
  transports w' = alter (update_t_map (kind_of c) (jset (child_id c) l)) t (transports w) /\
  routers w' = (match new_event (kind_of c) with
                | Some _ => alter (update_r_map (kind_of c) (jset (child_id c) l)) (t_router tr) (routers w)
                | None => routers w
                end) /\
  servers w' = servers w /\ workers w' = workers w /\ observers w' = observers w.
Proof.
  intros Ht. unfold add_child, tell_router_new. cbv zeta.
  set (w0 := if decide (kind_of c = KDataProducer) then w else _).
  assert (core_eq w w0) as [Hc [Ht0 Hr Hs Hw Ho]] by (unfold w0; by case_decide).
  cbn [transports set_transports set_children]. rewrite Ht0, lookup_alter_eq, Ht. cbn [fmap option_fmap option_map].
  destruct (new_event (kind_of c)); cbn; rewrite ?Hc, ?Ht0, ?Hr, ?Hs, ?Hw, ?Ho; done.
Qed.

Lemma new_event_listed k : listed k <-> is_Some (new_event k).
Proof. destruct k; split; try (by intros [|]); try (by intros []); intros _; [by left|by right]. Qed.

Lemma r_map_set k k' f ro :
  is_Some (new_event k) -> r_map k' (update_r_map k f ro) = if decide (k' = k) then f (r_map k ro) else r_map k' ro.
Proof. intros []. destruct k; try done; destruct k'; done. Qed.

Lemma lookup_new_child w w' l t c streamId tr ro :
  let n := mkChildNode c t streamId in
  lookup_inv (children w) (transports w) (routers w) ->
  children w !! l = None -> transports w !! t = Some tr -> routers w !! t_router tr = Some ro ->
  fresh_child_id (kind_of c) (child_id c) (t_router tr) w ->
  children w' = <[l := n]> (children w) ->
  (forall t', t_static <$> transports w' !! t' = t_static <$> transports w !! t') ->
  routers w' = (match new_event (kind_of c) with
                | Some _ => alter (update_r_map (kind_of c) (jset (child_id c) l)) (t_router tr) (routers w)
                | None => routers w
                end) ->
  lookup_inv (children w') (transports w') (routers w').
Proof.
  intros n [H1 H2] Hl Ht Hro Hfresh Ec Hts Er.
  assert (forall r, r_rest <$> routers w' !! r = r_rest <$> routers w !! r) as Hrest.
  { intros r. rewrite Er. destruct (new_event (kind_of c)); [|done]. by apply lookup_alter_fmap. }
  assert (forall r ro', routers w' !! r = Some ro' -> exists ro0, routers w !! r = Some ro0 /\
    forall k, r_map k ro' = if decide (r = t_router tr /\ k = kind_of c /\ listed k)
                            then jset (child_id c) l (r_map k ro0) else r_map k ro0) as Hrm.
  { intros r ro' Hr. rewrite Er in Hr. destruct (new_event (kind_of c)) as [ev|] eqn:Hev.
    - apply alter_inv in Hr as (ro0 & Hro0 & ->). exists ro0. split; [done|]. intros k.
      destruct (decide (r = t_router tr)) as [->|Hne]; [|rewrite decide_False by tauto; done].
      rewrite r_map_set by by rewrite Hev. destruct (decide (k = kind_of c)) as [->|Hk].
      + rewrite decide_True; [done|]. split_and!; try done. apply new_event_listed. by rewrite Hev.
      + rewrite decide_False by tauto. done.
    - exists ro'. split; [done|]. intros k. rewrite decide_False; [done|].
      intros (_ & -> & Hli). apply new_event_listed in Hli as [? Hli]. congruence. }
  assert (forall r ro0, routers w !! r = Some ro0 -> is_Some (routers w' !! r)) as Hrs.
  { intros r ro0 Hr. pose proof (Hrest r) as H. rewrite Hr in H. by destruct (routers w' !! r). }
  split.
  + intros l1 n1 tr1 Hl1 Ho1 Hli1 Ht1. pose proof (Hts (n_transport n1)) as Hst. rewrite Ht1 in Hst. symmetry in Hst.
    apply fmap_Some in Hst as (tr0 & Htr0 & [= _ Hrr _]). rewrite Ec in Hl1.
    apply insert_inv in Hl1 as [[-> ->]|[Hne Hl1]].
    * simpl in Htr0. rewrite Ht in Htr0. injection Htr0 as <-. rewrite Hrr.
      destruct (Hrs _ _ Hro) as [ro' Hro']. exists ro'. split; [done|].
      destruct (Hrm _ _ Hro') as (ro0 & _ & Hm). rewrite Hm, decide_True by done. apply jget_jset_eq.
    * destruct (H1 _ _ _ Hl1 Ho1 Hli1 Htr0) as (ro1 & Hro1 & Hg). rewrite Hrr.
      destruct (Hrs _ _ Hro1) as [ro' Hro']. exists ro'. split; [done|].
      destruct (Hrm _ _ Hro') as (ro0 & Hro0 & Hm). rewrite Hro1 in Hro0. injection Hro0 as <-. rewrite Hm.
      destruct (decide (_ /\ _ /\ _)) as [(Heq & Hk & _)|]; [|done]. rewrite jget_jset_ne; [done|].
      intros Hidc. by apply (Hfresh l1 n1 tr0 Hl1 Ho1 Hk Hidc Htr0).
  + intros r ro' k id' l' Hr Hin. destruct (Hrm _ _ Hr) as (ro0 & Hro0 & Hm). rewrite Hm in Hin.
    assert ((id', l') ∈ r_map k ro0 \/ r = t_router tr /\ k = kind_of c /\ id' = child_id c /\ l' = l)
      as [Hin0|(-> & -> & -> & ->)].
    { destruct (decide (_ /\ _ /\ _)) as [(-> & -> & _)|]; [|by left]. by apply elem_of_jset in Hin as [?|[-> ->]]; auto. }
    * destruct (H2 _ _ _ _ _ Hro0 Hin0) as (n1 & tr1 & Hn1 & ? & ? & Ht1 & ?).
      pose proof (Hts (n_transport n1)) as Hst. rewrite Ht1 in Hst.
      apply fmap_Some in Hst as (tr2 & Htr2 & [= _ ? _]). exists n1, tr2. rewrite Ec.
      split_and!; try done; [by apply insert_fresh|congruence].
    * pose proof (Hts t) as Hst. rewrite Ht in Hst. apply fmap_Some in Hst as (tr2 & Htr2 & [= _ ? _]).
      exists n, tr2. rewrite Ec, lookup_insert_eq. split_and!; done.
Qed.

Lemma new_child_keeps l t c streamId w tr :
  consistent w -> children w !! l = None -> child_closed c = false ->
  transports w !! t = Some tr -> t_closed tr = false ->
  fresh_child_id (kind_of c) (child_id c) (t_router tr) w ->
  consistent (add_child l t c streamId w).
Proof.
  intros Hi Hl Hcc Ht Hc Hid.
  destruct (add_child_spec l t c streamId w tr Ht) as (Ec & Et & Er & Es & Ew & Eo).
  set (w' := add_child l t c streamId w) in *. set (n := mkChildNode c t streamId) in *.
  assert (forall t', t_static <$> transports w' !! t' = t_static <$> transports w !! t') as Hts.
  { intros t'. rewrite Et. by apply lookup_alter_fmap. }
  assert (forall r, r_rest <$> routers w' !! r = r_rest <$> routers w !! r) as Hrest.
  { intros r. rewrite Er. destruct (new_event (kind_of c)); [|done]. by apply lookup_alter_fmap. }
  destruct (st_router _ (inv_static _ _ _ Hi) _ _ Ht) as (ro & Hro).
  assert (forall l1 n1 tr1, children w !! l1 = Some n1 -> node_open n1 -> kind_of (n_child n1) = kind_of c ->
    child_id (n_child n1) = child_id c -> transports w !! n_transport n1 = Some tr1 -> t_router tr1 <> t_router tr)
    as Hfresh by exact Hid.
  destruct Hi as [I1 I2 I3 I4 I5 I6 I7 I8]. split; rewrite ?Es, ?Ew, ?Eo; try done.
  - rewrite Ec, Et. apply (child_inv_add _ _ l t tr n); try done.
    intros Hin. apply list_elem_of_fmap in Hin as ((id' & l') & Heq & Hin). simpl in Heq. subst id'.
    destruct (ci_entry _ _ I1 _ _ _ _ _ Ht Hin) as (n' & Hn' & Hnt & Hk & Hid' & Ho).
    by apply (Hfresh l' n' tr Hn' Ho Hk Hid'); [rewrite Hnt|].
  - eapply registered_transports_rest; [exact (rest_part r_rest (fun x => (x.1.1.1, x.2)) _ _ Hrest)|].
    eapply registered_ext; [|done|exact I2]. intros t'. rewrite Et. by apply lookup_alter_fmap.
  - eapply registered_observers_rest; [exact (rest_part r_rest (fun x => (x.1.1.2, x.2)) _ _ Hrest)|done].
  - eapply registered_routers_rest; [exact (rest_part r_rest (fun x => (x.1.2, x.2)) _ _ Hrest)|done].
  - eapply registered_ext; [|done|exact I6]. intros t'. rewrite Et. by apply lookup_alter_fmap.
  - apply (static_same w); try done.
    + exact (rest_part r_rest fst _ _ Hrest).
    + intros l'. by rewrite Eo.
  - by eapply (lookup_new_child w w' l t).
Qed.

(** ** The state of the creating methods *)

Lemma child_inv_state cs ts t f :
  child_inv cs ts -> (forall k tr, t_map k (f tr) = t_map k tr) -> (forall tr, t_closed (f tr) = t_closed tr) ->
  child_inv cs (alter f t ts).
Proof.
  intros [H1 H2 H3 H4] Hm Hc.
  assert (forall t' tr', alter f t ts !! t' = Some tr' ->
    exists tr, ts !! t' = Some tr /\ (forall k, t_map k tr' = t_map k tr) /\ t_closed tr' = t_closed tr) as Hinv.
  { intros t' tr' (tr & Ht & ->)%alter_inv. exists tr. split; [done|]. by case_decide. }
  split.
  - intros l n Hl Ho. destruct (H1 l n Hl Ho) as (tr & Ht & Hin).
    destruct (decide (n_transport n = t)) as [<-|Hne].
    + exists (f tr). rewrite lookup_alter_eq, Ht, Hm. done.
    + exists tr. by rewrite lookup_alter_ne by congruence.
  - intros t' tr' k id l (tr & Ht & Hk & _)%Hinv. rewrite Hk. by eapply H2.
  - intros t' tr' k (tr & Ht & Hk & _)%Hinv. rewrite Hk. by eapply H3.
  - intros t' tr' k (tr & Ht & Hk & Hcl)%Hinv. rewrite Hk, Hcl. by eapply H4.
Qed.

Lemma state_keeps t cname nextMid s w :
  consistent w -> consistent (set_transports (alter (with_state cname nextMid s) t) w).
Proof.
  intros [I1 I2 I3 I4 I5 I6 I7 I8]. split; try done.
  - by apply child_inv_state; [|intros []|].
  - eapply registered_ext; [|done|exact I2]. intros t'. by apply lookup_alter_fmap.
  - eapply registered_ext; [|done|exact I6]. intros t'. by apply lookup_alter_fmap.
  - apply (static_same w); try done. intros t'. by apply lookup_alter_fmap.
  - destruct I8 as [F1 F2]. split.
    + intros l n tr' Hl Ho Hk (tr & Ht & ->)%alter_inv. destruct (F1 l n tr Hl Ho Hk Ht) as (ro & Hro & Hg).
      exists ro. by case_decide.
    + intros r ro k id l Hro Hin. destruct (F2 r ro k id l Hro Hin) as (n & tr & Hl & Hk & Hid & Ht & Hr).
      destruct (decide (n_transport n = t)) as [Heq|Hne].
      * exists n, (with_state cname nextMid s tr). split_and!; try done. simpl.
        by rewrite Heq, lookup_alter_eq, <-Heq, Ht.
      * exists n, tr. split_and!; try done. simpl. by rewrite lookup_alter_ne by congruence.
Qed.

(** ** The details of objects *)

Lemma child_inv_alike w w' : alike w w' -> child_inv (children w) (transports w) -> child_inv (children w') (transports w').
Proof.
  intros [Hc _ Ht _ _ _ _ _] [H1 H2 H3 H4].
  assert (forall t tr', transports w' !! t = Some tr' ->
    exists tr, transports w !! t = Some tr /\ (forall k, t_map k tr' = t_map k tr) /\ t_closed tr' = t_closed tr) as Hback.
  { intros t tr' (tr & Htr & Hf)%(fmap_lookup_back t_frame _ _ _ _ (Ht t)). exists tr. split; [done|].
    injection Hf as _ _ _ _ Hcl E1 E2 E3 E4 _ _ _. split; [|done]. by intros []. }
  split.
  - intros l n' Hl Ho. destruct (fmap_lookup_back c_frame _ _ _ _ (Hc l) Hl) as (n & Hn & [= -> -> Hcl _ -> _]).
    unfold node_open in Ho. rewrite Hcl in Ho. destruct (H1 l n Hn Ho) as (tr & Htr & Hin).
    specialize (Ht (n_transport n)). rewrite Htr in Ht. apply fmap_Some in Ht as (tr' & Htr' & Hf).
    exists tr'. split; [done|]. destruct (Hback _ _ Htr') as (tr0 & E & Hm & _). rewrite Hm. congruence.
  - intros t tr' k id l (tr & Htr & Hm & _)%Hback. rewrite Hm. intros Hin.
    destruct (H2 _ _ _ _ _ Htr Hin) as (n & Hn & <- & <- & <- & Ho). specialize (Hc l). rewrite Hn in Hc.
    apply fmap_Some in Hc as (n' & Hn' & [= E1 E2 E3 _ E5 _]). exists n'. unfold node_open in *. split_and!; congruence.
  - intros t tr' k (tr & Htr & Hm & _)%Hback. rewrite Hm. by eapply H3.
  - intros t tr' k (tr & Htr & Hm & Hcl)%Hback. rewrite Hm, Hcl. by eapply H4.
Qed.

Lemma lookup_alike w w' :
  alike w w' -> lookup_inv (children w) (transports w) (routers w) ->
  lookup_inv (children w') (transports w') (routers w').
Proof.
  intros [Hc _ Ht Hr _ _ _ _] [F1 F2]. rewrite Hr. split.
  - intros l n' tr' Hl Ho Hk Htr'.
    destruct (fmap_lookup_back c_frame _ _ _ _ (Hc l) Hl) as (n & Hn & [= E1 E2 E3 _ E5 _]).
    destruct (fmap_lookup_back t_frame _ _ _ _ (Ht _) Htr') as (tr & Htr & [= _ _ -> _ _ _ _ _ _ _ _ _]).
    unfold node_open in *. rewrite E1, E2 in *. rewrite E3 in Ho. rewrite E5 in Htr. by eapply F1.
  - intros r ro k id l Hro Hin. destruct (F2 r ro k id l Hro Hin) as (n & tr & Hl & <- & <- & Htr & <-).
    specialize (Hc l). rewrite Hl in Hc. apply fmap_Some in Hc as (n' & Hn' & [= E1 E2 E3 _ E5 _]).
    specialize (Ht (n_transport n)). rewrite Htr in Ht. apply fmap_Some in Ht as (tr' & Htr' & [= _ _ E _ _ _ _ _ _ _ _ _]).
    exists n', tr'. split_and!; congruence.
Qed.

Lemma alike_keeps w w' : alike w w' -> consistent w -> consistent w'.
Proof.
  intros Ha [I1 I2 I3 I4 I5 I6 I7 I8]. pose proof Ha as [Hc Ho Ht Hr Hs Hw _ _].
  split; rewrite ?Hr, ?Hs, ?Hw; try done.
  - by apply (child_inv_alike w).
  - eapply registered_ext; [|done|exact I2].
    exact (rest_part t_frame (child_view (A := transport) (B := router)) _ _ Ht).
  - eapply registered_ext; [|done|exact I3].
    exact (rest_part o_frame (fun x => (Some x.2, negb x.1.2)) _ _ Ho).
  - eapply registered_ext; [|done|exact I6].
    exact (rest_part t_frame (child_view (A := transport) (B := webRtcServer)) _ _ Ht).
  - apply (static_same w); [done| | | |done].
    + exact (rest_part t_frame t_static _ _ Ht).
    + by rewrite Hr.
    + exact (rest_part o_frame (fun x => (x.1.1, x.2)) _ _ Ho).
  - rewrite <-Hr. by apply (lookup_alike w).
Qed.

(** ** The owners of an object *)

Definition owner (w : world) (x p : obj) : Prop :=
  match x with
  | Ochild l => exists n, children w !! l = Some n /\ p = Otransport (n_transport n)
  | Oobserver l => exists o, observers w !! l = Some o /\ p = Orouter o.2
  | Otransport t => exists tr, transports w !! t = Some tr /\
      (p = Orouter (t_router tr) \/ exists s, t_server tr = Some s /\ p = Oserver s)
  | Orouter r => exists ro, routers w !! r = Some ro /\ p = Oworker (r_worker ro)
  | Oserver s => exists sv, servers w !! s = Some sv /\ p = Oworker (s_worker sv)
  | Oworker k => False
  end.

Inductive below (w : world) : obj -> obj -> Prop :=
| below_refl o : below w o o
| below_owner x p o : owner w x p -> below w p o -> below w x o.

Lemma owner_ends T w w' x p : ends T w w' -> owner w x p -> owner w' x p.
Proof.
  intros He. destruct x as [l|l|t|r|s|k]; simpl; [| | | | |done].
  - intros (n & Hn & ->). pose proof (en_children _ _ _ He l) as H. rewrite Hn in H.
    apply fmap_Some in H as (n' & ? & [= _ _ ->]). by exists n'.
  - intros (o & Ho & ->). pose proof (en_observers _ _ _ He l) as H. rewrite Ho in H.
    apply fmap_Some in H as (o' & ? & [= _ ->]). by exists o'.
  - intros (tr & Ht & Hp). pose proof (en_transports _ _ _ He t) as H. rewrite Ht in H.
    apply fmap_Some in H as (tr' & ? & [= _ Hr Hs]). exists tr'. split; [done|]. by rewrite <-Hr, <-Hs.
  - intros (ro & Hro & ->). destruct (ends_router_fwd _ _ _ _ _ He Hro) as (ro' & ? & Hle).
    exists ro'. by rewrite (rle_worker _ _ Hle).
  - intros (sv & Hsv & ->). destruct (ends_server_fwd _ _ _ _ _ He Hsv) as (sv' & ? & Hle).
    exists sv'. by rewrite (sle_worker _ _ Hle).
Qed.

Lemma below_ends T w w' x o : ends T w w' -> below w x o -> below w' x o.
Proof.
  intros He. induction 1 as [|x p o Hx _ IH]; [constructor|]. eapply below_owner; [by eapply owner_ends|done].
Qed.

(** An owner that is closed has closed objects. *)
Lemma owner_closed w x p :
  consistent w -> owner w x p -> obj_closed p w = true -> obj_closed x w = true.
Proof.
  intros Hi Ho Hp. destruct (obj_closed x w) eqn:Hx; [done|]. exfalso.
  destruct x as [l|l|t|r|s|k]; simpl in Ho, Hx; [| | | | |done].
  - destruct Ho as (n & Hn & ->). rewrite Hn in Hx. simpl in Hp.
    pose proof (closed_transport_children _ _ l n (inv_children _ _ _ Hi) Hn) as H.
    rewrite H in Hx; [done|]. intros tr Htr. by rewrite Htr in Hp.
  - destruct Ho as (o & Hl & ->). rewrite Hl in Hx. simpl in Hp.
    destruct (routers w !! o.2) as [ro|] eqn:Hro; [|done].
    assert (r_closed ro = false); [|congruence].
    apply negb_false_iff in Hx.
    eapply (registered_child_open _ _ _ _ _ _ _ _ (inv_observers _ _ _ Hi) Hl); [done..|by intros []].
  - destruct Ho as (tr & Ht & Ho). rewrite Ht in Hx. apply negb_true_iff in Hx.
    destruct Ho as [->|(s & Hs & ->)]; simpl in Hp.
    + destruct (routers w !! t_router tr) as [ro|] eqn:Hro; [|done].
      assert (r_closed ro = false); [|congruence].
      eapply (registered_child_open _ _ _ _ _ _ _ _ (inv_transports _ _ _ Hi) Ht); [done..|by intros []].
    + destruct (servers w !! s) as [sv|] eqn:Hsv; [|done].
      assert (s_closed sv = false); [|congruence].
      eapply (registered_child_open _ _ _ _ _ _ _ _ (inv_handled _ _ _ Hi) Ht); [done..|by intros []].
  - destruct Ho as (ro & Hr & ->). rewrite Hr in Hx. apply negb_true_iff in Hx. simpl in Hp.
    destruct (workers w !! r_worker ro) as [wk|] eqn:Hwk; [|done].
    assert (w_closed wk = false); [|congruence].
    eapply (registered_child_open _ _ _ _ _ _ _ _ (inv_routers _ _ _ Hi) Hr); [done..|by intros []].
  - destruct Ho as (sv & Hs & ->). rewrite Hs in Hx. apply negb_true_iff in Hx. simpl in Hp.
    destruct (workers w !! s_worker sv) as [wk|] eqn:Hwk; [|done].
    assert (w_closed wk = false); [|congruence].
    eapply (registered_child_open _ _ _ _ _ _ _ _ (inv_servers _ _ _ Hi) Hs); [done..|by intros []].
Qed.

Lemma below_closed w x o :
  consistent w -> below w x o -> obj_closed o w = true -> obj_closed x w = true.
Proof. intros Hi. induction 1 as [|x p o Hx _ IH]; [done|]. intros Ho. exact (owner_closed _ _ _ Hi Hx (IH Ho)). Qed.

(** What is below an object is what its closing methods may reach. *)
Lemma below_transport w o t :
  below w (Otransport t) o -> covers_transport (fun x => below w x o) t w.
Proof.
  intros Ht. split; [done|]. intros l n Hl Hn. eapply below_owner; [|exact Ht]. exists n. by rewrite Hn.
Qed.

Lemma below_router_covers w o r : below w (Orouter r) o -> covers_router (fun x => below w x o) r w.
Proof.
  intros Hr. split_and!; [done| |].
  - intros t tr Ht Hro. apply below_transport. eapply below_owner; [|exact Hr]. exists tr. rewrite Hro. auto.
  - intros l ob Hl Hro. eapply below_owner; [|exact Hr]. exists ob. by rewrite Hro.
Qed.

Lemma below_server_covers w o s : below w (Oserver s) o -> covers_server (fun x => below w x o) s w.
Proof.
  intros Hs. split; [done|]. intros t tr Ht Hts. apply below_transport.
  eapply below_owner; [|exact Hs]. exists tr. eauto.
Qed.

Lemma below_worker_covers w o k : below w (Oworker k) o -> covers_worker (fun x => below w x o) k w.
Proof.
  intros Hk. split_and!; [done| |].
  - intros r ro Hr Hw. apply below_router_covers. eapply below_owner; [|exact Hk]. exists ro. by rewrite Hw.
  - intros s sv Hs Hw. eapply below_owner; [|exact Hk]. exists sv. by rewrite Hw.
Qed.

(** ** Steps *)

(** The closing methods, of an object each. *)
Inductive closing : obj -> (world -> world) -> Prop :=
| closing_child l : closing (Ochild l) (close_child l)
| closing_observer l : closing (Oobserver l) (observer_close l)
| closing_transport t : closing (Otransport t) (transport_close t)
| closing_router r : closing (Orouter r) (router_close r)
| closing_server s : closing (Oserver s) (server_close s)
| closing_worker k : closing (Oworker k) (worker_close k)
| closing_died message k : closing (Oworker k) (worker_died message k).

Definition exists_obj (x : obj) (w : world) : Prop :=
  match x with
  | Ochild l => is_Some (children w !! l)
  | Oobserver l => is_Some (observers w !! l)
  | Otransport t => is_Some (transports w !! t)
  | Orouter r => is_Some (routers w !! r)
  | Oserver s => is_Some (servers w !! s)
  | Oworker k => is_Some (workers w !! k)
  end.

Lemma closing_keeps o f w :
  consistent w -> closing o f ->
  consistent (f w) /\ ends (fun x => below w x o) w (f w) /\ (exists_obj o w -> obj_closed o (f w) = true).
Proof.
  intros Hi Hf. pose proof (below_refl w o) as Hb. destruct Hf.
  - by apply (close_child_keeps none none (fun x => below w x (Ochild l))).
  - by apply (observer_close_keeps none none (fun x => below w x (Oobserver l))).
  - apply transport_close_keeps; [done|by apply below_transport].
  - apply router_close_keeps; [done|by apply below_router_covers].
  - apply server_close_keeps; [done|by apply below_server_covers].
  - apply worker_close_keeps; [done|by apply below_worker_covers].
  - apply worker_died_keeps; [done|by apply below_worker_covers].
Qed.

Lemma step_keeps w w' : consistent w -> step w w' -> consistent w'.
Proof.
  intros Hi Hs. destruct Hs.
  - by apply new_worker_keeps.
  - by eapply new_router_keeps.
  - by eapply new_server_keeps.
  - by eapply new_transport_keeps.
  - by eapply new_observer_keeps.
  - by eapply new_child_keeps.
  - by apply state_keeps.
  - by eapply alike_keeps.
  - by apply (closing_keeps (Ochild l)); [|constructor].
  - by apply producerclose_keeps.
  - by apply (closing_keeps (Otransport t)); [|constructor].
  - by apply (closing_keeps (Oobserver l)); [|constructor].
  - by apply (closing_keeps (Orouter r)); [|constructor].
  - by apply (closing_keeps (Oserver s)); [|constructor].
  - by apply (closing_keeps (Oworker k)); [|constructor].
  - by apply (closing_keeps (Oworker k)); [|constructor].
Qed.

Lemma empty_consistent : consistent empty_world.
Proof.
  split; simpl; try apply registered_nil; try done.
Qed.

Lemma reachable_consistent w : reachable w -> consistent w.
Proof. induction 1; [apply empty_consistent|by eapply step_keeps]. Qed.
