(* ===== verification/Delivery.v ===== *)
(** * Methods and notifications of objects in the tree

    Producers, consumers, RtpObservers and transports have files of their own;
    here what they do is done to the objects of World.v: a method of an object,
    the answer to one, and a notification of the worker, which the channel
    delivers to whoever is subscribed to its id. *)

From S2P Require Import Prelude Js RtpParameters Framing Events TransportState TransportEvents World WorldSpec Registry WorldInv Closing Lifecycle.
From S2P Require Producer Consumer DataProducer DataConsumer RtpObserver.

(** ** Methods *)

Inductive dataProducer_op : Type := DPclose | DPdump | DPgetStats | DPsend (m : message) (ppid : val).
Inductive dataConsumer_op : Type :=
| DCclose
| DCdump
| DCgetStats
| DCsetBufferedAmountLowThreshold (threshold : val)
| DCgetBufferedAmount
| DCsend (m : message) (ppid : val).

Inductive child_op : Type :=
| Pop (o : Producer.op)
| Cop (o : Consumer.op)
| DPop (o : dataProducer_op)
| DCop (o : dataConsumer_op).

(** A method that throws does nothing. *)
Definition unless_thrown (r : result (list effect)) : list effect := match r with Ok es => es | Err _ => [] end.

Definition run_dataProducer (o : dataProducer_op) (p : DataProducer.dataProducer) :
    DataProducer.dataProducer * list effect :=
  match o with
  | DPclose => DataProducer.close p
  | DPdump => (p, DataProducer.dump p)
  | DPgetStats => (p, DataProducer.getStats p)
  | DPsend m ppid => (p, unless_thrown (DataProducer.send m ppid p))
  end.

Definition run_dataConsumer (o : dataConsumer_op) (c : DataConsumer.dataConsumer) :
    DataConsumer.dataConsumer * list effect :=
  match o with
  | DCclose => DataConsumer.close c
  | DCdump => (c, DataConsumer.dump c)
  | DCgetStats => (c, DataConsumer.getStats c)
  | DCsetBufferedAmountLowThreshold t => (c, DataConsumer.setBufferedAmountLowThreshold t c)
  | DCgetBufferedAmount => (c, DataConsumer.getBufferedAmount c)
  | DCsend m ppid => (c, unless_thrown (DataConsumer.send m ppid c))
  end.

Definition run_child (o : child_op) (c : child) : child * list effect :=
  match o, c with
  | Pop o, CProducer p => let '(p, es) := Producer.apply_op o p in (CProducer p, es)
  | Cop o, CConsumer c => let '(c, es) := Consumer.apply_op o c in (CConsumer c, es)
  | DPop o, CDataProducer p => let '(p, es) := run_dataProducer o p in (CDataProducer p, es)
  | DCop o, CDataConsumer c => let '(c, es) := run_dataConsumer o c in (CDataConsumer c, es)
  | _, _ => (c, [])
  end.

(** What the application calls; not what a transport calls on its children, nor
    answers and notifications. *)
Definition is_method (o : child_op) : bool :=
  match o with
  | Pop (Producer.TransportClosed | Producer.Response _ _ | Producer.Notification _ _)
  | Cop (Consumer.TransportClosed | Consumer.Response _ _ | Consumer.Notification _ _ | Consumer.PayloadNotification _ _) => false
  | _ => true
  end.

Definition child_method (o : child_op) : loc -> world -> world := apply_child (run_child o).

Inductive observer_op : Type :=
| Opause
| Oresume
| OaddProducer (producerId : string)
| OremoveProducer (producerId : string)
| Oresponse (n : nat) (res : result val).

(** [getProducerById] of the router of an RtpObserver. *)
Definition router_producer (r : loc) (w : world) (id : string) : bool :=
  match routers w !! r with Some ro => bool_decide (is_Some (jget id (r_producers ro))) | None => false end.

Definition run_observer (known : string -> bool) (op : observer_op) (o : RtpObserver.rtpObserver) :
    RtpObserver.rtpObserver * list effect :=
  let or_same r := match r with Ok x => x | Err _ => (o, []) end in
  match op with
  | Opause => RtpObserver.pause o
  | Oresume => RtpObserver.resume o
  | OaddProducer id => or_same (RtpObserver.addProducer known id o)
  | OremoveProducer id => or_same (RtpObserver.removeProducer known id o)
  | Oresponse n res => RtpObserver.response n res o
  end.

Definition observer_method (op : observer_op) (l : loc) (w : world) : world :=
  match observers w !! l with
  | Some (_, r) => apply_observer (run_observer (router_producer r w) op) l w
  | None => w
  end.

(** ** Notifications *)

(** The listeners of children; a data producer has none. *)
Definition notified_child (event : string) (data : val) (c : child) : result (child * list effect) :=
  match c with
  | CProducer p => let '(p, es) := Producer.on_notification event data p in Ok (CProducer p, es)
  | CConsumer c => let '(c, es) := Consumer.on_notification event data c in Ok (CConsumer c, es)
  | CDataProducer p => Ok (CDataProducer p, [])
  | CDataConsumer c =>
      x ← DataConsumer.on_notification event data c;
      Ok (CDataConsumer x.1, x.2)
  end.

Definition record_all (o : obj) (es : list effect) (w : world) : world :=
  foldl (fun w e => record_effect o e w) w es.

(** The listener of an object is called; it may throw. *)
Definition notify (o : obj) (event : string) (data : val) (w : world) : world * option error :=
  match o with
  | Ochild l =>
      match children w !! l with
      | Some n =>
          match notified_child event data (n_child n) with
          | Ok x => (apply_child (fun _ => x) l w, None)
          | Err e => (w, Some e)
          end
      | None => (w, None)
      end
  | Oobserver l =>
      match observers w !! l with
      | Some (o, r) =>
          match RtpObserver.on_notification (router_producer r w) event data o with
          | Ok es => (record_all (Oobserver l) es w, None)
          | Err e => (w, Some e)
          end
      | None => (w, None)
      end
  | Otransport t =>
      match transports w !! t with
      | Some tr =>
          match TransportEvents.on_notification event data (mkEndpoint tr true no_calls) with
          | Ok (e, es) => (record_all (Otransport t) es (set_transports (insert t (e_transport e)) w), None)
          | Err e => (w, Some e)
          end
      | None => (w, None)
      end
  | _ => (w, None)
  end.

(** [emit(targetId, event, data)] of the channel: the listeners there are when it
    starts, in order, up to one that throws. *)
Fixpoint notify_all (os : list obj) (event : string) (data : val) (w : world) : world * option error :=
  match os with
  | [] => (w, None)
  | o :: os =>
      match notify o event data w with
      | (w, None) => notify_all os event data w
      | r => r
      end
  end.

(** [switch (event)], where all cases are strings. *)
Definition event_name (event : val) : string := match event with VStr s => s | _ => "" end.

Definition subscribers (k : loc) (id : string) (w : world) : list obj :=
  map snd (List.filter (fun s => Nat.eqb s.1.1 k && String.eqb s.1.2 id) (subscriptions w)).

Definition deliver (k : loc) (id event : string) (data : val) (w : world) : world * option error :=
  notify_all (subscribers k id w) event data w.

(** ** What closes nothing changes details only *)

Definition all_quiet (es : list effect) : Prop := Forall (fun e => quiet_effect e = true) es.

Record same_child (c c' : child) : Prop := mkSameChild {
  sc_kind : kind_of c' = kind_of c;
  sc_id : child_id c' = child_id c;
  sc_closed : child_closed c' = child_closed c;
  sc_parameters : producer_parameters c' = producer_parameters c
}.

Lemma same_child_refl c : same_child c c.
Proof. done. Qed.

Lemma quiet_not_removing k ev arg : quiet_effect (Emit ev arg) = true -> removing_event k ev = false.
Proof.
  simpl. unfold removing_event. destruct (String.eqb ev "@close"); [done|].
  destruct (String.eqb ev "@producerclose"); [done|]. destruct (String.eqb ev "@dataproducerclose"); [done|]. by destruct k.
Qed.

Lemma run_effect_quiet l wk e w : quiet_effect e = true -> run_effect l wk w e = record_effect (Ochild l) e w.
Proof.
  intros He. destruct e; try done. simpl. unfold on_child_event.
  destruct (children _ !! l); [|done]. by rewrite (quiet_not_removing _ _ _ He).
Qed.

Lemma run_effects_quiet l wk es w : all_quiet es -> foldl (run_effect l wk) w es = record_all (Ochild l) es w.
Proof.
  intros Hq. revert w. induction Hq as [|e es He _ IH]; intros w; [done|]. simpl. by rewrite run_effect_quiet, IH.
Qed.

Lemma record_all_alike o es w : all_quiet es -> alike w (record_all o es w).
Proof.
  intros Hq. revert w. induction Hq as [|e es He _ IH]; intros w; [apply alike_refl|]. simpl.
  etransitivity; [by apply (record_alike o e)|apply IH].
Qed.

Lemma fmap_insert_same {V W} (g : V -> W) (m : gmap loc V) i v v' j :
  m !! i = Some v -> g v' = g v -> g <$> <[i := v']> m !! j = g <$> m !! j.
Proof.
  intros Hi Hv. destruct (decide (j = i)) as [->|]; [|by rewrite lookup_insert_ne by congruence].
  rewrite lookup_insert_eq, Hi. simpl. by rewrite Hv.
Qed.

Lemma alike_parts w w' :
  (forall l, c_frame <$> children w' !! l = c_frame <$> children w !! l) ->
  (forall l, o_frame <$> observers w' !! l = o_frame <$> observers w !! l) ->
  (forall t, t_frame <$> transports w' !! t = t_frame <$> transports w !! t) ->
  routers w' = routers w -> servers w' = servers w -> workers w' = workers w ->
  subscriptions w' = subscriptions w -> log w' = log w -> alike w w'.
Proof. intros. split; try done. exists []. by rewrite app_nil_r. Qed.

Lemma apply_child_alike f l w :
  (forall n, children w !! l = Some n -> same_child (n_child n) (f (n_child n)).1 /\ all_quiet (f (n_child n)).2) ->
  alike w (apply_child f l w).
Proof.
  intros Hf. unfold apply_child. destruct (children w !! l) as [n|] eqn:Hl; [|apply alike_refl].
  destruct (Hf n eq_refl) as [[E1 E2 E3 E4] Hq]. destruct (f (n_child n)) as [c es]. simpl in *.
  rewrite run_effects_quiet by done. etransitivity; [|by apply record_all_alike].
  apply alike_parts; try done. intros l'. simpl. eapply fmap_insert_same; [exact Hl|].
  unfold c_frame. simpl. congruence.
Qed.

Lemma run_observer_effects_quiet l wk r id es w :
  all_quiet es -> foldl (run_observer_effect l wk r id) w es = record_all (Oobserver l) es w.
Proof.
  intros Hq. revert w. induction Hq as [|e es He _ IH]; intros w; [done|]. simpl. rewrite IH. f_equal.
  destruct e as [| | | |ev arg|]; try done. simpl in *. by destruct (String.eqb ev "@close").
Qed.

Lemma apply_observer_alike f l w :
  (forall o r, observers w !! l = Some (o, r) ->
     RtpObserver.rtpObserverId (f o).1 = RtpObserver.rtpObserverId o /\
     RtpObserver.closed (f o).1 = RtpObserver.closed o /\ all_quiet (f o).2) ->
  alike w (apply_observer f l w).
Proof.
  intros Hf. unfold apply_observer. destruct (observers w !! l) as [[o r]|] eqn:Hl; [|apply alike_refl].
  destruct (Hf o r eq_refl) as (E1 & E2 & Hq). destruct (f o) as [o' es]. simpl in *.
  rewrite run_observer_effects_quiet by done. etransitivity; [|by apply record_all_alike].
  apply alike_parts; try done. intros l'. simpl. eapply fmap_insert_same; [exact Hl|].
  unfold o_frame. simpl. congruence.
Qed.

(** ** Every operation closes its object or changes details *)

Ltac quiet_tac := repeat (apply List.Forall_cons; [reflexivity|]); apply List.Forall_nil.

Lemma producer_op_quiet o p :
  o <> Producer.Close -> o <> Producer.TransportClosed ->
  same_child (CProducer p) (CProducer (Producer.apply_op o p).1) /\ all_quiet (Producer.apply_op o p).2.
Proof.
  intros H1 H2. destruct o as [| | | | | |types|n res|event data]; try done; simpl.
  1-5: split; [done|quiet_tac].
  - unfold Producer.response. destruct (resume_call n (Producer.p_calls p)) as [[k calls]|]; [|split; [done|quiet_tac]].
    destruct res; [|split; [done|quiet_tac]]. destruct k as [[]|[]|]; (split; [done|quiet_tac]).
  - unfold Producer.on_notification. repeat case_match; (split; [done|quiet_tac]).
Qed.

Lemma consumer_op_quiet o c :
  o <> Consumer.Close -> o <> Consumer.TransportClosed -> (forall data, o <> Consumer.Notification "producerclose" data) ->
  same_child (CConsumer c) (CConsumer (Consumer.apply_op o c).1) /\ all_quiet (Consumer.apply_op o c).2.
Proof.
  intros H1 H2 H3. destruct o as [| | | | | | | | | | |n res|event data|event payload]; try done; simpl.
  1-9: split; [done|quiet_tac].
  - unfold Consumer.response. destruct (resume_call n (Consumer.c_calls c)) as [[k calls]|]; [|split; [done|quiet_tac]].
    destruct res; [|split; [done|quiet_tac]]. destruct k; simpl; repeat case_match; (split; [done|quiet_tac]).
  - unfold Consumer.on_notification. destruct (String.eqb_spec event "producerclose") as [->|_]; [by destruct (H3 data)|].
    repeat case_match; (split; [done|quiet_tac]).
  - unfold Consumer.on_payload_notification. repeat case_match; (split; [done|quiet_tac]).
Qed.

Lemma run_child_cases o c :
  is_method o = true ->
  run_child o c = child_close c \/ same_child c (run_child o c).1 /\ all_quiet (run_child o c).2.
Proof.
  intros Ho. assert (same_child c c /\ all_quiet []) as Hsame by (split; [done|quiet_tac]).
  destruct o as [o|o|o|o], c as [p|c|p|c]; try (by right); simpl.
  - assert (o = Producer.Close \/ o <> Producer.Close) as [->|Hc] by (destruct o; auto); [by left|right].
    destruct (producer_op_quiet o p Hc) as [? ?]; [by destruct o|]. by destruct (Producer.apply_op o p).
  - assert (o = Consumer.Close \/ o <> Consumer.Close) as [->|Hc] by (destruct o; auto); [by left|right].
    destruct (consumer_op_quiet o c Hc) as [? ?]; [by destruct o..|]. by destruct (Consumer.apply_op o c).
  - destruct o; [by left|right..]; (split; [done|]); try quiet_tac. simpl. unfold DataProducer.send. case_match; quiet_tac.
  - destruct o; [by left|right..]; (split; [done|]); try quiet_tac. simpl. unfold DataConsumer.send. case_match; quiet_tac.
Qed.

Lemma run_observer_quiet known op o :
  RtpObserver.rtpObserverId (run_observer known op o).1 = RtpObserver.rtpObserverId o /\
  RtpObserver.closed (run_observer known op o).1 = RtpObserver.closed o /\ all_quiet (run_observer known op o).2.
Proof.
  destruct op as [| |id|id|n res]; simpl.
  - split_and!; [done|done|quiet_tac].
  - split_and!; [done|done|quiet_tac].
  - unfold RtpObserver.addProducer. destruct (known id); simpl; (split_and!; [done|done|quiet_tac]).
  - unfold RtpObserver.removeProducer. destruct (known id); simpl; (split_and!; [done|done|quiet_tac]).
  - unfold RtpObserver.response. destruct (resume_call n (RtpObserver.o_calls o)) as [[k calls]|];
      [|split_and!; [done|done|quiet_tac]].
    destruct res; [|split_and!; [done|done|quiet_tac]]. destruct k as [[]|[]| |]; (split_and!; [done|done|quiet_tac]).
Qed.

(** The listener of a transport sets fields of its [#data]. *)
Lemma transport_notification_quiet event data tr calls e es :
  TransportEvents.on_notification event data (mkEndpoint tr true calls) = Ok (e, es) ->
  t_frame (e_transport e) = t_frame tr /\ all_quiet es.
Proof.
  unfold TransportEvents.on_notification. simpl.
  destruct (jget event (state_events (e_class _))) as [key|] eqn:Hk.
  - intros (v & _ & [= <- <-])%bind_Ok. split; [unfold keep_certificate; by case_match|].
    apply jget_Some_elem in Hk. unfold e_class in Hk. simpl in Hk.
    destruct (t_class tr); simpl in Hk; repeat (apply elem_of_cons in Hk as [[= -> ->]|Hk]; [quiet_tac|]);
      by apply elem_of_nil in Hk.
  - case_match; intros [= <- <-]; (split; [done|quiet_tac]).
Qed.

Lemma observer_notification_quiet known event data o es :
  RtpObserver.on_notification known event data o = Ok es -> all_quiet es.
Proof.
  unfold RtpObserver.on_notification, RtpObserver.on_audio_level, RtpObserver.on_active_speaker.
  intros H. repeat case_match; try done; injection H as <-; quiet_tac.
Qed.

Lemma child_notification_cases event data c x :
  notified_child event data c = Ok x -> x = child_producerclose c \/ same_child c x.1 /\ all_quiet x.2.
Proof.
  destruct c as [p|c|p|c]; simpl.
  - destruct (producer_op_quiet (Producer.Notification event data) p) as [H1 H2]; [done..|]. simpl in H1, H2.
    destruct (Producer.on_notification event data p). intros [= <-]. by right.
  - destruct (String.eqb_spec event "producerclose") as [->|Hne].
    { destruct (Consumer.on_notification "producerclose" data c) eqn:H. intros [= <-]. left. simpl.
      change (Consumer.on_notification "producerclose" VUndef c) with
        (Consumer.on_notification "producerclose" data c). by rewrite H. }
    destruct (consumer_op_quiet (Consumer.Notification event data) c) as [H1 H2]; [done..|congruence|]. simpl in H1, H2.
    destruct (Consumer.on_notification event data c). intros [= <-]. by right.
  - intros [= <-]. right. split; [done|quiet_tac].
  - intros ([c' es] & Hn & [= <-])%bind_Ok. simpl. unfold DataConsumer.on_notification in Hn.
    destruct (String.eqb_spec event "dataproducerclose") as [->|Hne].
    { left. simpl. unfold DataConsumer.on_notification. simpl. by destruct (DataConsumer.closed c); injection Hn as <- <-. }
    right. destruct (String.eqb event "sctpsendbufferfull"); [injection Hn as <- <-; split; [done|quiet_tac]|].
    destruct (String.eqb event "bufferedamountlow"); [|injection Hn as <- <-; split; [done|quiet_tac]].
    apply bind_Ok in Hn as (a & _ & [= <- <-]). split; [done|quiet_tac].
Qed.

Lemma apply_child_at f g l w n :
  children w !! l = Some n -> f (n_child n) = g (n_child n) -> apply_child f l w = apply_child g l w.
Proof. intros Hl Hf. unfold apply_child. by rewrite Hl, Hf. Qed.

(** A listener closes a consumer, or changes details. *)
Lemma notify_cases o event data w :
  alike w (notify o event data w).1 \/
  exists l, o = Ochild l /\ (notify o event data w).1 = apply_child child_producerclose l w.
Proof.
  destruct o as [l|l|t|r|s|k]; simpl; try (by left; apply alike_refl).
  - destruct (children w !! l) as [n|] eqn:Hl; [|by left; apply alike_refl].
    destruct (notified_child event data (n_child n)) as [x|e] eqn:Hx; simpl; [|by left; apply alike_refl].
    destruct (child_notification_cases _ _ _ _ Hx) as [->|[H1 H2]].
    + right. exists l. split; [done|]. by eapply apply_child_at.
    + left. apply apply_child_alike. intros n' Hn'. rewrite Hl in Hn'. by injection Hn' as <-.
  - left. destruct (observers w !! l) as [[ob r]|]; [|apply alike_refl].
    destruct (RtpObserver.on_notification _ _ _ _) eqn:Hn; simpl; [|apply alike_refl].
    apply record_all_alike. by eapply observer_notification_quiet.
  - left. destruct (transports w !! t) as [tr|] eqn:Ht; [|apply alike_refl].
    destruct (TransportEvents.on_notification _ _ _) as [[e es]|] eqn:Hn; simpl; [|apply alike_refl].
    destruct (transport_notification_quiet _ _ _ _ _ _ Hn) as [Hf Hq].
    etransitivity; [|by apply record_all_alike]. apply alike_parts; try done.
    intros t'. simpl. by eapply fmap_insert_same.
Qed.

Lemma child_method_cases o l w :
  is_method o = true -> alike w (child_method o l w) \/ child_method o l w = close_child l w.
Proof.
  intros Ho. destruct (children w !! l) as [n|] eqn:Hl.
  - destruct (run_child_cases o (n_child n) Ho) as [Hc|[H1 H2]].
    + right. by eapply apply_child_at.
    + left. apply apply_child_alike. intros n' Hn'. rewrite Hl in Hn'. by injection Hn' as <-.
  - left. unfold child_method, apply_child. rewrite Hl. apply alike_refl.
Qed.

Lemma observer_method_alike op l w : alike w (observer_method op l w).
Proof.
  unfold observer_method. destruct (observers w !! l) as [[o r]|]; [|apply alike_refl].
  apply apply_observer_alike. intros. apply run_observer_quiet.
Qed.

(** ** Steps of World.v *)

Lemma notify_step o event data w : step w (notify o event data w).1.
Proof.
  destruct (notify_cases o event data w) as [H|(l & _ & ->)]; [by apply step_detail|apply step_child_producerclose].
Qed.

Lemma child_method_step o l w : is_method o = true -> step w (child_method o l w).
Proof.
  intros Ho. destruct (child_method_cases o l w Ho) as [H| ->]; [by apply step_detail|apply step_child_close].
Qed.

Lemma observer_method_step op l w : step w (observer_method op l w).
Proof. by apply step_detail, observer_method_alike. Qed.

Lemma notify_all_steps os event data w :
  rtc (fun w w' => exists o, w' = (notify o event data w).1) w (notify_all os event data w).1.
Proof.
  revert w. induction os as [|o os IH]; intros w; simpl; [done|].
  eapply rtc_l; [by exists o|]. destruct (notify o event data w) as [w1 [e|]]; [done|apply IH].
Qed.

(** ** What a listener does not touch *)

Record touches (o : obj) (w w' : world) : Prop := mkTouches {
  tc_children : forall l, o <> Ochild l -> children w' !! l = children w !! l;
  tc_observers : observers w' = observers w;
  tc_transports : forall t, o <> Otransport t -> t_data <$> transports w' !! t = t_data <$> transports w !! t;
  tc_routers : routers w' = routers w;
  tc_servers : servers w' = servers w;
  tc_workers : workers w' = workers w;
  tc_log : exists es, log w' = log w ++ map (pair o) es
}.

Lemma touches_refl o w : touches o w w.
Proof. split; try done. exists []. by rewrite app_nil_r. Qed.

Lemma record_all_log o es w : log (record_all o es w) = log w ++ map (pair o) es.
Proof.
  revert w. induction es as [|e es IH]; intros w; simpl; [by rewrite app_nil_r|].
  change (log (record_all o es (record_effect o e w)) = log w ++ (o, e) :: map (pair o) es).
  rewrite IH. simpl. by rewrite <-app_assoc.
Qed.

Lemma record_all_core o es w :
  children (record_all o es w) = children w /\ observers (record_all o es w) = observers w /\
  transports (record_all o es w) = transports w /\ routers (record_all o es w) = routers w /\
  servers (record_all o es w) = servers w /\ workers (record_all o es w) = workers w.
Proof. revert w. induction es as [|e es IH]; intros w; [done|]. apply (IH (record_effect o e w)). Qed.

Lemma record_all_touches o es w w' :
  (forall l, o <> Ochild l -> children w' !! l = children w !! l) -> observers w' = observers w ->
  (forall t, o <> Otransport t -> t_data <$> transports w' !! t = t_data <$> transports w !! t) ->
  routers w' = routers w -> servers w' = servers w -> workers w' = workers w -> log w' = log w ->
  touches o w (record_all o es w').
Proof.
  intros Hc Ho Ht Hr Hs Hw Hl. destruct (record_all_core o es w') as (Ec & Eo & Et & Er & Es & Ew).
  split; rewrite ?Ec, ?Eo, ?Et, ?Er, ?Es, ?Ew; try done. exists es. by rewrite record_all_log, Hl.
Qed.

Lemma quiet_child_touches x l n w :
  children w !! l = Some n -> all_quiet x.2 -> touches (Ochild l) w (apply_child (fun _ => x) l w).
Proof.
  intros Hl Hq. unfold apply_child. rewrite Hl. destruct x as [c es]. simpl in Hq.
  rewrite run_effects_quiet by done. apply record_all_touches; try done.
  intros l' Hne. simpl. by rewrite lookup_insert_ne by congruence.
Qed.

Lemma touches_then o f w w' : (forall w, touches o w (f w)) -> touches o w w' -> touches o w (f w').
Proof.
  intros Hf [A1 A2 A3 A4 A5 A6 (es & Hl)]. destruct (Hf w') as [B1 B2 B3 B4 B5 B6 (es' & Hl')].
  split; try congruence.
  - intros l Hne. rewrite B1 by done. auto.
  - intros t Hne. rewrite B3 by done. auto.
  - exists (es ++ es'). by rewrite Hl', Hl, map_app, app_assoc.
Qed.

Lemma touches_record o e w w' : touches o w w' -> touches o w (record_effect o e w').
Proof. apply (touches_then o (record_effect o e)). intros w1. split; try done. by exists [e]. Qed.

(** Consumers are in no map of a router. *)
Lemma touches_child_event l ev w w' n :
  children w' !! l = Some n -> close_event (kind_of (n_child n)) = None ->
  touches (Ochild l) w w' -> touches (Ochild l) w (on_child_event l ev w').
Proof.
  intros Hl Hk Ht. unfold on_child_event. rewrite Hl. destruct (removing_event _ ev); [|done].
  unfold tell_router_closed. rewrite Hk.
  apply (touches_then _ (set_transports (alter _ _))); [|done].
  intros w1. split; try done; [|exists []; by rewrite app_nil_r].
  intros t _. by apply lookup_alter_fmap.
Qed.

Lemma on_child_event_children l ev w : children (on_child_event l ev w) = children w.
Proof.
  unfold on_child_event. destruct (children w !! l) as [n|]; [|done]. destruct (removing_event _ ev); [|done].
  unfold tell_router_closed. destruct (close_event _); [|done]. simpl. by case_match.
Qed.

Lemma producerclose_touches l w : touches (Ochild l) w (apply_child child_producerclose l w).
Proof.
  unfold apply_child. destruct (children w !! l) as [n|] eqn:Hl; [|apply touches_refl].
  assert (forall c, touches (Ochild l) w (set_children (insert l (with_child c n)) w)) as Hset.
  { intros c. split; try done; [intros l' Hne; simpl; by rewrite lookup_insert_ne by congruence|].
    exists []. by rewrite app_nil_r. }
  assert (forall c ev ev', close_event (kind_of c) = None ->
    touches (Ochild l) w (foldl (run_effect l (transport_worker (n_transport n) w))
      (set_children (insert l (with_child c n)) w)
      [Unsubscribe (child_id c); Emit ev VUndef; Emit ev' VUndef; Observer "close" VUndef])) as Hclose.
  { intros c ev ev' Hk. cbn [foldl run_effect].
    assert (forall w', children w' = <[l := with_child c n]> (children w) ->
      children w' !! l = Some (with_child c n)) as Hat by (intros w' ->; apply lookup_insert_eq).
    apply touches_record. eapply touches_child_event; [apply Hat|exact Hk|].
    { simpl. by rewrite on_child_event_children. }
    apply touches_record. eapply touches_child_event; [by apply Hat|exact Hk|].
    apply touches_record, (touches_then _ (unsubscribe _ _)), Hset.
    intros w1. split; try done. exists []. by rewrite app_nil_r. }
  destruct (n_child n) as [p|c|p|c]; try apply Hset; cbn [child_producerclose].
  - unfold Consumer.on_notification. simpl String.eqb. cbv iota.
    destruct (Consumer.closed c); [apply Hset|]. by apply (Hclose (CConsumer (Consumer.with_closed true c))).
  - unfold DataConsumer.on_notification. simpl String.eqb. cbv iota.
    destruct (DataConsumer.closed c); [apply Hset|]. by apply (Hclose (CDataConsumer (DataConsumer.with_closed true c))).
Qed.

Lemma notify_touches o event data w : touches o w (notify o event data w).1.
Proof.
  destruct o as [l|l|t|r|s|k]; simpl; try apply touches_refl.
  - destruct (children w !! l) as [n|] eqn:Hl; [|apply touches_refl].
    destruct (notified_child event data (n_child n)) as [x|e] eqn:Hx; simpl; [|apply touches_refl].
    destruct (child_notification_cases _ _ _ _ Hx) as [->|[_ Hq]].
    + rewrite (apply_child_at _ child_producerclose l w n); [apply producerclose_touches|done..].
    + by eapply quiet_child_touches.
  - destruct (observers w !! l) as [[ob r]|]; [|apply touches_refl].
    destruct (RtpObserver.on_notification _ _ _ _) as [es|]; simpl; [|apply touches_refl].
    by apply record_all_touches.
  - destruct (transports w !! t) as [tr|] eqn:Ht; [|apply touches_refl].
    destruct (TransportEvents.on_notification _ _ _) as [[e es]|]; simpl; [|apply touches_refl].
    apply record_all_touches; try done. intros t' Hne. simpl. by rewrite lookup_insert_ne by congruence.
Qed.

(** The same for all listeners of an id.  [untouched]: the object itself is the
    same afterwards; of a transport this is its [#data]. *)
Definition untouched (o : obj) (w w' : world) : Prop :=
  match o with
  | Ochild l => children w' !! l = children w !! l
  | Oobserver l => observers w' !! l = observers w !! l
  | Otransport t => t_data <$> transports w' !! t = t_data <$> transports w !! t
  | Orouter r => routers w' !! r = routers w !! r
  | Oserver s => servers w' !! s = servers w !! s
  | Oworker k => workers w' !! k = workers w !! k
  end.

Lemma touches_untouched o x w w' : touches o w w' -> x <> o -> untouched x w w'.
Proof. intros [A1 A2 A3 A4 A5 A6 _] Hne. destruct x; simpl; rewrite ?A2, ?A4, ?A5, ?A6; auto with congruence. Qed.

Lemma untouched_trans x w1 w2 w3 : untouched x w1 w2 -> untouched x w2 w3 -> untouched x w1 w3.
Proof. destruct x; simpl; congruence. Qed.

Lemma untouched_refl x w : untouched x w w.
Proof. by destruct x. Qed.

Lemma notify_all_untouched os event data w :
  let w' := (notify_all os event data w).1 in
  (forall x, x ∉ os -> untouched x w w') /\
  exists es, log w' = log w ++ es /\ forall x e, (x, e) ∈ es -> x ∈ os.
Proof.
  revert w. induction os as [|o os IH]; intros w; simpl.
  - split; [intros x _; apply untouched_refl|]. exists []. rewrite app_nil_r. split; [done|]. by intros x e ?%elem_of_nil.
  - pose proof (notify_touches o event data w) as Ht. destruct (tc_log _ _ _ Ht) as (es1 & Hl1).
    destruct (notify o event data w) as [w1 [e|]]; simpl in *.
    + split; [intros x [Hx _]%not_elem_of_cons; by eapply touches_untouched|].
      exists (map (pair o) es1). split; [done|]. intros x e' Hin.
      apply list_elem_of_In, in_map_iff in Hin as (? & [= <- <-] & _). by left.
    + destruct (IH w1) as [Hu (es2 & Hl2 & Hin2)]. split.
      * intros x [Hx Hxs]%not_elem_of_cons. eapply untouched_trans; [by eapply touches_untouched|by apply Hu].
      * exists (map (pair o) es1 ++ es2). rewrite Hl2, Hl1, app_assoc. split; [done|].
        intros x e' [Hin|Hin]%elem_of_app; [|right; by eapply Hin2].
        apply list_elem_of_In, in_map_iff in Hin as (? & [= <- <-] & _). by left.
Qed.

Lemma elem_of_subscribers o k id w : o ∈ subscribers k id w <-> (k, id, o) ∈ subscriptions w.
Proof.
  unfold subscribers. rewrite !list_elem_of_In, in_map_iff. split.
  - intros ([[k1 id1] o1] & <- & [Hin Hk]%filter_In). simpl in *. apply andb_prop in Hk as [->%Nat.eqb_eq ->%String.eqb_eq].
    done.
  - intros Hin. exists (k, id, o). split; [done|]. apply filter_In. split; [done|]. simpl.
    by rewrite Nat.eqb_refl, String.eqb_refl.
Qed.

Lemma NoDup_all_same {A} (a : A) l : NoDup l -> (forall x, x ∈ l -> x = a) -> a ∈ l -> l = [a].
Proof.
  intros Hn Hall Hin. destruct l as [|x l]; [by apply elem_of_nil in Hin|].
  rewrite (Hall x) in * by (by left). apply NoDup_cons in Hn as [Hx _]. destruct l as [|y l]; [done|].
  exfalso. apply Hx. rewrite <-(Hall y) by (right; by left). by left.
Qed.
