(* ===== verification/Methods.v ===== *)
(** * Methods that wait for an answer and make nothing

    The creating methods are in TransportCalls.v and RouterCalls.v.  The others
    (pausing, connecting, asking for statistics and so on) are here brought into
    one form for the system of Session.v: what a method does up to its request,
    what it keeps while it waits, and what it does with the answer. *)

From S2P Require Import Prelude Js RtpParameters Framing Events TransportState TransportEvents World WorldSpec RouterCalls Closing Lifecycle Delivery.
From S2P Require Producer Consumer DataProducer DataConsumer RtpObserver.

Inductive worker_method : Type := Wdump | WgetResourceUsage | WupdateSettings (options : val).

Inductive method : Type :=
| Mchild (l : loc) (o : child_op)
| Mobserver (l : loc) (o : observer_op)
| Mtransport (t : loc) (o : TransportEvents.op)
| Mworker (k : loc) (m : worker_method)
| Mrouter_dump (r : loc)
| Mserver_dump (s : loc).

(** The object a method is called on. *)
Definition method_object (m : method) : obj :=
  match m with
  | Mchild l _ => Ochild l
  | Mobserver l _ => Oobserver l
  | Mtransport t _ => Otransport t
  | Mworker k _ => Oworker k
  | Mrouter_dump r => Orouter r
  | Mserver_dump s => Oserver s
  end.

(** What a method keeps: the number of its call in its object, or the rest of a
    method of a transport; others hand the answer on. *)
Inductive awaiting : Type :=
| Achild (l : loc) (n : nat)
| Aobserver (l : loc) (n : nat)
| Atransport (t : loc) (k : TransportEvents.continuation)
| Aanswer (o : obj).

Definition awaiting_object (a : awaiting) : obj :=
  match a with
  | Achild l _ => Ochild l
  | Aobserver l _ => Oobserver l
  | Atransport t _ => Otransport t
  | Aanswer o => o
  end.

(** A method that ends without a request: it throws, or there is nothing to do. *)
Definition no_request : error := PlainError "no request".

(** ** Up to the request *)

(** The methods of children that wait. *)
Definition waits (o : child_op) : bool :=
  match o with
  | Pop o => Producer.is_call o
  | Cop o => Consumer.is_call o
  | DPop (DPdump | DPgetStats) => true
  | DCop (DCdump | DCgetStats | DCsetBufferedAmountLowThreshold _ | DCgetBufferedAmount) => true
  | _ => false
  end.

(** The request it makes is its only effect; the call gets the next number. *)
Definition child_call (l : loc) (c : child) : awaiting :=
  match c with
  | CProducer p => Achild l (next_call (Producer.p_calls p))
  | CConsumer c => Achild l (next_call (Consumer.c_calls c))
  | _ => Aanswer (Ochild l)
  end.

Definition begin_child (l : loc) (o : child_op) (w : world) : world * result awaiting :=
  match children w !! l with
  | Some n =>
      match waits o, (run_child o (n_child n)).2 with
      | true, [Request _ _ _] => (child_method o l w, Ok (child_call l (n_child n)))
      | _, _ => (w, Err no_request)
      end
  | None => (w, Err no_request)
  end.

Definition begin_observer (l : loc) (op : observer_op) (w : world) : world * result awaiting :=
  match observers w !! l with
  | Some (o, r) =>
      match (run_observer (router_producer r w) op o).2 with
      | [Request _ _ _] => (observer_method op l w, Ok (Aobserver l (next_call (RtpObserver.o_calls o))))
      | _ => (w, Err no_request)
      end
  | None => (w, Err no_request)
  end.

(** The only call in flight of the endpoint is this one. *)
Definition begin_transport_method (t : loc) (o : TransportEvents.op) (w : world) : world * result awaiting :=
  match transports w !! t with
  | Some tr =>
      let '(e, es) := TransportEvents.apply_op o (mkEndpoint tr true no_calls) in
      match es, in_flight (e_calls e) with
      | [Request method id data], [(_, k)] =>
          (record_effect (Otransport t) (Request method id data) w, Ok (Atransport t k))
      | _, _ => (w, Err no_request)
      end
  | None => (w, Err no_request)
  end.

Definition ask (o : obj) (r : result effect) (w : world) : world * result awaiting :=
  match r with
  | Ok e => (record_effect o e w, Ok (Aanswer o))
  | Err e => (w, Err e)
  end.

Definition worker_request (m : worker_method) : result effect :=
  match m with
  | Wdump => Ok worker_dump
  | WgetResourceUsage => Ok getResourceUsage
  | WupdateSettings options => updateSettings options
  end.

Definition begin_method (m : method) (w : world) : world * result awaiting :=
  match m with
  | Mchild l o => begin_child l o w
  | Mobserver l o => begin_observer l o w
  | Mtransport t o => begin_transport_method t o w
  | Mworker k m => ask (Oworker k) (worker_request m) w
  | Mrouter_dump r =>
      match routers w !! r with
      | Some ro => ask (Orouter r) (Ok (router_dump (r_id ro))) w
      | None => (w, Err no_request)
      end
  | Mserver_dump s =>
      match servers w !! s with
      | Some sv => ask (Oserver s) (Ok (server_dump (s_id sv))) w
      | None => (w, Err no_request)
      end
  end.

(** ** The answer *)

Definition child_response (n : nat) (res : result val) (c : child) : child * list effect :=
  match c with
  | CProducer p => let '(p, es) := Producer.response n res p in (CProducer p, es)
  | CConsumer c => let '(c, es) := Consumer.response n res c in (CConsumer c, es)
  | c => (c, [])
  end.

Definition answer (a : awaiting) (res : result val) (w : world) : world :=
  match a with
  | Achild l n => apply_child (child_response n res) l w
  | Aobserver l n => observer_method (Oresponse n res) l w
  | _ => w
  end.

(** The rest of a method of a transport may throw; then nothing has changed. *)
Definition finish_method (a : awaiting) (data : val) (w : world) : result world :=
  match a with
  | Atransport t k =>
      match transports w !! t with
      | Some tr =>
          e ← TransportEvents.continue k data (mkEndpoint tr true no_calls);
          Ok (set_transports (insert t (e_transport e)) w)
      | None => Err no_request
      end
  | a => Ok (answer a (Ok data) w)
  end.

Definition fail_method (a : awaiting) (e : error) (w : world) : world := answer a (Err e) w.

(** ** They change details only *)

Lemma child_response_quiet n res c : same_child c (child_response n res c).1 /\ all_quiet (child_response n res c).2.
Proof.
  destruct c as [p|c|p|c]; simpl; try (split; [done|quiet_tac]).
  - destruct (producer_op_quiet (Producer.Response n res) p) as [H1 H2]; [done..|]. simpl in *.
    by destruct (Producer.response n res p).
  - destruct (consumer_op_quiet (Consumer.Response n res) c) as [H1 H2]; [done..|]. simpl in *.
    by destruct (Consumer.response n res c).
Qed.

Lemma answer_alike a res w : alike w (answer a res w).
Proof.
  destruct a; simpl; try apply alike_refl; [|apply observer_method_alike].
  apply apply_child_alike. intros n1 _. apply child_response_quiet.
Qed.

Lemma fail_method_alike a e w : alike w (fail_method a e w).
Proof. apply answer_alike. Qed.

Lemma continue_frame k data tr e :
  TransportEvents.continue k data (mkEndpoint tr true no_calls) = Ok e -> t_frame (e_transport e) = t_frame tr.
Proof.
  assert (forall k v e, t_frame (e_transport (set_data k v e)) = t_frame (e_transport e)) as Hset by done.
  assert (forall k data e, t_frame (e_transport (keep_if_given k data e)) = t_frame (e_transport e)) as Hkeep
    by (intros; unfold keep_if_given; by case_match).
  intros H. unfold TransportEvents.continue, connected_webRtc, connected_plain, connected_pipe in H.
  repeat case_match; inv_result; by rewrite ?Hset, ?Hkeep.
Qed.

Lemma finish_method_alike a data w w' : finish_method a data w = Ok w' -> alike w w'.
Proof.
  destruct a as [l n|l n|t k|o]; cbn [finish_method];
    try (intros H; match type of H with Ok ?x = _ => replace w' with x by congruence end; apply answer_alike).
  - destruct (transports w !! t) as [tr|] eqn:Ht; [|done]. intros (e & He & [= <-])%bind_Ok.
    apply alike_parts; try done. intros t'. simpl. eapply fmap_insert_same; [exact Ht|by eapply continue_frame].
Qed.

(** What a method does up to its request. *)
Record begun_method (m : method) (w w' : world) (r : result awaiting) : Prop := mkBegunMethod {
  bm_alike : alike w w';
  bm_request : forall a, r = Ok a ->
    awaiting_object a = method_object m /\
    exists method id data, log w' = log w ++ [(method_object m, Request method id data)]
}.

Lemma begun_nothing m w : begun_method m w w (Err no_request).
Proof. split; [apply alike_refl|done]. Qed.

Lemma ask_begun m r w :
  (forall e, r = Ok e -> exists method id data, e = Request method id data) ->
  begun_method m w (ask (method_object m) r w).1 (ask (method_object m) r w).2.
Proof.
  intros Hr. destruct r as [e|e]; simpl; [|split; [apply alike_refl|done]].
  destruct (Hr e eq_refl) as (method & id & data & ->). split; [by apply record_alike|].
  intros a [= <-]. split; [done|]. by do 3 eexists.
Qed.

Lemma begin_child_begun l o w : begun_method (Mchild l o) w (begin_child l o w).1 (begin_child l o w).2.
Proof.
  unfold begin_child. destruct (children w !! l) as [n|] eqn:Hl; [|apply begun_nothing].
  destruct (waits o) eqn:Hw; [|apply begun_nothing].
  destruct (run_child o (n_child n)) as [c es] eqn:Hr. simpl.
  destruct es as [|[method id data| | | | |] [|]]; try apply begun_nothing. split.
  - destruct (run_child_cases o (n_child n)) as [Hcc|[H1 H2]]; [by destruct o as [[]|[]|[]|[]]| |].
    + rewrite Hr, child_close_eq in Hcc. by destruct (child_closed (n_child n)).
    + apply apply_child_alike. intros n' Hn'. rewrite Hl in Hn'. injection Hn' as <-. done.
  - intros a [= <-]. split; [by destruct (n_child n)|]. do 3 eexists.
    unfold child_method, apply_child. rewrite Hl, Hr. done.
Qed.

Lemma begin_observer_begun l o w : begun_method (Mobserver l o) w (begin_observer l o w).1 (begin_observer l o w).2.
Proof.
  unfold begin_observer. destruct (observers w !! l) as [[ob r]|] eqn:Hl; [|apply begun_nothing].
  destruct (run_observer (router_producer r w) o ob) as [ob' es] eqn:Hr. simpl.
  destruct es as [|[method id data| | | | |] [|]]; try apply begun_nothing.
  split; [apply observer_method_alike|]. intros a [= <-]. split; [done|]. do 3 eexists.
  unfold observer_method, apply_observer. rewrite Hl, Hr. done.
Qed.

Lemma begin_method_begun m w : begun_method m w (begin_method m w).1 (begin_method m w).2.
Proof.
  destruct m as [l o|l o|t o|k m|r|s]; simpl.
  - apply begin_child_begun.
  - apply begin_observer_begun.
  - unfold begin_transport_method. destruct (transports w !! t) as [tr|]; [|apply begun_nothing].
    destruct (TransportEvents.apply_op o _) as [e es].
    destruct es as [|[method id data| | | | |] [|]]; try apply begun_nothing.
    destruct (in_flight (e_calls e)) as [|[n k] [|]]; try apply begun_nothing.
    split; [by apply record_alike|]. intros a [= <-]. split; [done|]. by do 3 eexists.
  - apply (ask_begun (Mworker k m)). intros e. destruct m; simpl; try (intros [= <-]; by do 3 eexists).
    unfold updateSettings. intros H. inv_result. by do 3 eexists.
  - destruct (routers w !! r) as [ro|]; [|apply begun_nothing].
    apply (ask_begun (Mrouter_dump r) (Ok (router_dump (r_id ro)))). intros e [= <-]. by do 3 eexists.
  - destruct (servers w !! s) as [sv|]; [|apply begun_nothing].
    apply (ask_begun (Mserver_dump s) (Ok (server_dump (s_id sv)))). intros e [= <-]. by do 3 eexists.
Qed.
