(* ===== verification/Listeners.v ===== *)
(** * Who listens to the notifications of a worker

    The constructors of transports, RtpObservers, producers, consumers and data
    consumers subscribe to the notifications with their id on the channel of
    their worker; the closing methods remove all listeners of an id.  This file
    keeps track of the subscriptions of World.v.  [tidy] is the invariant, and
    every operation is shown to keep it. *)

From S2P Require Import Prelude Js RtpParameters Framing Events TransportState World WorldSpec Registry WorldInv Closing Cascade ClosingLog Lifecycle Delivery.
From S2P Require Producer Consumer DataProducer DataConsumer RtpObserver.

(** ** The key of an object: its worker and its id *)

Definition obj_key (o : obj) (w : world) : option (loc * string) :=
  match o with
  | Ochild l => (fun n => (transport_worker (n_transport n) w, child_id (n_child n))) <$> children w !! l
  | Oobserver l => (fun o => (router_worker o.2 w, observer_id o)) <$> observers w !! l
  | Otransport t => (fun tr => (router_worker (t_router tr) w, t_id tr)) <$> transports w !! t
  | _ => None
  end.

(** Data producers get no notifications. *)
Definition listens (o : obj) (w : world) : bool :=
  match o with
  | Ochild l => match children w !! l with
                | Some n => negb (bool_decide (kind_of (n_child n) = KDataProducer))
                | None => false
                end
  | Oobserver _ | Otransport _ => true
  | _ => false
  end.

(** Who listens is open, under its key; who is open and does not listen has lost
    its listener to a closed object with the same key. *)
Record tidy (w : world) : Prop := mkTidy {
  td_open : forall k id o, (k, id, o) ∈ subscriptions w ->
    obj_key o w = Some (k, id) /\ obj_closed o w = false /\ listens o w = true;
  td_heard : forall o k id, obj_key o w = Some (k, id) -> obj_closed o w = false -> listens o w = true ->
    (k, id, o) ∈ subscriptions w \/
    exists o', o' <> o /\ obj_key o' w = Some (k, id) /\ obj_closed o' w = true;
  td_once : NoDup (subscriptions w)
}.

(** ** Changes that do not matter *)

Record same_listeners (w w' : world) : Prop := mkSameListeners {
  sl_subscriptions : subscriptions w' = subscriptions w;
  sl_key : forall o, obj_key o w' = obj_key o w;
  sl_closed : forall o, is_Some (obj_key o w) -> obj_closed o w' = obj_closed o w;
  sl_listens : forall o, listens o w' = listens o w
}.

Lemma same_listeners_tidy w w' : same_listeners w w' -> tidy w -> tidy w'.
Proof.
  intros [Hs Hk Hc Hl] [T1 T2 T3]. split; [| |by rewrite Hs].
  - intros k id o. rewrite Hs, Hk, Hl. intros H1%T1. destruct H1 as (Hkey & Ho & Hls).
    rewrite Hc by (rewrite Hkey; by eexists). done.
  - intros o k id Hkey Ho Hls. rewrite Hk in Hkey. rewrite Hl in Hls. rewrite Hc in Ho by (rewrite Hkey; by eexists).
    rewrite Hs. destruct (T2 o k id Hkey Ho Hls) as [?|(o' & Hne & Hk' & Hc')]; [by left|right].
    exists o'. rewrite Hk, Hc by (rewrite Hk'; by eexists). done.
Qed.

Lemma router_worker_alter f r r' w :
  (forall ro, r_worker (f ro) = r_worker ro) ->
  router_worker r' (set_routers (alter f r) w) = router_worker r' w.
Proof.
  intros Hf. unfold router_worker. simpl. destruct (decide (r' = r)) as [->|]; [|by rewrite lookup_alter_ne by congruence].
  rewrite lookup_alter_eq. destruct (routers w !! r); simpl; [apply Hf|done].
Qed.

Lemma same_routers f r w :
  (forall ro, r_worker (f ro) = r_worker ro) -> same_listeners w (set_routers (alter f r) w).
Proof.
  intros Hf. split; try done; [|by intros [] []].
  intros [l|l|t|r'|s|k]; try done; simpl.
  - destruct (children w !! l) as [n|]; [|done]. simpl. unfold transport_worker. simpl.
    destruct (transports w !! n_transport n); [|done]. by rewrite router_worker_alter.
  - destruct (observers w !! l) as [ob|]; [|done]. simpl. by rewrite router_worker_alter.
  - destruct (transports w !! t) as [tr|]; [|done]. simpl. by rewrite router_worker_alter.
Qed.

(** Updates of a transport that keep its id and its router; [closed_transport]
    among them. *)
Lemma obj_key_transports f t w o :
  (forall tr, t_id (f tr) = t_id tr /\ t_router (f tr) = t_router tr) ->
  obj_key o (set_transports (alter f t) w) = obj_key o w.
Proof.
  intros Hf. destruct o as [l|l|t'|r'|s|k]; try done; simpl.
  - destruct (children w !! l) as [n|]; [|done]. simpl. unfold transport_worker. simpl.
    destruct (decide (n_transport n = t)) as [<-|]; [|by rewrite lookup_alter_ne by congruence].
    rewrite lookup_alter_eq. destruct (transports w !! n_transport n) as [tr|]; simpl; [|done]. by rewrite (proj2 (Hf tr)).
  - destruct (decide (t' = t)) as [->|]; [|by rewrite lookup_alter_ne by congruence].
    rewrite lookup_alter_eq. destruct (transports w !! t) as [tr|]; simpl; [|done]. by destruct (Hf tr) as [-> ->].
Qed.

Lemma same_transports f t w :
  (forall tr, t_id (f tr) = t_id tr /\ t_router (f tr) = t_router tr) -> (forall tr, t_closed (f tr) = t_closed tr) ->
  same_listeners w (set_transports (alter f t) w).
Proof.
  intros Hf Hc. split; try done; [intros o; by apply obj_key_transports|].
  intros [] _; try done. by apply (alter_flag t_closed).
Qed.

Lemma same_servers f w : same_listeners w (set_servers f w).
Proof. by split; try done; intros [] []. Qed.
Lemma same_workers f w : same_listeners w (set_workers f w).
Proof. by split; try done; intros [] []. Qed.
Lemma same_record o e w : same_listeners w (record_effect o e w).
Proof. by split; try done; intros []. Qed.

Lemma tidy_routers f r w : (forall ro, r_worker (f ro) = r_worker ro) -> tidy w -> tidy (set_routers (alter f r) w).
Proof. intros Hf. by apply same_listeners_tidy, same_routers. Qed.
Lemma tidy_transports f t w :
  (forall tr, t_id (f tr) = t_id tr /\ t_router (f tr) = t_router tr) -> (forall tr, t_closed (f tr) = t_closed tr) ->
  tidy w -> tidy (set_transports (alter f t) w).
Proof. intros Hf Hc. by apply same_listeners_tidy, same_transports. Qed.
Lemma tidy_servers f w : tidy w -> tidy (set_servers f w).
Proof. apply same_listeners_tidy, same_servers. Qed.
Lemma tidy_workers f w : tidy w -> tidy (set_workers f w).
Proof. apply same_listeners_tidy, same_workers. Qed.
Lemma tidy_record o e w : tidy w -> tidy (record_effect o e w).
Proof. apply same_listeners_tidy, same_record. Qed.

Lemma tidy_foldl {A} (g : world -> A -> world) l w : (forall w x, tidy w -> tidy (g w x)) -> tidy w -> tidy (foldl g w l).
Proof. intros Hg. revert w. induction l as [|x l IH]; intros w Hw; simpl; auto. Qed.
Lemma tidy_for_each {A} (f : A -> world -> world) l w : (forall x w, tidy w -> tidy (f x w)) -> tidy w -> tidy (for_each f l w).
Proof. intros Hf. apply tidy_foldl. auto. Qed.

Create HintDb tidy.
#[export] Hint Resolve tidy_routers tidy_transports tidy_servers tidy_workers tidy_record tidy_for_each : tidy.

(** ** An object closes and its listeners are removed *)

Lemma tidy_close x k id w w' :
  tidy w -> obj_key x w = Some (k, id) ->
  subscriptions w' = subscriptions (unsubscribe k id w) -> (forall o, obj_key o w' = obj_key o w) ->
  (forall o, listens o w' = listens o w) -> obj_closed x w' = true ->
  (forall o, o <> x -> obj_closed o w' = obj_closed o w) -> tidy w'.
Proof.
  intros [T1 T2 T3] Hx Hs Hk Hl Hcx Hc.
  assert (forall k1 id1 o, (k1, id1, o) ∈ subscriptions w' <-> (k1, id1, o) ∈ subscriptions w /\ (k1, id1) <> (k, id)) as Hin.
  { intros k1 id1 o. rewrite Hs. simpl. rewrite !list_elem_of_In, filter_In. simpl.
    destruct (Nat.eqb_spec k1 k), (String.eqb_spec id1 id); simpl; split; intros [? ?]; split; congruence || auto. }
  split; [| |rewrite Hs; by apply NoDup_ListNoDup, List.NoDup_filter, NoDup_ListNoDup].
  - intros k1 id1 o [Ho Hne]%Hin. apply T1 in Ho as (Hkey & Hopen & Hls). rewrite Hk, Hl.
    rewrite Hc; [done|]. intros ->. congruence.
  - intros o k1 id1 Hkey Hopen Hls. rewrite Hk in Hkey. rewrite Hl in Hls.
    assert (o <> x) as Hne by congruence. rewrite Hc in Hopen by done.
    destruct (T2 o k1 id1 Hkey Hopen Hls) as [Ho|(o' & Ho' & Hk' & Hc')].
    + destruct (decide ((k1, id1) = (k, id))) as [[= -> ->]|Hd]; [right|left; by apply Hin].
      exists x. rewrite Hk. split_and!; congruence.
    + right. exists o'. rewrite Hk. split_and!; [done..|].
      destruct (decide (o' = x)) as [->|]; [done|by rewrite Hc].
Qed.

(** ** Children *)

Definition is_unsubscribe (e : effect) : bool := match e with Unsubscribe _ => true | _ => false end.

Lemma tell_router_closed_tidy t k id w : tidy w -> tidy (tell_router_closed t k id w).
Proof. intros H. unfold tell_router_closed. destruct (close_event k), (transports w !! t); auto with tidy. Qed.

Lemma on_child_event_tidy l ev w : tidy w -> tidy (on_child_event l ev w).
Proof.
  intros H. unfold on_child_event. destruct (children w !! l) as [n|]; [|done]. destruct (removing_event _ _); [|done].
  apply tell_router_closed_tidy, tidy_transports; [|done..]. intros tr. by destruct (kind_of (n_child n)).
Qed.
#[export] Hint Resolve tell_router_closed_tidy on_child_event_tidy : tidy.

Lemma run_effects_tidy l wk es w :
  forallb (fun e => negb (is_unsubscribe e)) es = true -> tidy w -> tidy (foldl (run_effect l wk) w es).
Proof.
  revert w. induction es as [|e es IH]; intros w Hes Hw; simpl in *; [done|].
  apply andb_prop in Hes as [He Hes]. apply IH; [done|]. destruct e; simpl in *; auto with tidy. done.
Qed.

(** A method of a child that may close it. *)
Definition closing_child_method (f : child -> child * list effect) : Prop :=
  forall c, f c = (c, []) \/
    exists es, f c = (mark_closed c, Unsubscribe (child_id c) :: es) /\ forallb (fun e => negb (is_unsubscribe e)) es = true.

Lemma apply_child_tidy f l w : closing_child_method f -> tidy w -> tidy (apply_child f l w).
Proof.
  intros Hf Hw. unfold apply_child. destruct (children w !! l) as [n|] eqn:Hl; [|done].
  destruct (Hf (n_child n)) as [->|(es & -> & Hes)].
  - simpl. eapply same_listeners_tidy; [|exact Hw].
    assert (set_children (insert l (with_child (n_child n) n)) w = w) as ->; [|by split].
    unfold set_children. rewrite insert_id; [by destruct w|]. rewrite Hl. by destruct n.
  - cbn [foldl run_effect]. apply run_effects_tidy; [done|].
    eapply (tidy_close (Ochild l)); [exact Hw|simpl; by rewrite Hl|done|..].
    + intros [l'|l'|t|r|s|k]; try done. simpl. destruct (decide (l' = l)) as [->|]; [|by rewrite lookup_insert_ne by congruence].
      rewrite lookup_insert_eq, Hl. simpl. f_equal. f_equal. by destruct (n_child n).
    + intros [l'|l'|t|r|s|k]; try done. simpl. destruct (decide (l' = l)) as [->|]; [|by rewrite lookup_insert_ne by congruence].
      rewrite lookup_insert_eq, Hl. simpl. by destruct (n_child n).
    + simpl. rewrite lookup_insert_eq. simpl. by destruct (n_child n).
    + intros [l'|l'|t|r|s|k] Hne; try done. simpl. by rewrite lookup_insert_ne by congruence.
Qed.

Lemma child_close_method : closing_child_method child_close.
Proof.
  intros c. rewrite child_close_eq. destruct (child_closed c); [by left|right]. eexists. split; [done|]. by destruct c.
Qed.
Lemma child_transportClosed_method : closing_child_method child_transportClosed.
Proof.
  intros c. rewrite child_transportClosed_eq. destruct (child_closed c); [by left|right]. by eexists.
Qed.
Lemma child_producerclose_method : closing_child_method child_producerclose.
Proof.
  intros [p|c|p|c]; simpl; [by left| |by left|].
  - unfold Consumer.on_notification. simpl. destruct (Consumer.closed c); [by left|right]. by eexists.
  - unfold DataConsumer.on_notification. simpl. destruct (DataConsumer.closed c); [by left|right]. by eexists.
Qed.
#[export] Hint Resolve apply_child_tidy child_close_method child_transportClosed_method child_producerclose_method : tidy.

(** ** Transports *)

Lemma update_t_map_static k f tr : t_id (update_t_map k f tr) = t_id tr /\ t_router (update_t_map k f tr) = t_router tr.
Proof. done. Qed.
#[export] Hint Resolve update_t_map_static : tidy.

Lemma close_children_tidy tell t w : tidy w -> tidy (close_children tell t w).
Proof.
  apply tidy_foldl. intros w1 k Hw. unfold close_kind. destruct (transports w1 !! t) as [tr|]; [|done].
  apply tidy_transports; [done..|]. apply tidy_foldl; [|done]. intros w2 l Hw2. unfold close_one. cbv zeta.
  destruct tell; [case_match|]; auto with tidy.
Qed.

Lemma emit_transport_close_tidy t tr w : tidy w -> tidy (emit_transport_close t tr w).
Proof. intros H. unfold emit_transport_close. cbv zeta. destruct (t_server tr); auto 10 with tidy. Qed.

Lemma mark_transport_closed_tidy t tr w :
  transports w !! t = Some tr -> tidy w -> tidy (mark_transport_closed t tr w).
Proof.
  intros Ht Hw. unfold mark_transport_closed.
  assert (insert t (closed_transport tr) (transports w) = alter closed_transport t (transports w)) as Heq.
  { apply map_eq. intros t'. destruct (decide (t' = t)) as [->|].
    - by rewrite lookup_insert_eq, lookup_alter_eq, Ht.
    - by rewrite lookup_insert_ne, lookup_alter_ne by congruence. }
  assert (set_transports (insert t (closed_transport tr)) w = set_transports (alter closed_transport t) w) as ->
    by (unfold set_transports; by rewrite Heq).
  eapply (tidy_close (Otransport t)); [exact Hw|simpl; by rewrite Ht|..].
  - unfold transport_worker. by rewrite Ht.
  - intros o. change (obj_key o (set_transports (alter closed_transport t) w) = obj_key o w). by apply obj_key_transports.
  - done.
  - simpl. by rewrite lookup_alter_eq, Ht.
  - intros [l'|l'|t'|r|s|k] Hne; try done. simpl. by rewrite lookup_alter_ne by congruence.
Qed.
#[export] Hint Resolve close_children_tidy emit_transport_close_tidy mark_transport_closed_tidy : tidy.

Lemma transport_close_tidy t w : tidy w -> tidy (transport_close t w).
Proof.
  intros Hw. unfold transport_close. destruct (transports w !! t) as [tr|] eqn:Ht; [|done].
  destruct (t_closed tr); [done|]. cbv zeta. auto 10 with tidy.
Qed.
Lemma transport_routerClosed_tidy t w : tidy w -> tidy (transport_routerClosed t w).
Proof.
  intros Hw. unfold transport_routerClosed. destruct (transports w !! t) as [tr|] eqn:Ht; [|done].
  destruct (t_closed tr); [done|]. cbv zeta. auto 10 with tidy.
Qed.
Lemma transport_listenServerClosed_tidy t w : tidy w -> tidy (transport_listenServerClosed t w).
Proof.
  intros Hw. unfold transport_listenServerClosed. destruct (transports w !! t) as [tr|] eqn:Ht; [|done].
  destruct (t_closed tr); [done|]. cbv zeta. auto 10 with tidy.
Qed.
#[export] Hint Resolve transport_close_tidy transport_routerClosed_tidy transport_listenServerClosed_tidy : tidy.

(** ** RtpObservers *)

Definition closing_observer_method (f : RtpObserver.rtpObserver -> RtpObserver.rtpObserver * list effect) : Prop :=
  forall ob, f ob = (ob, []) \/
    exists ob' es, f ob = (ob', Unsubscribe (RtpObserver.rtpObserverId ob) :: es) /\ RtpObserver.closed ob' = true /\
      RtpObserver.rtpObserverId ob' = RtpObserver.rtpObserverId ob /\
      forallb (fun e => negb (is_unsubscribe e)) es = true.

Lemma run_observer_effects_tidy l wk r id es w :
  forallb (fun e => negb (is_unsubscribe e)) es = true -> tidy w -> tidy (foldl (run_observer_effect l wk r id) w es).
Proof.
  revert w. induction es as [|e es IH]; intros w Hes Hw; simpl in *; [done|].
  apply andb_prop in Hes as [He Hes]. apply IH; [done|].
  destruct e; simpl in *; [auto with tidy..|done| |auto with tidy]. destruct (String.eqb _ _); auto with tidy.
Qed.

Lemma apply_observer_tidy f l w : closing_observer_method f -> tidy w -> tidy (apply_observer f l w).
Proof.
  intros Hf Hw. unfold apply_observer. destruct (observers w !! l) as [[ob r]|] eqn:Hl; [|done].
  destruct (Hf ob) as [->|(ob' & es & -> & Hc & Hid & Hes)].
  - simpl. eapply same_listeners_tidy; [|exact Hw].
    assert (set_observers (insert l (ob, r)) w = w) as ->; [|by split].
    unfold set_observers. rewrite insert_id by done. by destruct w.
  - cbn [foldl run_observer_effect]. apply run_observer_effects_tidy; [done|].
    eapply (tidy_close (Oobserver l)); [exact Hw|simpl; by rewrite Hl|done|..].
    + intros [l'|l'|t|r'|s|k]; try done. simpl. destruct (decide (l' = l)) as [->|]; [|by rewrite lookup_insert_ne by congruence].
      rewrite lookup_insert_eq, Hl. simpl. unfold observer_id. simpl. by rewrite Hid.
    + done.
    + simpl. rewrite lookup_insert_eq. unfold observer_open. simpl. by rewrite Hc.
    + intros [l'|l'|t|r'|s|k] Hne; try done. simpl. by rewrite lookup_insert_ne by congruence.
Qed.

Lemma observer_close_method : closing_observer_method RtpObserver.close.
Proof.
  intros ob. unfold RtpObserver.close. destruct (RtpObserver.closed ob); [by left|right]. by do 2 eexists.
Qed.
Lemma observer_routerClosed_method : closing_observer_method RtpObserver.routerClosed.
Proof.
  intros ob. unfold RtpObserver.routerClosed. destruct (RtpObserver.closed ob); [by left|right]. by do 2 eexists.
Qed.
#[export] Hint Resolve apply_observer_tidy observer_close_method observer_routerClosed_method : tidy.

(** ** Routers, WebRtcServers and workers *)

Lemma close_router_objects_tidy r w : tidy w -> tidy (close_router_objects r w).
Proof.
  intros Hw. unfold close_router_objects. destruct (routers w !! r); [|done]. cbv zeta.
  repeat (apply tidy_routers; [done|]). apply tidy_for_each; [unfold observer_routerClosed; auto with tidy|].
  repeat (apply tidy_routers; [done|]). auto with tidy.
Qed.
#[export] Hint Resolve close_router_objects_tidy : tidy.

Lemma router_close_tidy r w : tidy w -> tidy (router_close r w).
Proof.
  intros Hw. unfold router_close. destruct (routers w !! r) as [ro|]; [|done].
  destruct (r_closed ro); [done|]. cbv zeta. auto 10 with tidy.
Qed.
Lemma router_workerClosed_tidy r w : tidy w -> tidy (router_workerClosed r w).
Proof.
  intros Hw. unfold router_workerClosed. destruct (routers w !! r) as [ro|]; [|done].
  destruct (r_closed ro); [done|]. cbv zeta. auto 10 with tidy.
Qed.
Lemma unhandle_tidy s t w : tidy w -> tidy (unhandle s t w).
Proof. intros Hw. unfold unhandle. cbv zeta. destruct (transports _ !! t); auto with tidy. Qed.
#[export] Hint Resolve router_close_tidy router_workerClosed_tidy unhandle_tidy : tidy.

Lemma server_close_tidy s w : tidy w -> tidy (server_close s w).
Proof.
  intros Hw. unfold server_close. destruct (servers w !! s) as [sv|]; [|done].
  destruct (s_closed sv); [done|]. cbv zeta. auto 10 with tidy.
Qed.
Lemma server_workerClosed_tidy s w : tidy w -> tidy (server_workerClosed s w).
Proof.
  intros Hw. unfold server_workerClosed. destruct (servers w !! s) as [sv|]; [|done].
  destruct (s_closed sv); [done|]. cbv zeta. auto 10 with tidy.
Qed.
#[export] Hint Resolve server_close_tidy server_workerClosed_tidy : tidy.

Lemma close_worker_objects_tidy k w : tidy w -> tidy (close_worker_objects k w).
Proof.
  intros Hw. unfold close_worker_objects. destruct (workers w !! k); [|done]. cbv zeta. auto 10 with tidy.
Qed.
#[export] Hint Resolve close_worker_objects_tidy : tidy.

Lemma worker_close_tidy k w : tidy w -> tidy (worker_close k w).
Proof.
  intros Hw. unfold worker_close. destruct (workers w !! k) as [wk|]; [|done].
  destruct (w_closed wk); [done|]. cbv zeta. auto 10 with tidy.
Qed.
Lemma worker_died_tidy message k w : tidy w -> tidy (worker_died message k w).
Proof.
  intros Hw. unfold worker_died. destruct (workers w !! k) as [wk|]; [|done].
  destruct (w_closed wk); [done|]. cbv zeta. auto 10 with tidy.
Qed.
#[export] Hint Resolve worker_close_tidy worker_died_tidy : tidy.

(** ** Objects are made *)

(** Owners exist. *)
Record homed (w : world) : Prop := mkHomed {
  hm_child : forall l n, children w !! l = Some n -> is_Some (transports w !! n_transport n);
  hm_observer : forall l o, observers w !! l = Some o -> is_Some (routers w !! o.2);
  hm_transport : forall t tr, transports w !! t = Some tr -> is_Some (routers w !! t_router tr)
}.

Lemma ends_homed T w w' : ends T w w' -> homed w -> homed w'.
Proof.
  intros He [H1 H2 H3]. split.
  - intros l n' Hl. destruct (ends_child _ _ _ _ _ He Hl) as (n & Hn & [= _ _ ->] & _). apply H1 in Hn as [tr Ht].
    pose proof (en_transports _ _ _ He (n_transport n)) as Hs. rewrite Ht in Hs.
    destruct (transports w' !! n_transport n); [by eexists|done].
  - intros l o' Hl. pose proof (en_observers _ _ _ He l) as Hs. rewrite Hl in Hs. symmetry in Hs.
    apply fmap_Some in Hs as (o & Ho & [= _ ->]). apply H2 in Ho as [ro Hr].
    destruct (ends_router_fwd _ _ _ _ _ He Hr) as (ro' & ? & _). by eexists.
  - intros t tr' Ht. destruct (ends_transport _ _ _ _ _ He Ht) as (tr & Htr & [= _ -> _]). apply H3 in Htr as [ro Hr].
    destruct (ends_router_fwd _ _ _ _ _ He Hr) as (ro' & ? & _). by eexists.
Qed.

Lemma is_Some_insert {V} i (x : V) (m : gmap loc V) j : is_Some (m !! j) -> is_Some (<[i := x]> m !! j).
Proof. intros H. destruct (decide (j = i)) as [->|]; [rewrite lookup_insert_eq; by eexists|by rewrite lookup_insert_ne by congruence]. Qed.
Lemma is_Some_alter {V} (f : V -> V) i (m : gmap loc V) j : is_Some (m !! j) -> is_Some (alter f i m !! j).
Proof.
  intros [x H]. destruct (decide (j = i)) as [->|]; [rewrite lookup_alter_eq, H; by eexists|].
  rewrite lookup_alter_ne by congruence. by eexists.
Qed.

Lemma alike_homed w w' : alike w w' -> homed w -> homed w'.
Proof.
  intros [Hc Ho Ht Hr _ _ _ _] [H1 H2 H3]. split; rewrite ?Hr.
  - intros l n' (n & Hn & [= _ _ _ _ -> _])%(fmap_lookup_back c_frame _ _ _ _ (Hc l)).
    destruct (H1 _ _ Hn) as [tr Htr]. specialize (Ht (n_transport n)). rewrite Htr in Ht.
    apply fmap_Some in Ht as (tr' & ? & _). by eexists.
  - intros l ob' (ob & Hob & [= _ _ ->])%(fmap_lookup_back o_frame _ _ _ _ (Ho l)). eauto.
  - intros t tr' (tr & Htr & [= _ _ -> _ _ _ _ _ _ _ _ _])%(fmap_lookup_back t_frame _ _ _ _ (Ht t)). eauto.
Qed.

Lemma alike_listeners w w' : alike w w' -> same_listeners w w'.
Proof.
  intros Ha. pose proof Ha as [Hc Ho Ht Hr _ _ Hs _].
  assert (forall r, router_worker r w' = router_worker r w) as Hrw by (intros r; unfold router_worker; by rewrite Hr).
  assert (forall t, transport_worker t w' = transport_worker t w) as Htw.
  { intros t. unfold transport_worker. specialize (Ht t).
    destruct (transports w' !! t), (transports w !! t); try done. injection Ht as _ _ -> _ _ _ _ _ _ _ _ _. apply Hrw. }
  split; [done| |by intros; apply alike_closed|].
  - intros [l|l|t|r|s|k]; try done; simpl.
    + specialize (Hc l). destruct (children w' !! l), (children w !! l); try done. simpl. injection Hc as _ -> _ _ -> _.
      by rewrite Htw.
    + specialize (Ho l). destruct (observers w' !! l), (observers w !! l); try done. simpl. injection Ho as E _ ->.
      unfold observer_id. by rewrite Hrw, E.
    + specialize (Ht t). destruct (transports w' !! t), (transports w !! t); try done. simpl.
      injection Ht as -> _ -> _ _ _ _ _ _ _ _ _. by rewrite Hrw.
  - intros [l|l|t|r|s|k]; try done; simpl.
    specialize (Hc l). destruct (children w' !! l), (children w !! l); try done. by injection Hc as -> _ _ _ _ _.
Qed.

Lemma step_homed w w' : consistent w -> homed w -> step w w' -> homed w'.
Proof.
  intros Hw Hh Hs. pose proof Hh as [H1 H2 H3].
  destruct Hs as [k w Hk|l k id caps w wk Hl Hk Hc|l k id w wk Hl Hk Hc|l r cls server id data w ro Hl Hr Hc Hsv Hf
    |l r cls id w ro Hl Hr Hc Hf|l t c streamId w tr Hl Hc Ht Hct Hf|t cname nextMid s w|w w' Ha
    |l w|l w|t w|l w|r w|s w|k w|message k w].
  - done.
  - split; simpl; [done|..]; intros; apply is_Some_insert; eauto.
  - done.
  - assert (forall w1, children w1 = children w -> observers w1 = observers w ->
      transports w1 = <[l := mkTransport id cls r server false data [] [] [] [] None 0 no_sctp_ids]> (transports w) ->
      routers w1 = alter (update_r_transports (jset id l)) r (routers w) -> homed w1) as Hgo.
    { intros w1 Ec Eo Et Er. split; rewrite ?Ec, ?Eo, ?Et, ?Er.
      - intros l1 n Hn. apply is_Some_insert. eauto.
      - intros l1 o Ho. apply is_Some_alter. eauto.
      - intros t tr [[-> ->]|[_ Htr]]%insert_inv; apply is_Some_alter; [exact (mk_is_Some _ _ Hr)|eauto]. }
    apply Hgo; unfold createTransport_done; by destruct server.
  - split; simpl; [done|..].
    + intros l1 o [[-> ->]|[_ Ho]]%insert_inv; apply is_Some_alter; [exact (mk_is_Some _ _ Hr)|eauto].
    + intros t tr Htr. apply is_Some_alter. eauto.
  - destruct (add_child_spec l t c streamId w tr Ht) as (Ec & Et & Er & _ & _ & Eo).
    assert (forall r, is_Some (routers w !! r) -> is_Some (routers (add_child l t c streamId w) !! r)) as Hr.
    { intros r Hr. rewrite Er. destruct (new_event _); [by apply is_Some_alter|done]. }
    split; rewrite ?Ec, ?Et, ?Eo.
    + intros l1 n [[-> ->]|[_ Hn]]%insert_inv; apply is_Some_alter; [exact (mk_is_Some _ _ Ht)|eauto].
    + intros l1 o Ho. apply Hr. eauto.
    + intros t1 tr1 (tr0 & Htr0 & ->)%alter_inv. apply Hr. case_decide; [simpl|]; eauto.
  - split; simpl; [|done|].
    + intros l n Hn. apply is_Some_alter. eauto.
    + intros t1 tr1 (tr0 & Htr0 & ->)%alter_inv. case_decide; simpl; eauto.
  - by eapply alike_homed.
  - by eapply ends_homed; [eapply (closing_keeps (Ochild l)); [done|constructor]|].
  - destruct (producerclose_spec l w) as [Hcore|(n & Hn & _ & Hrm)].
    + eapply (ends_homed (fun _ => True)); [eapply ends_core; [exact Hcore|apply ends_refl]|done].
    + by eapply (ends_homed (fun _ => True)); [eapply removed_child_ends|].
  - by eapply ends_homed; [eapply (closing_keeps (Otransport t)); [done|constructor]|].
  - by eapply ends_homed; [eapply (closing_keeps (Oobserver l)); [done|constructor]|].
  - by eapply ends_homed; [eapply (closing_keeps (Orouter r)); [done|constructor]|].
  - by eapply ends_homed; [eapply (closing_keeps (Oserver s)); [done|constructor]|].
  - by eapply ends_homed; [eapply (closing_keeps (Oworker k)); [done|constructor]|].
  - by eapply ends_homed; [eapply (closing_keeps (Oworker k)); [done|constructor]|].
Qed.

(** A new object, open; [heard] tells whether it has subscribed. *)
Lemma tidy_new x k id w w' (heard : bool) :
  tidy w -> obj_key x w = None -> obj_key x w' = Some (k, id) -> obj_closed x w' = false -> listens x w' = heard ->
  subscriptions w' = subscriptions w ++ (if heard then [(k, id, x)] else []) ->
  (forall o, o <> x -> is_Some (obj_key o w) \/ is_Some (obj_key o w') ->
     obj_key o w' = obj_key o w /\ obj_closed o w' = obj_closed o w /\ listens o w' = listens o w) -> tidy w'.
Proof.
  intros [T1 T2 T3] Hx Hk Ho Hl Hs Hother. split.
  - intros k1 id1 o. rewrite Hs. intros [Hin|Hin]%elem_of_app.
    + destruct (T1 _ _ _ Hin) as (Hkey & Hopen & Hls). assert (o <> x) as Hne by congruence.
      destruct (Hother o Hne) as (-> & -> & ->); [rewrite Hkey; left; by eexists|done].
    + destruct heard; [|by apply elem_of_nil in Hin]. apply list_elem_of_singleton in Hin. by injection Hin as -> -> ->.
  - intros o k1 id1 Hkey Hopen Hls. destruct (decide (o = x)) as [->|Hne].
    + left. rewrite Hs. apply elem_of_app. right. rewrite Hk in Hkey. injection Hkey as -> ->.
      rewrite Hl in Hls. rewrite Hls. by left.
    + destruct (Hother o Hne) as (E1 & E2 & E3); [rewrite Hkey; right; by eexists|].
      rewrite E1 in Hkey. rewrite E2 in Hopen. rewrite E3 in Hls.
      destruct (T2 o k1 id1 Hkey Hopen Hls) as [Hin|(o' & Hne' & Hk' & Hc')].
      * left. rewrite Hs. apply elem_of_app. by left.
      * right. exists o'. assert (o' <> x) as Hox by congruence.
        destruct (Hother o' Hox) as (-> & -> & _); [rewrite Hk'; left; by eexists|done].
  - rewrite Hs. apply NoDup_app. split_and!; [done| |destruct heard; [apply NoDup_singleton|constructor]].
    intros [[k1 id1] o] Hin Hnew. destruct heard; [|by apply elem_of_nil in Hnew].
    apply list_elem_of_singleton in Hnew as [= -> -> ->]. destruct (T1 _ _ _ Hin). congruence.
Qed.

(** The key of an object only depends on its owners. *)
Lemma obj_key_homed o w w' :
  homed w ->
  (forall l n, children w !! l = Some n -> o = Ochild l -> children w' !! l = Some n) ->
  (forall l ob, observers w !! l = Some ob -> o = Oobserver l -> observers w' !! l = Some ob) ->
  (forall t tr, transports w !! t = Some tr -> exists tr', transports w' !! t = Some tr' /\ t_static tr' = t_static tr) ->
  (forall r ro, routers w !! r = Some ro -> exists ro', routers w' !! r = Some ro' /\ r_worker ro' = r_worker ro) ->
  is_Some (obj_key o w) -> obj_key o w' = obj_key o w.
Proof.
  intros [H1 H2 H3] Hc Hob Ht Hr.
  assert (forall r, is_Some (routers w !! r) -> router_worker r w' = router_worker r w) as Hrw.
  { intros r [ro Hro]. unfold router_worker. rewrite Hro. by destruct (Hr _ _ Hro) as (ro' & -> & ->). }
  assert (forall t, is_Some (transports w !! t) -> transport_worker t w' = transport_worker t w) as Htw.
  { intros t [tr Htr]. unfold transport_worker. rewrite Htr. destruct (Ht _ _ Htr) as (tr' & -> & [= _ -> _]).
    apply Hrw. eauto. }
  destruct o as [l|l|t|r|s|k]; simpl; try (by intros []).
  - destruct (children w !! l) as [n|] eqn:Hl; [|by intros []]. intros _. rewrite (Hc l n Hl eq_refl). simpl.
    rewrite Htw by eauto. done.
  - destruct (observers w !! l) as [ob|] eqn:Hl; [|by intros []]. intros _. rewrite (Hob l ob Hl eq_refl). simpl.
    rewrite Hrw by eauto. done.
  - destruct (transports w !! t) as [tr|] eqn:Hl; [|by intros []]. intros _.
    destruct (Ht _ _ Hl) as (tr' & -> & [= Hid Hrt _]). simpl. rewrite Hid, Hrt, Hrw by eauto. done.
Qed.

Lemma insert_fresh_some {V} i (x : V) (m : gmap loc V) j y : m !! i = None -> m !! j = Some y -> <[i := x]> m !! j = Some y.
Proof. intros Hi Hj. rewrite lookup_insert_ne; [done|]. intros ->. congruence. Qed.

Lemma new_router_tidy l ro w : homed w -> routers w !! l = None -> tidy w -> tidy (set_routers (insert l ro) w).
Proof.
  intros Hh Hl. apply same_listeners_tidy. split; [done| |by intros [] []|done].
  intros o. destruct (obj_key o w) as [key|] eqn:Hk.
  - rewrite <-Hk. apply obj_key_homed; [done..| | |rewrite Hk; by eexists].
    + intros t tr Ht. by exists tr.
    + intros r ro0 Hr. exists ro0. split; [|done]. by apply insert_fresh_some.
  - destruct o as [l'|l'|t|r|s|k]; try done; simpl in *.
    + by destruct (children w !! l').
    + by destruct (observers w !! l').
    + by destruct (transports w !! t).
Qed.

Lemma new_transport_tidy l tr w :
  homed w -> transports w !! l = None -> is_Some (routers w !! t_router tr) -> t_closed tr = false -> tidy w ->
  tidy (set_transports (insert l tr) (subscribe (router_worker (t_router tr) w) (t_id tr) (Otransport l) w)).
Proof.
  intros Hh Hl Hr Hc Hw. eapply (tidy_new (Otransport l) _ _ _ _ true); [exact Hw|..]; simpl.
  - by rewrite Hl.
  - by rewrite lookup_insert_eq.
  - by rewrite lookup_insert_eq.
  - done.
  - done.
  - intros o Hne Ho.
    assert (is_Some (obj_key o w)) as Hk.
    { destruct Ho as [?|Ho]; [done|]. destruct o as [l'|l'|t|r|s|k]; simpl in *; try done.
      - by destruct (children w !! l').
      - rewrite lookup_insert_ne in Ho by congruence. by destruct (transports w !! t). }
    split_and!.
    + apply obj_key_homed; try done; [|by eexists].
      intros t tr0 Ht. exists tr0. split; [|done]. by apply insert_fresh_some.
    + destruct o; try done. simpl. by rewrite lookup_insert_ne by congruence.
    + by destruct o.
Qed.

Lemma new_observer_tidy l ob r w :
  homed w -> observers w !! l = None -> RtpObserver.closed ob = false -> tidy w ->
  tidy (set_observers (insert l (ob, r)) (subscribe (router_worker r w) (RtpObserver.rtpObserverId ob) (Oobserver l) w)).
Proof.
  intros Hh Hl Hc Hw. eapply (tidy_new (Oobserver l) _ _ _ _ true); [exact Hw|..]; simpl.
  - by rewrite Hl.
  - by rewrite lookup_insert_eq.
  - rewrite lookup_insert_eq. unfold observer_open. simpl. by rewrite Hc.
  - done.
  - done.
  - intros o Hne Ho.
    assert (is_Some (obj_key o w)) as Hk.
    { destruct Ho as [?|Ho]; [done|]. destruct o as [l'|l'|t|r'|s|k]; simpl in *; try done.
      rewrite lookup_insert_ne in Ho by congruence. by destruct (observers w !! l'). }
    split_and!.
    + apply obj_key_homed; try done; [|by eexists..]. intros l1 o1 H1 _. by apply insert_fresh_some.
    + destruct o; try done. simpl. by rewrite lookup_insert_ne by congruence.
    + by destruct o.
Qed.

Lemma new_child_tidy l t c streamId w :
  homed w -> children w !! l = None -> child_closed c = false -> tidy w ->
  tidy (set_children (insert l (mkChildNode c t streamId))
    (if decide (kind_of c = KDataProducer) then w else subscribe (transport_worker t w) (child_id c) (Ochild l) w)).
Proof.
  intros Hh Hl Hc Hw. set (w0 := if decide _ then _ else _).
  assert (core_eq w w0) as [Ec [Et Er Es Ew Eo]] by (unfold w0; by case_decide).
  eapply (tidy_new (Ochild l) (transport_worker t w) (child_id c) _ _ (negb (bool_decide (kind_of c = KDataProducer)))); [exact Hw|..].
  - simpl. by rewrite Hl.
  - simpl. rewrite lookup_insert_eq. simpl. unfold transport_worker, router_worker. cbn [set_children transports routers].
    by rewrite Et, Er.
  - simpl. by rewrite lookup_insert_eq.
  - simpl. by rewrite lookup_insert_eq.
  - unfold w0. case_decide as Hd; [rewrite bool_decide_eq_true_2 by done; by rewrite app_nil_r|].
    by rewrite bool_decide_eq_false_2.
  - intros o Hne Ho.
    assert (is_Some (obj_key o w)) as Hk.
    { destruct Ho as [?|Ho]; [done|]. destruct o as [l'|l'|t1|r'|s|k]; simpl in *; rewrite ?Et, ?Eo, ?Ec in Ho; try done.
      - rewrite lookup_insert_ne in Ho by congruence. by destruct (children w !! l').
      - by destruct (observers w !! l').
      - by destruct (transports w !! t1). }
    split_and!.
    + apply obj_key_homed; try done; cbn [set_children children observers transports routers]; rewrite ?Ec, ?Eo, ?Et, ?Er;
        [|done|by eexists..]. intros l1 n H1 _. by apply insert_fresh_some.
    + destruct o; simpl; rewrite ?Ec, ?Eo, ?Et, ?Er, ?Es, ?Ew; try done. by rewrite lookup_insert_ne by congruence.
    + destruct o; simpl; rewrite ?Ec; try done. by rewrite lookup_insert_ne by congruence.
Qed.

Lemma tell_router_new_tidy t k id l w : tidy w -> tidy (tell_router_new t k id l w).
Proof. intros H. unfold tell_router_new. destruct (new_event k), (transports w !! t); auto with tidy. Qed.

(** ** Every step keeps the invariant *)

Lemma step_tidy w w' : homed w -> tidy w -> step w w' -> tidy w'.
Proof.
  intros Hh Hw Hs.
  destruct Hs as [k w Hk|l k id caps w wk Hl Hk Hc|l k id w wk Hl Hk Hc|l r cls server id data w ro Hl Hr Hc Hsv Hf
    |l r cls id w ro Hl Hr Hc Hf|l t c streamId w tr Hl Hc Ht Hct Hf|t cname nextMid s w|w w' Ha
    |l w|l w|t w|l w|r w|s w|k w|message k w]; auto with tidy.
  - apply tidy_record, tidy_workers. by apply new_router_tidy.
  - apply tidy_record, tidy_workers. by apply tidy_servers.
  - unfold createTransport_done, handleWebRtcTransport. cbv zeta.
    destruct server; [apply tidy_record, tidy_servers|]; apply tidy_record, tidy_routers; try done;
      apply (new_transport_tidy l (mkTransport id cls r _ false data [] [] [] [] None 0 no_sctp_ids)); try done;
      exact (mk_is_Some _ _ Hr).
  - apply tidy_record, tidy_routers; [done|].
    by apply (new_observer_tidy l (RtpObserver.new_rtpObserver id (match routers w !! r with Some ro => r_id ro | None => "" end) cls)).
  - unfold add_child. cbv zeta. apply tidy_record, tell_router_new_tidy, tidy_transports; [done..|].
    by apply new_child_tidy.
  - by eapply same_listeners_tidy; [apply alike_listeners|].
  - apply apply_child_tidy; auto with tidy.
  - unfold observer_close. auto with tidy.
Qed.

Lemma reachable_homed w : reachable w -> homed w.
Proof.
  induction 1 as [|w w' Hr IH Hs]; [by split|]. eapply step_homed; [by apply reachable_consistent|done|done].
Qed.

Lemma reachable_tidy w : reachable w -> tidy w.
Proof.
  induction 1 as [|w w' Hr IH Hs]; [|by eapply step_tidy; [apply reachable_homed|..]].
  split; [by intros k id o ?%elem_of_nil|by intros [] k id|constructor].
Qed.

(** ** Who gets a notification *)

Lemma subscribers_open w k id o :
  tidy w -> o ∈ subscribers k id w -> obj_key o w = Some (k, id) /\ obj_closed o w = false.
Proof. intros Hw Ho%elem_of_subscribers. by destruct (td_open _ Hw _ _ _ Ho) as (? & ? & _). Qed.

Lemma subscribers_alone w k id o :
  tidy w -> obj_key o w = Some (k, id) -> obj_closed o w = false -> listens o w = true ->
  (forall o', obj_key o' w = Some (k, id) -> o' = o) -> subscribers k id w = [o].
Proof.
  intros Hw Hk Ho Hl Hall.
  assert ((k, id, o) ∈ subscriptions w) as Hin.
  { destruct (td_heard _ Hw _ _ _ Hk Ho Hl) as [?|(o' & Hne & Hk' & _)]; [done|]. by destruct Hne; apply Hall. }
  unfold subscribers. rewrite (NoDup_all_same (k, id, o) (List.filter _ _)); [done|..].
  - apply NoDup_ListNoDup, List.NoDup_filter, NoDup_ListNoDup, Hw.
  - intros [[k1 id1] o1] [Hin1 Hk1]%list_elem_of_In%filter_In. simpl in Hk1.
    apply andb_prop in Hk1 as [->%Nat.eqb_eq ->%String.eqb_eq]. f_equal. apply Hall.
    by apply list_elem_of_In, (td_open _ Hw) in Hin1 as (? & _).
  - apply list_elem_of_In, filter_In. split; [by apply list_elem_of_In|]. simpl. by rewrite Nat.eqb_refl, String.eqb_refl.
Qed.

Lemma deliver_to_one w k id o name data :
  tidy w -> obj_key o w = Some (k, id) -> obj_closed o w = false -> listens o w = true ->
  (forall o', obj_key o' w = Some (k, id) -> o' = o) -> deliver k id name data w = notify o name data w.
Proof.
  intros Hw Hk Ho Hl Hall. unfold deliver. rewrite (subscribers_alone w k id o) by done.
  simpl. by destruct (notify o name data w) as [w1 []].
Qed.
