(* ===== verification/Payloads.v ===== *)
(** * Payloads for objects in the tree

    Consumers, data consumers and DirectTransports listen on the payload channel
    of their worker as well, with their id; their constructors add both listeners
    and closing removes both.  A listener on the payload channel only emits.  The
    handler of the socket calls the listeners itself, so that what a listener
    throws leaves the handler. *)

From S2P Require Import Prelude Js RtpParameters Framing Events TransportState TransportEvents World Closing Delivery Listeners.
From S2P Require Producer Consumer DataProducer DataConsumer RtpObserver Requests Channel PayloadChannel.

(** ** Listeners *)

Definition payload_listens (o : obj) (w : world) : bool :=
  match o with
  | Ochild l =>
      match children w !! l with
      | Some n => match n_child n with CConsumer _ | CDataConsumer _ => true | _ => false end
      | None => false
      end
  | Otransport t =>
      match transports w !! t with Some tr => bool_decide (t_class tr = DirectTransport) | None => false end
  | _ => false
  end.

(** What a listener emits. *)
Definition payload_effects (o : obj) (event : string) (data : val) (payload : buffer) (w : world) :
    result (list effect) :=
  match o with
  | Ochild l =>
      match n_child <$> children w !! l with
      | Some (CConsumer c) => Ok (Consumer.on_payload_notification event payload c).2
      | Some (CDataConsumer c) => DataConsumer.on_payload_notification event data payload c
      | _ => Ok []
      end
  | Otransport t =>
      match transports w !! t with
      | Some tr =>
          Ok (TransportEvents.on_payload event (VStr (String.string_of_list_byte payload))
                (mkEndpoint tr true no_calls)).2
      | None => Ok []
      end
  | _ => Ok []
  end.

Definition payload_notify (o : obj) (event : string) (data : val) (payload : buffer) (w : world) :
    world * option error :=
  match payload_effects o event data payload w with
  | Ok es => (record_all o es w, None)
  | Err e => (w, Some e)
  end.

Fixpoint payload_notify_all (os : list obj) (event : string) (data : val) (payload : buffer) (w : world) :
    world * option error :=
  match os with
  | [] => (w, None)
  | o :: os =>
      match payload_notify o event data payload w with
      | (w, None) => payload_notify_all os event data payload w
      | r => r
      end
  end.

Definition payload_subscribers (k : loc) (id : string) (w : world) : list obj :=
  List.filter (fun o => payload_listens o w) (subscribers k id w).

(** [this.emit(targetId, event, data, payload)] *)
Definition deliver_payload (k : loc) (n : PayloadChannel.payload_notification) (payload : buffer) (w : world) :
    world * option error :=
  payload_notify_all (payload_subscribers k (PayloadChannel.pn_targetId n) w)
    (event_name (PayloadChannel.pn_event n)) (PayloadChannel.pn_data n) payload w.

(** [processData] of the payload channel of worker [k], with the listeners; when
    one throws, the notification stays the ongoing one. *)
Definition receive_into `{Channel.JSON} (k : loc) (st : PayloadChannel.payload_channel * world) (data : buffer) :
    PayloadChannel.payload_channel * world :=
  let '(c, w) := st in
  match PayloadChannel.pc_uncaught c, PayloadChannel.ongoingNotification c with
  | None, Some n =>
      let c := PayloadChannel.pc_emit n data c in
      match deliver_payload k n data w with
      | (w, None) => (PayloadChannel.with_ongoing None c, w)
      | (w, Some e) => (PayloadChannel.pc_throw e c, w)
      end
  | _, _ => (PayloadChannel.pc_receive c data, w)
  end.

(** [sendRtcp] of a DirectTransport; it may throw. *)
Definition send_rtcp (rtcpPacket : message) (t : loc) (w : world) : world :=
  match transports w !! t with
  | Some tr =>
      match t_class tr, TransportEvents.sendRtcp rtcpPacket (mkEndpoint tr true no_calls) with
      | DirectTransport, Ok es => record_all (Otransport t) es w
      | _, _ => w
      end
  | None => w
  end.

(** ** They change nothing *)

Lemma payload_effects_quiet o event data payload w es :
  payload_effects o event data payload w = Ok es -> all_quiet es.
Proof.
  destruct o as [l|l|t|r|s|k]; simpl; try (intros [= <-]; quiet_tac).
  - destruct (n_child <$> children w !! l) as [[p|c|p|c]|]; try (intros [= <-]; quiet_tac).
    + unfold Consumer.on_payload_notification. repeat case_match; intros [= <-]; quiet_tac.
    + unfold DataConsumer.on_payload_notification. intros H. repeat case_match; try done; injection H as <-; quiet_tac.
  - destruct (transports w !! t); [|intros [= <-]; quiet_tac].
    unfold TransportEvents.on_payload. case_match; intros [= <-]; quiet_tac.
Qed.

Lemma payload_notify_alike o event data payload w : alike w (payload_notify o event data payload w).1.
Proof.
  unfold payload_notify. destruct (payload_effects o event data payload w) as [es|e] eqn:He; [|apply alike_refl].
  by eapply record_all_alike, payload_effects_quiet.
Qed.

Lemma payload_notify_all_steps os event data payload w :
  rtc (fun w w' => exists o, w' = (payload_notify o event data payload w).1) w (payload_notify_all os event data payload w).1.
Proof.
  revert w. induction os as [|o os IH]; intros w; simpl; [done|].
  eapply rtc_l; [by exists o|]. destruct (payload_notify o event data payload w) as [w1 [e|]]; [done|apply IH].
Qed.

Lemma send_rtcp_alike rtcpPacket t w : alike w (send_rtcp rtcpPacket t w).
Proof.
  unfold send_rtcp. destruct (transports w !! t) as [tr|]; [|apply alike_refl].
  destruct (t_class tr); try apply alike_refl. destruct rtcpPacket; simpl; try apply alike_refl.
  by apply (record_alike (Otransport t)).
Qed.

Lemma payload_notify_all_alike os event data payload w : alike w (payload_notify_all os event data payload w).1.
Proof.
  revert w. induction os as [|o os IH]; intros w; simpl; [apply alike_refl|].
  pose proof (payload_notify_alike o event data payload w) as Ho.
  destruct (payload_notify o event data payload w) as [w1 [e|]]; [done|]. eapply alike_trans; [exact Ho|apply IH].
Qed.

Lemma receive_into_alike `{Channel.JSON} k st data : alike st.2 (receive_into k st data).2.
Proof.
  destruct st as [c w]. unfold receive_into.
  destruct (PayloadChannel.pc_uncaught c), (PayloadChannel.ongoingNotification c) as [n|]; try apply alike_refl.
  pose proof (payload_notify_all_alike (payload_subscribers k (PayloadChannel.pn_targetId n) w)
    (event_name (PayloadChannel.pn_event n)) (PayloadChannel.pn_data n) data w) as Ha.
  unfold deliver_payload. by destruct (payload_notify_all _ _ _ _ _) as [w1 [e|]].
Qed.

(** ** What is told *)

Definition add_log (es : list (obj * effect)) (w : world) : world :=
  mkWorld (children w) (observers w) (transports w) (routers w) (servers w) (workers w)
    (subscriptions w) (log w ++ es).

Lemma add_log_nil w : add_log [] w = w.
Proof. destruct w. unfold add_log. simpl. by rewrite app_nil_r. Qed.

Lemma add_log_app es es' w : add_log (es ++ es') w = add_log es' (add_log es w).
Proof. unfold add_log. simpl. by rewrite app_assoc. Qed.

Lemma record_all_add o es w : record_all o es w = add_log (map (pair o) es) w.
Proof.
  revert w. induction es as [|e es IH]; intros w; simpl; [by rewrite add_log_nil|].
  rewrite IH. exact (eq_sym (add_log_app [(o, e)] (map (pair o) es) w)).
Qed.

Definition told_by (n : PayloadChannel.payload_notification) (payload : buffer) (w : world) (o : obj) :
    list (obj * effect) :=
  match payload_effects o (event_name (PayloadChannel.pn_event n)) (PayloadChannel.pn_data n) payload w with
  | Ok es => map (pair o) es
  | Err _ => []
  end.

Definition told (k : loc) (w : world) (n : PayloadChannel.payload_notification) (payload : buffer) :
    list (obj * effect) :=
  concat (map (told_by n payload w) (payload_subscribers k (PayloadChannel.pn_targetId n) w)).

(** Notifications no listener throws at: a message carries data. *)
Definition harmless (n : PayloadChannel.payload_notification) : Prop :=
  event_name (PayloadChannel.pn_event n) = "message" ->
  PayloadChannel.pn_data n <> VUndef /\ PayloadChannel.pn_data n <> VNull.

Lemma harmless_effects n o payload w :
  harmless n ->
  exists es, payload_effects o (event_name (PayloadChannel.pn_event n)) (PayloadChannel.pn_data n) payload w = Ok es.
Proof.
  intros Hn. destruct o as [l|l|t|r|s|k]; simpl; try (by eexists).
  - destruct (n_child <$> children w !! l) as [[p|c|p|c]|]; try (by eexists).
    unfold DataConsumer.on_payload_notification. unfold harmless in Hn.
    destruct (String.eqb_spec (event_name (PayloadChannel.pn_event n)) "message") as [He|]; [|by eexists].
    destruct (Hn He) as [H1 H2]. destruct (DataConsumer.closed c); [by eexists|].
    destruct (PayloadChannel.pn_data n); try done; by eexists.
  - destruct (transports w !! t); by eexists.
Qed.

Lemma deliver_payload_told k n payload w :
  harmless n -> deliver_payload k n payload w = (add_log (told k w n payload) w, None).
Proof.
  intros Hn. unfold deliver_payload, told. generalize (payload_subscribers k (PayloadChannel.pn_targetId n) w) as os.
  intros os.
  enough (forall es, payload_notify_all os (event_name (PayloadChannel.pn_event n)) (PayloadChannel.pn_data n) payload
    (add_log es w) = (add_log (concat (map (told_by n payload w) os)) (add_log es w), None)) as He
    by (specialize (He []); by rewrite add_log_nil in He).
  induction os as [|o os IH]; intros es; simpl; [by rewrite add_log_nil|].
  destruct (harmless_effects n o payload w Hn) as [es' He].
  unfold payload_notify. change (payload_effects o (event_name (PayloadChannel.pn_event n)) (PayloadChannel.pn_data n)
    payload (add_log es w)) with (payload_effects o (event_name (PayloadChannel.pn_event n)) (PayloadChannel.pn_data n) payload w).
  unfold told_by at 1. rewrite He, record_all_add, <-add_log_app, IH. by rewrite <-!add_log_app, <-!app_assoc.
Qed.

(** Who tells something is open, and has the target id. *)
Lemma told_open k w n payload x e :
  tidy w -> (x, e) ∈ told k w n payload ->
  obj_key x w = Some (k, PayloadChannel.pn_targetId n) /\ obj_closed x w = false.
Proof.
  intros Hw Hin%list_elem_of_In%in_concat. destruct Hin as (es & Hes & Hx).
  apply in_map_iff in Hes as (o & <- & [Ho _]%filter_In). unfold told_by in Hx.
  destruct (payload_effects _ _ _ _ _); [|done]. apply in_map_iff in Hx as (e' & [= -> ->] & _).
  by apply (subscribers_open w), list_elem_of_In.
Qed.

(** The only object with the target id, when it listens. *)
Lemma told_alone k w n payload o :
  tidy w -> obj_key o w = Some (k, PayloadChannel.pn_targetId n) -> obj_closed o w = false ->
  payload_listens o w = true -> (forall o', obj_key o' w = Some (k, PayloadChannel.pn_targetId n) -> o' = o) ->
  told k w n payload = told_by n payload w o.
Proof.
  intros Hw Hk Ho Hp Hall. unfold told, payload_subscribers. rewrite (subscribers_alone w k _ o); try done.
  - simpl. rewrite Hp. simpl. by rewrite app_nil_r.
  - unfold payload_listens in Hp. destruct o as [l|l|t|r|s|k']; try done. simpl.
    destruct (children w !! l) as [nd|]; [|done]. by destruct (n_child nd).
Qed.
