(* ===== verification/WorldProps.v ===== *)
(** * Properties of the objects and their closing

    What holds in every state the application can bring about (the steps of
    World.v), an example of such a state, and three things that do not hold
    although a reader of the code might expect them. *)

From S2P Require Import Prelude Js RtpParameters Framing Events TransportState World WorldSpec Registry WorldInv Closing Cascade ClosingLog Lifecycle.
From S2P Require Producer Consumer DataProducer DataConsumer RtpObserver.

(** ** An example

    A worker, a router, a WebRtcServer, a WebRtcTransport that uses it, an
    RtpObserver, a producer and a data consumer. *)

Definition no_rtpParameters : RtpParameters :=
  mkRtpParameters None [] [] [] (mkRtcpParameters None true None).

Definition demo_router : world :=
  createWebRtcServer_done 0 0 "server"
    (createRouter_done 0 0 "router" (mkRtpCapabilities [] [])
       (set_workers (insert 0 (mkWorker false false false [] [])) empty_world)).

Definition demo_transport : world :=
  createRtpObserver_done 0 0 RtpObserver.AudioLevelObserver "observer"
    (createTransport_done 0 0 WebRtcTransport (Some 0) "transport" [] demo_router).

Definition demo : world :=
  consumeData_done 1 0 "dataConsumer" "transport" "dataProducer" "sctp" VUndef "" "" (Some 0)
    (produce_done 0 0 "producer" "transport" Kaudio "simple" no_rtpParameters no_rtpParameters false
       demo_transport).

Lemma demo_empty {V} (l : loc) (x : V) : (∅ : gmap loc V) !! l = Some x -> False.
Proof. by rewrite lookup_empty. Qed.

Lemma demo_router_reachable : reachable demo_router.
Proof.
  apply (reachable_step (createRouter_done 0 0 "router" (mkRtpCapabilities [] [])
    (set_workers (insert 0 (mkWorker false false false [] [])) empty_world))); [|by eapply step_server].
  apply (reachable_step (set_workers (insert 0 (mkWorker false false false [] [])) empty_world));
    [|by eapply step_router].
  apply (reachable_step empty_world); [apply reachable_empty|by apply step_worker].
Qed.

Lemma demo_transport_reachable : reachable demo_transport.
Proof.
  apply (reachable_step (createTransport_done 0 0 WebRtcTransport (Some 0) "transport" [] demo_router)).
  - apply (reachable_step demo_router); [exact demo_router_reachable|].
    eapply step_transport; try reflexivity; [by eexists|]. by intros t tr Ht%demo_empty.
  - eapply step_observer; try reflexivity. by intros l o Hl%demo_empty.
Qed.

Lemma demo_reachable : reachable demo.
Proof.
  apply (reachable_step (produce_done 0 0 "producer" "transport" Kaudio "simple" no_rtpParameters
    no_rtpParameters false demo_transport)).
  - apply (reachable_step demo_transport); [exact demo_transport_reachable|].
    eapply step_child; try reflexivity. by intros l n tr Hl%demo_empty.
  - eapply step_child; try reflexivity. intros l n tr [[_ ->]|[_ Hl%demo_empty]]%insert_inv; done.
Qed.

(** C13: the maps of the objects are right at all times: in every reachable state
    the maps of a transport hold, under their ids, exactly its open producers,
    consumers, data producers and data consumers; the maps of a router exactly
    its open transports and RtpObservers, the sets of a worker exactly its open
    routers and WebRtcServers; a WebRtcServer has at least its open transports. *)
Theorem maps_hold_open_objects w :
  reachable w ->
  (forall t tr k id l, transports w !! t = Some tr ->
     (id, l) ∈ t_map k tr <->
     exists n, children w !! l = Some n /\ child_closed (n_child n) = false /\ n_transport n = t /\
       kind_of (n_child n) = k /\ child_id (n_child n) = id) /\
  (forall r ro id t, routers w !! r = Some ro ->
     (id, t) ∈ r_transports ro <->
     exists tr, transports w !! t = Some tr /\ t_closed tr = false /\ t_router tr = r /\ t_id tr = id) /\
  (forall r ro id l, routers w !! r = Some ro ->
     (id, l) ∈ r_rtpObservers ro <->
     exists o, observers w !! l = Some o /\ RtpObserver.closed o.1 = false /\ o.2 = r /\
       RtpObserver.rtpObserverId o.1 = id) /\
  (forall k wk r, workers w !! k = Some wk ->
     r ∈ w_routers wk <->
     exists ro, routers w !! r = Some ro /\ r_closed ro = false /\ r_worker ro = k) /\
  (forall k wk s, workers w !! k = Some wk ->
     s ∈ w_servers wk <->
     exists sv, servers w !! s = Some sv /\ s_closed sv = false /\ s_worker sv = k) /\
  (forall s sv t tr, servers w !! s = Some sv -> transports w !! t = Some tr ->
     t_server tr = Some s -> t_closed tr = false -> (t_id tr, t) ∈ s_transports sv).
Proof.
  intros Hw%reachable_consistent. pose proof (inv_static _ _ _ Hw) as Hst. split_and!.
  - intros t tr k id l Ht. by apply child_inv_exact with (ts := transports w); [apply Hw|].
  - intros r ro id t Hr. rewrite (registered_filed t_id (fun t => none (Otransport t)) (fun r => none (Orouter r)) (transports w) (routers w) r ro r_transports id t);
      [|by intros ? []|done|by eapply st_transports|apply Hw|done]. simpl.
    split; intros (tr & ? & Ho & Hp & ?); exists tr; split_and!; try done; try congruence.
    + by apply negb_true_iff.
    + by rewrite Ho.
  - intros r ro id l Hr. rewrite (registered_filed observer_id (fun l => none (Oobserver l)) (fun r => none (Orouter r)) (observers w) (routers w) r ro r_rtpObservers id l);
      [|by intros ? []|done|by eapply st_observers|apply Hw|done]. simpl. unfold observer_open.
    split; intros (o & ? & Ho & Hp & ?); exists o; split_and!; try done; try congruence.
    + by apply negb_true_iff.
    + by rewrite Ho.
  - intros k wk r Hk. pose proof (registered_exact _ _ _ _ k wk r (fun x (H : none (Orouter x)) => H) (inv_routers _ _ _ Hw) Hk) as He.
    simpl in He. rewrite He. clear He.
    split; intros (ro & ? & Ho & Hp); exists ro; split_and!; try done; try congruence.
    + by apply negb_true_iff.
    + by rewrite Ho.
  - intros k wk s Hk. pose proof (registered_exact _ _ _ _ k wk s (fun x (H : none (Oserver x)) => H) (inv_servers _ _ _ Hw) Hk) as He.
    simpl in He. rewrite He. clear He.
    split; intros (sv & ? & Ho & Hp); exists sv; split_and!; try done; try congruence.
    + by apply negb_true_iff.
    + by rewrite Ho.
  - intros s sv t tr Hs Ht Hts Ho.
    destruct (rg_has _ _ _ _ (inv_handled _ _ _ Hw) t tr s Ht) as (sv' & Hsv' & Hin); [by simpl; rewrite Ho|done|].
    rewrite Hs in Hsv'. injection Hsv' as <-. simpl in Hin. apply elem_of_jvals in Hin as [id Hin].
    destruct (st_handled _ Hst _ _ Hs _ _ Hin) as (tr' & Ht' & <-). congruence.
Qed.

Lemma maps_hold_open_objects_witness :
  exists tr, transports demo !! 0 = Some tr /\ ("dataConsumer", 1) ∈ t_map KDataConsumer tr.
Proof.
  destruct (maps_hold_open_objects demo demo_reachable) as (Hmap & _).
  eexists. split; [vm_compute; reflexivity|]. apply (Hmap 0); [vm_compute; reflexivity|].
  eexists. split; [vm_compute; reflexivity|]. split_and!; reflexivity.
Defined.

(** C2: closing an object (a child, an RtpObserver, a transport, a router, a
    WebRtcServer, a worker, also one that died) closes it and everything below
    it, and nothing else. *)
Theorem closing_exact w o f x :
  reachable w -> closing o f -> exists_obj o w ->
  obj_closed x (f w) = true <-> obj_closed x w = true \/ below w x o.
Proof.
  intros Hw%reachable_consistent Hf Hex.
  destruct (closing_keeps o f w Hw Hf) as (Hi & He & Hc). split.
  - intros Hx. destruct (en_closed _ _ _ He x) as [Heq|[? _]]; [left; congruence|by right].
  - intros [Hx|Hb]; [by eapply ends_closed|].
    eapply (below_closed _ _ o Hi); [by eapply below_ends|by apply Hc].
Qed.

Lemma closing_exact_witness :
  obj_closed (Ochild 1) (server_close 0 demo) = true /\ ~ below demo (Oobserver 0) (Oserver 0).
Proof.
  split.
  - apply (closing_exact demo (Oserver 0) (server_close 0) (Ochild 1)); [exact demo_reachable|constructor|by eexists|].
    right. eapply below_owner; [eexists; split; [vm_compute; reflexivity|reflexivity]|].
    eapply below_owner; [|constructor]. eexists. split; [vm_compute; reflexivity|]. right. by eexists.
  - intros Hb.
    assert (obj_closed (Oobserver 0) (server_close 0 demo) = true) as H.
    { apply (closing_exact demo (Oserver 0) (server_close 0) (Oobserver 0)); [exact demo_reachable|constructor|by eexists|by right]. }
    vm_compute in H. discriminate H.
Defined.

(** C3: every object reports that it closes exactly once: in every state that can
    be reached, the observer of a closed object (worker, WebRtcServer, router,
    transport, RtpObserver, producer, consumer, data producer or data consumer)
    has emitted 'close' once, whichever method closed it and however many of
    them came together, and the observer of an open one never. *)
Theorem closing_reported_once w x :
  reachable w -> reports x w = if obj_closed x w then 1 else 0.
Proof.
  intros Hr. pose proof (reachable_due w x Hr) as Hd. unfold due in Hd.
  destruct (obj_closed x w); simpl in Hd; lia.
Qed.

Lemma closing_reported_once_witness :
  map (fun x => reports x (worker_close 0 (server_close 0 demo)))
    [Ochild 0; Ochild 1; Oobserver 0; Otransport 0; Orouter 0; Oserver 0; Oworker 0] = [1; 1; 1; 1; 1; 1; 1] /\
  reports (Oobserver 0) (server_close 0 demo) = 0.
Proof.
  split.
  - cbn [map]. rewrite !closing_reported_once; [vm_compute; reflexivity|..];
      (eapply reachable_step; [eapply reachable_step; [exact demo_reachable|apply step_server_close]|apply step_worker_close]).
  - rewrite closing_reported_once; [vm_compute; reflexivity|].
    eapply reachable_step; [exact demo_reachable|apply step_server_close].
Defined.

(** An object is never open below a closed one: an open child has an open
    transport, an open transport an open router and, if it has one, an open
    WebRtcServer, and so on up to the worker. *)
Theorem open_below_open w x o :
  reachable w -> below w x o -> obj_closed x w = false -> obj_closed o w = false.
Proof.
  intros Hw%reachable_consistent Hb Hx. destruct (obj_closed o w) eqn:Ho; [|done].
  pose proof (below_closed _ _ _ Hw Hb Ho). congruence.
Qed.

Lemma open_below_open_witness : obj_closed (Orouter 0) demo = false.
Proof.
  apply (open_below_open demo (Ochild 0)); [exact demo_reachable| |vm_compute; reflexivity].
  eapply below_owner; [eexists; split; [vm_compute; reflexivity|reflexivity]|].
  eapply below_owner; [|constructor]. eexists. split; [vm_compute; reflexivity|]. by left.
Defined.

(** C37: [getProducerById] and [getDataProducerById]: an open (data) producer is
    found by its id in the map of the router of its transport, and whatever is
    found under an id is a (data) producer of that router with that id. *)
Theorem producers_found w r ro k :
  reachable w -> routers w !! r = Some ro -> listed k ->
  (forall l n tr, children w !! l = Some n -> child_closed (n_child n) = false -> kind_of (n_child n) = k ->
     transports w !! n_transport n = Some tr -> t_router tr = r ->
     jget (child_id (n_child n)) (r_map k ro) = Some l) /\
  (forall id l, jget id (r_map k ro) = Some l ->
     exists n tr, children w !! l = Some n /\ kind_of (n_child n) = k /\ child_id (n_child n) = id /\
       transports w !! n_transport n = Some tr /\ t_router tr = r).
Proof.
  intros Hw%reachable_consistent Hr Hk. split.
  - intros l n tr Hl Ho Hkn Ht Htr.
    destruct (lk_found _ _ _ (inv_lookup _ _ _ Hw) l n tr Hl Ho) as (ro' & Hro' & Hg); [by rewrite Hkn|done|].
    congruence.
  - intros id l Hg. apply (lk_entry _ _ _ (inv_lookup _ _ _ Hw) r ro k id l Hr), jget_Some_elem, Hg.
Qed.

Lemma producers_found_witness :
  exists ro, routers demo !! 0 = Some ro /\ jget "producer" (r_map KProducer ro) = Some 0.
Proof.
  eexists. split; [vm_compute; reflexivity|].
  eapply (proj1 (producers_found demo 0 _ KProducer demo_reachable ltac:(vm_compute; reflexivity) ltac:(by left)) 0
    (mkChildNode (CProducer (Producer.new_producer "producer" "transport" Kaudio "simple" no_rtpParameters
       no_rtpParameters false)) 0 None)); vm_compute; reflexivity.
Defined.

(** What is found may be closed: when a WebRtcServer closes, the transports
    that use it close their producers without telling the router, whose map
    keeps them while the router is open. *)
Theorem server_close_leaves_producers :
  reachable demo /\
  let w := server_close 0 demo in
  exists ro n, routers w !! 0 = Some ro /\ r_closed ro = false /\
    jget "producer" (r_map KProducer ro) = Some 0 /\
    children w !! 0 = Some n /\ child_closed (n_child n) = true.
Proof. split; [exact demo_reachable|]. vm_compute. do 2 eexists. split_and!; reflexivity. Qed.

(** The [await] of [produce] and [consume]: a transport that is closed while
    the worker answers gets the new object nonetheless, which is open, is in its
    map, and is not closed by closing the transport again. *)
Theorem late_child_stays_open w l t tr c streamId :
  transports w !! t = Some tr -> t_closed tr = true -> child_closed c = false ->
  let w' := transport_close t (add_child l t c streamId w) in
  exists tr', transports w' !! t = Some tr' /\ t_closed tr' = true /\
    jget (child_id c) (t_map (kind_of c) tr') = Some l /\ obj_closed (Ochild l) w' = false.
Proof.
  intros Ht Hc Ho. cbv zeta.
  destruct (add_child_spec l t c streamId w tr Ht) as (Ec & Et & _).
  set (tr' := update_t_map (kind_of c) (jset (child_id c) l) tr).
  assert (transports (add_child l t c streamId w) !! t = Some tr') as Ht' by (by rewrite Et, lookup_alter_eq, Ht).
  rewrite transport_close_noop by (intros tr1; rewrite Ht'; by intros [= <-]).
  exists tr'. split_and!; [done|done| |].
  - unfold tr'. rewrite t_map_update, decide_True by done. apply jget_jset_eq.
  - unfold obj_closed. by rewrite Ec, lookup_insert_eq.
Qed.

Lemma late_child_stays_open_witness :
  obj_closed (Ochild 2)
    (transport_close 0 (produce_done 2 0 "late" "transport" Kaudio "simple" no_rtpParameters no_rtpParameters
       false (transport_close 0 demo))) = false.
Proof.
  destruct (late_child_stays_open (transport_close 0 demo) 2 0
    (shut (mkTransport "transport" WebRtcTransport 0 (Some 0) false [] [] [] [] [] None 0 no_sctp_ids))
    (CProducer (Producer.new_producer "late" "transport" Kaudio "simple" no_rtpParameters no_rtpParameters false))
    None) as (tr & _ & _ & _ & H); [vm_compute; reflexivity|reflexivity|reflexivity|exact H].
Defined.
