(* ===== verification/ListenerProps.v ===== *)
(** * Properties of the subscriptions

    Which objects the notifications of a worker reach, in every state of World.v
    that can be reached, and what becomes of two objects of one worker that have
    the same id, as a producer and its pipe producer have. *)

From S2P Require Import Prelude Js RtpParameters Framing Events TransportState World WorldSpec Registry WorldInv Closing Cascade ClosingLog Lifecycle Listeners WorldProps.
From S2P Require Producer Consumer DataProducer DataConsumer RtpObserver.

(** C14: notifications go to open objects: whoever is subscribed to an id on the
    channel of a worker is an open object of this worker with this id, so that
    nobody is called after it has closed.  Conversely an open transport,
    RtpObserver, producer, consumer or data consumer is subscribed, unless an
    object of the same worker with the same id has closed. *)
Theorem notifications_reach_open_objects w o k id :
  reachable w ->
  ((k, id, o) ∈ subscriptions w -> obj_key o w = Some (k, id) /\ obj_closed o w = false) /\
  (obj_key o w = Some (k, id) -> obj_closed o w = false -> listens o w = true ->
     (forall o', obj_key o' w = Some (k, id) -> obj_closed o' w = true -> o' = o) -> (k, id, o) ∈ subscriptions w).
Proof.
  intros [T1 T2 _]%reachable_tidy. split.
  - intros Hin. by destruct (T1 _ _ _ Hin) as (? & ? & _).
  - intros Hk Ho Hl Hno. destruct (T2 _ _ _ Hk Ho Hl) as [?|(o' & Hne & Hk' & Hc)]; [done|].
    destruct Hne. by apply Hno.
Qed.

(** Nothing has closed, by evaluation. *)
Definition nothing_closed (w : world) : bool :=
  forallb (fun x : loc * child_node => negb (child_closed (n_child x.2))) (map_to_list (children w)) &&
  forallb (fun x : loc * (RtpObserver.rtpObserver * loc) => observer_open x.2) (map_to_list (observers w)) &&
  forallb (fun x : loc * transport => negb (t_closed x.2)) (map_to_list (transports w)).

Lemma forallb_map_to_list {V} (f : V -> bool) (m : gmap loc V) l v :
  forallb (fun x => f x.2) (map_to_list m) = true -> m !! l = Some v -> f v = true.
Proof.
  rewrite forallb_forall. intros H Hl. apply (H (l, v)). by apply list_elem_of_In, elem_of_map_to_list.
Qed.

Lemma nothing_closed_key w o key :
  nothing_closed w = true -> obj_key o w = Some key -> obj_closed o w = false.
Proof.
  intros [[H1 H2]%andb_prop H3]%andb_prop. destruct o as [l|l|t|r|s|k]; simpl; try done.
  - destruct (children w !! l) eqn:Hl; [|done]. intros _. apply negb_true_iff. exact (forallb_map_to_list (fun n => negb (child_closed (n_child n))) _ _ _ H1 Hl).
  - destruct (observers w !! l) eqn:Hl; [|done]. intros _. by rewrite (forallb_map_to_list observer_open _ _ _ H2 Hl).
  - destruct (transports w !! t) eqn:Hl; [|done]. intros _. apply negb_true_iff. exact (forallb_map_to_list (fun tr => negb (t_closed tr)) _ _ _ H3 Hl).
Qed.

Lemma notifications_reach_open_objects_witness :
  (0, "producer", Ochild 0) ∈ subscriptions demo /\ obj_key (Oobserver 0) demo = Some (0, "observer").
Proof.
  assert (nothing_closed demo = true) as Hno by (vm_compute; reflexivity). split.
  - apply (notifications_reach_open_objects demo (Ochild 0) 0 "producer"); [exact demo_reachable|vm_compute; reflexivity..|].
    intros o' Hk Hc. rewrite (nothing_closed_key _ _ _ Hno Hk) in Hc. discriminate Hc.
  - apply (notifications_reach_open_objects demo (Oobserver 0) 0 "observer"); [exact demo_reachable|].
    apply list_elem_of_In. vm_compute. tauto.
Defined.

(** ** Two producers of one worker with the same id *)

Lemma below_child_only w x l : below w x (Ochild l) -> x = Ochild l.
Proof.
  intros Hb. remember (Ochild l) as o eqn:Ho. induction Hb as [|x p o Hx _ IH]; [done|].
  rewrite (IH Ho), Ho in Hx. clear IH.
  destruct x; simpl in Hx; try (by destruct Hx as (? & _ & [=])); [|done].
  by destruct Hx as (? & _ & [[=]|(? & _ & [=])]).
Qed.

Lemma run_effects_subscriptions l wk es w :
  forallb (fun e => negb (is_unsubscribe e)) es = true ->
  subscriptions (foldl (run_effect l wk) w es) = subscriptions w.
Proof.
  revert w. induction es as [|e es IH]; intros w Hes; simpl in *; [done|]. apply andb_prop in Hes as [He Hes].
  rewrite IH by done. destruct e; simpl in *; try done. unfold on_child_event. simpl.
  destruct (children w !! l) as [n|]; [|done]. destruct (removing_event _ _); [|done].
  unfold tell_router_closed. destruct (close_event _); [|done]. simpl. by case_match.
Qed.

Lemma run_closing_subscriptions l wk id es w :
  forallb (fun e => negb (is_unsubscribe e)) es = true ->
  subscriptions (foldl (run_effect l wk) w (Unsubscribe id :: es)) = subscriptions (unsubscribe wk id w).
Proof. intros Hes. exact (run_effects_subscriptions l wk es _ Hes). Qed.

Lemma run_effects_children l wk es w : children (foldl (run_effect l wk) w es) = children w.
Proof.
  revert w. induction es as [|e es IH]; intros w; simpl; [done|]. rewrite IH.
  destruct e; try done. simpl. unfold on_child_event. simpl.
  destruct (children w !! l) as [n|]; [|done]. destruct (removing_event _ _); [|done].
  unfold tell_router_closed. destruct (close_event _); [|done]. simpl. by case_match.
Qed.


(** A producer and its pipe producer on two routers of worker 0. *)
Definition demo_router2 : world := createRouter_done 1 0 "router2" (mkRtpCapabilities [] []) demo_transport.
Definition demo_pipe_transport : world := createTransport_done 1 1 PipeTransport None "pipe" [] demo_router2.
Definition demo_original : world :=
  produce_done 0 0 "producer" "transport" Kaudio "simple" no_rtpParameters no_rtpParameters false
    demo_pipe_transport.
Definition demo_piped : world :=
  produce_done 1 1 "producer" "pipe" Kaudio "pipe" no_rtpParameters no_rtpParameters false demo_original.

Lemma demo_piped_reachable : reachable demo_piped.
Proof.
  apply (reachable_step demo_original).
  - apply (reachable_step demo_pipe_transport).
    + apply (reachable_step demo_router2).
      * apply (reachable_step demo_transport); [exact demo_transport_reachable|].
        by eapply step_router.
      * eapply step_transport; [reflexivity|reflexivity|reflexivity|exact I|].
        intros t tr [[_ ->]|[_ Ht%demo_empty]]%insert_inv; [discriminate|done].
    + eapply step_child; [reflexivity..|]. by intros l n tr Hl%demo_empty.
  - eapply step_child; [reflexivity..|].
    intros l n tr [[_ ->]|[_ Hl%demo_empty]]%insert_inv; [|done].
    intros _ _ _ Ht. vm_compute in Ht. injection Ht as <-. discriminate.
Qed.

