(* ===== verification/WorkerProcess.v ===== *)
(** * The process of a worker

    From Worker.ts: the command line the constructor makes, its listeners on the
    child process and on the first notification, and [close]; from index.ts:
    [createWorker].  What the worker owns is in World.v; here its process is put
    beside it. *)

From S2P Require Import Prelude Js RtpParameters Framing Events TransportState World Closing Cascade Lifecycle TransportCalls.

(** ** The command line *)

(** [s.split(/\s+/)] of a string, as far as blanks, tabs and line ends go;
    [word] is the word that is read, backwards, and [blank] tells that the last
    character was white. *)
Definition is_white (c : Ascii.ascii) : bool :=
  let n := Ascii.nat_of_ascii c in (n =? 32) || (9 <=? n) && (n <=? 13).

Fixpoint split_white (blank : bool) (word : list Ascii.ascii) (s : list Ascii.ascii) : list string :=
  match s with
  | [] => [String.string_of_list_ascii (rev word)]
  | c :: s =>
      if is_white c then
        if blank then split_white true word s
        else String.string_of_list_ascii (rev word) :: split_white true [] s
      else split_white false (c :: word) s
  end.

Definition split_options (s : string) : list string := split_white false [] (String.list_ascii_of_string s).

(** [--name=value], when the value is a string that is not empty. *)
Definition string_arg (name : string) (v : val) : list string :=
  match v with
  | VStr s => if truthy v then ["--" +:+ name +:+ "=" +:+ s] else []
  | _ => []
  end.

Definition number_arg (name : string) (v : val) : list string :=
  match v with
  | VNum n => ["--" +:+ name +:+ "=" +:+ js_string v]
  | _ => []
  end.

Definition tag_args (v : val) : list string :=
  match v with
  | VArr tags _ => tags ≫= string_arg "logTag"
  | _ => []
  end.

(** A variable of the environment that is set to the empty string counts as not
    set. *)
Definition given (v : option string) : option string :=
  match v with Some s => if String.eqb s "" then None else Some s | None => None end.

Definition spawn_command (env : string -> option string) (workerBin : string) (settings : val) :
    string * list string :=
  let valgrind := bool_decide (env "MEDIASOUP_USE_VALGRIND" = Some "true") in
  let bin := if valgrind then default "valgrind" (given (env "MEDIASOUP_VALGRIND_BIN")) else workerBin in
  let first :=
    if valgrind then
      match given (env "MEDIASOUP_VALGRIND_OPTIONS") with Some s => split_options s | None => [] end ++ [workerBin]
    else [] in
  (bin, first ++ string_arg "logLevel" (prop "logLevel" settings) ++ tag_args (prop "logTags" settings) ++
        number_arg "rtcMinPort" (prop "rtcMinPort" settings) ++
        number_arg "rtcMaxPort" (prop "rtcMaxPort" settings) ++
        string_arg "dtlsCertificateFile" (prop "dtlsCertificateFile" settings) ++
        string_arg "dtlsPrivateKeyFile" (prop "dtlsPrivateKeyFile" settings) ++
        string_arg "libwebrtcFieldTrials" (prop "libwebrtcFieldTrials" settings)).

(** ** The process *)

(** What [createWorker] waits for: '@success' or '@failure'. *)
Inductive outcome : Type := Success | Failure (e : error).

(** [listening]: the listener on the first notification is there; [attached]: the
    listeners on the child process; [signals]: how often it was killed. *)
Record process : Type := mkProcess {
  child : bool;
  attached : bool;
  listening : bool;
  spawnDone : bool;
  outcomes : list outcome;
  signals : nat
}.

Definition spawned : process := mkProcess true true true false [] 0.

Definition lose_child (p : process) : process :=
  mkProcess false (attached p) (listening p) (spawnDone p) (outcomes p) (signals p).
Definition stop_listening (p : process) : process :=
  mkProcess (child p) (attached p) false (spawnDone p) (outcomes p) (signals p).
Definition decided (o : outcome) (p : process) : process :=
  mkProcess (child p) (attached p) (listening p) true (outcomes p ++ [o]) (signals p).
Definition kill (p : process) : process :=
  mkProcess false false (listening p) (spawnDone p) (outcomes p) (S (signals p)).

Definition worker_open (k : loc) (w : world) : bool :=
  match workers w !! k with Some wk => negb (w_closed wk) | None => false end.

(** [close]: the process is killed, unless it is gone. *)
Definition process_close (k : loc) (s : process * world) : process * world :=
  let '(p, w) := s in
  if worker_open k w then (if child p then kill p else p, worker_close k w) else (p, w).

(** The listener on the first notification of the worker. *)
Definition on_first_notification (event : string) (p : process) : process :=
  if listening p then
    let p := stop_listening p in
    if negb (spawnDone p) && String.eqb event "running" then decided Success p else p
  else p.

(** The end of the process with an error, before or after it was running. *)
Definition process_lost (k : loc) (before : error) (after : string) (s : process * world) : process * world :=
  let '(p, w) := s in
  let p := lose_child p in
  if spawnDone p then (p, worker_died after k w)
  else
    let '(p, w) := process_close k (p, w) in
    (decided (Failure before) p, w).

Definition exit_message (pid : string) (code signal : val) : string :=
  "[pid:" +:+ pid +:+ ", code:" +:+ js_string code +:+ ", signal:" +:+ js_string signal +:+ "]".

Definition on_exit (k : loc) (pid : string) (code signal : val) (s : process * world) : process * world :=
  let message := exit_message pid code signal in
  process_lost k (if bool_decide (code = VNum 42) then TypeError "wrong settings" else PlainError message)
    message s.

Definition on_error (k : loc) (message : string) (s : process * world) : process * world :=
  process_lost k (PlainError message) message s.

Inductive process_event : Type :=
| FirstNotification (event : string)
| ProcessExit (code signal : val)
| ProcessError (message : string)
| CloseCall.

(** Listeners that are removed are not called. *)
Definition process_handle (k : loc) (pid : string) (e : process_event) (s : process * world) : process * world :=
  match e with
  | FirstNotification event => (on_first_notification event (fst s), snd s)
  | ProcessExit code signal => if attached (fst s) then on_exit k pid code signal s else s
  | ProcessError message => if attached (fst s) then on_error k message s else s
  | CloseCall => process_close k s
  end.

(** The process and the world: events of the process, and whatever else happens
    in the world but a closing of the worker by other means. *)
Inductive process_step (k : loc) (pid : string) : process * world -> process * world -> Prop :=
| process_handles e s : process_step k pid s (process_handle k pid e s)
| process_world p w w' :
    step w w' -> w_closed <$> workers w' !! k = w_closed <$> workers w !! k -> process_step k pid (p, w) (p, w').

Definition process_run (k : loc) (pid : string) : process * world -> process * world -> Prop :=
  rtc (process_step k pid).

(** ** createWorker *)

(** The settings with the defaults of [createWorker]. *)
Definition worker_settings (options : val) : result val :=
  options ← destructure (by_default (VObj []) options);
  throw_if (bad_appData (prop "appData" options)) appData_error;;
  Ok (VObj [("logLevel", by_default (VStr "error") (prop "logLevel" options)); ("logTags", prop "logTags" options);
            ("rtcMinPort", by_default (VNum 10000) (prop "rtcMinPort" options));
            ("rtcMaxPort", by_default (VNum 59999) (prop "rtcMaxPort" options));
            ("dtlsCertificateFile", prop "dtlsCertificateFile" options);
            ("dtlsPrivateKeyFile", prop "dtlsPrivateKeyFile" options);
            ("libwebrtcFieldTrials", prop "libwebrtcFieldTrials" options);
            ("appData", prop "appData" options)]).

(** The promise of [createWorker] takes the first event. *)
Definition created_worker (p : process) : option (result unit) :=
  match outcomes p with
  | [] => None
  | Success :: _ => Some (Ok tt)
  | Failure e :: _ => Some (Err e)
  end.

Example default_command :
  (settings ← worker_settings (VObj [("logTags", VArr [VStr "ice"; VNum 1; VStr ""; VStr "dtls"] [])]);
   Ok (spawn_command (fun _ => None) "mediasoup-worker" settings)) =
  Ok ("mediasoup-worker", ["--logLevel=error"; "--logTag=ice"; "--logTag=dtls"; "--rtcMinPort=10000"; "--rtcMaxPort=59999"]).
Proof. vm_compute. reflexivity. Qed.

Example valgrind_command :
  spawn_command (fun x => if String.eqb x "MEDIASOUP_USE_VALGRIND" then Some "true"
                          else if String.eqb x "MEDIASOUP_VALGRIND_OPTIONS" then Some "--leak-check=full  --tool=x" else None)
    "mediasoup-worker" (VObj []) =
  ("valgrind", ["--leak-check=full"; "--tool=x"; "mediasoup-worker"]).
Proof. vm_compute. reflexivity. Qed.

(** ** The output of the process *)

Definition newline : Ascii.ascii := Ascii.ascii_of_nat 10.

(** [s.split('\n')] *)
Fixpoint split_lines (word : list Ascii.ascii) (s : list Ascii.ascii) : list string :=
  match s with
  | [] => [String.string_of_list_ascii (rev word)]
  | c :: s =>
      if bool_decide (c = newline) then String.string_of_list_ascii (rev word) :: split_lines [] s
      else split_lines (c :: word) s
  end.

(** The listeners on the data of its stdout and stderr, [stream]: what a chunk of
    text, decoded, makes them log. *)
Definition on_output (stream : string) (text : string) : list string :=
  map (fun line => "(" +:+ stream +:+ ") " +:+ line)
    (filter (fun line => line <> "") (split_lines [] (String.list_ascii_of_string text))).

Lemma split_lines_app word l s :
  newline ∉ l -> split_lines word (l ++ newline :: s) = String.string_of_list_ascii (rev word ++ l) :: split_lines [] s.
Proof.
  revert word. induction l as [|c l IH]; intros word Hl; simpl.
  - by rewrite app_nil_r.
  - apply not_elem_of_cons in Hl as [Hc Hl]. rewrite bool_decide_eq_false_2 by congruence.
    rewrite IH by done. simpl. by rewrite <-app_assoc.
Qed.

(** Lines that are not empty, each with its end, are logged as they are. *)
Lemma on_output_lines (stream : string) (lines : list (list Ascii.ascii)) :
  (forall l, l ∈ lines -> l <> [] /\ newline ∉ l) ->
  on_output stream (String.string_of_list_ascii (concat (map (fun l => l ++ [newline]) lines))) =
  map (fun l => "(" +:+ stream +:+ ") " +:+ String.string_of_list_ascii l) lines.
Proof.
  unfold on_output. rewrite String.list_ascii_of_string_of_list_ascii. intros H.
  induction lines as [|l lines IH]; [done|]. simpl.
  destruct (H l ltac:(by left)) as [Hne Hl].
  rewrite <-app_assoc. simpl. rewrite split_lines_app by done. simpl.
  rewrite filter_cons_True by by destruct l. simpl. f_equal. apply IH. intros l' ?. apply H. by right.
Qed.

(** ** Invariant *)

Record process_inv (k : loc) (s : process * world) : Prop := mkProcessInv {
  pi_reachable : reachable (snd s);
  pi_exists : is_Some (workers (snd s) !! k);
  pi_gone : child (fst s) = false -> obj_closed (Oworker k) (snd s) = true;
  pi_outcomes : outcomes (fst s) = [] /\ spawnDone (fst s) = false \/
                exists o, outcomes (fst s) = [o] /\ spawnDone (fst s) = true;
  pi_failed : forall e, outcomes (fst s) = [Failure e] -> obj_closed (Oworker k) (snd s) = true;
  pi_signals : signals (fst s) <= 1 /\ (child (fst s) = true -> signals (fst s) = 0)
}.

Lemma worker_open_closed k w : is_Some (workers w !! k) -> worker_open k w = negb (obj_closed (Oworker k) w).
Proof. unfold worker_open. simpl. by intros [wk ->]. Qed.

Lemma reachable_worker_close k w :
  reachable w -> is_Some (workers w !! k) ->
  reachable (worker_close k w) /\ obj_closed (Oworker k) (worker_close k w) = true.
Proof.
  intros Hw Hk. split; [by eapply reachable_step; [|apply step_worker_close]|].
  by apply (closing_keeps (Oworker k)); [apply reachable_consistent|constructor|].
Qed.

Lemma reachable_worker_died message k w :
  reachable w -> is_Some (workers w !! k) ->
  reachable (worker_died message k w) /\ obj_closed (Oworker k) (worker_died message k w) = true.
Proof.
  intros Hw Hk. split; [by eapply reachable_step; [|apply step_worker_died]|].
  by apply (closing_keeps (Oworker k)); [apply reachable_consistent|constructor|].
Qed.

Lemma closed_exists k w : obj_closed (Oworker k) w = true -> is_Some (workers w !! k).
Proof. simpl. destruct (workers w !! k); [eauto|done]. Qed.

Lemma process_close_inv k s :
  process_inv k s -> process_inv k (process_close k s) /\
  obj_closed (Oworker k) (snd (process_close k s)) = true /\
  outcomes (fst (process_close k s)) = outcomes (fst s) /\ spawnDone (fst (process_close k s)) = spawnDone (fst s) /\
  (child (fst s) = false -> fst (process_close k s) = fst s).
Proof.
  destruct s as [p w]. intros [Hr Hk Hg Ho Hf Hs]. simpl in *. unfold process_close.
  rewrite worker_open_closed by done. destruct (obj_closed (Oworker k) w) eqn:Hc; simpl negb; cbv iota.
  { split_and!; try done. }
  destruct (reachable_worker_close k w Hr Hk) as [Hr' Hc'].
  pose proof (closed_exists _ _ Hc') as Hk'.
  destruct (child p) eqn:Hch; split_and!; try done; (split; cbn [fst snd] in *; try done; simpl; auto).
  - destruct Hs as [? Hs]. rewrite Hs by done. split; [lia|done].
  - split; [lia|by rewrite Hch].
Qed.

Lemma process_lost_inv k before after s :
  process_inv k s -> process_inv k (process_lost k before after s).
Proof.
  destruct s as [p w]. intros Hi. pose proof Hi as [Hr Hk Hg Ho Hf [Hs1 Hs2]]. simpl in *. unfold process_lost.
  change (spawnDone (lose_child p)) with (spawnDone p).
  destruct (spawnDone p) eqn:Hd.
  - destruct (reachable_worker_died after k w Hr Hk) as [Hr' Hc']. pose proof (closed_exists _ _ Hc') as Hk'.
    split; simpl; auto; [by rewrite Hd|by split].
  - destruct Ho as [[Ho _]|(o & _ & ?)]; [|congruence].
    unfold process_close. rewrite worker_open_closed by done. simpl child. cbv iota.
    assert (H : exists w1, (if negb (obj_closed (Oworker k) w) then (lose_child p, worker_close k w) else (lose_child p, w)) =
              (lose_child p, w1) /\ reachable w1 /\ obj_closed (Oworker k) w1 = true).
    { destruct (obj_closed (Oworker k) w) eqn:Hc; eexists; (split; [reflexivity|]); [done|].
      by apply reachable_worker_close. }
    destruct H as (w1 & -> & Hr1 & Hc1). pose proof (closed_exists _ _ Hc1) as Hk1.
    split; simpl; rewrite ?Ho; auto; [|by split].
    right. by exists (Failure before).
Qed.

Lemma process_step_inv k pid s s' : process_inv k s -> process_step k pid s s' -> process_inv k s'.
Proof.
  intros Hi Hst. revert Hi. destruct Hst as [e s1|p w w' Hw Ho]; intros Hi.
  - destruct e as [event|code signal|message|]; cbn [process_handle].
    + destruct s1 as [p w]. unfold on_first_notification. cbn [fst snd] in *.
      destruct (listening p); [|done]. destruct Hi as [Hr Hk Hg Hout Hf Hs]. simpl in *.
      assert (Hstop : process_inv k (stop_listening p, w)) by by split.
      destruct (spawnDone p) eqn:Hd; simpl; [exact Hstop|].
      destruct (String.eqb event "running"); [|exact Hstop].
      destruct Hout as [[Hout _]|(o & _ & ?)]; [|congruence].
      split; simpl; try done; rewrite Hout; [by right; exists Success|done].
    + destruct (attached (fst s1)); [|done]. by apply process_lost_inv.
    + destruct (attached (fst s1)); [|done]. by apply process_lost_inv.
    + by apply process_close_inv.
  - destruct Hi as [Hr Hk Hg Hout Hf Hs]. cbn [fst snd] in *.
    assert (Hr' : reachable w') by by eapply reachable_step.
    destruct Hk as [wk Hk]. simpl in *. rewrite Hk in *. simpl in Ho.
    destruct (workers w' !! k) as [wk'|] eqn:Hk'; [|done]. injection Ho as Ho.
    split; cbn [fst snd]; simpl; rewrite ?Hk', ?Ho; eauto.
Qed.

Lemma process_run_inv k pid s s' : process_inv k s -> process_run k pid s s' -> process_inv k s'.
Proof. intros H Hr. revert H. induction Hr as [|s1 s2 s3 Hs _ IH]; [done|]. intros H. by eapply IH, process_step_inv. Qed.

Lemma spawned_inv k w : reachable w -> is_Some (workers w !! k) -> process_inv k (spawned, w).
Proof. intros Hr Hk. split; simpl; try done; [by left|]. split; [lia|done]. Qed.

(** ** The property *)

(** C19: The life of a worker and its process, whatever events come in whatever
    order while the rest of the world goes on: '@success' or '@failure' is
    reported at most once, so [createWorker] settles once; the process is killed
    at most once; and when the process is gone (killed, ended or failed), or
    its start has failed, the worker is closed with every router, transport and
    other object below it. *)
Theorem worker_follows_process (k : loc) (pid : string) (w : world) (s : process * world) :
  reachable w -> is_Some (workers w !! k) -> process_run k pid (spawned, w) s ->
  length (outcomes (fst s)) <= 1 /\ signals (fst s) <= 1 /\
  (child (fst s) = false \/ (exists e, created_worker (fst s) = Some (Err e)) ->
   forall x, below (snd s) x (Oworker k) -> obj_closed x (snd s) = true).
Proof.
  intros Hw Hk Hrun.
  destruct (process_run_inv k pid _ s (spawned_inv k w Hw Hk) Hrun) as [Hr _ Hg Ho Hf [Hs _]].
  split_and!; [|done|].
  - destruct Ho as [[-> _]|(o & -> & _)]; simpl; lia.
  - intros Hlost x Hb. apply (below_closed (snd s) x (Oworker k)); [by apply reachable_consistent|done|].
    destruct Hlost as [?|[e He]]; [auto|]. unfold created_worker in He.
    destruct Ho as [[E _]|(o & E & _)]; rewrite E in He; [done|].
    destruct o; [done|]. injection He as ->. by apply (Hf e).
Qed.

Definition demo_world : world := set_workers (insert 0 (mkWorker false false false [] [])) empty_world.

Lemma worker_follows_process_witness :
  let s := process_handle 0 "77" (ProcessExit (VNum 1) VNull)
             (process_handle 0 "77" (FirstNotification "running") (spawned, demo_world)) in
  outcomes (fst s) = [Success] /\ obj_closed (Oworker 0) (snd s) = true.
Proof.
  intros s. split; [vm_compute; reflexivity|].
  refine (proj2 (proj2 (worker_follows_process 0 "77" demo_world s _ _ _)) _ (Oworker 0) _).
  - eapply reachable_step; [apply reachable_empty|]. by apply step_worker.
  - by eexists.
  - eapply rtc_l; [apply (process_handles 0 "77" (FirstNotification "running"))|].
    eapply rtc_l; [apply (process_handles 0 "77" (ProcessExit (VNum 1) VNull))|apply rtc_refl].
  - left. vm_compute. reflexivity.
  - constructor.
Defined.
