(* ===== verification/Session.v ===== *)
(** * Methods as calls in flight

    An application calls methods that check their arguments, send a request and
    wait: the creating methods of TransportCalls.v and RouterCalls.v, and those of
    Methods.v.  The system here is the store of World.v with the calls that wait
    for an answer: calls begin at any time, answers come in any order, and objects
    close in between.  It implements the steps of World.v, so that what holds in
    every reachable state there holds here. *)

From S2P Require Import Prelude Js RtpParameters Validate Ortc OrtcConsumer RequestBodies Framing Events TransportState World TransportCalls RouterCalls CallsSpec Closing Lifecycle Delivery Methods Listeners Payloads.
From S2P Require Producer Consumer DataProducer DataConsumer RtpObserver.

(** What is left of a method that waits for its answer, with the object it is a
    method of. *)
Inductive pending : Type :=
| Prouter (k : loc) (c : creatingRouter)
| Pserver (k : loc) (id : string)
| Ptransport (r : loc) (c : creatingTransport)
| Pobserver (r : loc) (c : creatingRtpObserver)
| Pproduce (t : loc) (c : producing)
| Pconsume (t : loc) (c : consuming)
| PproduceData (t : loc) (c : producingData)
| PconsumeData (t : loc) (c : consumingData)
| Pmethod (a : awaiting).

(** The object whose method it is. *)
Definition pending_object (p : pending) : obj :=
  match p with
  | Prouter k _ | Pserver k _ => Oworker k
  | Ptransport r _ | Pobserver r _ => Orouter r
  | Pproduce t _ | Pconsume t _ | PproduceData t _ | PconsumeData t _ => Otransport t
  | Pmethod a => awaiting_object a
  end.

Record session : Type := mkSession {
  sn_world : world;
  sn_calls : calls_in_flight pending
}.

(** A call with its argument; the strings come from [uuidv4], the numbers from
    [generateRandomNumber]. *)
Inductive call : Type :=
| CcreateRouter (k : loc) (options : val) (uuid : string)
| CcreateWebRtcServer (k : loc) (options : val) (uuid : string)
| CcreateWebRtcTransport (r : loc) (server : option loc) (options : val) (uuid : string)
| CcreatePlainTransport (r : loc) (options : val) (uuid : string)
| CcreatePipeTransport (r : loc) (options : val) (uuid : string)
| CcreateDirectTransport (r : loc) (options : val) (uuid : string)
| CcreateActiveSpeakerObserver (r : loc) (options : val) (uuid : string)
| CcreateAudioLevelObserver (r : loc) (options : val) (uuid : string)
| Cproduce (t : loc) (options : val) (uuid1 uuid2 : string) (rnd : Z)
| Cconsume (t : loc) (options : val) (uuid : string) (rnd1 rnd2 : Z)
| CproduceData (t : loc) (options : val) (uuid : string)
| CconsumeData (t : loc) (options : val) (uuid : string)
| Cmethod (m : method).

(** The object a method is called on. *)
Definition callee (c : call) : obj :=
  match c with
  | CcreateRouter k _ _ | CcreateWebRtcServer k _ _ => Oworker k
  | CcreateWebRtcTransport r _ _ _ | CcreatePlainTransport r _ _ | CcreatePipeTransport r _ _
  | CcreateDirectTransport r _ _ | CcreateActiveSpeakerObserver r _ _ | CcreateAudioLevelObserver r _ _ =>
      Orouter r
  | Cproduce t _ _ _ _ | Cconsume t _ _ _ _ | CproduceData t _ _ | CconsumeData t _ _ => Otransport t
  | Cmethod m => method_object m
  end.

Section session.
Context `{H264}.

(** ** The beginning of a call *)

(** A method of a worker or a router: it only throws or sends. *)
Definition send_request {A} (o : obj) (m : result (effect * A)) (mk : A -> pending) (w : world) :
    world * result pending :=
  match m with
  | Ok (e, a) => (record_effect o e w, Ok (mk a))
  | Err e => (w, Err e)
  end.

(** A method of a transport. *)
Definition run_method {A} (t : loc) (m : router_access -> M (effect * A)) (mk : A -> pending) (w : world) :
    world * result pending :=
  match transports w !! t with
  | None => (w, Err undefined_access)
  | Some tr =>
      match routers w !! t_router tr with
      | None => (w, Err undefined_access)
      | Some ro =>
          let '(tr', r) := m (access_of w ro) tr in
          send_request (Otransport t) r mk (set_transports (insert t tr') w)
      end
  end.

Definition router_id (r : loc) (w : world) : string :=
  match routers w !! r with Some ro => r_id ro | None => "" end.

(** A WebRtcServer with its id. *)
Definition given_server (server : option loc) (w : world) : option (loc * string) :=
  s ← server;
  sv ← servers w !! s;
  Some (s, s_id sv).

Definition begin (c : call) (w : world) : world * result pending :=
  match c with
  | CcreateRouter k options uuid => send_request (Oworker k) (createRouter options uuid) (Prouter k) w
  | CcreateWebRtcServer k options uuid =>
      send_request (Oworker k) (createWebRtcServer options uuid) (Pserver k) w
  | CcreateWebRtcTransport r server options uuid =>
      send_request (Orouter r) (createWebRtcTransport (router_id r w) (given_server server w) options uuid)
        (Ptransport r) w
  | CcreatePlainTransport r options uuid =>
      send_request (Orouter r) (createPlainTransport (router_id r w) options uuid) (Ptransport r) w
  | CcreatePipeTransport r options uuid =>
      send_request (Orouter r) (createPipeTransport (router_id r w) options uuid) (Ptransport r) w
  | CcreateDirectTransport r options uuid =>
      send_request (Orouter r) (createDirectTransport (router_id r w) options uuid) (Ptransport r) w
  | CcreateActiveSpeakerObserver r options uuid =>
      send_request (Orouter r) (createActiveSpeakerObserver (router_id r w) options uuid) (Pobserver r) w
  | CcreateAudioLevelObserver r options uuid =>
      send_request (Orouter r) (createAudioLevelObserver (router_id r w) options uuid) (Pobserver r) w
  | Cproduce t options uuid1 uuid2 rnd =>
      run_method t (fun router => produce router options uuid1 uuid2 rnd) (Pproduce t) w
  | Cconsume t options uuid rnd1 rnd2 =>
      run_method t (fun router => consume router options uuid rnd1 rnd2) (Pconsume t) w
  | CproduceData t options uuid => run_method t (fun _ => produceData options uuid) (PproduceData t) w
  | CconsumeData t options uuid =>
      run_method t (fun router => consumeData router options uuid) (PconsumeData t) w
  | Cmethod m => let '(w, r) := begin_method m w in (w, Pmethod <$> r)
  end.

Definition begin_call (c : call) (s : session) : session :=
  match begin c (sn_world s) with
  | (w, Ok p) => mkSession w (await p (sn_calls s))
  | (w, Err _) => mkSession w (sn_calls s)
  end.

(** ** The end of a call *)

(** [l] is the new object, [data] the answer. *)
Definition finish (l : loc) (p : pending) (data : val) (w : world) : result world :=
  match p with
  | Prouter k c => Ok (createRouter_continue l k c w)
  | Pserver k id => Ok (createWebRtcServer_done l k id w)
  | Ptransport r c => createTransport_continue l r c data w
  | Pobserver r c => Ok (createRtpObserver_continue l r c w)
  | Pproduce t c => produce_continue l t c data w
  | Pconsume t c => consume_continue l t c data w
  | PproduceData t c => produceData_continue l t c data w
  | PconsumeData t c => consumeData_continue l t c data w
  | Pmethod a => finish_method a data w
  end.

(** The end of a call whose request fails, or whose rest throws. *)
Definition failed (e : error) (p : pending) (w : world) : world :=
  match p with Pmethod a => fail_method a e w | _ => w end.

(** When the worker answers with success: see the system of World.v. *)
Definition new_child (l t : loc) (k : child_kind) (id : string) (w : world) : Prop :=
  children w !! l = None /\
  exists tr, transports w !! t = Some tr /\ t_closed tr = false /\ fresh_child_id k id (t_router tr) w.

Definition accepted (l : loc) (p : pending) (w : world) : Prop :=
  match p with
  | Prouter k _ => routers w !! l = None /\ exists wk, workers w !! k = Some wk /\ w_closed wk = false
  | Pserver k _ => servers w !! l = None /\ exists wk, workers w !! k = Some wk /\ w_closed wk = false
  | Ptransport r c =>
      transports w !! l = None /\ fresh_transport_id (ct_transportId c) w /\
      exists ro, routers w !! r = Some ro /\ r_closed ro = false /\
        usable_server (ct_server c) (r_worker ro) w
  | Pobserver r c =>
      observers w !! l = None /\ fresh_observer_id (co_rtpObserverId c) w /\
      exists ro, routers w !! r = Some ro /\ r_closed ro = false
  | Pproduce t c => new_child l t KProducer (pr_producerId c) w
  | Pconsume t c => new_child l t KConsumer (co_consumerId c) w
  | PproduceData t c => new_child l t KDataProducer (pd_dataProducerId c) w
  | PconsumeData t c => new_child l t KDataConsumer (cd_dataConsumerId c) w
  | Pmethod _ => True
  end.

(** ** The system *)

(** What [uuidv4] returns is not empty. *)
Definition call_ok (c : call) : Prop :=
  match c with Cproduce _ _ uuid1 _ _ => uuid1 <> "" | _ => True end.

(** Workers start, objects close, methods of objects are called that do not wait,
    and listeners are called with notifications. *)
Inductive event : world -> world -> Prop :=
| event_worker k w :
    workers w !! k = None -> event w (set_workers (insert k (mkWorker false false false [] [])) w)
| event_child_close l w : event w (close_child l w)
| event_child_producerclose l w : event w (apply_child child_producerclose l w)
| event_transport_close t w : event w (transport_close t w)
| event_observer_close l w : event w (observer_close l w)
| event_router_close r w : event w (router_close r w)
| event_server_close s w : event w (server_close s w)
| event_worker_close k w : event w (worker_close k w)
| event_worker_died message k w : event w (worker_died message k w)
| event_method o l w : is_method o = true -> waits o = false -> event w (child_method o l w)
| event_notify o name data w : event w (notify o name data w).1
| event_payload o name data payload w : event w (payload_notify o name data payload w).1
| event_sendRtcp rtcpPacket t w : event w (send_rtcp rtcpPacket t w).

Inductive session_step : session -> session -> Prop :=
| session_call c s : call_ok c -> session_step s (begin_call c s)
| session_answer n l data s p calls w :
    resume_call n (sn_calls s) = Some (p, calls) -> accepted l p (sn_world s) ->
    finish l p data (sn_world s) = Ok w -> session_step s (mkSession w calls)
| session_failure n e s p calls :
    (* the request failed, or the rest of the method threw *)
    resume_call n (sn_calls s) = Some (p, calls) -> session_step s (mkSession (failed e p (sn_world s)) calls)
| session_event s w : event (sn_world s) w -> session_step s (mkSession w (sn_calls s)).

Inductive session_reachable : session -> Prop :=
| session_start : session_reachable (mkSession empty_world no_calls)
| session_next s s' : session_reachable s -> session_step s s' -> session_reachable s'.

(** ** It implements the steps of World.v *)

Lemma send_request_steps {A} o (m : result (effect * A)) mk w :
  (forall e a, m = Ok (e, a) -> exists method id data, e = Request method id data) ->
  rtc step w (send_request o m mk w).1.
Proof.
  intros Hm. destruct m as [[e a]|e]; [|done]. simpl.
  destruct (Hm e a eq_refl) as (method & id & data & ->). by by apply rtc_once, step_detail, record_alike.
Qed.

Lemma insert_state t tr tr' w :
  transports w !! t = Some tr -> state_only tr tr' ->
  set_transports (insert t tr') w =
    set_transports (alter (with_state (t_cname tr') (t_nextMid tr') (t_sctp tr')) t) w.
Proof.
  intros Ht Hs. unfold set_transports. f_equal. apply map_eq. intros t'.
  destruct (decide (t' = t)) as [->|Hne].
  - rewrite lookup_insert_eq, lookup_alter_eq, Ht. simpl. by rewrite <-Hs.
  - by rewrite lookup_insert_ne, lookup_alter_ne by congruence.
Qed.

Definition sends {A} (m : M (effect * A)) : Prop :=
  forall tr tr' e a, m tr = (tr', Ok (e, a)) -> exists method id data, e = Request method id data.

Lemma sends_bind {A B} (m : M A) (f : A -> M (effect * B)) : (forall a, sends (f a)) -> sends (m ≫= f).
Proof.
  intros Hf tr tr' e a. unfold mbind, M_bind. destruct (m tr) as [tr1 [x|]]; [apply Hf|done].
Qed.

Lemma sends_ret {A} method data tr (a : A) : sends (mret (transport_request method data tr, a)).
Proof. intros tr1 tr2 e b [= <- <- <-]. by do 3 eexists. Qed.

Ltac sends_tac :=
  repeat match goal with
  | |- sends (_ ≫= _) => apply sends_bind; intros ?
  | |- sends (let '(_, _) := ?x in _) => destruct x
  | |- sends (match ?x with _ => _ end) => destruct x
  | |- sends (mret (transport_request _ _ _, _)) => apply sends_ret
  | |- _ => progress cbv beta zeta
  end.

Lemma produce_sends router options uuid1 uuid2 rnd : sends (produce router options uuid1 uuid2 rnd).
Proof. unfold produce. sends_tac. Qed.
Lemma consume_sends router options uuid rnd1 rnd2 : sends (consume router options uuid rnd1 rnd2).
Proof. unfold consume, pipe_consume, transport_consume. sends_tac. Qed.
Lemma produceData_sends options uuid : sends (produceData options uuid).
Proof. unfold produceData. sends_tac. Qed.
Lemma consumeData_sends router options uuid : sends (consumeData router options uuid).
Proof. unfold consumeData. sends_tac. Qed.

Lemma run_method_steps {A} t (m : router_access -> M (effect * A)) mk w :
  (forall router, keeps_rest (m router)) -> (forall router, sends (m router)) ->
  rtc step w (run_method t m mk w).1.
Proof.
  intros Hk Hs. unfold run_method. destruct (transports w !! t) as [tr|] eqn:Ht; [|done].
  destruct (routers w !! t_router tr) as [ro|]; [|done].
  specialize (Hk (access_of w ro) tr). destruct (m (access_of w ro) tr) as [tr' r] eqn:Hm. simpl in Hk.
  rewrite (insert_state _ _ _ _ Ht Hk). eapply rtc_l; [apply step_state|].
  apply send_request_steps. intros e a ->. by eapply Hs.
Qed.

(** The methods of workers and routers send one request. *)
Ltac request_tac :=
  intros e a Hm;
  unfold createRouter, createWebRtcServer, createWebRtcTransport, createPlainTransport, createPipeTransport,
    createDirectTransport, createActiveSpeakerObserver, createAudioLevelObserver in Hm;
  inv_result; by do 3 eexists.

Lemma begin_steps c w : rtc step w (begin c w).1.
Proof.
  destruct c; cbn [begin]; try (apply send_request_steps; request_tac);
    try (apply run_method_steps; intros router; auto using produce_keeps, produce_sends, consume_keeps,
      consume_sends, produceData_keeps, produceData_sends, consumeData_keeps, consumeData_sends).
  pose proof (begin_method_begun m w) as [Ha _]. destruct (begin_method m w). by apply rtc_once, step_detail.
Qed.

(** Its request is the last effect, of the object the method is called on. *)
Lemma begin_request c w w' q :
  begin c w = (w', Ok q) -> exists method id data,
    log w' = log w ++ [(callee c, Request method id data)].
Proof.
  assert (forall A o (m : result (effect * A)) mk w0,
    (forall e a, m = Ok (e, a) -> exists method id data, e = Request method id data) ->
    send_request o m mk w0 = (w', Ok q) -> log w0 = log w ->
    exists method id data, log w' = log w ++ [(o, Request method id data)]) as Hs.
  { intros A o [[e a]|e] mk w0 Hm; [|done]. destruct (Hm e a eq_refl) as (method & id & data & ->).
    intros [= <- <-] <-. by do 3 eexists. }
  assert (forall A t (m : router_access -> M (effect * A)) mk,
    (forall router, sends (m router)) -> run_method t m mk w = (w', Ok q) ->
    exists method id data, log w' = log w ++ [(Otransport t, Request method id data)]) as Hr.
  { intros A t m mk Hm. unfold run_method. destruct (transports w !! t) as [tr|]; [|done].
    destruct (routers w !! _) as [ro|]; [|done]. destruct (m (access_of w ro) tr) as [tr' r] eqn:Hmt.
    intros Hq. eapply Hs; [|exact Hq|done]. intros e a ->. by eapply Hm. }
  destruct c; cbn [begin callee]; intros Hb;
    try (refine (Hs _ _ _ _ _ _ Hb eq_refl); request_tac);
    try (refine (Hr _ _ _ _ _ Hb); auto using produce_sends, consume_sends, produceData_sends, consumeData_sends).
  pose proof (begin_method_begun m w) as [_ Hm]. destruct (begin_method m w) as [w1 [a|e]]; [|done].
  injection Hb as <- <-. by destruct (Hm a eq_refl) as [_ ?].
Qed.

Lemma child_step l t c streamId w :
  child_closed c = false -> new_child l t (kind_of c) (child_id c) w -> step w (add_child l t c streamId w).
Proof. intros Hc (Hl & tr & Ht & Ho & Hf). by eapply step_child. Qed.

(** An accepted answer is a step of World.v. *)
Lemma finish_step l p data w w' : accepted l p w -> finish l p data w = Ok w' -> step w w'.
Proof.
  destruct p; simpl; intros Hacc Hf.
  - destruct Hacc as (Hl & wk & Hk & Ho). injection Hf as <-. by eapply step_router.
  - destruct Hacc as (Hl & wk & Hk & Ho). injection Hf as <-. by eapply step_server.
  - destruct Hacc as (Hl & Hid & ro & Hr & Ho & Hs). unfold createTransport_continue in Hf. inv_result.
    by eapply step_transport.
  - destruct Hacc as (Hl & Hid & ro & Hr & Ho). injection Hf as <-. by eapply step_observer.
  - unfold produce_continue in Hf. inv_result. by apply child_step.
  - unfold consume_continue in Hf. inv_result. by apply child_step.
  - injection Hf as <-. by apply child_step.
  - injection Hf as <-. by apply child_step.
  - by eapply step_detail, finish_method_alike.
Qed.

Lemma failed_alike e p w : alike w (failed e p w).
Proof. destruct p; try apply alike_refl. apply fail_method_alike. Qed.

Lemma event_step w w' : event w w' -> step w w'.
Proof.
  intros []; first [by apply child_method_step|apply notify_step|by apply step_detail, payload_notify_alike|
    by apply step_detail, send_rtcp_alike|by constructor].
Qed.

(** Events in a row. *)
Lemma event_run (R : world -> world -> Prop) s w :
  (forall w1 w2, R w1 w2 -> event w1 w2) -> rtc R (sn_world s) w -> rtc session_step s (mkSession w (sn_calls s)).
Proof.
  intros HR Hs. remember (sn_world s) as w0 eqn:Hw. revert s Hw.
  induction Hs as [w0|w0 w1 w2 H1 _ IH]; intros s ->; [by destruct s|].
  eapply rtc_l; [by apply session_event, HR|]. by apply (IH (mkSession _ _)).
Qed.

Lemma session_steps s s' : session_step s s' -> rtc step (sn_world s) (sn_world s').
Proof.
  intros [c s1 Hc|n l data s1 p calls w _ Hacc Hf|n e s1 p calls _|s1 w He]; simpl.
  - unfold begin_call. pose proof (begin_steps c (sn_world s1)). by destruct (begin c (sn_world s1)) as [w []].
  - apply rtc_once. by eapply finish_step.
  - by apply rtc_once, step_detail, failed_alike.
  - by apply rtc_once, event_step.
Qed.

Lemma reachable_rtc w w' : reachable w -> rtc step w w' -> reachable w'.
Proof. intros Hw Hs. induction Hs as [|w1 w2 w3 H1 _ IH]; [done|]. apply IH. by eapply reachable_step. Qed.

Lemma session_reachable_world s : session_reachable s -> reachable (sn_world s).
Proof.
  induction 1 as [|s s' _ IH Hs]; [constructor|]. eapply reachable_rtc; [exact IH|by apply session_steps].
Qed.
End session.
