(* ===== verification/SessionInv.v ===== *)
(** * Invariants of the calls in flight

    What closing objects leave alone (the parameters of producers, the state of
    the creating methods, the capabilities of routers), and the invariants of
    the system of Session.v about it: the CNAME of a transport, its SCTP streams,
    and the payload types of a router. *)

From S2P Require Import Prelude Js RtpParameters Validate Ortc OrtcConsumer RequestBodies Framing Events TransportState World TransportCalls RouterCalls CallsSpec WorldSpec Registry WorldInv Closing Cascade Lifecycle Delivery Methods Listeners Payloads Session.
From S2P Require Producer Consumer DataProducer DataConsumer RtpObserver.

(** ** Closing *)

Definition t_kept (tr : transport) : transport_class * option string * Z * sctp_ids :=
  (t_class tr, t_cname tr, t_nextMid tr, t_sctp tr).

(** A child later on: it may have closed, and its details may have changed. *)
Record later (n n' : child_node) : Prop := mkLater {
  lt_transport : n_transport n' = n_transport n;
  lt_streamId : n_streamId n' = n_streamId n;
  lt_parameters : producer_parameters (n_child n') = producer_parameters (n_child n);
  lt_open : node_open n' -> node_open n
}.

#[export] Instance later_preorder : PreOrder later.
Proof. split; [intros n; by split|]. intros n1 n2 n3 [] []. split; [congruence..|auto]. Qed.

Lemma later_close n : later n (close_node n).
Proof.
  split; [done|done|by destruct n as [[] ? ?]|]. unfold node_open. by rewrite close_node_closed.
Qed.

Definition children_closed (w w' : world) : Prop :=
  forall l n', children w' !! l = Some n' -> exists n, children w !! l = Some n /\ later n n'.

Record calm (w w' : world) : Prop := mkCalm {
  cm_children : children_closed w w';
  cm_transports : forall t, t_kept <$> transports w' !! t = t_kept <$> transports w !! t;
  cm_routers : forall r, r_rtpCapabilities <$> routers w' !! r = r_rtpCapabilities <$> routers w !! r
}.

Lemma children_closed_refl w w' : children w' = children w -> children_closed w w'.
Proof. intros Hc l n Hl. exists n. by rewrite Hc in Hl. Qed.

Lemma children_closed_trans w1 w2 w3 :
  children_closed w1 w2 -> children_closed w2 w3 -> children_closed w1 w3.
Proof.
  intros H1 H2 l n3 Hl. destruct (H2 _ _ Hl) as (n2 & Hl2 & Hn2). destruct (H1 _ _ Hl2) as (n1 & Hl1 & Hn1).
  exists n1. split; [done|]. by transitivity n2.
Qed.

Lemma calm_refl w : calm w w.
Proof. split; [by apply children_closed_refl|done|done]. Qed.

Lemma calm_trans w1 w2 w3 : calm w1 w2 -> calm w2 w3 -> calm w1 w3.
Proof. intros [A1 A2 A3] [B1 B2 B3]. split; [by eapply children_closed_trans|congruence|congruence]. Qed.

Lemma calm_same w w' :
  children w' = children w -> transports w' = transports w -> routers w' = routers w -> calm w w'.
Proof. intros Hc Ht Hr. split; [by apply children_closed_refl|by rewrite Ht|by rewrite Hr]. Qed.

Lemma calm_routers f r w :
  (forall ro, r_rtpCapabilities (f ro) = r_rtpCapabilities ro) -> calm w (set_routers (alter f r) w).
Proof.
  intros Hf. split; [by apply children_closed_refl|done|]. intros r'. simpl.
  destruct (decide (r' = r)) as [->|]; [rewrite lookup_alter_eq|by rewrite lookup_alter_ne].
  destruct (routers w !! r); simpl; [by rewrite Hf|done].
Qed.

Lemma calm_transports f t w : (forall tr, t_kept (f tr) = t_kept tr) -> calm w (set_transports (alter f t) w).
Proof.
  intros Hf. split; [by apply children_closed_refl| |done]. intros t'. simpl.
  destruct (decide (t' = t)) as [->|]; [rewrite lookup_alter_eq|by rewrite lookup_alter_ne].
  destruct (transports w !! t); simpl; [by rewrite Hf|done].
Qed.

Lemma calm_foldl {A} (g : world -> A -> world) l w : (forall w x, calm w (g w x)) -> calm w (foldl g w l).
Proof.
  intros Hg. revert w. induction l as [|x l IH]; intros w; simpl; [apply calm_refl|].
  eapply calm_trans; [apply Hg|apply IH].
Qed.

Lemma calm_for_each {A} (f : A -> world -> world) l w : (forall x w, calm w (f x w)) -> calm w (for_each f l w).
Proof. intros Hf. apply calm_foldl. auto. Qed.

Create HintDb calm.
#[export] Hint Resolve calm_refl calm_routers calm_transports calm_foldl calm_for_each : calm.

(** Splits the last update off. *)
Lemma calm_log o e w w' : calm w w' -> calm w (record_effect o e w').
Proof. intros H. eapply calm_trans; [exact H|by apply calm_same]. Qed.
Lemma calm_set_routers f r w w' :
  (forall ro, r_rtpCapabilities (f ro) = r_rtpCapabilities ro) -> calm w w' ->
  calm w (set_routers (alter f r) w').
Proof. intros Hf H. eapply calm_trans; [exact H|by apply calm_routers]. Qed.
Lemma calm_set_servers f w w' : calm w w' -> calm w (set_servers f w').
Proof. intros H. eapply calm_trans; [exact H|by apply calm_same]. Qed.
Lemma calm_set_workers f w w' : calm w w' -> calm w (set_workers f w').
Proof. intros H. eapply calm_trans; [exact H|by apply calm_same]. Qed.
Lemma calm_set_observers f w w' : calm w w' -> calm w (set_observers f w').
Proof. intros H. eapply calm_trans; [exact H|by apply calm_same]. Qed.
Lemma calm_unsubscribe k id w w' : calm w w' -> calm w (unsubscribe k id w').
Proof. intros H. eapply calm_trans; [exact H|by apply calm_same]. Qed.
Lemma calm_then f w w' : (forall w, calm w (f w)) -> calm w w' -> calm w (f w').
Proof. intros Hf H. eapply calm_trans; [exact H|apply Hf]. Qed.
#[export] Hint Resolve calm_log calm_set_routers calm_set_servers calm_set_workers calm_set_observers
  calm_unsubscribe : calm.

Lemma transportClosed_calm l w : calm w (apply_child child_transportClosed l w).
Proof.
  destruct (apply_transportClosed_spec l w) as [Hc [Ht Hr _ _ _]]. split; [|by rewrite Ht|by rewrite Hr].
  intros l' n'. rewrite Hc. intros (n & Hl & ->)%alter_inv. exists n. split; [done|].
  case_decide; [apply later_close|done].
Qed.

Lemma tell_router_closed_calm t k id w : calm w (tell_router_closed t k id w).
Proof.
  unfold tell_router_closed. destruct (close_event k); [|apply calm_refl].
  destruct (transports w !! t); auto with calm.
Qed.
#[export] Hint Resolve transportClosed_calm tell_router_closed_calm : calm.

Lemma close_children_calm tell t w : calm w (close_children tell t w).
Proof.
  apply calm_foldl. intros w1 k. unfold close_kind. destruct (transports w1 !! t) as [tr|]; [|apply calm_refl].
  eapply calm_trans; [|by apply calm_transports]. apply calm_foldl. intros w2 l. unfold close_one.
  destruct tell; [|apply transportClosed_calm].
  destruct (children _ !! l); [|apply transportClosed_calm].
  eapply calm_trans; [apply transportClosed_calm|apply tell_router_closed_calm].
Qed.

Lemma mark_transport_closed_calm t tr w : transports w !! t = Some tr -> calm w (mark_transport_closed t tr w).
Proof.
  intros Ht. apply calm_unsubscribe. split; [by apply children_closed_refl| |done]. intros t'. simpl.
  destruct (decide (t' = t)) as [->|]; [by rewrite lookup_insert_eq, Ht|by rewrite lookup_insert_ne].
Qed.

Lemma transport_close_calm t w : calm w (transport_close t w).
Proof.
  unfold transport_close. destruct (transports w !! t) as [tr|] eqn:Ht; [|auto with calm].
  destruct (t_closed tr); [auto with calm|]. cbv zeta. apply calm_log.
  unfold emit_transport_close. cbv zeta.
  assert (forall w', calm w w' -> calm w (close_children true t w')) as Hc
    by (intros w' H; eapply calm_trans; [exact H|apply close_children_calm]).
  pose proof (mark_transport_closed_calm t tr w Ht) as Hm. destruct (t_server tr); auto 10 with calm.
Qed.

Lemma routerClosed_calm t w : calm w (transport_routerClosed t w).
Proof.
  unfold transport_routerClosed. destruct (transports w !! t) as [tr|] eqn:Ht; [|auto with calm].
  destruct (t_closed tr); [auto with calm|]. cbv zeta. do 2 apply calm_log.
  eapply calm_trans; [by apply mark_transport_closed_calm|apply close_children_calm].
Qed.

Lemma listenServerClosed_calm t w : calm w (transport_listenServerClosed t w).
Proof.
  unfold transport_listenServerClosed. destruct (transports w !! t) as [tr|] eqn:Ht; [|auto with calm].
  destruct (t_closed tr); [auto with calm|]. cbv zeta. do 2 apply calm_log. apply calm_set_routers; [done|].
  apply calm_log. eapply calm_trans; [by apply mark_transport_closed_calm|apply close_children_calm].
Qed.
#[export] Hint Resolve transport_close_calm routerClosed_calm listenServerClosed_calm : calm.

Lemma apply_observer_calm f l w : calm w (apply_observer f l w).
Proof.
  unfold apply_observer. destruct (observers w !! l) as [[o r]|]; [|auto with calm].
  destruct (f o) as [o' es]. eapply calm_trans; [|apply calm_foldl].
  - auto with calm.
  - intros w' e. destruct e; simpl; try case_match; auto with calm.
Qed.
#[export] Hint Resolve apply_observer_calm : calm.

Lemma close_router_objects_calm r w : calm w (close_router_objects r w).
Proof.
  unfold close_router_objects. destruct (routers w !! r) as [ro|]; [|auto with calm]. cbv zeta.
  do 2 (apply calm_set_routers; [done|]).
  apply (calm_then (for_each _ _)); [intros; apply calm_for_each, apply_observer_calm|].
  do 2 (apply calm_set_routers; [done|]). apply calm_for_each. auto with calm.
Qed.
#[export] Hint Resolve close_router_objects_calm : calm.

Lemma router_close_calm r w : calm w (router_close r w).
Proof.
  unfold router_close. destruct (routers w !! r) as [ro|]; [|auto with calm].
  destruct (r_closed ro); [auto with calm|]. cbv zeta. apply calm_log, calm_set_workers, calm_log.
  apply (calm_then (close_router_objects r)); auto with calm.
Qed.

Lemma router_workerClosed_calm r w : calm w (router_workerClosed r w).
Proof.
  unfold router_workerClosed. destruct (routers w !! r) as [ro|]; [|auto with calm].
  destruct (r_closed ro); [auto with calm|]. cbv zeta. do 2 apply calm_log.
  apply (calm_then (close_router_objects r)); auto with calm.
Qed.

Lemma server_close_calm s w : calm w (server_close s w).
Proof.
  unfold server_close. destruct (servers w !! s) as [sv|]; [|auto with calm].
  destruct (s_closed sv); [auto with calm|]. cbv zeta.
  apply calm_log, calm_set_workers, calm_log, calm_set_servers.
  apply (calm_then (for_each (unhandle s) _)); [|auto with calm]. intros w'. apply calm_for_each.
  intros t w1. unfold unhandle. destruct (transports _ !! t); auto with calm.
Qed.

Lemma server_workerClosed_calm s w : calm w (server_workerClosed s w).
Proof.
  unfold server_workerClosed. destruct (servers w !! s) as [sv|]; [|auto with calm].
  destruct (s_closed sv); auto 10 with calm.
Qed.
#[export] Hint Resolve router_workerClosed_calm server_workerClosed_calm : calm.

Lemma close_worker_objects_calm k w : calm w (close_worker_objects k w).
Proof.
  unfold close_worker_objects. destruct (workers w !! k) as [wk|]; [|auto with calm]. cbv zeta.
  apply calm_set_workers. apply (calm_then (for_each _ _)); [intros; apply calm_for_each, server_workerClosed_calm|].
  apply calm_set_workers, calm_for_each. auto with calm.
Qed.

Lemma worker_close_calm k w : calm w (worker_close k w).
Proof.
  unfold worker_close. destruct (workers w !! k) as [wk|]; [|auto with calm].
  destruct (w_closed wk); [auto with calm|]. cbv zeta. apply calm_log.
  apply (calm_then (close_worker_objects k)); [apply close_worker_objects_calm|auto with calm].
Qed.

Lemma worker_died_calm message k w : calm w (worker_died message k w).
Proof.
  unfold worker_died. destruct (workers w !! k) as [wk|]; [|auto with calm].
  destruct (w_closed wk); [auto with calm|]. cbv zeta. do 2 apply calm_log.
  apply (calm_then (close_worker_objects k)); [apply close_worker_objects_calm|auto with calm].
Qed.

Lemma alike_calm w w' : alike w w' -> calm w w'.
Proof.
  intros [Hc _ Ht Hr _ _ _ _]. split; [| |by rewrite Hr].
  - intros l n' (n & Hn & [= _ _ E3 E4 E5 E6])%(fmap_lookup_back c_frame _ _ _ _ (Hc l)). exists n. split; [done|].
    split; try done. unfold node_open. congruence.
  - exact (rest_part t_frame t_kept _ _ Ht).
Qed.

Lemma close_child_cases l w :
  calm w (close_child l w) \/
  exists l' n, children w !! l' = Some n /\ node_open n /\ removed_child l' n w (close_child l w).
Proof.
  destruct (close_child_spec l w) as [[[Hc [Ht Hr _ _ _]] _]|(n & ? & ? & ?)]; [left; by apply calm_same|].
  right. by exists l, n.
Qed.

Lemma producerclose_cases l w :
  calm w (apply_child child_producerclose l w) \/
  exists l' n, children w !! l' = Some n /\ node_open n /\ removed_child l' n w (apply_child child_producerclose l w).
Proof.
  destruct (producerclose_spec l w) as [[Hc [Ht Hr _ _ _]]|(n & ? & ? & ?)]; [left; by apply calm_same|].
  right. by exists l, n.
Qed.

(** An event of the system: a child goes and frees its stream, or all is calm. *)
Lemma event_cases w w' :
  event w w' ->
  calm w w' \/ exists l n, children w !! l = Some n /\ node_open n /\ removed_child l n w w'.
Proof.
  intros []; auto using transport_close_calm, router_close_calm, server_close_calm, worker_close_calm,
    worker_died_calm.
  - left. by apply calm_same.
  - apply close_child_cases.
  - apply producerclose_cases.
  - left. apply apply_observer_calm.
  - destruct (child_method_cases o l w0) as [Ha| ->]; [done|left; by apply alike_calm|apply close_child_cases].
  - destruct (notify_cases o name data w0) as [Ha|(l & _ & ->)]; [left; by apply alike_calm|apply producerclose_cases].
  - left. apply alike_calm, payload_notify_alike.
  - left. apply alike_calm, send_rtcp_alike.
Qed.

(** ** Calls in flight *)

Section in_flight.
Context {K : Type}.
Implicit Types (c : calls_in_flight K) (p : K).

Lemma await_lookup p c m :
  calls_wf c ->
  jget m (in_flight (await p c)) = if decide (m = next_call c) then Some p else jget m (in_flight c).
Proof.
  intros Hwf. simpl.
  assert (jget (next_call c) (in_flight c) = None) as Hn.
  { apply jget_None. intros Hin. eapply Forall_forall in Hwf; [|exact Hin]. simpl in Hwf. lia. }
  by rewrite <-(jset_fresh _ p _ Hn), jget_jset.
Qed.

Lemma resume_lookup n c p c' :
  resume_call n c = Some (p, c') ->
  jget n (in_flight c) = Some p /\
  forall m, jget m (in_flight c') = if decide (m = n) then None else jget m (in_flight c).
Proof.
  unfold resume_call. destruct (jget n (in_flight c)) as [q|]; [|done]. intros [= -> <-].
  split; [done|]. intros m. simpl. apply jget_jdel.
Qed.

Lemma resume_wf n c p c' : resume_call n c = Some (p, c') -> calls_wf c -> calls_wf c'.
Proof.
  unfold resume_call. destruct (jget n (in_flight c)) as [q|]; [|done]. intros [= -> <-].
  unfold calls_wf. simpl. rewrite jkeys_jdel. intros H. apply list.Forall_forall. intros x Hx%list_elem_of_filter.
  eapply Forall_forall in H; [exact H|apply Hx].
Qed.
End in_flight.

(** The transport a call will add a child to, and the stream it has reserved. *)
Definition pending_transport (p : pending) : option loc :=
  match p with
  | Pproduce t _ | Pconsume t _ | PproduceData t _ | PconsumeData t _ => Some t
  | _ => None
  end.

Definition pending_stream (p : pending) : option nat :=
  match p with PconsumeData _ c => cd_streamId c | _ => None end.

(** ** The beginning of a call *)

Definition has_cname (cname : option string) (p q : RtpParameters) : Prop :=
  is_Some cname /\ rtcp_cname (rp_rtcp p) = cname /\ rtcp_cname (rp_rtcp q) = cname.

(** A method of the transport [t] was called. *)
Record begun (t : loc) (tr tr' : transport) (r : result pending) : Prop := mkBegun {
  bg_state : state_only tr tr';
  bg_cname : cname_ok (t_cname tr) ->
    cname_ok (t_cname tr') /\ (is_Some (t_cname tr) -> t_cname tr' = t_cname tr);
  bg_pending : forall p, r = Ok p -> pending_transport p = Some t;
  bg_named : forall c, r = Ok (Pproduce t c) -> t_class tr <> PipeTransport -> cname_ok (t_cname tr) ->
    has_cname (t_cname tr') (pr_rtpParameters c) (pr_consumableRtpParameters c);
  bg_streams :
    (t_sctp tr' = t_sctp tr /\ forall p, r = Ok p -> pending_stream p = None) \/
    exists i, reserve_stream (transport_MIS tr) (t_sctp tr) = Ok (i, t_sctp tr') /\
      forall p, r = Ok p -> pending_stream p = Some i
}.

(** The parts of the store the invariants are about. *)
Definition same_parts (w w' : world) : Prop :=
  children w' = children w /\ transports w' = transports w /\ routers w' = routers w.

Section begin.
Context `{H264}.

Inductive begin_spec (w w' : world) (r : result pending) : Prop :=
| begin_elsewhere :
    same_parts w w' ->
    (forall p, r = Ok p -> pending_transport p = None) ->
    (forall k c, r = Ok (Prouter k c) -> caps_allocated (cr_rtpCapabilities c)) ->
    begin_spec w w' r
| begin_transport t tr tr' :
    children w' = children w -> routers w' = routers w ->
    transports w !! t = Some tr -> transports w' = <[t := tr']> (transports w) ->
    begun t tr tr' r -> begin_spec w w' r
| begin_details :
    alike w w' -> (forall p, r = Ok p -> exists a, p = Pmethod a) -> begin_spec w w' r.

Lemma send_request_spec {A} o (m : result (effect * A)) mk w :
  (forall a, pending_transport (mk a) = None) ->
  (forall e a k c, m = Ok (e, a) -> mk a = Prouter k c -> caps_allocated (cr_rtpCapabilities c)) ->
  begin_spec w (send_request o m mk w).1 (send_request o m mk w).2.
Proof.
  intros Hmk Hcaps. destruct m as [[e a]|e]; simpl; apply begin_elsewhere; try done.
  - by intros p [= <-].
  - intros k c [= Hc]. by eapply Hcaps.
Qed.

Lemma run_method_spec {A} t (m : router_access -> M (effect * A)) mk w :
  (forall router tr, begun t tr (m router tr).1
     match (m router tr).2 with Ok (e, a) => Ok (mk a) | Err e => Err e end) ->
  begin_spec w (run_method t m mk w).1 (run_method t m mk w).2.
Proof.
  intros Hm. unfold run_method. destruct (transports w !! t) as [tr|] eqn:Ht; [|by apply begin_elsewhere].
  destruct (routers w !! t_router tr) as [ro|]; [|by apply begin_elsewhere].
  specialize (Hm (access_of w ro) tr). destruct (m (access_of w ro) tr) as [tr' r]. simpl in Hm.
  destruct r as [[e a]|e]; simpl; by eapply (begin_transport _ _ _ t tr tr').
Qed.

Lemma produce_begun t router options uuid1 uuid2 rnd tr :
  uuid1 <> "" ->
  begun t tr (produce router options uuid1 uuid2 rnd tr).1
    match (produce router options uuid1 uuid2 rnd tr).2 with Ok (e, a) => Ok (Pproduce t a) | Err e => Err e end.
Proof.
  intros Hu. destruct (produce_cname_kept router options uuid1 uuid2 rnd tr) as (_ & Hs & Hc).
  pose proof (produce_keeps router options uuid1 uuid2 rnd tr) as Hk.
  destruct (produce router options uuid1 uuid2 rnd tr) as [tr' r] eqn:Hp. simpl in *. split; [done| | | |].
  - by apply Hc.
  - destruct r as [[e c]|e]; by intros p [= <-].
  - destruct r as [[e c0]|e]; [|done]. intros c [= ->] Hcls Hok.
    destruct (produce_cname _ _ _ _ _ _ _ _ _ Hp Hcls) as [H1 H2].
    pose proof Hp as (v & p & mapping & _ & _ & _ & _ & _ & Htr & _)%produce_Ok.
    rewrite decide_False in Htr by done.
    destruct (chosen_cname_ok uuid1 (with_encoding p) tr Hu) as (cn & Hcn & _).
    split; [|done]. rewrite Htr. simpl. by rewrite Hcn.
  - left. split; [done|]. destruct r as [[e c]|e]; by intros p [= <-].
Qed.

(** The other methods leave the CNAME alone. *)
Lemma begun_other {A} t (m : M (effect * A)) (mk : A -> pending) tr :
  keeps_rest m -> (forall a, pending_transport (mk a) = Some t) ->
  (forall a c, mk a <> Pproduce t c) ->
  t_cname (m tr).1 = t_cname tr ->
  (t_sctp (m tr).1 = t_sctp tr /\ (forall e a, (m tr).2 = Ok (e, a) -> pending_stream (mk a) = None) \/
   exists i, reserve_stream (transport_MIS tr) (t_sctp tr) = Ok (i, t_sctp (m tr).1) /\
     forall e a, (m tr).2 = Ok (e, a) -> pending_stream (mk a) = Some i) ->
  begun t tr (m tr).1 match (m tr).2 with Ok (e, a) => Ok (mk a) | Err e => Err e end.
Proof.
  intros Hk Hmk Hnp Hc Hs. specialize (Hk tr). destruct (m tr) as [tr' r]. simpl in *. split; [done| | | |].
  - intros Hok. by rewrite Hc.
  - destruct r as [[e a]|e]; by intros p [= <-].
  - destruct r as [[e a]|e]; [|done]. intros c [= Heq]. by destruct (Hnp a c).
  - destruct Hs as [[Hs Hp]|(i & Hs & Hp)]; [left|right; exists i]; (split; [done|]);
      (destruct r as [[e a]|e]; [|done]); intros p [= <-]; by eapply Hp.
Qed.

Lemma consumeData_begun t router options uuid tr :
  begun t tr (consumeData router options uuid tr).1
    match (consumeData router options uuid tr).2 with Ok (e, a) => Ok (PconsumeData t a) | Err e => Err e end.
Proof.
  destruct (consumeData_state router options uuid tr) as (Hc & _ & Hs).
  apply (begun_other t _ (PconsumeData t)); auto using consumeData_keeps.
  destruct Hs as [[Hs Hp]|(i & Hs & Hp)]; [left|right; exists i]; (split; [done|]);
    intros e a He; exact (Hp _ He).
Qed.

Lemma begin_cases c w w' r : call_ok c -> begin c w = (w', r) -> begin_spec w w' r.
Proof.
  intros Hok Hb.
  assert (begin_spec w (begin c w).1 (begin c w).2) as Hs; [|by rewrite Hb in Hs].
  destruct c; cbn [begin]; try (apply send_request_spec; done).
  - apply send_request_spec; [done|]. intros e a k' c Hm [= <- <-]. unfold createRouter in Hm. inv_result.
    simpl. by apply generateRouterRtpCapabilities_inv in Ha0 as (? & ? & _).
  - apply run_method_spec. intros router tr. by apply produce_begun.
  - apply run_method_spec. intros router tr.
    destruct (consume_state router options uuid rnd1 rnd2 tr) as [Hc Hs].
    apply (begun_other t _ (Pconsume t)); auto using consume_keeps.
  - apply run_method_spec. intros router tr.
    apply (begun_other t _ (PproduceData t)); auto using produceData_keeps; rewrite produceData_state; auto.
  - apply run_method_spec. intros router tr. apply consumeData_begun.
  - pose proof (begin_method_begun m w) as [Ha _]. destruct (begin_method m w) as [w1 r1].
    apply begin_details; [exact Ha|]. destruct r1 as [a|e]; [|done]. intros p [= <-]. by eexists.
Qed.
End begin.

(** ** The end of a call *)

Definition fresh_or_kept (w w' : world) : Prop :=
  forall t tr', transports w' !! t = Some tr' ->
    (exists tr, transports w !! t = Some tr /\ t_kept tr' = t_kept tr) \/
    transports w !! t = None /\ t_cname tr' = None.

Inductive finish_spec (p : pending) (w w' : world) : Prop :=
| finish_child l t c :
    pending_transport p = Some t -> is_Some (transports w !! t) -> children w !! l = None ->
    children w' = <[l := mkChildNode c t (pending_stream p)]> (children w) ->
    (forall t', t_kept <$> transports w' !! t' = t_kept <$> transports w !! t') ->
    (forall r, r_rtpCapabilities <$> routers w' !! r = r_rtpCapabilities <$> routers w !! r) ->
    (forall q, c = CProducer q -> exists c', p = Pproduce t c' /\
       Producer.rtpParameters q = pr_rtpParameters c' /\
       Producer.consumableRtpParameters q = pr_consumableRtpParameters c') ->
    finish_spec p w w'
| finish_other :
    pending_transport p = None -> children w' = children w -> fresh_or_kept w w' ->
    (forall t, is_Some (transports w !! t) -> is_Some (transports w' !! t)) ->
    (forall r ro, routers w' !! r = Some ro ->
       (exists ro0, routers w !! r = Some ro0 /\ r_rtpCapabilities ro = r_rtpCapabilities ro0) \/
       exists k c, p = Prouter k c /\ r_rtpCapabilities ro = cr_rtpCapabilities c) ->
    finish_spec p w w'
| finish_details a : p = Pmethod a -> alike w w' -> finish_spec p w w'.

Lemma fresh_or_kept_same w w' : transports w' = transports w -> fresh_or_kept w w'.
Proof. intros Ht t tr Htr. left. exists tr. by rewrite <-Ht. Qed.

Lemma finish_child_spec p l t c w :
  pending_transport p = Some t -> new_child l t (kind_of c) (child_id c) w ->
  (forall q, c = CProducer q -> exists c', p = Pproduce t c' /\
       Producer.rtpParameters q = pr_rtpParameters c' /\
       Producer.consumableRtpParameters q = pr_consumableRtpParameters c') ->
  finish_spec p w (add_child l t c (pending_stream p) w).
Proof.
  intros Hp (Hl & tr & Ht & _) Hc.
  destruct (add_child_spec l t c (pending_stream p) w tr Ht) as (Ec & Et & Er & _).
  eapply (finish_child _ _ _ l t c); try done.
  - intros t'. rewrite Et. apply lookup_alter_fmap. intros x. done.
  - intros r. rewrite Er. destruct (new_event (kind_of c)); [|done]. apply lookup_alter_fmap. by intros x.
Qed.

Lemma finish_cases l p data w w' : accepted l p w -> finish l p data w = Ok w' -> finish_spec p w w'.
Proof.
  destruct p; simpl; intros Hacc Hf.
  - injection Hf as <-. apply finish_other; [done|done|by apply fresh_or_kept_same|done|].
    intros r ro. simpl. intros [[-> ->]|[Hne Hro]]%insert_inv; [right; by do 2 eexists|left; eauto].
  - injection Hf as <-. apply finish_other; [done|done|by apply fresh_or_kept_same|done|eauto].
  - unfold createTransport_continue in Hf. inv_result. destruct Hacc as (Hl & _).
    assert (transports (createTransport_done l r (ct_class c) (ct_server c) (ct_transportId c) a w) =
      <[l := mkTransport (ct_transportId c) (ct_class c) r (ct_server c) false a [] [] [] [] None 0 no_sctp_ids]>
        (transports w)) as Et by (unfold createTransport_done; by destruct (ct_server c)).
    apply finish_other; [done| | | |].
    + unfold createTransport_done. by destruct (ct_server c).
    + intros t tr. rewrite Et. intros [[-> ->]|[Hne Ht]]%insert_inv; [by right|left; eauto].
    + intros t [tr Ht]. rewrite Et. destruct (decide (t = l)) as [->|]; [congruence|].
      rewrite lookup_insert_ne by congruence. eauto.
    + intros r' ro Hro. left.
      assert (routers (createTransport_done l r (ct_class c) (ct_server c) (ct_transportId c) a w) =
        alter (update_r_transports (jset (ct_transportId c) l)) r (routers w)) as Er
        by (unfold createTransport_done; by destruct (ct_server c)).
      rewrite Er in Hro. apply alter_inv in Hro as (ro0 & Hro0 & ->). exists ro0. by case_decide.
  - injection Hf as <-. apply finish_other; [done|done|by apply fresh_or_kept_same|done|].
    intros r' ro. simpl. intros (ro0 & Hro0 & ->)%alter_inv. left. exists ro0. by case_decide.
  - unfold produce_continue in Hf. inv_result. apply (finish_child_spec (Pproduce t c)); [done|done|].
    intros q [= <-]. by eexists.
  - unfold consume_continue in Hf. inv_result. by apply (finish_child_spec (Pconsume t c)).
  - injection Hf as <-. by apply (finish_child_spec (PproduceData t c)).
  - injection Hf as <-. by apply (finish_child_spec (PconsumeData t c)).
  - eapply finish_details; [done|by eapply finish_method_alike].
Qed.

(** ** The invariants *)

Definition waiting (s : session) (m : nat) : option pending := jget m (in_flight (sn_calls s)).

(** A data consumer that is open or a call holds the stream [i] of [t]. *)
Definition holds (s : session) (t : loc) (i : nat) (h : loc + nat) : Prop :=
  match h with
  | inl l => exists n, children (sn_world s) !! l = Some n /\ node_open n /\ n_transport n = t /\
               n_streamId n = Some i
  | inr m => exists p, waiting s m = Some p /\ pending_transport p = Some t /\ pending_stream p = Some i
  end.

Record session_inv (s : session) : Prop := mkSessionInv {
  si_wf : calls_wf (sn_calls s);
  si_children : forall l n, children (sn_world s) !! l = Some n -> is_Some (transports (sn_world s) !! n_transport n);
  si_waiting : forall m p t, waiting s m = Some p -> pending_transport p = Some t ->
    is_Some (transports (sn_world s) !! t);
  si_caps : forall r ro, routers (sn_world s) !! r = Some ro -> caps_allocated (r_rtpCapabilities ro);
  si_caps_waiting : forall m k c, waiting s m = Some (Prouter k c) -> caps_allocated (cr_rtpCapabilities c);
  si_cname : forall t tr, transports (sn_world s) !! t = Some tr -> cname_ok (t_cname tr);
  si_named : forall l n q tr, children (sn_world s) !! l = Some n -> n_child n = CProducer q ->
    transports (sn_world s) !! n_transport n = Some tr -> t_class tr <> PipeTransport ->
    has_cname (t_cname tr) (Producer.rtpParameters q) (Producer.consumableRtpParameters q);
  si_named_waiting : forall m t c tr, waiting s m = Some (Pproduce t c) ->
    transports (sn_world s) !! t = Some tr -> t_class tr <> PipeTransport ->
    has_cname (t_cname tr) (pr_rtpParameters c) (pr_consumableRtpParameters c);
  si_unique : forall t i h1 h2, holds s t i h1 -> holds s t i h2 -> h1 = h2;
  si_marked : forall t i h tr, holds s t i h -> transports (sn_world s) !! t = Some tr -> in_use (t_sctp tr) i
}.

Lemma session_inv_start : session_inv (mkSession empty_world no_calls).
Proof.
  split; try done; try (by constructor).
  intros t i [l|m] h2; [by intros (n & ? & _)|by intros (p & ? & _)].
Qed.

(** ** Steps keep the invariants *)

Lemma kept_lookup w w' t tr' :
  (forall t, t_kept <$> transports w' !! t = t_kept <$> transports w !! t) -> transports w' !! t = Some tr' ->
  exists tr, transports w !! t = Some tr /\ t_kept tr' = t_kept tr.
Proof.
  intros Hk Ht. specialize (Hk t). rewrite Ht in Hk. symmetry in Hk. apply fmap_Some in Hk as (tr & ? & ?).
  by exists tr.
Qed.

Lemma kept_is_Some w w' t :
  (forall t, t_kept <$> transports w' !! t = t_kept <$> transports w !! t) ->
  is_Some (transports w !! t) -> is_Some (transports w' !! t).
Proof.
  intros Hk [tr Ht]. specialize (Hk t). rewrite Ht in Hk. apply fmap_Some in Hk as (tr' & ? & _). by exists tr'.
Qed.

Lemma close_node_streamId n : n_streamId (close_node n) = n_streamId n.
Proof. by destruct n. Qed.

(** The producer in a node that may have been closed. *)
Lemma closed_producer n n' q' :
  later n n' -> n_child n' = CProducer q' ->
  exists q, n_child n = CProducer q /\ Producer.rtpParameters q' = Producer.rtpParameters q /\
    Producer.consumableRtpParameters q' = Producer.consumableRtpParameters q.
Proof.
  intros [_ _ Hp _] Hq. rewrite Hq in Hp. destruct (n_child n) as [q| | |]; try done.
  injection Hp as -> ->. by exists q.
Qed.

(** A step after which no stream is held that was not held before. *)
Record quiet_step (s s' : session) : Prop := mkQuietStep {
  qs_wf : calls_wf (sn_calls s');
  qs_children : children_closed (sn_world s) (sn_world s');
  qs_transports : fresh_or_kept (sn_world s) (sn_world s');
  qs_existing : forall t, is_Some (transports (sn_world s) !! t) -> is_Some (transports (sn_world s') !! t);
  qs_caps : forall r ro, routers (sn_world s') !! r = Some ro -> caps_allocated (r_rtpCapabilities ro);
  qs_waiting : forall m p, waiting s' m = Some p ->
    waiting s m = Some p \/
    pending_transport p = None /\ forall k c, p = Prouter k c -> caps_allocated (cr_rtpCapabilities c)
}.

Lemma quiet_holds s s' t i h : quiet_step s s' -> holds s' t i h -> holds s t i h.
Proof.
  intros Hq. destruct h as [l|m].
  - intros (n' & Hl & Ho & Ht & Hi). destruct (qs_children _ _ Hq _ _ Hl) as (n & Hn & [E1 E2 _ Hop]).
    exists n. split_and!; [done|by apply Hop|congruence..].
  - intros (p & Hw & Ht & Hi). destruct (qs_waiting _ _ Hq _ _ Hw) as [Hw'|[Hn _]]; [by exists p|congruence].
Qed.

Lemma holds_transport s t i h : session_inv s -> holds s t i h -> is_Some (transports (sn_world s) !! t).
Proof.
  intros Hi. destruct h as [l|m].
  - intros (n & Hl & _ & <- & _). by eapply si_children.
  - intros (p & Hw & Ht & _). by eapply si_waiting.
Qed.

Lemma quiet_keeps s s' : session_inv s -> quiet_step s s' -> session_inv s'.
Proof.
  intros Hi Hq. split.
  - apply Hq.
  - intros l n' (n & Hl & Hn)%(qs_children _ _ Hq). apply Hq.
    rewrite (lt_transport _ _ Hn).
    by eapply si_children.
  - intros m p t Hw Ht. apply Hq. destruct (qs_waiting _ _ Hq _ _ Hw) as [Hw'|[Hn _]]; [|congruence].
    by eapply si_waiting.
  - apply Hq.
  - intros m k c Hw. destruct (qs_waiting _ _ Hq _ _ Hw) as [Hw'|[_ Hc]]; [by eapply si_caps_waiting|by eapply Hc].
  - intros t tr [(tr0 & Ht & [= _ -> _ _])|[_ ->]]%(qs_transports _ _ Hq); [by eapply si_cname|done].
  - intros l n' q' tr Hl Hc Ht Hcls. destruct (qs_children _ _ Hq _ _ Hl) as (n & Hn & Heq).
    destruct (closed_producer _ _ _ Heq Hc) as (q & Hq' & -> & ->).
    rewrite (lt_transport _ _ Heq) in Ht. destruct (qs_transports _ _ Hq _ _ Ht) as [(tr0 & Ht0 & [= Hc0 -> _ _])|[Hnone _]].
    + eapply (si_named _ Hi); [done|done|done|congruence].
    + destruct (si_children _ Hi _ _ Hn). congruence.
  - intros m t c tr Hw Ht Hcls. destruct (qs_waiting _ _ Hq _ _ Hw) as [Hw'|[Hn _]]; [|done].
    destruct (qs_transports _ _ Hq _ _ Ht) as [(tr0 & Ht0 & [= Hc0 -> _ _])|[Hnone _]].
    + eapply (si_named_waiting _ Hi); [done|done|congruence].
    + destruct (si_waiting _ Hi m _ t Hw' eq_refl). congruence.
  - intros t i h1 h2 H1 H2. eapply (si_unique _ Hi t i); by eapply quiet_holds.
  - intros t i h tr Hh Ht. eapply quiet_holds in Hh; [|done].
    destruct (qs_transports _ _ Hq _ _ Ht) as [(tr0 & Ht0 & [= _ _ _ ->])|[Hnone _]].
    + by eapply (si_marked _ Hi).
    + destruct (holds_transport _ _ _ _ Hi Hh). congruence.
Qed.

(** A method of a transport begins. *)
Lemma begun_waiting s w p m q :
  calls_wf (sn_calls s) -> waiting (mkSession w (await p (sn_calls s))) m = Some q ->
  waiting s m = Some q \/ m = next_call (sn_calls s) /\ q = p.
Proof.
  intros Hwf. unfold waiting. simpl sn_calls. rewrite await_lookup by done.
  case_decide; [intros [= ->]; auto|auto].
Qed.

Definition next_session (w : world) (r : result pending) (s : session) : session :=
  mkSession w match r with Ok p => await p (sn_calls s) | Err _ => sn_calls s end.

Lemma next_waiting s w r m q :
  calls_wf (sn_calls s) -> waiting (next_session w r s) m = Some q ->
  waiting s m = Some q \/ m = next_call (sn_calls s) /\ r = Ok q.
Proof.
  intros Hwf. destruct r as [p|e]; [|by left].
  intros [?|[-> ->]]%(begun_waiting s w p m q); [by left|by right|done].
Qed.

Lemma next_wf s w r : calls_wf (sn_calls s) -> calls_wf (sn_calls (next_session w r s)).
Proof. intros Hwf. destruct r; [by apply await_wf|done]. Qed.

Lemma elsewhere_keeps s w r :
  session_inv s -> same_parts (sn_world s) w ->
  (forall p, r = Ok p -> pending_transport p = None) ->
  (forall k c, r = Ok (Prouter k c) -> caps_allocated (cr_rtpCapabilities c)) ->
  session_inv (next_session w r s).
Proof.
  intros Hi (Hc & Ht & Hr) Hp Hcaps. apply (quiet_keeps s); [done|]. split; simpl.
  - apply (next_wf s w). apply Hi.
  - by apply children_closed_refl.
  - by apply fresh_or_kept_same.
  - by rewrite Ht.
  - rewrite Hr. apply Hi.
  - intros m p [?|[-> ->]]%next_waiting; [by left| |apply Hi]. right. split; [by apply Hp|].
    intros k c ->. by eapply Hcaps.
Qed.

Section begun.
Context (s : session) (w : world) (t : loc) (tr tr' : transport) (r : result pending).
Hypothesis Hinv : session_inv s.
Hypothesis Hc : children w = children (sn_world s).
Hypothesis Hr : routers w = routers (sn_world s).
Hypothesis Ht : transports (sn_world s) !! t = Some tr.
Hypothesis Hts : transports w = <[t := tr']> (transports (sn_world s)).
Hypothesis Hb : begun t tr tr' r.

Lemma begun_class : t_class tr' = t_class tr.
Proof. by rewrite (bg_state _ _ _ _ Hb). Qed.

Lemma begun_existing t' : is_Some (transports (sn_world s) !! t') -> is_Some (transports w !! t').
Proof. rewrite Hts. destruct (decide (t' = t)) as [->|]; [by rewrite lookup_insert_eq|by rewrite lookup_insert_ne]. Qed.

Lemma begun_lookup t' x :
  transports w !! t' = Some x -> t' = t /\ x = tr' \/ t' <> t /\ transports (sn_world s) !! t' = Some x.
Proof. rewrite Hts. apply insert_inv. Qed.

(** What was named before has the CNAME that is kept. *)
Lemma begun_has_cname p q : has_cname (t_cname tr) p q -> has_cname (t_cname tr') p q.
Proof.
  intros Hh. destruct (bg_cname _ _ _ _ Hb) as [_ Hk]; [by eapply si_cname|].
  by rewrite Hk by apply Hh.
Qed.

(** Only the new call holds a stream that was not held before. *)
Lemma begun_holds t' i h :
  holds (next_session w r s) t' i h ->
  holds s t' i h \/ t' = t /\ h = inr (next_call (sn_calls s)) /\ ~ in_use (t_sctp tr) i /\ in_use (t_sctp tr') i.
Proof.
  destruct h as [l|m].
  - intros (n & Hl & Hrest). left. exists n. simpl in Hl. by rewrite Hc in Hl.
  - intros (p & Hw & Hpt & Hps). apply next_waiting in Hw as [Hw|[-> ->]]; [|..|apply Hinv].
    + left. by exists p.
    + right. pose proof (bg_pending _ _ _ _ Hb p eq_refl) as Hp. assert (t' = t) as -> by congruence.
      split_and!; [done|done|..]; destruct (bg_streams _ _ _ _ Hb) as [[_ Hn]|(j & Hres & Hj)];
        try (specialize (Hn p eq_refl); congruence);
        (assert (j = i) as -> by (specialize (Hj p eq_refl); congruence));
        apply reserve_stream_Ok in Hres as (Hfree & Huse & _); [done|]. apply Huse. by right.
Qed.

Lemma begun_in_use i : in_use (t_sctp tr) i -> in_use (t_sctp tr') i.
Proof.
  destruct (bg_streams _ _ _ _ Hb) as [[-> _]|(j & Hres & _)]; [done|].
  apply reserve_stream_Ok in Hres as (_ & Huse & _). intros Hu. apply Huse. by left.
Qed.

Lemma begun_keeps : session_inv (next_session w r s).
Proof.
  split; simpl.
  - apply (next_wf s w), Hinv.
  - intros l n. rewrite Hc. intros Hl. apply begun_existing. by eapply si_children.
  - intros m p t' Hw Hp. apply begun_existing. apply next_waiting in Hw as [Hw|[-> Hrq]]; [|..|apply Hinv].
    + by eapply si_waiting.
    + rewrite (bg_pending _ _ _ _ Hb p Hrq) in Hp. injection Hp as <-. by rewrite Ht.
  - rewrite Hr. apply Hinv.
  - intros m k c Hw. apply next_waiting in Hw as [Hw|[-> Hrq]]; [|..|apply Hinv].
    + by eapply si_caps_waiting.
    + pose proof (bg_pending _ _ _ _ Hb _ Hrq). done.
  - intros t' x [[-> ->]|[Hne Hx]]%begun_lookup; [|by eapply si_cname].
    apply (bg_cname _ _ _ _ Hb). by eapply si_cname.
  - intros l n q x Hl Hq Hx Hcls. rewrite Hc in Hl.
    apply begun_lookup in Hx as [[Heq ->]|[Hne Hx]]; [|by eapply (si_named _ Hinv)].
    apply begun_has_cname. eapply (si_named _ Hinv); [done|done|by rewrite Heq|by rewrite <-begun_class].
  - intros m t' c x Hw Hx Hcls. apply next_waiting in Hw as [Hw|[-> Hrq]]; [|..|apply Hinv].
    + apply begun_lookup in Hx as [[-> ->]|[Hne Hx]]; [|by eapply (si_named_waiting _ Hinv)].
      apply begun_has_cname. eapply (si_named_waiting _ Hinv); [done|done|by rewrite <-begun_class].
    + pose proof (bg_pending _ _ _ _ Hb _ Hrq) as [= ->].
      apply begun_lookup in Hx as [[_ ->]|[Hne _]]; [|done].
      apply (bg_named _ _ _ _ Hb); [done|by rewrite <-begun_class|by eapply si_cname].
  - intros t' i h1 h2 H1%begun_holds H2%begun_holds.
    destruct H1 as [H1|(-> & -> & Hf & _)], H2 as [H2|(Heq & -> & Hf' & _)]; try done.
    + by eapply (si_unique _ Hinv).
    + subst t'. exfalso. by eapply Hf', (si_marked _ Hinv).
    + exfalso. by eapply Hf, (si_marked _ Hinv).
  - intros t' i h x Hh Hx.
    apply begun_holds in Hh as [Hh|(-> & _ & _ & Hu)];
      apply begun_lookup in Hx as [[Heq ->]|[Hne Hx]]; try done.
    + subst t'. by eapply begun_in_use, (si_marked _ Hinv).
    + by eapply (si_marked _ Hinv).
Qed.
End begun.

(** An answer makes a child. *)
Section answered.
Context (s : session) (w : world) (n : nat) (p : pending) (calls : calls_in_flight pending).
Context (l t : loc) (c : child).
Hypothesis Hinv : session_inv s.
Hypothesis Hres : resume_call n (sn_calls s) = Some (p, calls).
Hypothesis Hp : pending_transport p = Some t.
Hypothesis Hl : children (sn_world s) !! l = None.
Hypothesis Hc : children w = <[l := mkChildNode c t (pending_stream p)]> (children (sn_world s)).
Hypothesis Hk : forall t, t_kept <$> transports w !! t = t_kept <$> transports (sn_world s) !! t.
Hypothesis Hr : forall r, r_rtpCapabilities <$> routers w !! r = r_rtpCapabilities <$> routers (sn_world s) !! r.
Hypothesis Hq : forall q, c = CProducer q -> exists c', p = Pproduce t c' /\
  Producer.rtpParameters q = pr_rtpParameters c' /\
  Producer.consumableRtpParameters q = pr_consumableRtpParameters c'.

Lemma answered_waiting m q : waiting (mkSession w calls) m = Some q -> waiting s m = Some q /\ m <> n.
Proof.
  destruct (resume_lookup _ _ _ _ Hres) as [_ Hw]. unfold waiting. simpl. rewrite Hw. by case_decide.
Qed.

Lemma answered_call : waiting s n = Some p.
Proof. apply (resume_lookup _ _ _ _ Hres). Qed.

(** Who held a stream before. *)
Definition holder_before (h : loc + nat) : loc + nat :=
  match h with
  | inl l' => if decide (l' = l) then inr n else inl l'
  | inr m => inr m
  end.

Lemma answered_holds t' i h :
  holds (mkSession w calls) t' i h -> holds s t' i (holder_before h) /\ h <> inr n.
Proof.
  destruct h as [l'|m]; simpl.
  - intros (n' & Hl' & Ho & Ht & Hi). split; [|done]. rewrite Hc in Hl'.
    apply insert_inv in Hl' as [[-> ->]|[Hne Hl']].
    + rewrite decide_True by done. exists p. simpl in *. subst t'. by split_and!; [apply answered_call|..].
    + rewrite decide_False by done. by exists n'.
  - intros (q & Hw & Ht & Hi). apply answered_waiting in Hw as [Hw Hne]. split; [by exists q|congruence].
Qed.

Lemma answered_keeps : session_inv (mkSession w calls).
Proof.
  assert (forall t', is_Some (transports (sn_world s) !! t') -> is_Some (transports w !! t')) as Hex
    by (intros t'; by apply kept_is_Some).
  split; simpl.
  - eapply resume_wf; [exact Hres|apply Hinv].
  - intros l' n' Hl'. apply Hex. rewrite Hc in Hl'. apply insert_inv in Hl' as [[-> ->]|[_ Hl']]; simpl.
    + exact (si_waiting _ Hinv n p t answered_call Hp).
    + by eapply si_children.
  - intros m q t' [Hw _]%answered_waiting Ht'. apply Hex. by eapply si_waiting.
  - intros r ro Hro. specialize (Hr r). rewrite Hro in Hr. symmetry in Hr. apply fmap_Some in Hr as (ro0 & Hro0 & ->).
    by eapply si_caps.
  - intros m k c' [Hw _]%answered_waiting. by eapply si_caps_waiting.
  - intros t' tr (tr0 & Ht & [= _ -> _ _])%(kept_lookup _ _ _ _ Hk). by eapply si_cname.
  - intros l' n' q tr Hl' Hcq Ht Hcls. destruct (kept_lookup _ _ _ _ Hk Ht) as (tr0 & Ht0 & [= Hc0 -> _ _]).
    rewrite Hc in Hl'. apply insert_inv in Hl' as [[-> ->]|[_ Hl']]; simpl in *.
    + destruct (Hq q Hcq) as (c' & Hpc & -> & ->).
      eapply (si_named_waiting _ Hinv n t c' tr0); [|done|congruence]. rewrite answered_call. by f_equal.
    + eapply (si_named _ Hinv); [done|done|done|congruence].
  - intros m t' c' tr [Hw _]%answered_waiting Ht Hcls.
    destruct (kept_lookup _ _ _ _ Hk Ht) as (tr0 & Ht0 & [= Hc0 -> _ _]).
    eapply (si_named_waiting _ Hinv); [done|done|congruence].
  - intros t' i h1 h2 [H1 Hn1]%answered_holds [H2 Hn2]%answered_holds.
    pose proof (si_unique _ Hinv _ _ _ _ H1 H2) as Heq.
    destruct h1 as [l1|m1], h2 as [l2|m2]; simpl in Heq; repeat case_decide; congruence.
  - intros t' i h tr [Hh _]%answered_holds Ht.
    destruct (kept_lookup _ _ _ _ Hk Ht) as (tr0 & Ht0 & [= _ _ _ ->]). by eapply (si_marked _ Hinv).
Qed.
End answered.

(** A child is closed by itself or by its producer, and its stream is freed. *)
Lemma in_use_free s i j : in_use s i -> i <> j -> in_use (mark_stream false j s) i.
Proof.
  intros (used & Hs & Hi) Hne. exists (<[j := false]> used). unfold mark_stream. rewrite Hs. split; [done|].
  by rewrite list_lookup_insert_ne.
Qed.

Section removed.
Context (s : session) (w : world) (l : loc) (n : child_node).
Hypothesis Hinv : session_inv s.
Hypothesis Hl : children (sn_world s) !! l = Some n.
Hypothesis Hopen : node_open n.
Hypothesis Hrm : removed_child l n (sn_world s) w.

Lemma removed_lookup l' n' :
  children w !! l' = Some n' ->
  exists n0, children (sn_world s) !! l' = Some n0 /\ later n0 n' /\
    (node_open n' -> l' <> l /\ n' = n0).
Proof.
  destruct Hrm as (Hc & _). rewrite Hc. intros (n0 & Hl0 & ->)%alter_inv. exists n0. split; [done|].
  case_decide as Heq; [|by auto]. split; [apply later_close|]. unfold node_open. by rewrite close_node_closed.
Qed.

Lemma removed_holds t i h :
  holds (mkSession w (sn_calls s)) t i h -> holds s t i h /\ h <> inl l.
Proof.
  destruct h as [l'|m]; [|done].
  intros (n' & Hl' & Ho & Ht & Hi). apply removed_lookup in Hl' as (n0 & Hl0 & _ & Hn).
  destruct (Hn Ho) as [Hne ->]. split; [by exists n0|congruence].
Qed.

Lemma removed_transport t tr' :
  transports w !! t = Some tr' ->
  exists tr, transports (sn_world s) !! t = Some tr /\ t_class tr' = t_class tr /\ t_cname tr' = t_cname tr /\
    forall i h, holds s t i h -> h <> inl l -> in_use (t_sctp tr) i -> in_use (t_sctp tr') i.
Proof.
  destruct Hrm as (_ & Ht & _). rewrite Ht. intros (tr & Htr & ->)%alter_inv. exists tr. split; [done|].
  case_decide as Heq; [|done]. split; [done|]. split; [done|]. intros i h Hh Hne Hu. simpl.
  destruct (n_streamId n) as [j|] eqn:Hj; [|done]. apply in_use_free; [done|]. intros ->. apply Hne.
  eapply (si_unique _ Hinv); [exact Hh|]. exists n. by subst t.
Qed.

Lemma removed_keeps : session_inv (mkSession w (sn_calls s)).
Proof.
  assert (forall t, is_Some (transports (sn_world s) !! t) -> is_Some (transports w !! t)) as Hex.
  { destruct Hrm as (_ & Ht & _). rewrite Ht. intros t [tr Htr]. rewrite (alter_lookup _ _ _ _ _ Htr). eauto. }
  split; simpl.
  - apply Hinv.
  - intros l' n' (n0 & Hl0 & Hn & _)%removed_lookup. apply Hex.
    rewrite (lt_transport _ _ Hn).
    by eapply si_children.
  - intros m p t Hw Hp. apply Hex. by eapply si_waiting.
  - intros r ro Hro. destruct Hrm as (_ & _ & [Hr|(tr & _ & Hr)] & _); rewrite Hr in Hro.
    + by eapply si_caps.
    + apply alter_inv in Hro as (ro0 & Hro0 & ->). case_decide; by eapply (si_caps _ Hinv _ ro0).
  - apply Hinv.
  - intros t tr' (tr & Htr & _ & -> & _)%removed_transport. by eapply si_cname.
  - intros l' n' q' tr' Hl' Hq Ht Hcls. apply removed_lookup in Hl' as (n0 & Hl0 & Hn & _).
    destruct (closed_producer _ _ _ Hn Hq) as (q & Hq0 & -> & ->).
    rewrite (lt_transport _ _ Hn) in Ht. apply removed_transport in Ht as (tr & Ht & Hcl & -> & _).
    eapply (si_named _ Hinv); [done|done|done|congruence].
  - intros m t c tr' Hw (tr & Ht & Hcl & -> & _)%removed_transport Hcls.
    eapply (si_named_waiting _ Hinv); [done|done|congruence].
  - intros t i h1 h2 [H1 _]%removed_holds [H2 _]%removed_holds. by eapply (si_unique _ Hinv).
  - intros t i h tr' [Hh Hne]%removed_holds (tr & Ht & _ & _ & Hu)%removed_transport.
    eapply Hu; [done|done|]. by eapply (si_marked _ Hinv).
Qed.
End removed.

(** ** Every reachable state *)

Section reachable.
Context `{H264}.

Lemma resumed_waiting s w n p calls m q :
  resume_call n (sn_calls s) = Some (p, calls) -> waiting (mkSession w calls) m = Some q -> waiting s m = Some q.
Proof. intros [_ Hl]%resume_lookup. unfold waiting. simpl. rewrite Hl. by case_decide. Qed.

Lemma calm_quiet s w calls :
  session_inv s -> calm (sn_world s) w -> calls_wf calls ->
  (forall m q, waiting (mkSession w calls) m = Some q ->
     waiting s m = Some q \/ pending_transport q = None /\ forall k c, q = Prouter k c -> caps_allocated (cr_rtpCapabilities c)) ->
  quiet_step s (mkSession w calls).
Proof.
  intros Hi [Hc Ht Hr] Hwf Hw. split; simpl; try done.
  - intros t tr Htr. left. by eapply kept_lookup.
  - intros t. by apply kept_is_Some.
  - intros r ro Hro. specialize (Hr r). rewrite Hro in Hr. symmetry in Hr.
    apply fmap_Some in Hr as (ro0 & Hro0 & ->). by eapply (si_caps _ Hi).
Qed.

(** A call ends, and nothing but details changes. *)
Lemma resume_quiet s w n p calls :
  session_inv s -> resume_call n (sn_calls s) = Some (p, calls) -> calm (sn_world s) w ->
  quiet_step s (mkSession w calls).
Proof.
  intros Hi Hres Hc. apply calm_quiet; [done..| |].
  - eapply resume_wf; [exact Hres|apply Hi].
  - intros m q Hw. left. by eapply resumed_waiting.
Qed.

(** A call of a method that makes nothing begins. *)
Lemma details_quiet s w r :
  session_inv s -> calm (sn_world s) w -> (forall p, r = Ok p -> exists a, p = Pmethod a) ->
  quiet_step s (next_session w r s).
Proof.
  intros Hi Hc Hp. apply calm_quiet; [done..| |].
  - apply (next_wf s w), Hi.
  - intros m q [?|[-> Hq]]%next_waiting; [by left| |apply Hi]. right. by destruct (Hp q Hq) as [a ->].
Qed.

Lemma calm_keeps s w : session_inv s -> calm (sn_world s) w -> session_inv (mkSession w (sn_calls s)).
Proof. intros Hi Hc. apply (quiet_keeps s); [done|]. apply calm_quiet; [done..|apply Hi|auto]. Qed.

(** A call that makes something else than a child ends. *)
Lemma other_quiet s w n p calls :
  session_inv s -> resume_call n (sn_calls s) = Some (p, calls) ->
  children w = children (sn_world s) -> fresh_or_kept (sn_world s) w ->
  (forall t, is_Some (transports (sn_world s) !! t) -> is_Some (transports w !! t)) ->
  (forall r ro, routers w !! r = Some ro ->
     (exists ro0, routers (sn_world s) !! r = Some ro0 /\ r_rtpCapabilities ro = r_rtpCapabilities ro0) \/
     exists k c, p = Prouter k c /\ r_rtpCapabilities ro = cr_rtpCapabilities c) ->
  quiet_step s (mkSession w calls).
Proof.
  intros Hi Hres Hc Ht Hex Hr. split; try done.
  - eapply resume_wf; [exact Hres|apply Hi].
  - by apply children_closed_refl.
  - intros r ro Hro. destruct (Hr r ro Hro) as [(ro0 & Hro0 & ->)|(k & c & -> & ->)].
    + by eapply (si_caps _ Hi).
    + eapply (si_caps_waiting _ Hi n). apply (resume_lookup _ _ _ _ Hres).
  - intros m q Hw. left. by eapply resumed_waiting.
Qed.

Lemma session_step_keeps s s' : session_inv s -> session_step s s' -> session_inv s'.
Proof.
  intros Hi Hs. revert Hi.
  destruct Hs as [c s1 Hok|n l data s1 p calls w Hres Hacc Hf|n e s1 p calls Hres|s1 w He]; intros Hi.
  - unfold begin_call. destruct (begin c (sn_world s1)) as [w r] eqn:Hb.
    assert (session_inv (next_session w r s1)) as Hn; [|by destruct r].
    apply begin_cases in Hb as [Hsame Hp Hcaps|t tr tr' Hc Hr Ht Hts Hb|Ha Hp]; [..|done].
    + exact (elsewhere_keeps s1 w r Hi Hsame Hp Hcaps).
    + by apply (begun_keeps s1 w t tr tr' r).
    + apply (quiet_keeps s1); [done|]. apply details_quiet; [done|by apply alike_calm|done].
  - destruct (finish_cases _ _ _ _ _ Hacc Hf) as [l' t c Hp Ht Hl Hc Hk Hr Hq|Hp Hc Ht Hex Hr|a -> Ha].
    + by eapply (answered_keeps s1 w n p calls l' t c).
    + apply (quiet_keeps s1); [done|]. by eapply (other_quiet s1 w n p calls).
    + apply (quiet_keeps s1); [done|]. eapply resume_quiet; [done|exact Hres|by apply alike_calm].
  - apply (quiet_keeps s1); [done|]. eapply resume_quiet; [done|exact Hres|apply alike_calm, failed_alike].
  - destruct (event_cases _ _ He) as [Hc|(l & n & Hl & Ho & Hrm)]; [by apply calm_keeps|].
    by eapply removed_keeps.
Qed.

Lemma session_reachable_inv s : session_reachable s -> session_inv s.
Proof. induction 1; [apply session_inv_start|by eapply session_step_keeps]. Qed.
End reachable.

(** ** Streams that nothing holds *)

(** The stream is marked as used, and no data consumer that is open and no call
    has it. *)
Definition leaked (s : session) (t : loc) (i : nat) : Prop :=
  (exists tr, transports (sn_world s) !! t = Some tr /\ in_use (t_sctp tr) i) /\ forall h, ~ holds s t i h.

Section leaked.
Context `{H264} (t : loc) (i : nat).

Lemma quiet_leaked s s' : quiet_step s s' -> leaked s t i -> leaked s' t i.
Proof.
  intros Hq [(tr & Ht & Hu) Hno]. split; [|intros h Hh; by eapply Hno, quiet_holds].
  destruct (qs_existing _ _ Hq t) as [tr' Ht']; [by eexists|]. exists tr'. split; [done|].
  destruct (qs_transports _ _ Hq _ _ Ht') as [(tr0 & Ht0 & [= _ _ _ ->])|[Hn _]]; congruence.
Qed.

Lemma begun_leaked s w tr tr' t' r :
  session_inv s -> children w = children (sn_world s) ->
  transports (sn_world s) !! t' = Some tr -> transports w = <[t' := tr']> (transports (sn_world s)) ->
  begun t' tr tr' r -> leaked s t i -> leaked (next_session w r s) t i.
Proof.
  intros Hi Hc Ht Hts Hb [(tr0 & Ht0 & Hu) Hno]. split.
  - simpl. rewrite Hts. destruct (decide (t = t')) as [->|Hne].
    + exists tr'. rewrite lookup_insert_eq. split; [done|]. rewrite Ht in Ht0. injection Ht0 as <-.
      by eapply begun_in_use.
    + exists tr0. by rewrite lookup_insert_ne by congruence.
  - intros h Hh. eapply begun_holds in Hh as [Hh|(Heq & _ & Hf & _)]; [by eapply Hno| |done..].
    apply Hf. rewrite Heq, Ht in Ht0. by injection Ht0 as ->.
Qed.

Lemma session_step_leaked s s' : session_inv s -> session_step s s' -> leaked s t i -> leaked s' t i.
Proof.
  intros Hi Hs. pose proof (session_step_keeps s s' Hi Hs) as Hi'. revert Hi Hi'.
  destruct Hs as [c s1 Hok|n l data s1 p calls w Hres Hacc Hf|n e s1 p calls Hres|s1 w He]; intros Hi Hi' Hl.
  - unfold begin_call. destruct (begin c (sn_world s1)) as [w r] eqn:Hb.
    assert (leaked (next_session w r s1) t i) as Hn; [|by destruct r].
    apply begin_cases in Hb as [(Hc & Ht & Hr) Hp Hcaps|t' tr tr' Hc Hr Ht Hts Hb|Ha Hp]; [..|done].
    + destruct Hl as [Hu Hno]. split; [by rewrite <-Ht in Hu|]. intros h Hh. apply (Hno h).
      destruct h as [l|m]; [by simpl in Hh; rewrite Hc in Hh|]. destruct Hh as (p & Hw & Hpt & Hps).
      apply next_waiting in Hw as [Hw|[-> Hrp]]; [by exists p| |apply Hi]. rewrite (Hp p Hrp) in Hpt. done.
    + by eapply begun_leaked.
    + eapply quiet_leaked; [|exact Hl]. apply details_quiet; [done|by apply alike_calm|done].
  - destruct (finish_cases _ _ _ _ _ Hacc Hf) as [l' t' c Hp Ht' Hln Hc Hk Hr Hq|Hp Hc Ht' Hex Hr|a -> Ha].
    + destruct Hl as [(tr & Ht & Hu) Hno]. split.
      * destruct (kept_is_Some (sn_world s1) w t Hk) as [tr' Htr]; [by eexists|]. exists tr'. split; [done|].
        destruct (kept_lookup _ _ _ _ Hk Htr) as (tr0 & Ht0 & [= _ _ _ ->]). congruence.
      * intros h Hh. eapply (answered_holds s1 w n p calls l' t' c) in Hh as [Hh _]; [|done..]. by eapply Hno.
    + eapply quiet_leaked; [|exact Hl]. by eapply (other_quiet s1 w n p calls).
    + eapply quiet_leaked; [|exact Hl]. eapply resume_quiet; [done|exact Hres|by apply alike_calm].
  - eapply quiet_leaked; [|exact Hl]. eapply resume_quiet; [done|exact Hres|apply alike_calm, failed_alike].
  - destruct (event_cases _ _ He) as [Hc|(l & n & Hln & Ho & Hrm)].
    + eapply quiet_leaked; [|exact Hl]. apply calm_quiet; [done..|apply Hi|auto].
    + destruct Hl as [(tr & Ht & Hu) Hno]. split.
      * destruct Hrm as (_ & Hts & _). simpl. rewrite Hts. eexists. split; [by apply alter_lookup|].
        case_decide as Heq; [|done]. simpl. destruct (n_streamId n) as [j|] eqn:Hj; [|done].
        apply in_use_free; [done|]. intros ->. apply (Hno (inl l)). exists n. by split_and!.
      * intros h Hh. eapply (removed_holds s1 w l n) in Hh as [Hh _]; [|done..]. by eapply Hno.
Qed.

Lemma leaked_forever s s' : session_inv s -> rtc session_step s s' -> leaked s t i -> leaked s' t i.
Proof.
  intros Hi Hs. induction Hs as [|s1 s2 s3 Hs _ IH]; [done|]. intros Hl.
  apply IH; [by eapply session_step_keeps|by eapply session_step_leaked].
Qed.
End leaked.

(** ** A CNAME that is settled *)

Section settled.
Context `{H264} (t : loc) (cname : string).

Definition settled_cname (s : session) : Prop :=
  exists tr, transports (sn_world s) !! t = Some tr /\ t_cname tr = Some cname.

Lemma kept_settled s w calls :
  (forall t, t_kept <$> transports w !! t = t_kept <$> transports (sn_world s) !! t) ->
  settled_cname s -> settled_cname (mkSession w calls).
Proof.
  intros Hk (tr & Ht & Hc). destruct (kept_is_Some (sn_world s) w t Hk) as [tr' Htr]; [by eexists|].
  exists tr'. split; [done|]. destruct (kept_lookup _ _ _ _ Hk Htr) as (tr0 & Ht0 & [= _ -> _ _]). congruence.
Qed.

Lemma session_step_settled s s' : session_inv s -> session_step s s' -> settled_cname s -> settled_cname s'.
Proof.
  intros Hi Hs. revert Hi.
  destruct Hs as [c s1 Hok|n l data s1 p calls w Hres Hacc Hf|n e s1 p calls Hres|s1 w He]; intros Hi Hset.
  - unfold begin_call. destruct (begin c (sn_world s1)) as [w r] eqn:Hb.
    assert (settled_cname (next_session w r s1)) as Hn; [|by destruct r].
    apply begin_cases in Hb as [(Hc & Ht & Hr) Hp Hcaps|t' tr tr' Hc Hr Ht Hts Hb|Ha Hp]; [..|done].
    + destruct Hset as (tr & Htr & Hcn). exists tr. split; [simpl; by rewrite Ht|done].
    + destruct Hset as (tr0 & Htr & Hcn). simpl. unfold settled_cname. simpl. rewrite Hts.
      destruct (decide (t = t')) as [Heq|Hne].
      * exists tr'. rewrite Heq, lookup_insert_eq. split; [done|].
        rewrite Heq, Ht in Htr. injection Htr as <-.
        destruct (bg_cname _ _ _ _ Hb) as [_ Hk]; [by eapply (si_cname _ Hi)|]. by rewrite Hk, Hcn by (by eexists).
      * exists tr0. by rewrite lookup_insert_ne by congruence.
    + apply (kept_settled s1); [|done]. by apply alike_calm.
  - destruct (finish_cases _ _ _ _ _ Hacc Hf) as [l' t' c Hp Ht' Hl Hc Hk Hr Hq|Hp Hc Hfk Hex Hr|a -> Ha].
    + by apply (kept_settled s1).
    + destruct Hset as (tr & Htr & Hcn). destruct (Hex t) as [tr' Htr']; [by eexists|]. exists tr'. split; [done|].
      destruct (Hfk _ _ Htr') as [(tr0 & Ht0 & [= _ -> _ _])|[Hn _]]; congruence.
    + apply (kept_settled s1); [|done]. by apply alike_calm.
  - apply (kept_settled s1); [|done]. apply alike_calm, failed_alike.
  - destruct (event_cases _ _ He) as [[Hc Ht Hr]|(l & n & Hln & Ho & Hrm)].
    + by apply (kept_settled s1).
    + destruct Hset as (tr & Htr & Hcn), Hrm as (_ & Hts & _). unfold settled_cname. simpl. rewrite Hts.
      eexists. split; [by apply alter_lookup|]. by case_decide.
Qed.

Lemma settled_forever s s' :
  session_inv s -> rtc session_step s s' -> settled_cname s -> settled_cname s'.
Proof.
  intros Hi Hs. induction Hs as [|s1 s2 s3 Hs _ IH]; [done|]. intros Hl.
  apply IH; [by eapply session_step_keeps|by eapply session_step_settled].
Qed.
End settled.
