(* ===== verification/SessionProps.v ===== *)
(** * Properties of the creating methods

    Over the system of Session.v: what the application is promised when it calls
    [produce], [consume] and their counterparts for data at any time, and a
    stream that is lost when [consumeData] fails. *)

From S2P Require Import Prelude Js RtpParameters Validate Ortc OrtcConsumer RequestBodies Framing Events TransportState World TransportCalls RouterCalls CallsSpec WorldSpec Registry WorldInv Closing Cascade Lifecycle Delivery Methods WorldProps Session SessionInv.
From S2P Require Producer Consumer DataProducer DataConsumer RtpObserver TransportEvents.

(** ** An example

    A worker, a router, a PlainTransport with one SCTP stream, a producer of Opus,
    a data producer, and a data consumer whose request fails. *)

#[local] Existing Instance example_h264.

Definition demo_answer (l n : nat) (data : val) (s : session) : session :=
  match resume_call n (sn_calls s) with
  | Some (p, calls) =>
      match finish l p data (sn_world s) with Ok w => mkSession w calls | Err _ => s end
  | None => s
  end.

Definition demo_failure (n : nat) (s : session) : session :=
  match resume_call n (sn_calls s) with
  | Some (p, calls) => mkSession (failed (PlainError "error") p (sn_world s)) calls
  | None => s
  end.

Definition demo_worker : session :=
  mkSession (set_workers (insert 0 (mkWorker false false false [] [])) empty_world) no_calls.
Definition demo_routing : session :=
  begin_call (CcreateRouter 0 (VObj [("mediaCodecs", example_mediaCodecs)]) "router") demo_worker.
Definition demo_routed : session := demo_answer 0 0 VUndef demo_routing.
Definition demo_connecting : session :=
  begin_call (CcreatePlainTransport 0 (VObj [("listenIp", VStr "127.0.0.1")]) "transport") demo_routed.
Definition demo_transport_data : val :=
  VObj [("sctpParameters", VObj [("MIS", VNum 1)]); ("sctpState", VStr "new")].
Definition demo_connected : session := demo_answer 0 1 demo_transport_data demo_connecting.

Definition demo_opus : val :=
  VObj [("kind", VStr "audio");
        ("rtpParameters",
           VObj [("codecs", VArr [VObj [("mimeType", VStr "audio/opus"); ("payloadType", VNum 111);
                                        ("clockRate", VNum 48000); ("channels", VNum 2)]] [])])].
Definition demo_producing_call : call := Cproduce 0 demo_opus "0123456789" "producer" 123456789.
Definition demo_producing : session := begin_call demo_producing_call demo_connected.
Definition demo_produced : session := demo_answer 0 2 (VObj [("type", VStr "simple")]) demo_producing.

Definition demo_producingData : session :=
  begin_call (CproduceData 0 (VObj [("sctpStreamParameters", VObj [("streamId", VNum 7)])]) "dataProducer")
    demo_produced.
Definition demo_producedData : session :=
  demo_answer 1 3 (VObj [("type", VStr "sctp"); ("sctpStreamParameters", VObj [("streamId", VNum 7)]);
                         ("label", VStr ""); ("protocol", VStr "")]) demo_producingData.
Definition demo_consumingData_call : call :=
  CconsumeData 0 (VObj [("dataProducerId", VStr "dataProducer")]) "dataConsumer".
Definition demo_consumingData : session := begin_call demo_consumingData_call demo_producedData.
Definition demo_failed : session := demo_failure 4 demo_consumingData.

Lemma demo_call_step c s : call_ok c -> session_reachable s -> session_reachable (begin_call c s).
Proof. intros Hc Hs. eapply session_next; [exact Hs|]. by constructor. Qed.

Lemma demo_answer_step l n data s p calls w :
  session_reachable s -> resume_call n (sn_calls s) = Some (p, calls) ->
  finish l p data (sn_world s) = Ok w -> accepted l p (sn_world s) ->
  session_reachable (demo_answer l n data s).
Proof.
  intros Hs Hr Hf Ha. eapply session_next; [exact Hs|]. unfold demo_answer. rewrite Hr, Hf.
  by eapply session_answer.
Qed.

Lemma demo_failure_step n s p calls :
  session_reachable s -> resume_call n (sn_calls s) = Some (p, calls) -> session_reachable (demo_failure n s).
Proof.
  intros Hs Hr. eapply session_next; [exact Hs|]. unfold demo_failure. rewrite Hr. by eapply session_failure.
Qed.

(** Deciding that an id is not in use. *)
Lemma demo_fresh_child k id r w :
  forallb (fun ln : loc * child_node => negb (bool_decide (child_id (n_child ln.2) = id)))
    (map_to_list (children w)) = true -> fresh_child_id k id r w.
Proof.
  rewrite forallb_forall. intros H l n tr Hl _ _ Hid.
  specialize (H (l, n) (proj1 (list_elem_of_In _ _) (proj2 (elem_of_map_to_list _ _ _) Hl))).
  simpl in H. by rewrite bool_decide_eq_true_2 in H.
Qed.

Lemma demo_new_child l t k id w tr :
  children w !! l = None -> transports w !! t = Some tr -> t_closed tr = false ->
  forallb (fun ln : loc * child_node => negb (bool_decide (child_id (n_child ln.2) = id)))
    (map_to_list (children w)) = true -> new_child l t k id w.
Proof. intros Hl Ht Ho Hf. split; [done|]. exists tr. split_and!; [done|done|by apply demo_fresh_child]. Qed.

Lemma demo_connected_reachable : session_reachable demo_connected.
Proof.
  assert (session_reachable demo_worker) as H0.
  { apply (session_next (mkSession empty_world no_calls)); [constructor|].
    apply (session_event (mkSession empty_world no_calls)). by constructor. }
  assert (session_reachable demo_routed) as H1.
  { eapply demo_answer_step; [by apply demo_call_step|vm_compute; reflexivity|vm_compute; reflexivity|].
    split; [done|]. by eexists. }
  eapply demo_answer_step; [by apply demo_call_step|vm_compute; reflexivity|vm_compute; reflexivity|].
  split; [vm_compute; reflexivity|]. split; [by intros t tr Ht%demo_empty|].
  eexists. split; [vm_compute; reflexivity|]. done.
Qed.

Lemma demo_producedData_reachable : session_reachable demo_producedData.
Proof.
  assert (session_reachable demo_produced) as H1.
  { eapply demo_answer_step; [apply demo_call_step; [done|apply demo_connected_reachable]|vm_compute; reflexivity|
      vm_compute; reflexivity|]. eapply demo_new_child; vm_compute; reflexivity. }
  eapply demo_answer_step; [by apply demo_call_step|vm_compute; reflexivity|vm_compute; reflexivity|].
  eapply demo_new_child; vm_compute; reflexivity.
Qed.

Lemma demo_failed_reachable : session_reachable demo_failed.
Proof.
  eapply demo_failure_step; [|vm_compute; reflexivity].
  apply (demo_call_step demo_consumingData_call); [done|apply demo_producedData_reachable].
Qed.

(** [pause] waits: the producer is paused when the answer comes, and not at all
    when the request fails. *)
Definition demo_pausing : session := begin_call (Cmethod (Mchild 0 (Pop Producer.Pause))) demo_produced.
Definition demo_is_paused (s : session) : option bool :=
  n ← children (sn_world s) !! 0;
  match n_child n with CProducer p => Some (Producer.paused p) | _ => None end.
Example demo_paused :
  map demo_is_paused [demo_pausing; demo_answer 0 3 VUndef demo_pausing; demo_failure 3 demo_pausing] =
    [Some false; Some true; Some false].
Proof. vm_compute. reflexivity. Qed.

(** [connect] waits: the tuple is the one of the answer. *)
Definition demo_connecting_plain : session :=
  begin_call (Cmethod (Mtransport 0 (TransportEvents.Connect (VObj [("ip", VStr "127.0.0.1"); ("port", VNum 5000)]))))
    demo_connected.
Definition demo_tuple (s : session) : option (option val) :=
  tr ← transports (sn_world s) !! 0;
  Some (jget "tuple" (t_data tr)).
Example demo_connect :
  map demo_tuple [demo_connecting_plain; demo_answer 0 2 (VObj [("tuple", VStr "5000")]) demo_connecting_plain] =
    [Some (Some VUndef); Some (Some (VStr "5000"))].
Proof. vm_compute. reflexivity. Qed.

(** ** Properties *)

Lemma add_child_children l t c streamId w :
  children (add_child l t c streamId w) = <[l := mkChildNode c t streamId]> (children w).
Proof.
  unfold add_child, tell_router_new. destruct (new_event _); [|by case_decide].
  destruct (transports _ !! t); by case_decide.
Qed.

Section properties.
Context {h264 : H264}.


(** C28: one CNAME per transport: at any time all producers of a transport that
    is not a PipeTransport, open or closed, and what consumers see of them, have
    the CNAME the transport keeps, whatever the application asked for; and the
    transport keeps it for ever. *)
Theorem producers_share_cname s t tr l n p :
  session_reachable s -> transports (sn_world s) !! t = Some tr -> t_class tr <> PipeTransport ->
  children (sn_world s) !! l = Some n -> n_transport n = t -> n_child n = CProducer p ->
  exists cname, t_cname tr = Some cname /\
    rtcp_cname (rp_rtcp (Producer.rtpParameters p)) = Some cname /\
    rtcp_cname (rp_rtcp (Producer.consumableRtpParameters p)) = Some cname /\
    forall s', rtc session_step s s' ->
      exists tr', transports (sn_world s') !! t = Some tr' /\ t_cname tr' = Some cname.
Proof.
  intros Hs%session_reachable_inv Ht Hcls Hl Hn Hp. subst t.
  destruct (si_named _ Hs l n p tr Hl Hp Ht Hcls) as ([cname Hc] & H1 & H2). exists cname.
  rewrite Hc in H1, H2. split_and!; [done..|]. intros s' Hs'.
  eapply (settled_forever (n_transport n) cname s s' Hs Hs'). by exists tr.
Qed.

(** C20: SCTP streams are not shared: at any time two open data consumers of a
    transport with the same stream are the same one, no call in flight has
    reserved a stream of an open data consumer or of another call, and the
    streams they have are marked as used. *)
Theorem streams_not_shared s t tr i h1 h2 :
  session_reachable s -> transports (sn_world s) !! t = Some tr ->
  holds s t i h1 -> holds s t i h2 -> h1 = h2 /\ in_use (t_sctp tr) i.
Proof.
  intros Hs%session_reachable_inv Ht H1 H2. split; [by eapply (si_unique _ Hs)|by eapply (si_marked _ Hs)].
Qed.

(** A failed [consumeData] loses its SCTP stream: from then on, whatever
    happens, the stream is marked as used and nothing holds it. *)
Theorem failed_consumeData_loses_stream s m p calls t i s' :
  session_reachable s -> resume_call m (sn_calls s) = Some (p, calls) ->
  pending_transport p = Some t -> pending_stream p = Some i ->
  rtc session_step (mkSession (sn_world s) calls) s' -> leaked s' t i.
Proof.
  intros Hs%session_reachable_inv Hres Ht Hp Hrun.
  assert (session_step s (mkSession (sn_world s) calls)) as Hstep.
  { pose proof (session_failure m (PlainError "error") s p calls Hres) as Hf. by destruct p. }
  eapply leaked_forever; [by eapply session_step_keeps|exact Hrun|].
  destruct (resume_lookup _ _ _ _ Hres) as [Hw Hrest].
  assert (holds s t i (inr m)) as Hh by by exists p.
  destruct (holds_transport _ _ _ _ Hs Hh) as [tr Htr]. split.
  - exists tr. split; [done|]. by eapply (si_marked _ Hs).
  - intros h Hh'.
    assert (holds s t i h /\ h <> inr m) as [Hh1 Hne].
    { destruct h as [l|m']; [done|]. destruct Hh' as (q & Hq & Hrest'). unfold waiting in Hq. simpl in Hq.
      rewrite Hrest in Hq. case_decide; [done|]. split; [by exists q|congruence]. }
    apply Hne. by eapply (si_unique _ Hs).
Qed.

(** C17: [produce] as a list of checks: at any time a call throws exactly what
    the first failing check throws (the id is taken, the kind, the application
    data, the validation of the parameters, their mapping to the router), and a
    request is sent when there is none: after the mapping nothing can throw, for
    the capabilities of every router are such that the consumable parameters
    exist. *)
Theorem produce_refused_exactly s t tr ro options uuid1 uuid2 rnd :
  session_reachable s -> transports (sn_world s) !! t = Some tr ->
  routers (sn_world s) !! t_router tr = Some ro ->
  error_of (begin (Cproduce t options uuid1 uuid2 rnd) (sn_world s)).2 =
    produce_refusal (access_of (sn_world s) ro) options uuid1 rnd tr.
Proof.
  intros Hs%session_reachable_inv Ht Hro. rewrite <-(produce_refusal_spec _ _ _ uuid2); [|by eapply (si_caps _ Hs)].
  simpl. unfold run_method. rewrite Ht, Hro.
  destruct (produce _ _ _ _ _ tr) as [tr' [[e a]|e]]; done.
Qed.

(** C27: what the worker is told of a producer is what the application gets: the
    request of [produce] carries the id, the kind and the parameters, with at
    least one encoding and one mapped SSRC per encoding, that the producer made
    from the answer has. *)
Theorem produce_tells_worker t options uuid1 uuid2 rnd w w1 c :
  begin (Cproduce t options uuid1 uuid2 rnd) w = (w1, Ok (Pproduce t c)) ->
  exists tr body mapping, transports w !! t = Some tr /\
    log w1 = log w ++ [(Otransport t, Request "transport.produce" (Some (t_id tr)) body)] /\
    prop "producerId" body = VStr (pr_producerId c) /\
    as_kind (prop "kind" body) = Some (pr_kind c) /\
    RtpParameters_view (prop "rtpParameters" body) = Some (pr_rtpParameters c) /\
    prop "rtpMapping" body = RtpMapping_val mapping /\
    rp_encodings (pr_rtpParameters c) <> [] /\
    length (map_encodings mapping) = length (rp_encodings (pr_rtpParameters c)) /\
    forall l data w2 w3, finish l (Pproduce t c) data w2 = Ok w3 ->
      exists p, n_child <$> children w3 !! l = Some (CProducer p) /\
        Producer.producerId p = pr_producerId c /\ Producer.kind p = pr_kind c /\
        Producer.rtpParameters p = pr_rtpParameters c /\
        Producer.consumableRtpParameters p = pr_consumableRtpParameters c /\ Producer.closed p = false.
Proof.
  intros Hb. simpl in Hb. unfold run_method in Hb. destruct (transports w !! t) as [tr|] eqn:Ht; [|done].
  destruct (routers w !! t_router tr) as [ro|]; [|done].
  destruct (produce _ _ _ _ _ tr) as [tr' [[e a]|e]] eqn:Hp; [|done].
  injection Hb as <- ->.
  apply produce_Ok in Hp as (v & p & mapping & _ & _ & Hk & _ & _ & _ & Hm & _ & _ & ->).
  do 3 eexists. split; [done|]. split; [done|]. split; [done|].
  split; [by destruct (pr_kind c)|]. split; [apply RtpParameters_view_val|]. split; [done|].
  apply getProducerRtpParametersMapping_inv in Hm as (_ & He & _ & _ & Hme).
  assert (rp_encodings (pr_rtpParameters c) = rp_encodings (with_encoding p)) as Henc.
  { rewrite He. unfold named. by case_decide. }
  split; [rewrite Henc; unfold with_encoding; by destruct (rp_encodings p) eqn:Hr; [|rewrite Hr]|].
  split; [rewrite Hme, Henc, length_imap; unfold named; by case_decide|].
  intros l data w2 w3 Hf. simpl in Hf. unfold produce_continue in Hf. inv_result.
  unfold produce_done. eexists. rewrite add_child_children, lookup_insert_eq. by split.
Qed.

(** C21: what [canConsume] of a router promises: when it answers [true], [consume]
    on any transport of the router (but a PipeTransport, which looks at no
    capabilities) sends its request for the same producer and capabilities,
    whatever the other options, and the first codec of the parameters it sends
    is a media codec. *)
Theorem canConsume_then_consume w t tr ro options uuid rnd1 rnd2 :
  transports w !! t = Some tr -> routers w !! t_router tr = Some ro -> t_class tr <> PipeTransport ->
  consume_options_ok options ->
  router_canConsume (access_of w ro) (text (prop "producerId" options)) (prop "rtpCapabilities" options) = true ->
  exists w' c body codec codecs,
    begin (Cconsume t options uuid rnd1 rnd2) w = (w', Ok (Pconsume t c)) /\
    log w' = log w ++ [(Otransport t, Request "transport.consume" (Some (t_id tr)) body)] /\
    RtpParameters_view (prop "rtpParameters" body) = Some (co_rtpParameters c) /\
    rp_codecs (co_rtpParameters c) = codec :: codecs /\ isRtxCodec codec = false.
Proof.
  intros Ht Hro Hcls Hok Hcan.
  destruct (transport_consume_total _ _ uuid rnd1 rnd2 tr Hok Hcan) as (tr' & e & c & Hc).
  assert (consume (access_of w ro) options uuid rnd1 rnd2 tr = (tr', Ok (e, c))) as Hc'.
  { unfold consume. rewrite this_bind, <-Hc. by destruct (t_class tr). }
  apply transport_consume_Ok in Hc as (producer & caps & rtx & p & _ & _ & _ & Hp & _ & _ & Hr & _ & _ & ->).
  apply getConsumerRtpParameters_inv in Hp as (v & cs & codecs & rtxs & _ & _ & _ & (codec & l & Hcodecs & Hmedia) & ->).
  simpl. unfold run_method. rewrite Ht, Hro, Hc'. simpl.
  do 5 eexists. split; [done|]. split; [done|]. split; [apply RtpParameters_view_val|].
  rewrite Hr. destruct (truthy (prop "pipe" options)); simpl; rewrite Hcodecs; simpl; split; try done.
Qed.
End properties.

(** ** Witnesses *)


(** The CNAME is made of the first random id. *)
Lemma producers_share_cname_witness :
  exists tr, transports (sn_world demo_producedData) !! 0 = Some tr /\ t_cname tr = Some "01234567".
Proof.
  edestruct (fun tr => producers_share_cname demo_producedData 0 tr 0) as (cname & Hc & _);
    [apply demo_producedData_reachable|vm_compute; reflexivity|discriminate|
     vm_compute; reflexivity|reflexivity|reflexivity|].
  eexists. split; [vm_compute; reflexivity|]. etransitivity; [exact Hc|by rewrite <-Hc].
Defined.

Lemma streams_not_shared_witness :
  exists tr, transports (sn_world demo_consumingData) !! 0 = Some tr /\ in_use (t_sctp tr) 0.
Proof.
  assert (session_reachable demo_consumingData) as Hs.
  { apply (demo_call_step demo_consumingData_call); [done|apply demo_producedData_reachable]. }
  assert (holds demo_consumingData 0 0 (inr 4)) as Hh.
  { eexists. split; [vm_compute; reflexivity|]. split; reflexivity. }
  eexists. split; [vm_compute; reflexivity|].
  eapply (streams_not_shared demo_consumingData 0 _ 0 (inr 4) (inr 4) Hs); [vm_compute; reflexivity|exact Hh|exact Hh].
Defined.

(** The transport has one stream: after the failure there is none left. *)
Lemma failed_consumeData_loses_stream_witness :
  leaked demo_failed 0 0 /\
  (begin demo_consumingData_call (sn_world demo_failed)).2 = Err (PlainError "no sctpStreamId available").
Proof.
  split; [|vm_compute; reflexivity].
  assert (session_reachable demo_consumingData) as Hs.
  { apply (demo_call_step demo_consumingData_call); [done|apply demo_producedData_reachable]. }
  eapply (failed_consumeData_loses_stream demo_consumingData 4);
    [exact Hs|vm_compute; reflexivity|reflexivity|reflexivity|].
  vm_compute. apply rtc_refl.
Defined.

Lemma produce_refused_exactly_witness :
  error_of (begin demo_producing_call (sn_world demo_connected)).2 = None.
Proof.
  unfold demo_producing_call.
  etransitivity; [eapply (produce_refused_exactly demo_connected);
    [apply demo_connected_reachable|vm_compute; reflexivity|vm_compute; reflexivity]|].
  vm_compute. reflexivity.
Defined.

Lemma produce_tells_worker_witness :
  exists c body, (begin demo_producing_call (sn_world demo_connected)).2 = Ok (Pproduce 0 c) /\
    pr_producerId c = "producer" /\ prop "producerId" body = VStr (pr_producerId c).
Proof.
  edestruct (produce_tells_worker 0 demo_opus "0123456789" "producer" 123456789 (sn_world demo_connected))
    as (tr & body & mapping & _ & _ & Hid & _); [vm_compute; reflexivity|].
  eexists _, body. split; [vm_compute; reflexivity|]. split; [reflexivity|exact Hid].
Defined.

Definition demo_consume_options : val :=
  VObj [("producerId", VStr "producer");
        ("rtpCapabilities",
           VObj [("codecs", VArr [VObj [("mimeType", VStr "audio/opus"); ("clockRate", VNum 48000);
                                        ("channels", VNum 2)]] [])])].

Lemma canConsume_then_consume_witness :
  exists w' c, begin (Cconsume 0 demo_consume_options "consumer" 1 2) (sn_world demo_producedData) =
    (w', Ok (Pconsume 0 c)).
Proof.
  edestruct (fun tr ro => canConsume_then_consume (sn_world demo_producedData) 0 tr ro demo_consume_options
    "consumer" 1 2)
    as (w' & c & body & codec & codecs & Hb & _);
    [vm_compute; reflexivity|vm_compute; reflexivity|discriminate|..].
  - split; [reflexivity|]. split; [reflexivity|]. split; [reflexivity|]. discriminate.
  - vm_compute. reflexivity.
  - exists w', c. exact Hb.
Defined.
