(* ===== verification/Stack.v ===== *)
(** * Calls over the channels of their workers

    Session.v answers calls at any time; here the answers come from Channel.v.
    Every worker has a channel.  A method writes its request on the channel of
    the worker its object belongs to and awaits the promise that
    [Channel.request] returns; a chunk from the worker, or the closing of the
    channel, settles promises; a microtask then runs the rest of the method that
    awaits one.  A notification goes to whoever is subscribed to its id.  The
    closing methods write requests too and do not wait for them.  The payload
    channel of the worker calls listeners while it takes chunks, and carries what
    the methods send that have a payload. *)

From S2P Require Import Prelude Js RtpParameters Ortc Framing Requests EventLoop Events TransportState World TransportCalls RouterCalls Lifecycle Delivery Methods Payloads Session.
From S2P Require Channel PayloadChannel.

(** ** State *)

(** [sk_waits]: the promise, of the channel of a worker, that a call in flight
    awaits; [sk_settled]: the promise functions that were called and whose
    microtasks have not run; [sk_requests]: how many requests were made. *)
Record stack : Type := mkStack {
  sk_session : session;
  sk_channels : gmap loc (Channel.channel * buffer);
  sk_waits : list (nat * (loc * promise));
  sk_settled : list ((loc * promise) * outcome);
  sk_requests : Z;
  sk_payloads : gmap loc (PayloadChannel.payload_channel * buffer)
}.

Definition new_stack : stack := mkStack (mkSession empty_world no_calls) ∅ [] [] 0 ∅.

Definition sk_world (s : stack) : world := sn_world (sk_session s).
Definition sk_in_flight (s : stack) : list (nat * pending) := in_flight (sn_calls (sk_session s)).

Definition with_session (sn : session) (s : stack) : stack :=
  mkStack sn (sk_channels s) (sk_waits s) (sk_settled s) (sk_requests s) (sk_payloads s).
Definition with_world (w : world) (s : stack) : stack :=
  with_session (mkSession w (sn_calls (sk_session s))) s.
Definition with_wait (n : nat) (kp : loc * promise) (s : stack) : stack :=
  mkStack (sk_session s) (sk_channels s) (sk_waits s ++ [(n, kp)]) (sk_settled s) (sk_requests s) (sk_payloads s).
Definition with_payload (k : loc) (st : PayloadChannel.payload_channel * buffer) (s : stack) : stack :=
  mkStack (sk_session s) (sk_channels s) (sk_waits s) (sk_settled s) (sk_requests s) (<[k := st]> (sk_payloads s)).

(** The worker whose channel an object uses. *)
Definition worker_of (o : obj) (w : world) : loc :=
  match o with
  | Ochild l => match children w !! l with Some n => transport_worker (n_transport n) w | None => 0 end
  | Oobserver l => match observers w !! l with Some o => router_worker o.2 w | None => 0 end
  | Otransport t => transport_worker t w
  | Orouter r => router_worker r w
  | Oserver s => match servers w !! s with Some sv => s_worker sv | None => 0 end
  | Oworker k => k
  end.

Section stack.
Context (le : bool) `{Channel.JSON} `{H264}.

(** ** The channels *)

(** Something happens to the channel of worker [k]. *)
Definition feed (k : loc) (i : Channel.input) (s : stack) : stack :=
  match sk_channels s !! k with
  | None => s
  | Some st =>
      let st' := Channel.step le st i in
      mkStack (sk_session s) (<[k := st']> (sk_channels s)) (sk_waits s)
        (sk_settled s ++ map (fun x => ((k, x.1), x.2)) (calls_since st.1 st'.1))
        (if Channel.is_request i then sk_requests s + 1 else sk_requests s) (sk_payloads s)
  end.

(** The same for its payload channel. *)
Definition feed_payload (k : loc) (op : PayloadChannel.local_op) (s : stack) : stack :=
  match sk_payloads s !! k with
  | None => s
  | Some (c, b) => with_payload k (PayloadChannel.local_step le c op, b) s
  end.

(** What the two socket writes of a message throw, if they do. *)
Definition sock : Type := option error * option error.

(** The messages among effects are written, and nobody waits for an answer; one
    with a payload is two messages. *)
Fixpoint send_all (es : list (obj * effect)) (socks : list sock) (s : stack) : stack :=
  let k o := worker_of o (sk_world s) in
  let sk := hd (None, None) socks in
  let sk' := hd (None, None) (tl socks) in
  match es with
  | [] => s
  | (o, Request method id data) :: es =>
      send_all es (tl socks) (feed (k o) (Channel.Irequest sk.1 sk.2 method id data) s)
  | (o, Notify event id data payload) :: es =>
      send_all es (tl (tl socks))
        (feed_payload (k o) (PayloadChannel.Onotify sk.1 sk.2 sk'.1 sk'.2 event id data payload) s)
  | (o, PayloadRequest method id data payload) :: es =>
      send_all es (tl (tl socks))
        (feed_payload (k o) (PayloadChannel.Orequest sk.1 sk.2 sk'.1 sk'.2 method id data payload) s)
  | _ :: es => send_all es socks s
  end.

(** ** Calls *)

Definition drop_call (e : error) (n : nat) (s : stack) : stack :=
  match resume_call n (sn_calls (sk_session s)) with
  | Some (q, calls) => with_session (mkSession (failed e q (sk_world s)) calls) s
  | None => s
  end.

(** The promise [Channel.request] returns, if it does not throw. *)
Definition request_promise (k : loc) (sk : sock) (method : string) (id : option string) (data : val)
    (s : stack) : result promise :=
  match sk_channels s !! k with
  | None => Err undefined_access
  | Some st => (Channel.request le sk.1 sk.2 method id data st.1).2
  end.

(** A method is called: it throws, or it writes its request, the last effect it
    has, and awaits the answer unless the channel throws. *)
Definition call_step (c : call) (sk : sock) (s : stack) : stack :=
  let s1 := with_session (begin_call c (sk_session s)) s in
  match begin c (sk_world s) with
  | (_, Err _) => s1
  | (w, Ok _) =>
      let n := next_call (sn_calls (sk_session s)) in
      match last (log w) with
      | Some (o, Request method id data) =>
          let k := worker_of o w in
          let s2 := feed k (Channel.Irequest sk.1 sk.2 method id data) s1 in
          match request_promise k sk method id data s1 with
          | Ok p => with_wait n (k, p) s2
          | Err e => drop_call e n s2
          end
      | _ => drop_call undefined_access n s1
      end
  end.

(** The rest of a method: [l] is the new object. *)
Inductive continues (q : pending) (w : world) : outcome -> world -> Prop :=
| continues_ok l data w' :
    accepted l q w -> finish l q data w = Ok w' -> continues q w (Resolved data) w'
| continues_throws l data e : finish l q data w = Err e -> continues q w (Resolved data) (failed e q w)
| continues_rejected e : continues q w (Rejected e) (failed e q w).

(** The microtask of the first settled promise. *)
Definition resumed (n : nat) (w : world) (calls : calls_in_flight pending) rest (s : stack) : stack :=
  mkStack (mkSession w calls) (sk_channels s) (jdel n (sk_waits s)) rest (sk_requests s) (sk_payloads s).

Definition unawaited rest (s : stack) : stack :=
  mkStack (sk_session s) (sk_channels s) (sk_waits s) rest (sk_requests s) (sk_payloads s).

(** ** Events *)

(** A closing method of an object that is not a worker, a notification that closes
    a consumer, or a method that does not wait: one that closes or sends. *)
Inductive tree_event (w : world) : world -> Prop :=
| tree_close o f : closing o f -> (forall k, o <> Oworker k) -> tree_event w (f w)
| tree_producerclose l : tree_event w (apply_child child_producerclose l w)
| tree_method o l : is_method o = true -> waits o = false -> tree_event w (child_method o l w)
| tree_sendRtcp rtcpPacket t : tree_event w (send_rtcp rtcpPacket t w).

(** A callback of [setImmediate] emits the first notification that waits: whoever
    is subscribed to its id gets it. *)
Definition first_notification (k : loc) (s : stack) : option Channel.notification :=
  st ← sk_channels s !! k;
  head (Channel.immediates st.1).

Definition delivered (k : loc) (nt : Channel.notification) (w : world) : world :=
  (deliver k (Channel.targetId nt) (event_name (Channel.event nt)) (Channel.data nt) w).1.

Definition immediate_step (k : loc) (s : stack) : stack :=
  let s1 := feed k Channel.Iimmediate s in
  match first_notification k s with
  | Some nt => with_world (delivered k nt (sk_world s)) s1
  | None => s1
  end.

(** A chunk on the payload channel. *)
Definition payload_step (k : loc) (d : buffer) (s : stack) : stack :=
  match sk_payloads s !! k with
  | None => s
  | Some (c, b) =>
      let '(c, w, b) := on_data le (receive_into k) ((c, sk_world s), b) d in
      with_payload k (c, b) (with_world w s)
  end.

(** A worker closes, or its process has died. *)
Inductive gone (k : loc) (w : world) : world -> Prop :=
| gone_closed : gone k w (worker_close k w)
| gone_died message : gone k w (worker_died message k w).

(** Both channels close. *)
Definition channels_closed (k : loc) (s : stack) : stack :=
  feed_payload k PayloadChannel.Oclose (feed k Channel.Iclose s).

Definition worker_started (k : loc) (s : stack) : stack :=
  mkStack (mkSession (set_workers (insert k (mkWorker false false false [] [])) (sk_world s)) (sn_calls (sk_session s)))
    (<[k := (Channel.new_channel, [])]> (sk_channels s)) (sk_waits s) (sk_settled s) (sk_requests s)
    (<[k := (PayloadChannel.new_payload_channel, [])]> (sk_payloads s)).

Definition new_effects (w w' : world) : list (obj * effect) := drop (length (log w)) (log w').

Inductive stack_step : stack -> stack -> Prop :=
| stack_start k s :
    workers (sk_world s) !! k = None -> sk_channels s !! k = None -> stack_step s (worker_started k s)
| stack_call c sk s :
    call_ok c -> exists_obj (callee c) (sk_world s) -> stack_step s (call_step c sk s)
| stack_chunk k d s : stack_step s (feed k (Channel.Idata d) s)
| stack_immediate k s : stack_step s (immediate_step k s)
| stack_payload k d s : stack_step s (payload_step k d s)
| stack_event w socks s :
    tree_event (sk_world s) w ->
    stack_step s (send_all (new_effects (sk_world s) w) socks (with_world w s))
| stack_gone k w s :
    is_Some (workers (sk_world s) !! k) -> gone k (sk_world s) w ->
    stack_step s (channels_closed k (with_world w s))
| stack_unawaited kp o rest s :
    sk_settled s = (kp, o) :: rest -> (forall n, (n, kp) ∉ sk_waits s) -> stack_step s (unawaited rest s)
| stack_resume n kp o rest q calls w s :
    sk_settled s = (kp, o) :: rest -> (n, kp) ∈ sk_waits s ->
    resume_call n (sn_calls (sk_session s)) = Some (q, calls) -> continues q (sk_world s) o w ->
    stack_step s (resumed n w calls rest s).

Inductive stack_reachable : stack -> Prop :=
| stack_begins : stack_reachable new_stack
| stack_next s s' : stack_reachable s -> stack_step s s' -> stack_reachable s'.

(** ** It implements the system of Session.v *)

Lemma feed_session k i s : sk_session (feed k i s) = sk_session s.
Proof. unfold feed. by destruct (sk_channels s !! k). Qed.

Lemma feed_payload_session k op s : sk_session (feed_payload k op s) = sk_session s.
Proof. unfold feed_payload. by destruct (sk_payloads s !! k) as [[]|]. Qed.

Lemma channels_closed_session k s : sk_session (channels_closed k s) = sk_session s.
Proof. unfold channels_closed. by rewrite feed_payload_session, feed_session. Qed.

(** The payload channel is a field of its own. *)
Lemma channels_closed_fields k s :
  let s' := channels_closed k s in
  sk_channels s' = sk_channels (feed k Channel.Iclose s) /\ sk_waits s' = sk_waits s /\
  sk_settled s' = sk_settled (feed k Channel.Iclose s) /\ sk_requests s' = sk_requests s.
Proof.
  unfold channels_closed, feed_payload. destruct (sk_payloads _ !! k) as [[]|]; simpl;
    (split_and!; [done| |done|]); unfold feed; by destruct (sk_channels s !! k).
Qed.

Lemma send_all_session es socks s : sk_session (send_all es socks s) = sk_session s.
Proof.
  revert socks s. induction es as [|[o e] es IH]; intros socks s; [done|].
  destruct e; simpl; rewrite IH; try done; first [apply feed_session|apply feed_payload_session].
Qed.

Lemma drop_call_session sn e n s :
  sk_session s = sn -> rtc session_step sn (sk_session (drop_call e n s)).
Proof.
  intros <-. unfold drop_call. destruct (resume_call _ _) as [[q calls]|] eqn:Hr; [|done].
  apply rtc_once. by eapply session_failure.
Qed.

Lemma call_step_session c sk s :
  call_ok c -> rtc session_step (sk_session s) (sk_session (call_step c sk s)).
Proof.
  intros Hc. eapply rtc_l; [by apply session_call|]. unfold call_step.
  destruct (begin c (sk_world s)) as [w [q|e]]; [|done].
  destruct (last (log w)) as [[o []]|]; try (by apply drop_call_session).
  destruct (request_promise _ _ _ _ _ _); [simpl; by rewrite feed_session|].
  apply drop_call_session. by rewrite feed_session.
Qed.

Lemma tree_event_session w w' : tree_event w w' -> event w w'.
Proof.
  intros [o f Hc Ho|l|o l Ho Hw|rtcpPacket t]; [|by constructor..].
  destruct Hc; constructor.
Qed.

Lemma notify_all_session os name data s :
  rtc session_step s (mkSession (notify_all os name data (sn_world s)).1 (sn_calls s)).
Proof. eapply event_run; [|apply notify_all_steps]. intros w1 w2 [o ->]. constructor. Qed.

(** The listeners are called one by one. *)
Lemma receive_into_session k c w d sn :
  rtc session_step sn (mkSession w (sn_calls sn)) ->
  rtc session_step sn (mkSession (receive_into k (c, w) d).2 (sn_calls sn)).
Proof.
  intros Hs. etransitivity; [exact Hs|]. apply (event_run (fun w1 w2 => exists o name data payload, w2 = (payload_notify o name data payload w1).1) (mkSession w (sn_calls sn))).
  { intros w1 w2 (o & name & data & payload & ->). constructor. }
  unfold receive_into. destruct (PayloadChannel.pc_uncaught c), (PayloadChannel.ongoingNotification c) as [n|]; try done.
  pose proof (payload_notify_all_steps (payload_subscribers k (PayloadChannel.pn_targetId n) w)
    (event_name (PayloadChannel.pn_event n)) (PayloadChannel.pn_data n) d w) as Hr.
  unfold deliver_payload. destruct (payload_notify_all _ _ _ _ _) as [w1 [e|]]; simpl in *;
    (eapply rtc_subrel; [|exact Hr]; intros w2 w3 [o ->]; by eauto).
Qed.

Lemma payload_session k d s : rtc session_step (sk_session s) (sk_session (payload_step k d s)).
Proof.
  unfold payload_step. destruct (sk_payloads s !! k) as [[c b]|]; [|done].
  pose proof (Channel.on_data_inv le (receive_into k)
    (fun st => rtc session_step (sk_session s) (mkSession st.2 (sn_calls (sk_session s)))) ((c, sk_world s), b) d) as Hi.
  destruct (on_data le (receive_into k) ((c, sk_world s), b) d) as [[c' w'] b']. simpl in *.
  apply Hi; [|unfold sk_world; destruct (sk_session s); apply rtc_refl]. intros [c1 w1] x. apply receive_into_session.
Qed.

Lemma immediate_session k s : rtc session_step (sk_session s) (sk_session (immediate_step k s)).
Proof.
  unfold immediate_step. destruct (first_notification k s) as [nt|]; [|by rewrite feed_session].
  cbn [with_world with_session sk_session]. rewrite feed_session. apply notify_all_session.
Qed.

Lemma stack_steps s s' : stack_step s s' -> rtc session_step (sk_session s) (sk_session s').
Proof.
  destruct 1 as [k s Hk _|c sk s Hc _|k d s|k s|k d s|w socks s He|k w s _ Hg|kp o rest s _ _|n kp o rest q calls w s _ _ Hr Hq].
  - apply rtc_once, session_event. by constructor.
  - by apply call_step_session.
  - by rewrite feed_session.
  - apply immediate_session.
  - apply payload_session.
  - rewrite send_all_session. apply rtc_once, session_event. by apply tree_event_session.
  - rewrite channels_closed_session. apply rtc_once, session_event. destruct Hg; constructor.
  - done.
  - apply rtc_once. destruct Hq; [by eapply session_answer|by eapply session_failure..].
Qed.

Lemma stack_session s : stack_reachable s -> session_reachable (sk_session s).
Proof.
  induction 1 as [|s s' _ IH Hs]; [constructor|]. apply stack_steps in Hs.
  clear -IH Hs. induction Hs as [|s1 s2 s3 H1 _ IHs]; [done|]. apply IHs. by eapply session_next.
Qed.
End stack.
