(* ===== verification/StackInv.v ===== *)
(** * The invariant of the stack

    What every step of Stack.v keeps: the promise a call awaits belongs to the
    channel of the worker of its object, calls and promises correspond one to
    one, a promise that is settled has its microtask before it, and the channel
    of a worker is closed exactly when the worker is. *)

From S2P Require Import Prelude Js RtpParameters Ortc Framing Requests EventLoop Events TransportState World TransportCalls RouterCalls WorldSpec Registry WorldInv Closing Cascade ClosingLog Lifecycle Delivery Methods Listeners Payloads Session SessionInv Stack.
From S2P Require Channel PayloadChannel.

(** ** What does not change in the tree

    Objects stay where they belong; workers not in [T] do not close. *)
Record steady (T : loc -> Prop) (w w' : world) : Prop := mkSteady {
  sd_router : forall r k, r_worker <$> routers w !! r = Some k -> r_worker <$> routers w' !! r = Some k;
  sd_transport : forall t r, t_router <$> transports w !! t = Some r -> t_router <$> transports w' !! t = Some r;
  sd_server : forall v k, s_worker <$> servers w !! v = Some k -> s_worker <$> servers w' !! v = Some k;
  sd_child : forall l t, n_transport <$> children w !! l = Some t -> n_transport <$> children w' !! l = Some t;
  sd_observer : forall l r, snd <$> observers w !! l = Some r -> snd <$> observers w' !! l = Some r;
  sd_worker : forall k, T k \/ obj_closed (Oworker k) w' = obj_closed (Oworker k) w
}.

Definition nobody (k : loc) : Prop := False.

Lemma steady_refl T w : steady T w w.
Proof. split; auto. Qed.

Lemma steady_trans T w1 w2 w3 : steady T w1 w2 -> steady T w2 w3 -> steady T w1 w3.
Proof.
  intros [R1 T1 S1 C1 O1 W1] [R2 T2 S2 C2 O2 W2]. split; auto. intros k. destruct (W1 k), (W2 k); auto. right. congruence.
Qed.

Lemma steady_open w w' k : steady nobody w w' -> obj_closed (Oworker k) w' = obj_closed (Oworker k) w.
Proof. intros [_ _ _ _ _ W]. by destruct (W k). Qed.

Lemma fmap_lookup_alter {V W} (g : V -> W) f i (m : gmap loc V) j x :
  (forall v, g (f v) = g v) -> g <$> m !! j = Some x -> g <$> alter f i m !! j = Some x.
Proof. intros Hf <-. by apply lookup_alter_fmap. Qed.

Lemma fmap_lookup_insert {V W} (g : V -> W) v i (m : gmap loc V) j x :
  m !! i = None -> g <$> m !! j = Some x -> g <$> <[i := v]> m !! j = Some x.
Proof. intros Hi Hj. rewrite lookup_insert_ne; [done|]. intros ->. by rewrite Hi in Hj. Qed.

Lemma ends_steady (T : obj -> Prop) w w' : ends T w w' -> steady (fun k => T (Oworker k)) w w'.
Proof.
  intros He. split.
  - intros r k Hr. apply fmap_Some in Hr as (ro & Hro & ->).
    destruct (ends_router_fwd _ _ _ _ _ He Hro) as (ro' & -> & Hle). simpl. by rewrite (rle_worker _ _ Hle).
  - intros t r Ht. apply fmap_Some in Ht as (tr & Htr & ->).
    pose proof (en_transports _ _ _ He t) as H. rewrite Htr in H. apply fmap_Some in H as (tr' & -> & [= _ Hr _]).
    simpl. by rewrite Hr.
  - intros v k Hv. apply fmap_Some in Hv as (sv & Hsv & ->).
    destruct (ends_server_fwd _ _ _ _ _ He Hsv) as (sv' & -> & Hle). simpl. by rewrite (sle_worker _ _ Hle).
  - intros l t <-. exact (rest_part c_static snd _ _ (en_children _ _ _ He) l).
  - intros l r <-. exact (rest_part o_static snd _ _ (en_observers _ _ _ He) l).
  - intros k. destruct (en_closed _ _ _ He (Oworker k)) as [?|[? _]]; auto.
Qed.

Lemma steady_mono (T T' : loc -> Prop) w w' : (forall k, T k -> T' k) -> steady T w w' -> steady T' w w'.
Proof. intros HT [R1 T1 S1 C1 O1 W1]. split; auto. intros k. destruct (W1 k); auto. Qed.

Lemma below_worker_only w k o : below w (Oworker k) o -> o = Oworker k.
Proof. by inversion 1; simpl in *. Qed.

Lemma closing_steady o f w (T : loc -> Prop) :
  consistent w -> closing o f -> (forall k, o = Oworker k -> T k) -> steady T w (f w).
Proof.
  intros Hw Hf HT. destruct (closing_keeps _ _ _ Hw Hf) as (_ & He & _).
  eapply steady_mono; [|by apply ends_steady]. intros k Hk%below_worker_only. by apply HT.
Qed.

Lemma alike_steady T w w' : alike w w' -> steady T w w'.
Proof.
  intros Ha. pose proof Ha as [Hc Ho Ht Hr Hs _ _ _]. split; [by rewrite Hr| |by rewrite Hs|..].
  - intros t r <-. exact (rest_part t_frame t_router _ _ Ht t).
  - intros l t <-. exact (rest_part c_frame (fun x => x.1.2) _ _ Hc l).
  - intros l r <-. exact (rest_part o_frame snd _ _ Ho l).
  - intros k. right. by apply alike_closed.
Qed.

Lemma tree_event_steady w w' : consistent w -> tree_event w w' -> steady nobody w w'.
Proof.
  intros Hw [o f Hc Ho|l|o l Ho _|rtcpPacket t].
  - by eapply closing_steady.
  - destruct (producerclose_spec l w) as [Hcore|(n & Hl & _ & Hrm)].
    + eapply (steady_mono (fun k => False)); [done|]. apply (ends_steady (fun _ => False)).
      eapply ends_core; [exact Hcore|apply ends_refl].
    + eapply steady_mono; [|apply (ends_steady (fun x => x = Ochild l)); by eapply removed_child_ends]. done.
  - destruct (child_method_cases o l w Ho) as [Ha| ->]; [by apply alike_steady|].
    eapply closing_steady; [done|by apply (closing_child l)|done].
  - apply alike_steady, send_rtcp_alike.
Qed.

Lemma notify_steady o name data w : consistent w -> steady nobody w (notify o name data w).1.
Proof.
  intros Hw. destruct (notify_cases o name data w) as [Ha|(l & _ & ->)]; [by apply alike_steady|].
  by apply tree_event_steady, tree_producerclose.
Qed.

Lemma notify_all_steady os name data w :
  consistent w -> consistent (notify_all os name data w).1 /\ steady nobody w (notify_all os name data w).1.
Proof.
  intros Hw. pose proof (notify_all_steps os name data w) as Hs. revert Hw.
  induction Hs as [w|w w1 w2 [o ->] _ IH]; intros Hw; [split; [done|apply steady_refl]|].
  destruct IH as [Hw' Hst]; [eapply step_keeps; [exact Hw|apply notify_step]|]. split; [done|].
  eapply steady_trans; [by apply notify_steady|exact Hst].
Qed.

Section session.
Context `{H264}.

(** The beginning of a call changes transports only, and not their routers, or
    details. *)
Lemma begin_rest c w :
  alike w (begin c w).1 \/
  workers (begin c w).1 = workers w /\ observers (begin c w).1 = observers w /\
  servers (begin c w).1 = servers w /\ children (begin c w).1 = children w.
Proof.
  destruct c; simpl; try (by right; match goal with |- context [send_request _ ?m _ _] => destruct m as [[]|] end);
    try (right; unfold run_method; destruct (transports w !! t); [|done]; destruct (routers w !! _); [|done];
      match goal with |- context [let '(_, _) := ?x in _] => by destruct x as [? [[]|]] end).
  left. pose proof (begin_method_begun m w) as [Ha _]. by destruct (begin_method m w).
Qed.

Lemma begin_steady c w : call_ok c -> steady nobody w (begin c w).1.
Proof.
  intros Hc. destruct (begin_rest c w) as [Ha|(Hwk & Ho & Hs & Hch)]; [by apply alike_steady|].
  destruct (begin c w) as [w' r] eqn:Hb. simpl in *.
  destruct (begin_cases _ _ _ _ Hc Hb) as [(_ & Ht & Hr) _ _|t tr tr' _ Hr Ht Hts Hbg|Ha _]; [..|by apply alike_steady];
    (split; rewrite ?Hs, ?Ho, ?Hch, ?Hr; try done; [|by intros k; right; simpl; rewrite Hwk]).
  - by rewrite Ht.
  - intros t1 r1. rewrite Hts. destruct (decide (t1 = t)) as [->|]; [|by rewrite lookup_insert_ne by congruence].
    rewrite lookup_insert_eq, Ht. intros [= <-]. by rewrite (bg_state _ _ _ _ Hbg).
Qed.

(** ** The worker a call belongs to *)

Definition router_home (r : loc) (w : world) (k : loc) : Prop := r_worker <$> routers w !! r = Some k.
Definition transport_home (t : loc) (w : world) (k : loc) : Prop :=
  exists r, t_router <$> transports w !! t = Some r /\ router_home r w k.

Definition home_obj (o : obj) (w : world) (k : loc) : Prop :=
  match o with
  | Ochild l => exists t, n_transport <$> children w !! l = Some t /\ transport_home t w k
  | Oobserver l => exists r, snd <$> observers w !! l = Some r /\ router_home r w k
  | Otransport t => transport_home t w k
  | Orouter r => router_home r w k
  | Oserver v => s_worker <$> servers w !! v = Some k
  | Oworker k' => k' = k
  end.

Definition home (q : pending) : world -> loc -> Prop := home_obj (pending_object q).

Lemma transport_home_steady T t w w' k : steady T w w' -> transport_home t w k -> transport_home t w' k.
Proof. intros [R1 T1 _ _ _ _] (r & ? & ?). exists r. unfold router_home in *. auto. Qed.

Lemma home_steady T q w w' k : steady T w w' -> home q w k -> home q w' k.
Proof.
  intros Hs. pose proof Hs as [R1 T1 S1 C1 O1 _].
  unfold home, home_obj. destruct (pending_object q); auto.
  - intros (t & Hl & Ht). exists t. split; [auto|by eapply transport_home_steady].
  - intros (r & Hl & Hr). exists r. split; [auto|by apply R1].
  - by apply transport_home_steady with T.
  - apply R1.
Qed.

Lemma transport_home_worker t w k : transport_home t w k -> transport_worker t w = k.
Proof.
  intros (r & Ht & Hr). unfold transport_worker, router_worker. destruct (transports w !! t); [|done].
  injection Ht as ->. unfold router_home in Hr. destruct (routers w !! r); [|done]. by injection Hr.
Qed.

Lemma home_worker_of o w k : home_obj o w k -> worker_of o w = k.
Proof.
  destruct o; simpl.
  - intros (t & Hl & Ht%transport_home_worker). destruct (children w !! l); [|done]. by injection Hl as ->.
  - intros (r & Hl & Hr). destruct (observers w !! l); [|done]. injection Hl as ->.
    unfold router_home, router_worker in *. destruct (routers w !! r); [|done]. by injection Hr.
  - apply transport_home_worker.
  - unfold router_home, router_worker. destruct (routers w !! l); [|done]. by intros [= ->].
  - destruct (servers w !! l); [|done]. by intros [= ->].
  - done.
Qed.

Lemma home_unique q w k k' : home q w k -> home q w k' -> k = k'.
Proof. intros H1%home_worker_of H2%home_worker_of. congruence. Qed.

(** Objects belong to a worker. *)
Lemma home_exists o w : homed w -> exists_obj o w -> exists k, home_obj o w k.
Proof.
  intros [H1 H2 H3].
  assert (forall r, is_Some (routers w !! r) -> exists k, router_home r w k) as Hr
    by (intros r [ro Hro]; exists (r_worker ro); unfold router_home; by rewrite Hro).
  assert (forall t, is_Some (transports w !! t) -> exists k, transport_home t w k) as Ht.
  { intros t [tr Htr]. destruct (Hr _ (H3 _ _ Htr)) as [k Hk]. exists k, (t_router tr). by rewrite Htr. }
  destruct o; simpl; auto.
  - intros [n Hn]. destruct (Ht _ (H1 _ _ Hn)) as [k Hk]. exists k, (n_transport n). by rewrite Hn.
  - intros [o Ho]. destruct (Hr _ (H2 _ _ Ho)) as [k Hk]. exists k, o.2. by rewrite Ho.
  - intros [sv Hs]. exists (s_worker sv). by rewrite Hs.
  - intros _. by exists l.
Qed.

Lemma begin_object c w w' q : begin c w = (w', Ok q) -> pending_object q = callee c.
Proof.
  assert (forall A o (m : result (effect * A)) mk w0 w1, send_request o m mk w0 = (w1, Ok q) ->
    exists a, q = mk a) as Hs by (intros A o [[e a]|e] mk w0 w1 [= _ <-]; by eexists).
  assert (forall A t (m : router_access -> M (effect * A)) mk w0 w1, run_method t m mk w0 = (w1, Ok q) ->
    exists a, q = mk a) as Hr.
  { intros A t m mk w0 w1. unfold run_method. destruct (transports w0 !! t) as [tr|]; [|done].
    destruct (routers w0 !! _) as [ro|]; [|done]. destruct (m _ tr) as [tr' r]. by intros Hq%Hs. }
  destruct c; cbn [begin callee]; intros Hb; try (by (apply Hs in Hb as [a ->] || apply Hr in Hb as [a ->])).
  pose proof (begin_method_begun m w) as [_ Hm]. destruct (begin_method m w) as [w1 [a|e]]; [|done].
  injection Hb as <- <-. by destruct (Hm a eq_refl) as [? _].
Qed.

Lemma begin_home c w w' q :
  homed w -> call_ok c -> exists_obj (callee c) w -> begin c w = (w', Ok q) -> home q w' (worker_of (callee c) w').
Proof.
  intros Hh Hok Hx Hb. pose proof (begin_steady c w Hok) as Hst. rewrite Hb in Hst. simpl in Hst.
  apply begin_object in Hb. destruct (home_exists _ _ Hh Hx) as [k Hk]. rewrite <-Hb in *.
  apply (home_steady _ _ _ _ _ Hst) in Hk. pose proof Hk as ->%home_worker_of. exact Hk.
Qed.

(** The end of a call makes an object, or changes details. *)
Lemma finish_steady l q data w w' :
  accepted l q w -> finish l q data w = Ok w' -> steady nobody w w'.
Proof.
  assert (forall t c streamId, new_child l t (kind_of c) (child_id c) w ->
    steady nobody w (add_child l t c streamId w)) as Hchild.
  { intros t c streamId (Hl & tr & Ht & _).
    destruct (add_child_spec l t c streamId w tr Ht) as (Ec & Et & Er & Es & Ew & Eo).
    split; rewrite ?Ec, ?Et, ?Er, ?Es, ?Eo; try done.
    - intros r k. destruct (new_event _); [|done]. by apply fmap_lookup_alter.
    - intros t1 r. apply fmap_lookup_alter. intros x. by destruct x.
    - intros l1 t1. by apply fmap_lookup_insert.
    - intros k. right. cbn [obj_closed]. by rewrite Ew. }
  destruct q; cbn [accepted finish]; intros Hacc Hf.
  - destruct Hacc as (Hl & _). injection Hf as <-. split; simpl; try done.
    + intros r k1. by apply fmap_lookup_insert.
    + intros k1. right. by apply (alter_flag w_closed).
  - destruct Hacc as (Hl & _). injection Hf as <-. split; simpl; try done.
    + intros v k1. by apply fmap_lookup_insert.
    + intros k1. right. by apply (alter_flag w_closed).
  - destruct Hacc as (Hl & _). unfold createTransport_continue in Hf. inv_result.
    unfold createTransport_done. split; destruct (ct_server c); simpl; try done; try (by right).
    all: intros x y; by (apply fmap_lookup_alter || apply fmap_lookup_insert).
  - destruct Hacc as (Hl & _). injection Hf as <-. split; simpl; try done; [| |by right].
    + intros r1 k1. by apply fmap_lookup_alter.
    + intros l1 r1. by apply fmap_lookup_insert.
  - unfold produce_continue in Hf. inv_result. by apply Hchild.
  - unfold consume_continue in Hf. inv_result. by apply Hchild.
  - injection Hf as <-. by apply Hchild.
  - injection Hf as <-. by apply Hchild.
  - by eapply alike_steady, finish_method_alike.
Qed.
End session.

(** ** What happens to one channel *)

Section channel.
Context (le : bool) `{Channel.JSON}.

Lemma settle_nextPromise sent o r : nextPromise (settle sent o r) = nextPromise r.
Proof. unfold settle. by destruct (negb _). Qed.

(** Chunks, callbacks and closing make no promise and, but for the latter, do
    not close the channel. *)
Lemma receive_frame c payload :
  nextPromise (Channel.pending (Channel.receive c payload)) = nextPromise (Channel.pending c) /\
  Channel.closed (Channel.receive c payload) = Channel.closed c.
Proof.
  assert (forall msg, nextPromise (Channel.pending (Channel.processMessage msg c)) = nextPromise (Channel.pending c) /\
    Channel.closed (Channel.processMessage msg c) = Channel.closed c) as Hm.
  { intros msg. unfold Channel.processMessage, handle_response. destruct (truthy _); simpl; [|by destruct (_ && _)].
    split; [|done]. destruct (find_sent _ _); [|done].
    destruct (truthy _); [apply settle_nextPromise|]. destruct (truthy _); [apply settle_nextPromise|done]. }
  unfold Channel.receive. destruct payload as [|b text]; [done|].
  destruct b; try done. destruct (Channel.JSON_parse _) as [[]|]; try done; apply Hm.
Qed.

Definition is_close (i : Channel.input) : bool := match i with Channel.Iclose => true | _ => false end.

Lemma step_frame st i :
  nextPromise (Channel.pending st.1) <= nextPromise (Channel.pending (Channel.step le st i).1) /\
  Channel.closed (Channel.step le st i).1 = (is_close i || Channel.closed st.1).
Proof.
  destruct i; simpl.
  - unfold Channel.request. simpl. destruct (Channel.closed st.1) eqn:Hc; simpl; [by rewrite Hc|].
    destruct (_ >? _)%Z; simpl; [by rewrite Hc|]. destruct w1; simpl; [by rewrite Hc|].
    destruct w2; simpl; rewrite Hc; split; lia || done.
  - unfold Channel.on_channel_data.
    apply (Channel.on_data_inv le Channel.receive (fun c => nextPromise (Channel.pending st.1) <= nextPromise (Channel.pending c) /\
      Channel.closed c = Channel.closed st.1)); [|done].
    intros c b. by destruct (receive_frame c b) as [-> ->].
  - unfold Channel.run_immediate. by destruct (Channel.immediates st.1).
  - unfold Channel.close. by destruct (Channel.closed st.1) eqn:Hc; simpl; rewrite ?Hc.
Qed.

(** A promise that a step settles is among the calls of that step. *)
Lemma step_settles st i p :
  called p (Channel.pending st.1) = [] ->
  called p (Channel.pending (Channel.step le st i).1) = [] \/
  exists o, (p, o) ∈ calls_since st.1 (Channel.step le st i).1.
Proof.
  intros Hp. destruct (Channel.step_calls le st i) as [l Hl]. rewrite (calls_since_app _ _ _ Hl).
  rewrite (called_app p _ _ _ Hl), Hp. simpl. destruct (List.filter _ l) as [|[q o] k] eqn:Hf; [by left|right].
  exists o. assert ((q, o) ∈ List.filter (fun c : promise * outcome => Nat.eqb c.1 p) l) as Hin by (rewrite Hf; by left).
  apply list_elem_of_In, filter_In in Hin as [Hin Hq]. apply Nat.eqb_eq in Hq. simpl in Hq. subst q.
  by apply list_elem_of_In.
Qed.

(** A request that does not throw returns the next promise. *)
Lemma request_next w1 w2 method id data c p :
  (Channel.request le w1 w2 method id data c).2 = Ok p ->
  let c' := (Channel.request le w1 w2 method id data c).1 in
  p = nextPromise (Channel.pending c) /\ p < nextPromise (Channel.pending c') /\
  calls (Channel.pending c') = calls (Channel.pending c).
Proof.
  unfold Channel.request. simpl. destruct (Channel.closed c); [done|]. destruct (_ >? _)%Z; [done|].
  destruct w1; [done|]. destruct w2; [done|]. simpl. intros [= <-]. split_and!; [done|lia|done].
Qed.
End channel.

(** ** The invariant *)

Section invariant.
Context (le : bool) `{Channel.JSON} `{H264}.

(** The promise [kp] is not settled, or its microtask is due. *)
Definition awaited (s : stack) (kp : loc * promise) : Prop :=
  exists st, sk_channels s !! kp.1 = Some st /\ kp.2 < nextPromise (Channel.pending st.1) /\
    (called kp.2 (Channel.pending st.1) = [] \/ exists o, (kp, o) ∈ sk_settled s).

(** [m]: a call that has begun and whose request is not made yet. *)
Record stack_inv (m : option nat) (s : stack) : Prop := mkStackInv {
  ki_consistent : consistent (sk_world s);
  ki_wf : calls_wf (sn_calls (sk_session s));
  ki_channel : forall k st, sk_channels s !! k = Some st ->
    exists n, (n <= sk_requests s)%Z /\ Channel.channel_inv n st.1;
  ki_count : (0 <= sk_requests s)%Z;
  ki_keys : NoDup (jkeys (sk_waits s));
  ki_promises : NoDup (jvals (sk_waits s));
  ki_calls : forall n, m <> Some n -> is_Some (jget n (sk_waits s)) <-> is_Some (jget n (sk_in_flight s));
  ki_new : forall n, m = Some n -> jget n (sk_waits s) = None;
  ki_home : forall n kp q, jget n (sk_waits s) = Some kp -> jget n (sk_in_flight s) = Some q ->
    home q (sk_world s) kp.1;
  ki_waits : forall n kp, jget n (sk_waits s) = Some kp -> awaited s kp
}.

(** The channel of a worker is closed when the worker is. *)
Definition flags_agree (T : loc -> Prop) (s : stack) : Prop :=
  forall k st, sk_channels s !! k = Some st ->
    T k \/ obj_closed (Oworker k) (sk_world s) = Channel.closed st.1.

Lemma feed_requests k i s : (sk_requests s <= sk_requests (feed le k i s))%Z.
Proof. unfold feed. destruct (sk_channels s !! k); simpl; [|done]. destruct (Channel.is_request i); lia. Qed.

Lemma awaited_feed k i s kp : awaited s kp -> awaited (feed le k i s) kp.
Proof.
  intros (st & Hst & Hp & Hc). unfold awaited, feed. destruct (sk_channels s !! k) as [st0|] eqn:Hk; [|eauto].
  cbn [sk_channels sk_settled]. destruct (decide (kp.1 = k)) as [<-|Hne].
  - rewrite Hst in Hk. injection Hk as <-. rewrite lookup_insert_eq. eexists. split; [done|].
    destruct (step_frame le st i) as [Hn _]. split; [lia|]. destruct Hc as [Hc|[o Ho]].
    + destruct (step_settles le st i _ Hc) as [?|[o Ho]]; [by left|right].
      exists o. apply elem_of_app. right. apply list_elem_of_In, in_map_iff. exists (kp.2, o).
      split; [by destruct kp|by apply list_elem_of_In].
    + right. exists o. apply elem_of_app. by left.
  - rewrite lookup_insert_ne by congruence. exists st. split_and!; [done..|].
    destruct Hc as [?|[o ?]]; [by left|right; exists o; apply elem_of_app; by left].
Qed.

Lemma feed_inv m k i s :
  (sk_requests (feed le k i s) <= 4294967295)%Z -> stack_inv m s -> stack_inv m (feed le k i s).
Proof.
  intros Hn [I1 I2 I3 I0 I4 I5 I6 I7 I8 I9]. pose proof (feed_requests k i s) as Hle.
  assert (sk_waits (feed le k i s) = sk_waits s) as Hw by (unfold feed; by destruct (sk_channels s !! k)).
  assert (sk_world (feed le k i s) = sk_world s) as Hworld by (unfold sk_world; by rewrite feed_session).
  assert (sk_in_flight (feed le k i s) = sk_in_flight s) as Hf by (unfold sk_in_flight; by rewrite feed_session).
  split; rewrite ?Hw, ?Hworld, ?Hf, ?feed_session; try done.
  - intros k' st' Hst'. unfold feed in *. destruct (sk_channels s !! k) as [st|] eqn:Hk; [|eauto].
    cbn [sk_channels sk_requests] in *. destruct (decide (k' = k)) as [->|Hne].
    + rewrite lookup_insert_eq in Hst'. injection Hst' as <-. destruct (I3 _ _ Hk) as (n & Hnr & Hinv).
      eexists. split; [|apply Channel.step_inv; [|exact Hinv]].
      * destruct (Channel.is_request i); lia.
      * intros Hi. rewrite Hi in Hn. lia.
    + rewrite lookup_insert_ne in Hst' by congruence. destruct (I3 _ _ Hst') as (n & ? & ?). exists n. split; [lia|done].
  - lia.
  - intros n kp Hkp. apply awaited_feed. eauto.
Qed.

Lemma feed_flags (T : loc -> Prop) k i s :
  (is_close i = true -> T k) -> flags_agree T s -> flags_agree T (feed le k i s).
Proof.
  intros Hi Ha k' st'. replace (sk_world (feed le k i s)) with (sk_world s) by (unfold sk_world; by rewrite feed_session).
  unfold feed. destruct (sk_channels s !! k) as [st|] eqn:Hk; [|apply Ha]. cbn [sk_channels].
  destruct (decide (k' = k)) as [->|Hne]; [|rewrite lookup_insert_ne by congruence; apply Ha].
  rewrite lookup_insert_eq. intros [= <-]. destruct (step_frame le st i) as [_ ->].
  destruct (is_close i); [left; auto|apply (Ha _ _ Hk)].
Qed.

(** The closing of a channel. *)
Lemma feed_close_flags k s :
  obj_closed (Oworker k) (sk_world s) = true -> flags_agree (fun k' => k' = k) s ->
  flags_agree nobody (feed le k Channel.Iclose s).
Proof.
  intros Ho Ha k' st' Hst'. right. destruct (decide (k' = k)) as [->|Hne].
  - unfold sk_world. rewrite feed_session. fold (sk_world s). rewrite Ho. unfold feed in Hst'.
    destruct (sk_channels s !! k) as [st|] eqn:Hk; [|congruence]. cbn [sk_channels] in Hst'.
    rewrite lookup_insert_eq in Hst'. injection Hst' as <-. destruct (step_frame le st Channel.Iclose) as [_ Hc].
    exact (eq_sym Hc).
  - by destruct (feed_flags (fun k' => k' = k) k Channel.Iclose s (fun _ => eq_refl) Ha k' st' Hst').
Qed.

(** The tree changes. *)
Lemma world_inv m T w s :
  consistent w -> steady T (sk_world s) w -> stack_inv m s -> stack_inv m (with_world w s).
Proof. intros Hw Hs [I1 I2 I3 I0 I4 I5 I6 I7 I8 I9]. split; try done. intros n kp q H1 H2. by eapply home_steady, I8. Qed.

Lemma world_flags (T T' : loc -> Prop) w s :
  (forall k, T k -> T' k) -> steady T (sk_world s) w -> flags_agree nobody s -> flags_agree T' (with_world w s).
Proof.
  intros HT [_ _ _ _ _ Hs] Ha k st Hst. destruct (Hs k) as [?|Hk]; [left; auto|right].
  destruct (Ha _ _ Hst) as [[]|Heq]. unfold with_world, sk_world in *. simpl in *. congruence.
Qed.

Lemma payload_inv m k st s : stack_inv m s -> stack_inv m (with_payload k st s).
Proof. by intros []. Qed.

Lemma feed_payload_inv m k op s : stack_inv m s -> stack_inv m (feed_payload le k op s).
Proof. unfold feed_payload. destruct (sk_payloads s !! k) as [[]|]; [apply payload_inv|done]. Qed.

Lemma feed_payload_flags T k op s : flags_agree T s -> flags_agree T (feed_payload le k op s).
Proof. unfold feed_payload. by destruct (sk_payloads s !! k) as [[]|]. Qed.

Lemma feed_payload_requests k op s : sk_requests (feed_payload le k op s) = sk_requests s.
Proof. unfold feed_payload. by destruct (sk_payloads s !! k) as [[]|]. Qed.

Lemma send_all_requests es socks s : (sk_requests s <= sk_requests (send_all le es socks s))%Z.
Proof.
  revert socks s. induction es as [|[o e] es IH]; intros socks s; [done|].
  destruct e; simpl; try apply IH; (etransitivity; [|apply IH]); [apply feed_requests|by rewrite feed_payload_requests..].
Qed.

Lemma send_all_inv es socks m s :
  (sk_requests (send_all le es socks s) <= 4294967295)%Z -> stack_inv m s -> flags_agree nobody s ->
  stack_inv m (send_all le es socks s) /\ flags_agree nobody (send_all le es socks s).
Proof.
  revert socks s. induction es as [|[o e] es IH]; intros socks s Hn Hi Ha; [done|].
  destruct e; simpl in *; try (by apply IH); [|apply IH; [done|by apply feed_payload_inv|by apply feed_payload_flags]..].
  apply IH; [done| |by apply feed_flags].
  apply feed_inv; [|done]. etransitivity; [apply send_all_requests|exact Hn].
Qed.

(** A chunk on a payload channel. *)
Lemma payload_step_inv m k d s :
  stack_inv m s -> flags_agree nobody s ->
  stack_inv m (payload_step le k d s) /\ flags_agree nobody (payload_step le k d s) /\
  sk_requests (payload_step le k d s) = sk_requests s.
Proof.
  intros Hi Ha. unfold payload_step. destruct (sk_payloads s !! k) as [[c b]|]; [|done].
  pose proof (Channel.on_data_inv le (receive_into k) (fun st => alike (sk_world s) st.2) ((c, sk_world s), b) d) as Hw.
  destruct (on_data le (receive_into k) ((c, sk_world s), b) d) as [[c' w'] b']. simpl in Hw.
  assert (alike (sk_world s) w') as Hal.
  { apply Hw; [|apply alike_refl]. intros st x H1. eapply alike_trans; [exact H1|apply receive_into_alike]. }
  pose proof (alike_steady nobody _ _ Hal) as Hst. split_and!; [|exact (world_flags nobody nobody w' s (fun _ H => H) Hst Ha)|done].
  apply payload_inv. eapply world_inv; [|exact Hst|done]. eapply step_keeps; [apply Hi|by apply step_detail].
Qed.

(** ** The parts of the steps *)

Lemma jget_snoc {V} (n m : nat) (v : V) l :
  jget n l = None -> jget m (l ++ [(n, v)]) = if decide (m = n) then Some v else jget m l.
Proof. intros Hn. by rewrite <-(jset_fresh _ v _ Hn), jget_jset. Qed.

(** A call begins. *)
Lemma begin_inv c s w q :
  stack_inv None s -> session_reachable (begin_call c (sk_session s)) -> begin c (sk_world s) = (w, Ok q) ->
  call_ok c -> 
  stack_inv (Some (next_call (sn_calls (sk_session s)))) (with_session (begin_call c (sk_session s)) s).
Proof.
  intros [I1 I2 I3 I0 I4 I5 I6 I7 I8 I9] Hr Hb Hc. pose proof (begin_steady c (sk_world s) Hc) as Hst.
  rewrite Hb in Hst. simpl in Hst.
  assert (begin_call c (sk_session s) = mkSession w (await q (sn_calls (sk_session s)))) as Heq
    by (unfold begin_call; fold (sk_world s); by rewrite Hb).
  rewrite Heq in *. pose proof (session_reachable_world _ Hr) as Hw%reachable_consistent.
  set (n0 := next_call (sn_calls (sk_session s))).
  assert (jget n0 (sk_in_flight s) = None) as Hn0.
  { apply jget_None. intros Hin. eapply Forall_forall in I2; [|exact Hin]. simpl in I2. unfold n0 in I2. lia. }
  assert (forall n, jget n (in_flight (await q (sn_calls (sk_session s)))) =
    if decide (n = n0) then Some q else jget n (sk_in_flight s)) as Hget.
  { intros n. unfold await. cbn [in_flight]. by apply jget_snoc. }
  split; cbn [with_session sk_session sk_world sk_in_flight sk_channels sk_waits sn_calls sn_world sk_requests]; try done.
  - by apply await_wf.
  - intros n Hne. rewrite Hget, decide_False by congruence. by apply I6.
  - intros n [= <-]. destruct (jget n0 (sk_waits s)) as [kp|] eqn:Hkp; [|done]. exfalso.
    assert (is_Some (jget n0 (sk_in_flight s))) as [? ?]; [|congruence]. apply I6; [done|by rewrite Hkp].
  - intros n kp q' Hk. rewrite Hget. case_decide as Hd.
    + subst n. exfalso. assert (is_Some (jget n0 (sk_in_flight s))) as [? ?]; [|congruence]. apply I6; [done|by rewrite Hk].
    + intros Hk'. eapply home_steady; [exact Hst|]. by eapply I8.
Qed.

(** It awaits its promise, or its request has thrown. *)
Lemma wait_inv n k p s q :
  stack_inv (Some n) s -> jget n (sk_in_flight s) = Some q -> home q (sk_world s) k ->
  (forall m kp, jget m (sk_waits s) = Some kp -> kp <> (k, p)) -> awaited s (k, p) ->
  stack_inv None (with_wait n (k, p) s).
Proof.
  intros [I1 I2 I3 I0 I4 I5 I6 I7 I8 I9] Hq Hh Hfresh Haw. specialize (I7 n eq_refl) as Hn.
  split; cbn [with_wait sk_session sk_waits sk_channels sk_requests]; try done.
  - rewrite <-(jset_fresh _ (k, p) _ Hn). by apply NoDup_jset.
  - unfold jvals. rewrite map_app. apply NoDup_app. split_and!; [done| |apply NoDup_singleton].
    intros kp Hkp%list_elem_of_In%in_map_iff Heq%list_elem_of_singleton.
    destruct Hkp as ([m kp'] & <- & Hin%list_elem_of_In). apply elem_of_jget in Hin; [|done].
    by eapply Hfresh.
  - intros m _. rewrite jget_snoc by done. case_decide as Hd.
    + subst m. change (sk_in_flight (with_wait n (k, p) s)) with (sk_in_flight s). rewrite Hq. split; by eexists.
    + apply I6. congruence.
  - intros m kp q'. rewrite jget_snoc by done. case_decide as Hd; [|by apply I8].
    subst m. intros [= <-]. change (sk_in_flight (with_wait n (k, p) s)) with (sk_in_flight s). rewrite Hq. by intros [= <-].
  - intros m kp. rewrite jget_snoc by done. case_decide; [by intros [= <-]|]. by apply I9.
Qed.

Lemma drop_inv e n s : stack_inv (Some n) s -> is_Some (jget n (sk_in_flight s)) -> stack_inv None (drop_call e n s).
Proof.
  intros [I1 I2 I3 I0 I4 I5 I6 I7 I8 I9] [q Hq]. unfold drop_call.
  destruct (resume_call n (sn_calls (sk_session s))) as [[q' calls]|] eqn:Hr.
  2:{ unfold resume_call in Hr. unfold sk_in_flight in Hq. by rewrite Hq in Hr. }
  pose proof (resume_wf _ _ _ _ Hr I2) as Hwf. apply resume_lookup in Hr as [_ Hget].
  specialize (I7 n eq_refl) as Hn. pose proof (failed_alike e q' (sk_world s)) as Ha.
  split; cbn [with_session sk_session sk_world sk_in_flight sk_channels sk_waits sn_calls sn_world sk_requests]; try done.
  - eapply step_keeps; [exact I1|by apply step_detail].
  - intros m _. rewrite Hget. case_decide as Hd; [subst m; by rewrite Hn|]. apply I6. congruence.
  - intros m kp q1 Hm. rewrite Hget. case_decide; [done|]. intros Hq1.
    eapply home_steady; [by apply (alike_steady nobody)|by eapply I8].
Qed.

Lemma drop_flags e n s : flags_agree nobody s -> flags_agree nobody (drop_call e n s).
Proof.
  intros Ha. unfold drop_call. destruct (resume_call _ _) as [[q calls]|]; [|done].
  exact (world_flags nobody nobody _ s (fun _ H => H) (alike_steady nobody _ _ (failed_alike e q _)) Ha).
Qed.

(** A microtask runs. *)
Lemma resumed_inv n kp o rest q calls w T s :
  stack_inv None s -> sk_settled s = (kp, o) :: rest -> (n, kp) ∈ sk_waits s ->
  resume_call n (sn_calls (sk_session s)) = Some (q, calls) ->
  consistent w -> steady T (sk_world s) w -> stack_inv None (resumed n w calls rest s).
Proof.
  intros [I1 I2 I3 I0 I4 I5 I6 I7 I8 I9] Hset Hin Hr Hw Hst.
  pose proof (resume_wf _ _ _ _ Hr I2) as Hwf. apply resume_lookup in Hr as [Hq Hget].
  split; cbn [resumed sk_session sk_world sk_in_flight sk_channels sk_waits sn_calls sn_world sk_requests]; try done.
  - by apply NoDup_jdel.
  - eapply sublist_NoDup; [exact I5|]. apply fmap_sublist, jdel_sublist.
  - intros m _. rewrite Hget, jget_jdel. case_decide; [split; by intros []|]. by apply I6.
  - intros m kp' q'. rewrite Hget, jget_jdel. case_decide; [done|]. intros Hm Hm'. by eapply home_steady, I8.
  - intros m kp'. rewrite jget_jdel. case_decide as Hd; [done|]. intros Hm.
    destruct (I9 _ _ Hm) as (st & Hst' & Hp & Hc). exists st. split_and!; [done..|].
    destruct Hc as [?|[o' Ho']]; [by left|right]. exists o'. cbn [resumed sk_settled].
    rewrite Hset in Ho'. apply elem_of_cons in Ho' as [[= -> ->]|?]; [|done].
    exfalso. apply Hd. apply (elem_of_jget _ _ _ I4) in Hin.
    eapply jvals_inj; eauto.
Qed.

Lemma unawaited_inv kp o rest s :
  stack_inv None s -> sk_settled s = (kp, o) :: rest -> (forall n, (n, kp) ∉ sk_waits s) ->
  stack_inv None (unawaited rest s).
Proof.
  intros [I1 I2 I3 I0 I4 I5 I6 I7 I8 I9] Hset Hnot. split; try done.
  intros m kp' Hm. destruct (I9 _ _ Hm) as (st & Hst' & Hp & Hc). exists st. split_and!; [done..|].
  destruct Hc as [?|[o' Ho']]; [by left|right]. exists o'. cbn [unawaited sk_settled].
  rewrite Hset in Ho'. apply elem_of_cons in Ho' as [[= -> ->]|?]; [|done].
  exfalso. apply (Hnot m). by apply jget_Some_elem.
Qed.
End invariant.

(** ** Every step keeps it *)

Section steps.
Context (le : bool) `{Channel.JSON} `{H264}.

Definition stack_ok (s : stack) : Prop := stack_inv None s /\ flags_agree nobody s.

Lemma request_awaited m k sk method id data s p :
  stack_inv m s -> request_promise le k sk method id data s = Ok p ->
  (forall n kp, jget n (sk_waits s) = Some kp -> kp <> (k, p)) /\
  awaited (feed le k (Channel.Irequest sk.1 sk.2 method id data) s) (k, p).
Proof.
  intros Hi. unfold request_promise. destruct (sk_channels s !! k) as [st|] eqn:Hk; [|done].
  intros (Hp & Hlt & Hcalls)%request_next. split.
  - intros n kp Hkp Heq. destruct (ki_waits _ _ Hi _ _ Hkp) as (st1 & H1 & H2 & _). subst kp. simpl in *.
    rewrite Hk in H1. injection H1 as <-. lia.
  - exists (Channel.step le st (Channel.Irequest sk.1 sk.2 method id data)). unfold feed. rewrite Hk.
    cbn [sk_channels fst snd Channel.step]. rewrite lookup_insert_eq. split_and!; [done|done|left].
    unfold called. rewrite Hcalls. fold (called p (Channel.pending st.1)).
    destruct (ki_channel _ _ Hi _ _ Hk) as (n & _ & Hinv). destruct (called p _) eqn:Hc; [done|].
    exfalso. enough (p < nextPromise (Channel.pending st.1)) by lia. apply (inv_bound _ _ _ Hinv). right. by rewrite Hc.
Qed.

Lemma call_step_ok c sk s :
  (sk_requests (call_step le c sk s) <= 4294967295)%Z -> session_reachable (sk_session s) -> stack_ok s ->
  call_ok c -> exists_obj (callee c) (sk_world s) -> stack_ok (call_step le c sk s).
Proof.
  intros Hn Hr [Hi Ha] Hc Hx. pose proof (begin_steady c (sk_world s) Hc) as Hst.
  assert (session_reachable (begin_call c (sk_session s))) as Hr' by (by eapply session_next, session_call).
  pose proof (session_reachable_world _ Hr') as Hw%reachable_consistent.
  unfold call_step in *. destruct (begin c (sk_world s)) as [w [q|e]] eqn:Hb.
  - assert (begin_call c (sk_session s) = mkSession w (await q (sn_calls (sk_session s)))) as Heq
      by (unfold begin_call; fold (sk_world s); by rewrite Hb).
    pose proof (begin_inv _ _ _ _ Hi Hr' Hb Hc) as Hi1.
    set (n := next_call (sn_calls (sk_session s))) in *. set (s1 := with_session (begin_call c (sk_session s)) s) in *.
    assert (flags_agree nobody s1) as Ha1.
    { replace s1 with (with_session (begin_call c (sk_session s)) (with_world w s)) by done.
      pose proof (world_flags nobody nobody w s (fun _ H => H) Hst Ha) as H1.
      intros k st Hk. destruct (H1 k st Hk) as [[]|H2]. right. rewrite <-H2.
      unfold s1, sk_world. cbn [with_session sk_session]. by rewrite Heq. }
    destruct (begin_request _ _ _ _ Hb) as (method & id & data & Hlog). rewrite Hlog, last_snoc in *.
    cbv zeta in *. set (k := worker_of (callee c) w) in *.
    set (s2 := feed le k (Channel.Irequest sk.1 sk.2 method id data) s1) in *.
    assert (sk_in_flight s2 = sk_in_flight s1) as Hf by (unfold s2, sk_in_flight; by rewrite feed_session).
    assert (jget n (sk_in_flight s1) = Some q) as Hq.
    { unfold s1, sk_in_flight. cbn [with_session sk_session]. rewrite Heq. cbn [sn_calls].
      rewrite await_lookup by apply Hi. by rewrite decide_True. }
    assert (sk_requests s2 <= 4294967295)%Z as Hn2.
    { destruct (request_promise _ _ _ _ _ _ _); [exact Hn|]. unfold drop_call in Hn. by destruct (resume_call _ _) as [[]|]. }
    pose proof (feed_inv _ _ _ _ _ Hn2 Hi1) as Hi2.
    assert (flags_agree nobody s2) as Ha2 by (by apply feed_flags).
    destruct (request_promise le k sk method id data s1) as [p|e] eqn:Hp.
    + destruct (request_awaited _ _ _ _ _ _ _ _ Hi1 Hp) as [Hfresh Haw]. split; [|exact Ha2].
      eapply wait_inv; [exact Hi2|by rewrite Hf| |unfold s2, feed; by destruct (sk_channels s1 !! k)|exact Haw].
      unfold s2, sk_world. rewrite feed_session. unfold s1. cbn [with_session sk_session]. rewrite Heq.
      apply (begin_home c (sk_world s)); [by apply reachable_homed, session_reachable_world|done..].
    + split; [apply drop_inv; [done|]; rewrite Hf, Hq; by eexists|by apply drop_flags].
  - assert (begin_call c (sk_session s) = mkSession w (sn_calls (sk_session s))) as Heq
      by (unfold begin_call; fold (sk_world s); by rewrite Hb).
    rewrite Heq in *. split; [by eapply world_inv|by eapply (world_flags nobody)].
Qed.

Lemma stack_step_requests s s' : stack_step le s s' -> (sk_requests s <= sk_requests s')%Z.
Proof.
  destruct 1; simpl; try done; try apply feed_requests.
  2:{ unfold immediate_step. destruct (first_notification k s); [|apply feed_requests].
      exact (feed_requests le k Channel.Iimmediate s). }
  - unfold call_step. destruct (begin c (sk_world s)) as [w [q|e]]; [|done].
    assert (forall e n s1, sk_requests (drop_call e n s1) = sk_requests s1) as Hd
      by (intros e n s1; unfold drop_call; by destruct (resume_call _ _) as [[]|]).
    destruct (last (log w)) as [[o []]|]; rewrite ?Hd; try done.
    cbv zeta. destruct (request_promise _ _ _ _ _ _ _); rewrite ?Hd;
      exact (feed_requests le _ _ (with_session (begin_call c (sk_session s)) s)).
  - unfold payload_step. destruct (sk_payloads s !! k) as [[c b]|]; [|done]. by destruct (on_data _ _ _ _) as [[] ?].
  - etransitivity; [|apply send_all_requests]. done.
  - unfold channels_closed. rewrite feed_payload_requests. etransitivity; [|apply feed_requests]. done.
Qed.

(** A worker starts. *)
Lemma worker_started_ok k s :
  workers (sk_world s) !! k = None -> sk_channels s !! k = None -> stack_ok s -> stack_ok (worker_started k s).
Proof.
  intros Hk Hk' [Hi Ha]. pose proof (ki_consistent _ _ Hi) as Hw. pose proof Hi as [I1 I2 I3 I0 I4 I5 I6 I7 I8 I9].
  assert (steady nobody (sk_world s) (set_workers (insert k (mkWorker false false false [] [])) (sk_world s))) as Hst.
  { split; try done. intros k1. right. simpl. destruct (decide (k1 = k)) as [->|].
    - by rewrite lookup_insert_eq, Hk.
    - by rewrite lookup_insert_ne by congruence. }
  split.
  - split; cbn [worker_started sk_session sk_world sk_in_flight sk_channels sk_waits sn_calls sn_world sk_requests]; try done.
    + by apply new_worker_keeps.
    + intros k1 st1. intros [[-> ->]|[_ Hst1]]%insert_inv; [|by eapply I3].
      exists 0%Z. split; [|apply no_requests_inv]. done.
    + intros n kp Hkp. destruct (I9 _ _ Hkp) as (st & Hst1 & Hrest). exists st. split; [|exact Hrest].
      cbn [worker_started sk_channels]. rewrite lookup_insert_ne; [done|]. congruence.
  - intros k1 st1. cbn [worker_started sk_channels]. unfold sk_world at 1. cbn [worker_started sk_session sn_world].
    intros [[-> ->]|[_ Hst1]]%insert_inv.
    + right. simpl. by rewrite lookup_insert_eq.
    + destruct (Ha _ _ Hst1) as [[]|H1]. right. rewrite <-H1. by apply (steady_open _ _ k1).
Qed.

Lemma stack_step_ok s s' :
  (sk_requests s' <= 4294967295)%Z -> session_reachable (sk_session s) -> stack_ok s -> stack_step le s s' ->
  stack_ok s'.
Proof.
  intros Hn Hr [Hi Ha] Hs. pose proof (ki_consistent _ _ Hi) as Hw.
  destruct Hs as [k s Hk Hk'|c sk s Hc Hx|k d s|k s|k d s|w socks s He|k w s Hk Hg|kp o rest s Hset Hnot|n kp o rest q calls w s Hset Hin Hq Hcont].
  - by apply worker_started_ok.
  - by apply call_step_ok.
  - split; [by apply feed_inv|by apply feed_flags].
  - unfold immediate_step in *. destruct (first_notification k s) as [nt|];
      [|split; [by apply feed_inv|by apply feed_flags]].
    destruct (notify_all_steady (subscribers k (Channel.targetId nt) (sk_world s))
      (event_name (Channel.event nt)) (Channel.data nt) _ Hw) as [Hw' Hst].
    assert (sk_world (feed le k Channel.Iimmediate s) = sk_world s) as Heq by (unfold sk_world; by rewrite feed_session).
    split; [eapply world_inv; [exact Hw'|by rewrite Heq|by apply feed_inv]|].
    eapply (world_flags nobody); [done|by rewrite Heq|by apply feed_flags].
  - destruct (payload_step_inv le None k d s Hi Ha) as (? & ? & _). by split.
  - pose proof (tree_event_steady _ _ Hw He) as Hst.
    assert (consistent w) as Hw' by (eapply step_keeps; [exact Hw|]; by apply event_step, tree_event_session).
    apply send_all_inv; [done|by eapply world_inv|by eapply (world_flags nobody)].
  - assert (exists f, closing (Oworker k) f /\ w = f (sk_world s)) as (f & Hf & ->).
    { destruct Hg as [|message]; eexists; split; try done; constructor. }
    destruct (closing_keeps _ _ _ Hw Hf) as (Hw' & _ & Hcl).
    pose proof (closing_steady _ _ _ (fun k' => k' = k) Hw Hf ltac:(congruence)) as Hst.
    unfold channels_closed in *. rewrite feed_payload_requests in Hn.
    split; [apply feed_payload_inv, feed_inv; [done|]; by eapply world_inv|].
    apply feed_payload_flags, feed_close_flags; [by apply Hcl|]. by eapply (world_flags (fun k' => k' = k)).
  - split; [by eapply unawaited_inv|exact Ha].
  - assert (consistent w /\ steady nobody (sk_world s) w) as [Hw' Hst].
    { assert (forall e, consistent (failed e q (sk_world s)) /\ steady nobody (sk_world s) (failed e q (sk_world s))) as Hfail.
      { intros e. pose proof (failed_alike e q (sk_world s)). split; [|by apply alike_steady].
        eapply step_keeps; [exact Hw|by apply step_detail]. }
      destruct Hcont as [l data w' Hacc Hf|l data e _|e]; [|apply Hfail..].
      split; [eapply step_keeps; [exact Hw|]; by eapply finish_step|by eapply finish_steady]. }
    split; [by eapply resumed_inv|].
    intros k st Hst1. destruct (Ha _ _ Hst1) as [[]|H1]. right.
    unfold sk_world. cbn [resumed sk_session sn_world]. rewrite <-H1. by apply (steady_open _ _ k).
Qed.
End steps.
