(* ===== verification/StackProps.v ===== *)
(** * Properties of the stack

    What a method that awaits a response can rely on, from the bytes on the
    channel to the object it makes: the stack implements the system of Session.v,
    a response ends the call that waits for it and no other, no call waits for a
    worker that is gone, and closing a worker ends the calls below it. *)

From S2P Require Import Prelude Js RtpParameters Ortc Framing Requests EventLoop Events TransportState World TransportCalls RouterCalls WorldSpec Registry WorldInv Closing Lifecycle Delivery Methods Session SessionInv SessionProps Stack StackInv.
From S2P Require Channel.

Section properties.
Context (le : bool) `{Channel.JSON} `{H264}.

Lemma new_stack_ok : stack_ok new_stack.
Proof.
  split; [|by intros k st].
  split; try done; try (by constructor); try apply empty_consistent.
  intros n _. split; by intros [].
Qed.

Lemma stack_reachable_ok s : stack_reachable le s -> (sk_requests s <= 4294967295)%Z -> stack_ok s.
Proof.
  induction 1 as [|s s' Hr IH Hs]; intros Hn; [apply new_stack_ok|].
  eapply (stack_step_ok le); [exact Hn|by eapply stack_session| |exact Hs].
  apply IH. etransitivity; [by eapply stack_step_requests|exact Hn].
Qed.

Lemma stack_run_reachable s s' : stack_reachable le s -> rtc (stack_step le) s s' -> stack_reachable le s'.
Proof. intros Hr Hs. induction Hs as [|s1 s2 s3 H1 _ IH]; [done|]. apply IH. by eapply stack_next. Qed.

Lemma home_of s n q kp :
  stack_ok s -> jget n (sk_in_flight s) = Some q -> jget n (sk_waits s) = Some kp -> home q (sk_world s) kp.1.
Proof. intros [Hi _] Hq Hk. by eapply ki_home. Qed.

Lemma has_wait s n q :
  stack_ok s -> jget n (sk_in_flight s) = Some q -> exists kp, jget n (sk_waits s) = Some kp.
Proof.
  intros [Hi _] Hq. destruct (jget n (sk_waits s)) as [kp|] eqn:Hk; [by eexists|].
  assert (is_Some (jget n (sk_waits s))) as [? ?]; [|congruence]. apply (ki_calls _ _ Hi); [done|]. by rewrite Hq.
Qed.

(** ** The microtasks of rejected promises *)

Lemma settled_cases s kp o rest :
  stack_ok s -> sk_settled s = (kp, o) :: rest ->
  (forall n, (n, kp) ∉ sk_waits s) \/
  exists n q calls, (n, kp) ∈ sk_waits s /\ jget n (sk_waits s) = Some kp /\
    resume_call n (sn_calls (sk_session s)) = Some (q, calls).
Proof.
  intros [Hi _] _. destruct (decide (kp ∈ jvals (sk_waits s))) as [Hin|Hnot].
  - right. apply elem_of_jvals in Hin as [n Hin]. pose proof (elem_of_jget _ _ _ (ki_keys _ _ Hi) Hin) as Hg.
    assert (is_Some (jget n (sk_in_flight s))) as [q Hq] by (apply (ki_calls _ _ Hi); [done|]; by rewrite Hg).
    unfold sk_in_flight in Hq. unfold resume_call. exists n, q. rewrite Hq. eauto.
  - left. intros n Hin. apply Hnot, elem_of_jvals. by eexists.
Qed.

(** [k]: the worker whose promises are rejected. *)
Definition all_rejected (k : loc) (l : list ((loc * promise) * outcome)) : Prop :=
  Forall (fun x => x.1.1 = k /\ exists e, x.2 = Rejected e) l.

Lemma drain k s :
  stack_reachable le s -> (sk_requests s <= 4294967295)%Z -> all_rejected k (sk_settled s) ->
  exists s', rtc (stack_step le) s s' /\ sk_settled s' = [] /\ alike (sk_world s) (sk_world s') /\
    sk_channels s' = sk_channels s /\ sk_requests s' = sk_requests s /\
    (forall n kp, jget n (sk_waits s) = Some kp -> kp.1 <> k ->
       jget n (sk_in_flight s') = jget n (sk_in_flight s)).
Proof.
  remember (sk_settled s) as l eqn:Hl. revert s Hl.
  induction l as [|[kp o] l IH]; intros s Hl Hr Hn Hall; [exists s; split_and!; (apply alike_refl || done)|].
  apply Forall_cons in Hall as [[Hk [e He]] Hall]. simpl in Hk, He. subst o.
  pose proof (stack_reachable_ok _ Hr Hn) as Hok.
  destruct (settled_cases s kp _ l Hok (eq_sym Hl)) as [Hnot|(n & q & calls & Hin & Hg & Hres)].
  - assert (stack_step le s (unawaited l s)) as Hs by (by eapply stack_unawaited).
    destruct (IH (unawaited l s)) as (s' & Hrun & H1 & H2 & H3 & H4 & H5); [done|by eapply stack_next|done|done|].
    exists s'. split_and!; try done. by eapply rtc_l.
  - set (w := failed e q (sk_world s)).
    assert (stack_step le s (resumed n w calls l s)) as Hs
      by (eapply stack_resume; [done|exact Hin|exact Hres|constructor]).
    destruct (IH (resumed n w calls l s)) as (s' & Hrun & H1 & H2 & H3 & H4 & H5); [done|by eapply stack_next|done|done|].
    exists s'. split_and!; try done; [by eapply rtc_l|eapply alike_trans; [apply failed_alike|exact H2]|].
    intros m kp' Hm Hne. assert (m <> n) as Hmn by (intros ->; congruence).
    rewrite (H5 m kp'); [|cbn [resumed sk_waits]; by rewrite jget_jdel_ne|done].
    unfold sk_in_flight. cbn [resumed sk_session sn_calls].
    apply resume_lookup in Hres as [_ Hget]. by rewrite Hget, decide_False.
Qed.

Lemma close_rejects k s :
  stack_ok s -> sk_settled s = [] -> all_rejected k (sk_settled (feed le k Channel.Iclose s)).
Proof.
  intros _ Hset. unfold feed. destruct (sk_channels s !! k) as [st|]; [|rewrite Hset; constructor].
  cbn [sk_settled]. rewrite Hset. simpl. unfold Channel.close. destruct (Channel.closed st.1).
  - unfold calls_since. rewrite drop_all. constructor.
  - unfold calls_since. simpl. rewrite drop_app_length, map_map. apply Forall_forall.
    intros x Hx%list_elem_of_In%in_map_iff. destruct Hx as (sent & <- & _). simpl. split; [done|by eexists].
Qed.

(** ** Theorems *)


(** C6: no call hangs on a worker that is gone: when all microtasks have run,
    every method that still waits, be it a creating one or not, belongs to an open
    worker, and its promise is pending on the open channel of that worker, so that
    a response can settle it.  (With at most 2^32 - 1 requests.) *)
Theorem no_call_hangs s n q :
  stack_reachable le s -> (sk_requests s <= 4294967295)%Z -> sk_settled s = [] ->
  jget n (sk_in_flight s) = Some q ->
  exists k c b p, home q (sk_world s) k /\ obj_closed (Oworker k) (sk_world s) = false /\
    sk_channels s !! k = Some (c, b) /\ Channel.closed c = false /\
    jget n (sk_waits s) = Some (k, p) /\ p ∈ pending_promises (Channel.pending c).
Proof.
  intros Hr Hn Hset Hq. pose proof (stack_reachable_ok _ Hr Hn) as Hok.
  destruct (has_wait _ _ _ Hok Hq) as [[k p] Hk]. pose proof (home_of _ _ _ _ Hok Hq Hk) as Hh.
  destruct Hok as [Hi Ha]. destruct (ki_waits _ _ Hi _ _ Hk) as ([c b] & Hc & Hp & Hcalled). simpl in Hc, Hp, Hcalled.
  destruct Hcalled as [Hcalled|[o Ho]]; [|rewrite Hset in Ho; by apply elem_of_nil in Ho].
  destruct (ki_channel _ _ Hi _ _ Hc) as (m & _ & Hinv). unfold Channel.channel_inv in Hinv. simpl in Hinv.
  destruct (Ha _ _ Hc) as [[]|Hflag]. simpl in Hflag.
  destruct (Channel.closed c) eqn:Hcl; [by destruct (inv_closed _ _ _ Hinv eq_refl p Hp)|].
  exists k, c, b, p. split_and!; try done.
  destruct (inv_open _ _ _ Hinv eq_refl p Hp) as [[? _]|[_ Hone]]; [done|]. by rewrite Hcalled in Hone.
Qed.

(** C7: closing a worker ends the calls below it: when a worker closes or dies,
    its channel rejects the promises that are pending, and when their microtasks
    have run, which nothing hinders, no method of the worker or of an object
    below it waits any more; the methods of other workers wait as before, and the
    tree is the one that closing has left, but for details of its objects. *)
Theorem worker_gone_ends_calls k w s :
  stack_reachable le s -> (sk_requests s <= 4294967295)%Z -> sk_settled s = [] ->
  is_Some (workers (sk_world s) !! k) -> gone k (sk_world s) w ->
  exists s', rtc (stack_step le) (channels_closed le k (with_world w s)) s' /\
    sk_settled s' = [] /\ alike w (sk_world s') /\
    (forall n q, jget n (sk_in_flight s') = Some q -> ~ home q w k) /\
    (forall n q, jget n (sk_in_flight s) = Some q -> ~ home q w k -> jget n (sk_in_flight s') = Some q).
Proof.
  intros Hr Hn Hset Hk Hg. pose proof (stack_reachable_ok _ Hr Hn) as Hok.
  set (s1 := channels_closed le k (with_world w s)).
  assert (stack_reachable le s1) as Hr1 by (eapply stack_next; [exact Hr|by apply stack_gone]).
  destruct (channels_closed_fields le k (with_world w s)) as (_ & Hwt1 & Hs1 & Hn1). fold s1 in Hwt1, Hs1, Hn1.
  cbn [with_world with_session sk_waits sk_requests] in Hwt1, Hn1.
  assert (sk_world s1 = w) as Hw1 by (unfold s1, sk_world; by rewrite channels_closed_session).
  assert (sk_in_flight s1 = sk_in_flight s) as Hf1 by (unfold s1, sk_in_flight; by rewrite channels_closed_session).
  pose proof (stack_reachable_ok _ Hr1 ltac:(lia)) as Hok1.
  destruct (drain k s1) as (s' & Hrun & Hset' & Hw' & Hc' & Hn' & Hkeep); [done|lia| |].
  { rewrite Hs1. unfold feed. cbn [with_world with_session sk_channels sk_settled].
    pose proof (close_rejects k s Hok Hset) as Hcl. unfold feed in Hcl.
    destruct (sk_channels s !! k); [exact Hcl|exact Hcl]. }
  rewrite Hw1 in Hw'. exists s'. split_and!; [done..| |].
  - intros n q Hq Hh. destruct (no_call_hangs s' n q) as (k' & c & b & p & Hh' & Ho & _);
      [by eapply stack_run_reachable|lia|done|done|].
    apply (home_steady nobody _ _ _ _ (alike_steady _ _ _ Hw')) in Hh.
    rewrite (home_unique _ _ _ _ Hh' Hh), (alike_closed _ _ _ Hw') in Ho.
    assert (exists f, closing (Oworker k) f /\ w = f (sk_world s)) as (f & Hf & ->).
    { destruct Hg as [|message]; eexists; split; try done; constructor. }
    destruct Hok as [Hi _]. destruct (closing_keeps _ _ _ (ki_consistent _ _ Hi) Hf) as (_ & _ & Hcl).
    specialize (Hcl Hk). congruence.
  - intros n q Hq Hno. rewrite <-Hf1 in Hq. destruct (has_wait _ _ _ Hok1 Hq) as [kp Hkp].
    rewrite (Hkeep n kp Hkp); [done|]. intros Heq. apply Hno. rewrite <-Hw1, <-Heq. by eapply home_of.
Qed.

(** A message in a chunk of its own. *)
Lemma message_alone c payload :
  (2 * blen payload + 7 <= PAYLOAD_MAX_LEN)%Z ->
  Channel.on_channel_data le (c, []) (frame le payload) = (Channel.receive c payload, []).
Proof.
  intros Hs. apply (framing_chunks le Channel.receive c [payload] [frame le payload] (blen (frame le payload))).
  - simpl. by rewrite !app_nil_r.
  - by repeat constructor.
  - constructor; [|constructor]. unfold blen, frame in *. rewrite length_app, length_Uint32Array_of. lia.
Qed.

(** What a response says. *)
Definition response_outcome (msg : val) : option outcome :=
  if truthy (prop "accepted" msg) then Some (Resolved (prop "data" msg))
  else if truthy (prop "error" msg) then
    Some (Rejected (response_error (prop "error" msg) (prop "reason" msg)))
  else None.

(** C5: from the bytes of a response to the object: when a chunk completes the
    response to the request of a waiting method (see the framing theorems), the
    method goes on with what the response says, data or error, in the next
    microtask, and every other call waits as before. *)
Theorem response_ends_call s n q k c b b' d id sent payload msg o w :
  stack_reachable le s -> (sk_requests s <= 4294967295)%Z -> sk_settled s = [] ->
  jget n (sk_in_flight s) = Some q -> sk_channels s !! k = Some (c, b) -> Channel.closed c = false ->
  jget id (sents (Channel.pending c)) = Some sent -> jget n (sk_waits s) = Some (k, sent_promise sent) ->
  Channel.on_channel_data le (c, b) d = (Channel.receive c payload, b') ->
  head payload = Some x7b -> Channel.JSON_parse payload = Ok msg -> prop "id" msg = VNum id ->
  response_outcome msg = Some o -> continues q (sk_world s) o w ->
  exists s', stack_step le (feed le k (Channel.Idata d) s) s' /\
    sk_world s' = w /\ sk_settled s' = [] /\ jget n (sk_in_flight s') = None /\
    forall m, m <> n -> jget m (sk_in_flight s') = jget m (sk_in_flight s).
Proof.
  intros Hr Hn Hset Hq Hc Hcl Hsent Hk Hdata Hhd Hmsg Hid Ho Hcont. destruct (stack_reachable_ok _ Hr Hn) as [Hi _].
  destruct (ki_channel _ _ Hi _ _ Hc) as (m0 & _ & Hinv). unfold Channel.channel_inv in Hinv. simpl in Hinv.
  rewrite Hcl in Hinv. pose proof (jget_Some_elem _ _ _ Hsent) as Hin.
  destruct (inv_sent _ _ _ Hinv _ _ Hin) as [Hsid Hrange].
  assert (Channel.receive c payload = Channel.with_pending (settle sent o (Channel.pending c)) c) as Hrec.
  { unfold Channel.receive. destruct payload as [|x text]; [done|]. injection Hhd as ->. rewrite Hmsg.
    destruct msg; try done; unfold Channel.processMessage; rewrite Hid; simpl;
      (destruct (Z.eqb_spec id 0); [lia|]); simpl; unfold handle_response, find_sent; rewrite Hid, Hsent;
      unfold response_outcome in Ho; destruct (truthy (prop "accepted" _)); [by injection Ho as <-|..|by injection Ho as <-|];
      (destruct (truthy (prop "error" _)); [by injection Ho as <-|done]). }
  assert (calls_since c (Channel.receive c payload) = [(sent_promise sent, o)]) as Hcalls.
  { apply calls_since_app. rewrite Hrec. simpl. unfold settle. rewrite Hsid. unfold jhas. by rewrite Hsent. }
  set (s1 := feed le k (Channel.Idata d) s).
  assert (sk_settled s1 = [((k, sent_promise sent), o)]) as Hset1.
  { unfold s1, feed. rewrite Hc. cbn [Channel.step sk_settled fst]. rewrite Hdata, Hset. cbn [fst]. by rewrite Hcalls. }
  assert (sk_session s1 = sk_session s) as Hs1 by apply feed_session.
  assert (sk_waits s1 = sk_waits s) as Hw1 by (unfold s1, feed; by rewrite Hc).
  destruct (resume_call n (sn_calls (sk_session s))) as [[q' calls]|] eqn:Hres.
  2:{ unfold resume_call in Hres. unfold sk_in_flight in Hq. by rewrite Hq in Hres. }
  destruct (resume_lookup _ _ _ _ Hres) as [Hq' Hget]. unfold sk_in_flight in Hq. rewrite Hq in Hq'. injection Hq' as <-.
  exists (resumed n w calls [] s1). split; [|split_and!; try done].
  - eapply stack_resume; [exact Hset1|rewrite Hw1; by apply jget_Some_elem|by rewrite Hs1|].
    unfold sk_world. by rewrite Hs1.
  - cbn [resumed sk_in_flight sk_session sn_calls]. by rewrite Hget, decide_True.
  - intros m Hm. cbn [resumed sk_in_flight sk_session sn_calls]. by rewrite Hget, decide_False.
Qed.
End properties.

(** ** An example: a worker, and a router that is being made *)

#[local] Existing Instance example_h264.
#[local] Existing Instance Channel.example_json.

Definition stack_worker : stack := worker_started 0 new_stack.
Definition stack_routing : stack :=
  call_step true (CcreateRouter 0 (VObj [("mediaCodecs", example_mediaCodecs)]) "router") (None, None) stack_worker.

Lemma stack_worker_reachable : stack_reachable true stack_worker.
Proof. refine (stack_next true new_stack _ (stack_begins true) (stack_start true 0 new_stack _ _)); reflexivity. Qed.

Lemma stack_routing_step : stack_step true stack_worker stack_routing.
Proof.
  refine (stack_call true _ (None, None) stack_worker _ _); [exact I|]. eexists. vm_compute. reflexivity.
Qed.

Lemma stack_routing_reachable : stack_reachable true stack_routing.
Proof. eapply stack_next; [exact stack_worker_reachable|exact stack_routing_step]. Qed.

Definition stack_channel : Channel.channel :=
  Eval vm_compute in
    match sk_channels stack_routing !! 0 with Some (c, _) => c | None => Channel.new_channel end.

Lemma stack_routing_channel : sk_channels stack_routing !! 0 = Some (stack_channel, []).
Proof. vm_compute. reflexivity. Qed.

Lemma stack_routing_call : exists q, jget 0 (sk_in_flight stack_routing) = Some q.
Proof. eexists. vm_compute. reflexivity. Qed.


Lemma no_call_hangs_witness :
  sk_waits stack_routing = [(0, (0, 0))] /\ exists c b, sk_channels stack_routing !! 0 = Some (c, b) /\
    Channel.closed c = false /\ 0 ∈ pending_promises (Channel.pending c).
Proof.
  assert (sk_waits stack_routing = [(0, (0, 0))]) as Hw by (vm_compute; reflexivity).
  split; [exact Hw|]. destruct stack_routing_call as [q Hq].
  destruct (no_call_hangs true stack_routing 0 q stack_routing_reachable) as (k & c & b & p & _ & _ & Hc & Hcl & Hk & Hp);
    [vm_compute; discriminate|vm_compute; reflexivity|exact Hq|].
  rewrite Hw in Hk. injection Hk as <- <-.
  exact (ex_intro _ c (ex_intro _ b (conj Hc (conj Hcl Hp)))).
Defined.

Lemma worker_gone_ends_calls_witness :
  exists s', rtc (stack_step true)
      (channels_closed true 0 (with_world (worker_died "crash" 0 (sk_world stack_routing)) stack_routing)) s' /\
    forall n q, jget n (sk_in_flight s') = Some q ->
      ~ home q (worker_died "crash" 0 (sk_world stack_routing)) 0.
Proof.
  destruct (worker_gone_ends_calls true 0 (worker_died "crash" 0 (sk_world stack_routing)) stack_routing
    stack_routing_reachable) as (s' & Hrun & _ & _ & Hno & _);
    [vm_compute; discriminate|vm_compute; reflexivity|vm_compute; by eexists|constructor|].
  exists s'. split; [exact Hrun|exact Hno].
Defined.

(** The response of the worker is the first one of Channel.v. *)
Lemma response_ends_call_witness :
  exists s', stack_step true
      (feed true 0 (Channel.Idata (frame true (Channel.text_of Channel.example_response))) stack_routing) s' /\
    is_Some (routers (sk_world s') !! 7) /\ sk_in_flight stack_routing <> [] /\ jget 0 (sk_in_flight s') = None.
Proof.
  destruct stack_routing_call as [q Hq].
  assert (exists w, finish 7 q (prop "data" Channel.example_response) (sk_world stack_routing) = Ok w /\
    is_Some (routers w !! 7) /\ accepted 7 q (sk_world stack_routing)) as (w & Hf & Hr & Ha).
  { vm_compute in Hq. injection Hq as <-. eexists. split; [reflexivity|]. split; [vm_compute; by eexists|].
    split; [vm_compute; reflexivity|]. eexists. split; vm_compute; reflexivity. }
  destruct (response_ends_call true stack_routing 0 q 0 stack_channel [] []
    (frame true (Channel.text_of Channel.example_response)) 1 (mkSent 1 "worker.createRouter" 0)
    (Channel.text_of Channel.example_response) Channel.example_response
    (Resolved (prop "data" Channel.example_response)) w stack_routing_reachable) as (s' & Hs & Hw & _ & Hn & _);
    [vm_compute; discriminate|vm_compute; reflexivity|exact Hq|exact stack_routing_channel|reflexivity|reflexivity|
     vm_compute; reflexivity| |vm_compute; reflexivity|vm_compute; reflexivity|reflexivity|reflexivity|by eapply continues_ok|].
  - apply message_alone. vm_compute. discriminate.
  - exists s'. split; [exact Hs|]. split; [by rewrite Hw|]. split; [|exact Hn].
    intros Hnil. rewrite Hnil in Hq. discriminate Hq.
Defined.
