(* ===== verification/StackDelivery.v ===== *)
(** * Notifications, from the channel to the object

    What the callback does that emits a notification: the objects it reaches in
    the tree of Stack.v. *)

From S2P Require Import Prelude Js RtpParameters Ortc Framing Requests EventLoop Events TransportState World TransportCalls RouterCalls Closing Lifecycle Delivery Listeners Session Stack.
From S2P Require Channel RtpObserver.

(** C8: a notification reaches its object and no other: when a callback emits
    the first notification of the channel of a worker, everything that is told
    is told by open objects of this worker with the target id; all other
    objects, and those that have closed, stay as they are; and an open listener
    that is the only object with its id is called exactly once.  No call in
    flight notices. *)
Theorem notification_reaches_object (le : bool) `{Channel.JSON} `{H264} (s : stack) (k : loc)
    (c : Channel.channel) (b : buffer) (nt : Channel.notification) (rest : list Channel.notification) :
  stack_reachable le s -> sk_channels s !! k = Some (c, b) -> Channel.immediates c = nt :: rest ->
  let w := sk_world s in
  let w' := sk_world (immediate_step le k s) in
  let id := Channel.targetId nt in
  (exists es, log w' = log w ++ es /\
     forall x e, (x, e) ∈ es -> obj_key x w = Some (k, id) /\ obj_closed x w = false) /\
  (forall x, obj_key x w <> Some (k, id) \/ obj_closed x w = true -> untouched x w w') /\
  (forall x, obj_key x w = Some (k, id) -> obj_closed x w = false -> listens x w = true ->
     (forall y, obj_key y w = Some (k, id) -> y = x) ->
     w' = (notify x (event_name (Channel.event nt)) (Channel.data nt) w).1) /\
  sk_in_flight (immediate_step le k s) = sk_in_flight s.
Proof.
  intros Hr Hc Hi w w' id.
  assert (tidy w) as Hw by exact (reachable_tidy _ (session_reachable_world _ (stack_session _ _ Hr))).
  assert (w' = delivered k nt w) as ->.
  { unfold w', immediate_step, first_notification. rewrite Hc. simpl. by rewrite Hi. }
  destruct (notify_all_untouched (subscribers k id w) (event_name (Channel.event nt)) (Channel.data nt) w)
    as [Hu (es & Hl & Hes)].
  split_and!.
  - exists es. split; [exact Hl|]. intros x e Hin. by eapply subscribers_open, Hes.
  - intros x Hx. apply Hu. intros Hin. destruct (subscribers_open _ _ _ _ Hw Hin), Hx; congruence.
  - intros x Hk Ho Hls Hall. unfold delivered. by rewrite (deliver_to_one _ _ _ x).
  - unfold immediate_step, sk_in_flight. destruct (first_notification k s); simpl; by rewrite feed_session.
Qed.

(** ** An example: the router and the RtpObserver of a worker

    Both are made by calls over the channel; then the worker notifies the
    observer. *)

#[local] Existing Instance example_h264.

Definition silence_response (id : Z) : val := VObj [("id", VNum id); ("accepted", VBool true)].
Definition silence_notification : val :=
  VObj [("targetId", VStr "observer"); ("event", VStr "silence")].

#[local] Instance silence_json : Channel.JSON := fun payload =>
  match List.find (fun v => bool_decide (Channel.text_of v = payload))
          [silence_response 1; silence_response 2; silence_notification] with
  | Some v => Ok v
  | None => Err (PlainError "Unexpected token")
  end.

Definition chunk_of (v : val) : Channel.input := Channel.Idata (frame true (Channel.text_of v)).

(** The microtask of the first settled promise, where [l] is the new object. *)
Definition microtask (l : loc) (s : stack) : stack :=
  match sk_settled s with
  | (kp, Resolved data) :: rest =>
      match List.find (fun x => bool_decide (x.2 = kp)) (sk_waits s) with
      | Some (n, _) =>
          match resume_call n (sn_calls (sk_session s)) with
          | Some (q, calls) =>
              match finish l q data (sk_world s) with
              | Ok w => resumed n w calls rest s
              | Err _ => s
              end
          | None => s
          end
      | None => s
      end
  | _ => s
  end.

Definition silence_worker : stack := Eval vm_compute in worker_started 0 new_stack.
Definition silence_routing : stack := Eval vm_compute in
  call_step true (CcreateRouter 0 (VObj []) "router") (None, None) silence_worker.
Definition silence_answered : stack := Eval vm_compute in feed true 0 (chunk_of (silence_response 1)) silence_routing.
Definition silence_router : stack := Eval vm_compute in microtask 7 silence_answered.
Definition silence_observing : stack := Eval vm_compute in
  call_step true (CcreateAudioLevelObserver 7 (VObj []) "observer") (None, None) silence_router.
Definition silence_answered2 : stack := Eval vm_compute in
  feed true 0 (chunk_of (silence_response 2)) silence_observing.
Definition silence_observer : stack := Eval vm_compute in microtask 8 silence_answered2.
Definition silence_notified : stack := Eval vm_compute in feed true 0 (chunk_of silence_notification) silence_observer.

Lemma reachable_then (s s1 s2 : stack) : stack_reachable true s -> stack_step true s s1 -> s1 = s2 -> stack_reachable true s2.
Proof. intros Hs Hst <-. by eapply stack_next. Qed.

(** A microtask is a step, when the worker may accept the object. *)
Lemma microtask_step l s kp data rest n q calls w :
  sk_settled s = (kp, Resolved data) :: rest -> (n, kp) ∈ sk_waits s ->
  resume_call n (sn_calls (sk_session s)) = Some (q, calls) -> accepted l q (sk_world s) ->
  finish l q data (sk_world s) = Ok w -> stack_step true s (resumed n w calls rest s).
Proof. intros. eapply stack_resume; [done..|]. by eapply continues_ok. Qed.

Lemma silence_router_reachable : stack_reachable true silence_router.
Proof.
  apply (reachable_then silence_answered (microtask 7 silence_answered)).
  - apply (reachable_then silence_routing (feed true 0 (chunk_of (silence_response 1)) silence_routing)).
    + apply (reachable_then silence_worker (call_step true (CcreateRouter 0 (VObj []) "router") (None, None) silence_worker)).
      * apply (reachable_then new_stack (worker_started 0 new_stack)); [constructor| |vm_compute; reflexivity].
        apply (stack_start true 0); reflexivity.
      * apply stack_call; [exact I|]. eexists. vm_compute. reflexivity.
      * vm_compute. reflexivity.
    + apply stack_chunk.
    + vm_compute. reflexivity.
  - eapply microtask_step; [reflexivity|by left|reflexivity| |reflexivity].
    split; [reflexivity|]. eexists. split; reflexivity.
  - vm_compute. reflexivity.
Qed.

Lemma silence_notified_reachable : stack_reachable true silence_notified.
Proof.
  apply (reachable_then silence_observer (feed true 0 (chunk_of silence_notification) silence_observer)).
  - apply (reachable_then silence_answered2 (microtask 8 silence_answered2)).
    + apply (reachable_then silence_observing (feed true 0 (chunk_of (silence_response 2)) silence_observing)).
      * apply (reachable_then silence_router (call_step true (CcreateAudioLevelObserver 7 (VObj []) "observer") (None, None) silence_router)).
        { exact silence_router_reachable. }
        { apply stack_call; [exact I|]. eexists. vm_compute. reflexivity. }
        { vm_compute. reflexivity. }
      * apply stack_chunk.
      * vm_compute. reflexivity.
    + eapply microtask_step; [reflexivity|by left|reflexivity| |reflexivity].
      split; [reflexivity|]. split; [intros l o Ho; discriminate Ho|]. eexists. split; reflexivity.
    + vm_compute. reflexivity.
  - apply stack_chunk.
  - vm_compute. reflexivity.
Qed.

Lemma only_key {V} (m : gmap loc V) l v l' v' : map_to_list m = [(l, v)] -> m !! l' = Some v' -> l' = l.
Proof.
  intros Hm Hl%elem_of_map_to_list. rewrite Hm in Hl. by apply list_elem_of_singleton in Hl as [= -> ->].
Qed.

Lemma notification_reaches_object_witness :
  log (sk_world (immediate_step true 0 silence_notified)) =
    log (sk_world silence_notified) ++
    [(Oobserver 8, Emit "silence" VUndef); (Oobserver 8, Observer "silence" VUndef)].
Proof.
  assert (exists c b, sk_channels silence_notified !! 0 = Some (c, b) /\
    Channel.immediates c = [Channel.mkNotification "observer" (VStr "silence") VUndef]) as (c & b & Hc & Hi).
  { eexists _, _. split; vm_compute; reflexivity. }
  destruct (notification_reaches_object true silence_notified 0 c b _ [] silence_notified_reachable Hc Hi)
    as (_ & _ & Hone & _).
  rewrite (Hone (Oobserver 8)); [vm_compute; reflexivity..|].
  intros [l|l|t|r|v|k] Hy; try discriminate Hy. f_equal. simpl in Hy.
  apply fmap_Some in Hy as (o & Ho & _). eapply only_key; [|exact Ho]. vm_compute. reflexivity.
Defined.
