(* ===== verification/StackPayload.v ===== *)
(** * Payloads, from the socket to the application

    What the application gets of the messages with a payload that the worker
    writes, however the socket cuts them: the framing of Framing.v, the pairs of
    PayloadChannel.v and the listeners of Payloads.v in the system of Stack.v. *)

From S2P Require Import Prelude Js RtpParameters Ortc Framing Requests EventLoop Events TransportState World TransportCalls RouterCalls WorldSpec Closing Lifecycle Delivery Listeners Payloads Session SessionProps Stack StackDelivery.
From S2P Require Channel DataConsumer PayloadChannel.

(** ** Pairs of messages *)

(** A notification with its text and its payload. *)
Definition sent_pair : Type := buffer * PayloadChannel.payload_notification * buffer.

Definition pushed (k : loc) (w : world) (pairs : list sent_pair) : list (obj * effect) :=
  concat (map (fun p => told k w p.1.2 p.2) pairs).

Lemma receive_into_pair `{Channel.JSON} k c w text n payload :
  PayloadChannel.idle c -> PayloadChannel.announces text n -> harmless n ->
  let st := receive_into k (receive_into k (c, w) text) payload in
  PayloadChannel.idle st.1 /\ st.2 = add_log (told k w n payload) w.
Proof.
  intros [Ho Hu] (msg & Hp & Hid & Ht & He & ->) Hn. unfold receive_into at 2. rewrite Hu, Ho.
  unfold PayloadChannel.pc_receive. rewrite Hu. unfold PayloadChannel.processData. rewrite Ho, Hp.
  assert (msg <> VNull /\ msg <> VUndef) as [Hn1 Hn2] by (split; by intros ->).
  destruct msg; try done; rewrite Hid, Ht, He; simpl; rewrite Hu;
    rewrite deliver_payload_told by done; (split; [by split|done]).
Qed.

Lemma receive_into_pairs `{Channel.JSON} k c w (pairs : list sent_pair) :
  PayloadChannel.idle c -> Forall (fun p => PayloadChannel.announces p.1.1 p.1.2 /\ harmless p.1.2) pairs ->
  let st := foldl (receive_into k) (c, w) (concat (map (fun p => [p.1.1; p.2]) pairs)) in
  PayloadChannel.idle st.1 /\ st.2 = add_log (pushed k w pairs) w.
Proof.
  intros Hc Hp.
  enough (forall es c, PayloadChannel.idle c ->
    let st := foldl (receive_into k) (c, add_log es w) (concat (map (fun p : sent_pair => [p.1.1; p.2]) pairs)) in
    PayloadChannel.idle st.1 /\ st.2 = add_log (pushed k w pairs) (add_log es w)) as He
    by (specialize (He [] c Hc); by rewrite add_log_nil in He).
  clear c Hc. induction Hp as [|[[text n] payload] pairs [Ha Hh] _ IH]; intros es c Hc;
    [by rewrite add_log_nil|].
  destruct (receive_into_pair k c (add_log es w) text n payload Hc Ha Hh) as [Hi Hw].
  cbn [map concat app foldl fst snd] in *.
  destruct (receive_into k (receive_into k (c, add_log es w) text) payload) as [c1 w1]. simpl in Hi, Hw. subst w1.
  change (told k (add_log es w) n payload) with (told k w n payload).
  rewrite <-add_log_app. destruct (IH (es ++ told k w n payload) c1 Hi) as [Hi' Hw']. split; [exact Hi'|].
  etransitivity; [exact Hw'|]. unfold pushed. simpl. by rewrite <-!add_log_app, <-app_assoc.
Qed.

(** ** What one object tells *)

Definition tells_of (x : obj) (es : list (obj * effect)) : list (obj * effect) :=
  List.filter (fun y => bool_decide (y.1 = x)) es.

Lemma tells_of_all x es : (forall y e, (y, e) ∈ es -> y = x) -> tells_of x es = es.
Proof.
  intros Hall. unfold tells_of. apply forallb_filter_id, forallb_forall. intros [y e] Hin%list_elem_of_In.
  by apply bool_decide_eq_true, (Hall y e).
Qed.

Lemma tells_of_none x es : (forall y e, (y, e) ∈ es -> y <> x) -> tells_of x es = [].
Proof.
  intros Hno. unfold tells_of. induction es as [|[y e] es IH]; [done|]. simpl.
  rewrite bool_decide_eq_false_2 by (apply (Hno y e); by left). apply IH. intros y' e' Hin. apply (Hno y' e'). by right.
Qed.

(** A message for [id]. *)
Definition message_for (id : string) (p : sent_pair) : bool :=
  String.eqb (PayloadChannel.pn_targetId p.1.2) id &&
  String.eqb (event_name (PayloadChannel.pn_event p.1.2)) "message".

Definition message_event (l : loc) (p : sent_pair) : obj * effect :=
  (Ochild l, Emit "message" (VArr [VStr (String.string_of_list_byte p.2); prop "ppid" (PayloadChannel.pn_data p.1.2)] [])).

Section messages.
Context (k : loc) (w : world) (l : loc) (nd : child_node) (dc : DataConsumer.dataConsumer) (id : string).
Hypothesis Hw : tidy w.
Hypothesis Hl : children w !! l = Some nd.
Hypothesis Hdc : n_child nd = CDataConsumer dc.
Hypothesis Hopen : node_open nd.
Hypothesis Hkey : obj_key (Ochild l) w = Some (k, id).
Hypothesis Halone : forall y, obj_key y w = Some (k, id) -> y = Ochild l.

Lemma told_by_data_consumer n payload :
  harmless n ->
  told_by n payload w (Ochild l) =
    if String.eqb (event_name (PayloadChannel.pn_event n)) "message" then [message_event l ([], n, payload)] else [].
Proof.
  intros Hn. unfold told_by, payload_effects. rewrite Hl. simpl. rewrite Hdc.
  unfold DataConsumer.on_payload_notification. unfold harmless in Hn.
  assert (DataConsumer.closed dc = false) as -> by (unfold node_open in Hopen; by rewrite Hdc in Hopen).
  destruct (String.eqb_spec (event_name (PayloadChannel.pn_event n)) "message") as [He|]; [|done].
  destruct (Hn He) as [H1 H2]. unfold message_event. simpl. by destruct (PayloadChannel.pn_data n).
Qed.

Lemma tells_of_told p :
  harmless p.1.2 -> tells_of (Ochild l) (told k w p.1.2 p.2) = if message_for id p then [message_event l p] else [].
Proof.
  intros Hp. unfold message_for. destruct (String.eqb_spec (PayloadChannel.pn_targetId p.1.2) id) as [Hid|Hne]; simpl.
  - rewrite (told_alone _ _ _ _ (Ochild l)), told_by_data_consumer; rewrite ?Hid; try done.
    + destruct (String.eqb _ "message"); [|done]. apply tells_of_all. by intros y e [= -> ->]%list_elem_of_singleton.
    + simpl. by rewrite Hl.
    + simpl. by rewrite Hl, Hdc.
  - apply tells_of_none. intros y e Hin ->. destruct (told_open _ _ _ _ _ _ Hw Hin) as [Hk _].
    rewrite Hkey in Hk. by injection Hk.
Qed.

Lemma tells_of_pushed pairs :
  Forall (fun p : sent_pair => harmless p.1.2) pairs ->
  tells_of (Ochild l) (pushed k w pairs) = map (message_event l) (List.filter (message_for id) pairs).
Proof.
  unfold tells_of, pushed. induction 1 as [|p pairs Hp _ IH]; [done|]. simpl. rewrite List.filter_app.
  etransitivity; [apply (f_equal2 app); [by apply tells_of_told|exact IH]|]. by destruct (message_for id p).
Qed.
End messages.

(** ** Chunks in the stack *)

Section stack.
Context (le : bool) `{Channel.JSON} `{H264}.

Definition payload_steps (k : loc) (chunks : list buffer) (s : stack) : stack :=
  foldl (fun s d => payload_step le k d s) s chunks.

Lemma payload_steps_eq k chunks s c b :
  sk_payloads s !! k = Some (c, b) ->
  let st := foldl (on_data le (receive_into k)) ((c, sk_world s), b) chunks in
  payload_steps k chunks s = with_payload k (st.1.1, st.2) (with_world st.1.2 s).
Proof.
  intros Hk.
  enough (forall c b w, let st := foldl (on_data le (receive_into k)) ((c, w), b) chunks in
    payload_steps k chunks (with_payload k (c, b) (with_world w s)) =
      with_payload k (st.1.1, st.2) (with_world st.1.2 s)) as He.
  { etransitivity; [|exact (He c b (sk_world s))]. f_equal.
    destruct s as [[w calls] ch wt se r ps]. unfold with_payload, with_world, with_session, sk_world. simpl in *.
    by rewrite insert_id. }
  clear c b Hk. unfold payload_steps. induction chunks as [|d chunks IH]; intros c b w; [done|].
  cbn [foldl]. unfold payload_step at 2. cbn [with_payload sk_payloads]. rewrite lookup_insert_eq.
  unfold sk_world at 1. cbn [with_payload with_world with_session sk_session sn_world].
  destruct (on_data le (receive_into k) (c, w, b) d) as [[c1 w1] b1]. rewrite <-IH. f_equal.
  unfold with_payload, with_world, with_session. simpl. by rewrite insert_insert_eq.
Qed.

(** C36: payloads reach the application: when the worker writes notifications with
    their payloads, then however the socket cuts them into chunks, what the objects
    of the tree tell is the only thing that changes; only open objects of this
    worker with the id of a notification tell anything; and an open data consumer,
    if no other object of the worker has its id, emits exactly the messages for
    it, with their bytes and identifiers, in the order they were written. *)
Theorem payloads_reach_objects s k c (pairs : list sent_pair) chunks C :
  stack_reachable le s -> sk_payloads s !! k = Some (c, []) -> PayloadChannel.idle c ->
  Forall (fun p => PayloadChannel.announces p.1.1 p.1.2 /\ harmless p.1.2) pairs ->
  concat chunks = concat (map (frame le) (concat (map (fun p => [p.1.1; p.2]) pairs))) ->
  Forall (fun b => blen b <= C)%Z chunks ->
  Forall (fun p => blen p.1.1 + 3 + C <= PAYLOAD_MAX_LEN /\ blen p.2 + 3 + C <= PAYLOAD_MAX_LEN)%Z pairs ->
  let w := sk_world s in
  let s' := payload_steps k chunks s in
  exists es, sk_world s' = add_log es w /\ sk_in_flight s' = sk_in_flight s /\
    (exists c', sk_payloads s' !! k = Some (c', []) /\ PayloadChannel.idle c') /\
    (forall x e, (x, e) ∈ es -> exists p, p ∈ pairs /\
       obj_key x w = Some (k, PayloadChannel.pn_targetId p.1.2) /\ obj_closed x w = false) /\
    (forall l nd dc id, children w !! l = Some nd -> n_child nd = CDataConsumer dc -> node_open nd ->
       obj_key (Ochild l) w = Some (k, id) -> (forall y, obj_key y w = Some (k, id) -> y = Ochild l) ->
       tells_of (Ochild l) es = map (message_event l) (List.filter (message_for id) pairs)).
Proof.
  intros Hr Hk Hc Hp Hch HC Hsz w s'.
  assert (tidy w) as Hw by exact (reachable_tidy _ (session_reachable_world _ (stack_session _ _ Hr))).
  assert (s' = let st := foldl (receive_into k) (c, w) (concat (map (fun p => [p.1.1; p.2]) pairs)) in
    with_payload k (st.1, []) (with_world st.2 s)) as Hs'.
  { unfold s'. rewrite (payload_steps_eq _ _ _ _ _ Hk). fold w.
    rewrite (framing_chunks le (receive_into k) (c, w) _ chunks C Hch HC); [done|].
    clear -Hsz. induction Hsz as [|p pairs [? ?] _ IH]; simpl; [constructor|]. by repeat constructor. }
  destruct (receive_into_pairs k c w pairs Hc Hp) as [Hi Hpw].
  exists (pushed k w pairs). rewrite Hs'. cbv zeta. split_and!.
  - exact Hpw.
  - done.
  - eexists. split; [cbn [with_payload sk_payloads]; apply lookup_insert_eq|exact Hi].
  - intros x e Hin%list_elem_of_In%in_concat. destruct Hin as (es & Hes & Hx).
    apply in_map_iff in Hes as (p & <- & Hpin). exists p. split; [by apply list_elem_of_In|].
    eapply told_open; [done|by apply list_elem_of_In].
  - intros l nd dc id Hl Hdc Ho Hkey Halone. eapply tells_of_pushed; try done.
    eapply Forall_impl; [exact Hp|]. by intros p [_ ?].
Qed.
End stack.

(** ** An example: a DirectTransport with a data producer and a consumer of it *)

#[local] Existing Instance example_h264.

Definition data_response (id : Z) (data : val) : val := VObj [("id", VNum id); ("accepted", VBool true); ("data", data)].
Definition direct_data : val :=
  VObj [("type", VStr "direct"); ("label", VStr ""); ("protocol", VStr ""); ("dataProducerId", VStr "dp")].
Definition text_announcement (ppid : Z) : val :=
  VObj [("targetId", VStr "dc"); ("event", VStr "message"); ("data", VObj [("ppid", VNum ppid)])].

#[local] Instance direct_json : Channel.JSON := fun payload =>
  match List.find (fun v => bool_decide (Channel.text_of v = payload))
          [data_response 1 VUndef; data_response 2 (VObj []); data_response 3 direct_data; data_response 4 direct_data;
           text_announcement 51; text_announcement 53] with
  | Some v => Ok v
  | None => Err (PlainError "Unexpected token")
  end.

(** A call, its response and the rest of the method. *)
Definition answered (l : loc) (v : val) (c : call) (s : stack) : stack :=
  microtask l (feed true 0 (chunk_of v) (call_step true c (None, None) s)).

Definition direct_worker : stack := Eval vm_compute in worker_started 0 new_stack.
Definition direct_router : stack := Eval vm_compute in
  answered 0 (data_response 1 VUndef) (CcreateRouter 0 (VObj []) "router") direct_worker.
Definition direct_transport : stack := Eval vm_compute in
  answered 0 (data_response 2 (VObj [])) (CcreateDirectTransport 0 (VObj []) "transport") direct_router.
Definition direct_producer : stack := Eval vm_compute in
  answered 0 (data_response 3 direct_data) (CproduceData 0 (VObj []) "dp") direct_transport.
Definition direct_consumer : stack := Eval vm_compute in
  answered 1 (data_response 4 direct_data) (CconsumeData 0 (VObj [("dataProducerId", VStr "dp")]) "dc") direct_producer.

Lemma answered_reachable l v c s s' kp data rest n q calls w :
  stack_reachable true s -> call_ok c -> exists_obj (callee c) (sk_world s) ->
  let s1 := feed true 0 (chunk_of v) (call_step true c (None, None) s) in
  sk_settled s1 = (kp, Resolved data) :: rest -> (n, kp) ∈ sk_waits s1 ->
  resume_call n (sn_calls (sk_session s1)) = Some (q, calls) -> finish l q data (sk_world s1) = Ok w ->
  accepted l q (sk_world s1) -> resumed n w calls rest s1 = s' -> stack_reachable true s'.
Proof.
  intros Hs Hc Hx s1 Hset Hin Hres Hf Ha <-.
  eapply stack_next; [|eapply stack_resume; [exact Hset|exact Hin|exact Hres|by eapply continues_ok]].
  eapply stack_next; [|apply stack_chunk]. eapply stack_next; [exact Hs|by apply stack_call].
Qed.

Ltac answered_tac :=
  [> exact I|eexists; vm_compute; reflexivity|vm_compute; reflexivity|vm_compute; by left|vm_compute; reflexivity|
     vm_compute; reflexivity| |vm_compute; reflexivity].

Lemma direct_consumer_reachable : stack_reachable true direct_consumer.
Proof.
  assert (stack_reachable true direct_router) as H1.
  { eapply (answered_reachable 0 (data_response 1 VUndef) (CcreateRouter 0 (VObj []) "router") direct_worker).
    { eapply (stack_next true new_stack); [constructor|]. apply (stack_start true 0); reflexivity. }
    all: answered_tac. split; [reflexivity|]. eexists. split; vm_compute; reflexivity. }
  assert (stack_reachable true direct_transport) as H2.
  { eapply (answered_reachable 0 (data_response 2 (VObj [])) (CcreateDirectTransport 0 (VObj []) "transport") direct_router);
      [exact H1|..].
    all: answered_tac. split; [vm_compute; reflexivity|]. split; [intros t tr Ht; discriminate Ht|].
    eexists. split; [vm_compute; reflexivity|]. done. }
  assert (stack_reachable true direct_producer) as H3.
  { eapply (answered_reachable 0 (data_response 3 direct_data) (CproduceData 0 (VObj []) "dp") direct_transport);
      [exact H2|..].
    all: answered_tac. eapply demo_new_child; vm_compute; reflexivity. }
  eapply (answered_reachable 1 (data_response 4 direct_data) (CconsumeData 0 (VObj [("dataProducerId", VStr "dp")]) "dc")
    direct_producer); [exact H3|..].
  all: answered_tac. eapply demo_new_child; vm_compute; reflexivity.
Qed.

Definition direct_pair (ppid : Z) (payload : buffer) : sent_pair :=
  (Channel.text_of (text_announcement ppid),
   PayloadChannel.mkPayloadNotification "dc" (VStr "message") (VObj [("ppid", VNum ppid)]), payload).
Definition direct_pairs : list sent_pair := [direct_pair 51 [x7b; x7d]; direct_pair 53 [x00]].
Definition direct_stream : buffer :=
  Eval vm_compute in concat (map (frame true) (concat (map (fun p : sent_pair => [p.1.1; p.2]) direct_pairs))).

Lemma payloads_reach_objects_witness :
  exists es, log (sk_world (payload_steps true 0 [take 70 direct_stream; drop 70 direct_stream] direct_consumer)) =
      log (sk_world direct_consumer) ++ es /\
    tells_of (Ochild 1) es = map (message_event 1) direct_pairs.
Proof.
  destruct (payloads_reach_objects true direct_consumer 0 PayloadChannel.new_payload_channel direct_pairs
    [take 70 direct_stream; drop 70 direct_stream] 100 direct_consumer_reachable) as (es & Hw & _ & _ & _ & Hone).
  - vm_compute. reflexivity.
  - split; reflexivity.
  - repeat constructor; try discriminate; eexists; vm_compute; repeat split.
  - vm_compute. reflexivity.
  - repeat constructor; vm_compute; discriminate.
  - repeat constructor; vm_compute; discriminate.
  - exists es. split; [by rewrite Hw|].
    rewrite (Hone 1 _ _ "dc" eq_refl eq_refl eq_refl eq_refl); [vm_compute; reflexivity|].
    intros [l|l|t|r|v|k] Hy; try discriminate Hy.
    + f_equal. simpl in Hy. apply fmap_Some in Hy as (n & Hn%elem_of_map_to_list & Hid).
      vm_compute in Hn. repeat (apply list.elem_of_cons in Hn as [[= -> ->]|Hn]; [try discriminate Hid; try reflexivity|]).
      by apply elem_of_nil in Hn.
    + simpl in Hy. apply fmap_Some in Hy as (n & Hn%elem_of_map_to_list & Hid).
      vm_compute in Hn. apply list_elem_of_singleton in Hn as [= -> ->]. discriminate Hid.
Defined.
